(* ===== verification/_CoqProject ===== *)
-Q . S2P
Prelude.v
Js.v
Dates.v
Http.v
Regex.v
Lifecycle.v
Entitlement.v
Db.v
DbApi.v
DbFacts.v
MeshApi.v
DbSystem.v
Nip98.v
Bud11.v
Console.v
ConsoleDashboard.v
World.v
RateLimit.v
Servers.v
Access.v
Proxy.v
ProxyFacts.v
ProxySystem.v
ProxyOutcomes.v
ProxyExamples.v
Format.v
Operator.v
OperatorFacts.v
Profiles.v
AdminApp.v
AdminAppFacts.v
Landing.v
LandingFacts.v
Explorer.v
ExplorerFacts.v
Signer.v
SignerFacts.v
PgAgent.v
PgAgentFacts.v
PgSchemaFacts.v
Notifier.v
NotifierFacts.v
NodeRules.v
NodeDb.v
NodeApi.v
NodePool.v
NodeMirror.v
NodePrune.v
NodeFacts.v
NodeMirrorFacts.v
NodeMedia.v
NodeMediaFacts.v
NodeReports.v
NodeAdmin.v
NodeAdminFacts.v
NodeBridge.v
NodeList.v
NodeSystem.v
NodeServe.v
NodeStorage.v
NodeMigrate.v
NodeDeploy.v
NodeServer.v
NodeRefines.v
NodePruneFacts.v
NodeConfig.v
NodeConfigFacts.v
NodeExamples.v
