(* ===== verification/Prelude.v ===== *)
(** * Verification of the nostr-storage-orchestrator

    The program sells storage for blobs addressed by their sha256. Clients talk
    to a proxy; the proxy keeps accounts and blob records in a database service
    and the bytes on storage nodes; a notifier warns accounts about their plans
    and asks the proxy to purge closed ones. A storage node also has a dashboard
    and a landing page, and a second kind of node keeps rows of a shared
    PostgreSQL database, which operators look into through an explorer. Users sign
    in with a browser extension and a console.
    This library models the TypeScript of these programs as executable functions
    and proves what makes them correct. Paths below are under src/.

    ** The parts and where they are modelled

    - Plans. [Lifecycle] is packages/lifecycle (state.ts, load.ts):
      [deriveAccess] computes an account's state from its dates and
      configuration. [Entitlement] is packages/db/src/entitlement.ts: the parser
      of grant requests and [computeEntitlement].
    - db-api, packages/db/src. [Db] has the tables of schema.prisma as a record
      of lists, the Prisma statements with the errors of the constraints, and
      serialize.ts. [DbApi] has the handlers of index.ts and of routes/users,
      admin, notifications, moderation and service-accounts; [MeshApi] those of
      routes/members and storages. [DbFacts] and [DbSystem] prove the accounting
      of the tables under any sequence of operations.
    - Authentication. [Nip98] is packages/nip98 with the service gate of
      internal-auth.ts; [Bud11] is proxy/blossom/src/nostr.ts.
    - The proxy, proxy/blossom/src. [World] is the state its handlers run
      against: db-api's tables, each node as the set of hashes it holds, the
      process state (replay cache, access cache, registry, rate limits, bytes in
      flight) and the faults of the coming remote calls. [RateLimit], [Servers]
      and [Access] are rate-limit.ts, servers.ts and access.ts with
      admin-auth.ts; [Proxy] has every API route of index.ts. [ProxyFacts],
      [ProxySystem], [ProxyOutcomes] and [ProxyExamples] hold the theorems, the
      witnesses and two runs in which rows and bytes come apart.
    - The notifier, packages/notifier/src: [Notifier] is scheduler.ts,
      notifications.ts, dm.ts and email.ts; [NotifierFacts] its theorems.
    - A storage node, storage-client/blossom/src. [NodeRules] is prune/rules.ts;
      [NodeDb] the SQLite tables of db/migrations and db/blobs.ts; [NodeApi]
      middleware/auth.ts, storage/local.ts, the worker's job, and the routes for
      uploading, reading, deleting and listing; [NodePool] workers/pool.ts;
      [NodeMirror] routes/mirror.ts; [NodeReports] routes/report.ts with
      db/reports.ts; [NodePrune] prune/prune.ts. A handler is a computation of
      the monad [D] over tables, files, temporary files and the faults of the
      coming database statements. [NodeSystem] composes them behind the
      authorization middleware and the error handler. [NodeMedia] is
      routes/media.ts with optimize/, [NodeAdmin] the dashboard (the listing
      queries of db/blobs.ts and db/reports.ts, routes/admin-router.tsx and what
      the pages of admin/ ask for), [NodeBridge] the calls between isolates
      (db/bridge.ts, proxy.ts, direct.ts), [NodeStorage] the class of
      storage/interface.ts with the two adapters local.ts and s3.ts as
      instances, [NodeMigrate] db/legacy-migration.ts. [NodeMediaFacts] and
      [NodeAdminFacts] hold the theorems of the first two, [NodeServer] puts the
      dashboard beside the other routes as server.ts does. [NodeConfig] has the
      schemas of config/schema.ts, config/loader.ts and the startup of main.ts,
      which decides from the result and makes calls that may throw;
      [NodeConfigFacts] its theorems.
    - The landing page of a node, landing/client. [Landing] has the upload and
      the mirror form as state machines over the page's queue: hashing, signing
      in batches, preflight, retries (UploadForm.tsx, MirrorForm.tsx, helpers.ts,
      api.ts, auth.ts); [LandingFacts] their theorems.
    - pg-agent, storage-client/pg-agent. [PgAgent] has the routes of apply.ts,
      schema.ts, query.ts and health.ts behind the token check of main.ts, over
      the agent's own tables and an abstract application database; its regular
      expressions run in [Regex]. [PgAgentFacts] and [PgSchemaFacts] hold the
      theorems. [Explorer] is pg-explorer/proxy.mjs, the sign-in and read-only
      guard in front of pgweb; [ExplorerFacts] its theorems.
    - Clients. [Signer] is packages/browser-signer/src: key custody, allow list
      and the worker's messages as tasks that interleave at every storage access,
      the relay and the page's side; [SignerFacts] its theorems. [Console] is
      packages/console/src: nostr.ts, api.ts and the state of pages/Pricing.tsx;
      [ConsoleDashboard] the account page, pages/Dashboard.tsx, with its calls and
      answers under way.
    - The operator's client, admin-app/src. [Operator] is hooks/useSession.ts with
      the worker that holds the key (platform/worker.ts) and the messages between
      them (platform/web.ts): a handler stops at each [await] and others run in
      between. [OperatorFacts] has its theorem, [Profiles] is
      hooks/useProfiles.ts, [Format] lib/storageFormat.ts. [AdminApp] connects
      them as App.tsx and components/ProfileDialog.tsx do; [AdminAppFacts] has
      its theorem.
    - Shared: [Prelude] (results, lists), [Js] (numbers, strings, conversions of
      JavaScript), [Dates] (ISO dates), [Http] (replies, pagination), [Regex]
      (matching and replacing by backtracking, as JavaScript does).

    ** What is proved

    - Accounting: recorded usage is the sum of the rows, quotas are kept, a
      payment is applied once, open sign-ups are covered by free space
      ([DbSystem], [DbFacts], [MeshApi]); a paid grant adds its days and the
      parser accepts only sound requests ([Entitlement]); the derived state
      is that of consecutive windows after the expiry ([Lifecycle], which says
      where the plan document differs).
    - Authentication: what the gates let through was signed, current, for this
      request and not replayed, and such a token is let through; the signer's
      output is accepted, a null body apart ([Nip98], [Bud11]).
    - Rows and bytes: whatever calls fail, every blob row of the proxy keeps its
      bytes on its replicas unless an answer is lost during an upload
      ([ProxySystem.rows_have_bytes]); acknowledged uploads are stored, visible
      blobs are served, purges finish and touch nobody else ([ProxyOutcomes]);
      memory and rate budgets are exact.
    - The notifier sends nothing twice, looks at every account, and announces
      exactly what is due ([NotifierFacts]).
    - The node: whatever its routes and its dashboard are asked, rows keep files
      whose bytes hash to their key ([NodeServer.server_rows_have_files]); a download returns exactly the bytes
      or the range asked for ([NodeServe]); on a node configured as
      storage-client/blossom/config.yml an acknowledged upload stays until it is
      deleted ([NodeDeploy]); a prune cycle removes exactly the rows and
      files that rules and ownership say ([NodePruneFacts]); the worker pool keeps its books
      ([NodePool]); a mirrored blob was authorised by its hash, and the address
      guard is exactly the networks it names ([NodeMirrorFacts]); following the
      cursor lists everything once ([NodeList]); reports are idempotent
      ([NodeReports]). An acknowledged media upload is stored and found again
      ([NodeMediaFacts]); the dashboard's pages show every row once and its
      actions keep rows and files together ([NodeAdminFacts]).
    - Interfaces of the node: both storage adapters keep the laws of
      [NodeStorage.storage_laws] while nothing fails, and on a store that fails
      at any call the S3 adapter keeps what it acknowledged
      ([NodeStorage.s3_run_safe]); a worker's calls through the bridge are, one
      after the other, calls on the database ([NodeBridge.bridge_refines_direct]);
      the legacy migration never loses the old database and imports all of it
      when nothing fails ([NodeMigrate]). Whatever the configuration file holds,
      a node that gets past loading it has settings of the right type, within
      their bounds; it starts when the calls of its startup succeed, with a pool
      that takes an upload ([NodeConfigFacts.loaded_config_runs]); the deprecated settings have the
      effect stated in [NodeConfigFacts.deprecated_settings].
    - pg-agent: a batch delivered any number of times, under any faults, is
      applied once; an acknowledged schema push is recorded and its version is
      the stored one; bytes survive the trip through text; without the token
      only the health check answers ([PgAgentFacts], [PgSchemaFacts]). Nothing
      passes the explorer without a session that a permitted key has opened
      ([ExplorerFacts.explorer_gate]); its guard reads POST requests only, and
      what it lets through is in [ExplorerFacts.ExplorerRuns].
    - Clients: an origin that is never on the allow list gets nothing signed, and
      a key in memory has a timer ([SignerFacts]); a click on "Upload" settles
      every file, and what is sent goes out under a token for it
      ([LandingFacts]); the tokens of the console are accepted by the proxy's
      verifier, its signed requests once ([Console]), and its account page ends up
      with what the server has, while requests do not overtake each other
      ([ConsoleDashboard]). The operator's session never mixes two hosts and holds
      nothing when locked, whatever arrives late, the invite apart
      ([OperatorFacts.client_isolated]); a reload shows the profiles that pass the
      check for profiles ([Profiles]); the page keeps no credential it has not opened
      ([AdminAppFacts.profiles_vouched]); amounts are read back as they were shown
      ([Format]).
    - The two halves meet in [NodeRefines]: each request the proxy sends to a
      deployed node is, on the keys of the node's table, the abstract call on
      the set of hashes in [World] with some fault, and the faultless one when
      the node is in working order.
    - Runs that show a defect or the need for a hypothesis are closed theorems:
      [ProxyExamples], [NodeExamples], [SignerFacts.SignerRuns],
      [NodeMigrate.MigrateExamples], [Console.ConsoleExamples],
      [OperatorFacts.OperatorRuns], [ExplorerFacts.ExplorerRuns],
      [ConsoleDashboard.DashRuns], and [PgSchemaFacts.schema_version_stale].

    ** Modelling decisions

    - Strings are byte strings; request bodies have their declared field types
      where the code does not check them; a Date is its time value, an IEEE
      number a rational, NaN or an infinity, rounded where the code rounds.
    - A handler runs at one instant and handlers run one after the other; the
      interleavings that matter are separate theorems (the upload/deletion race,
      the events of the worker pool, the in-flight budget).
    - A remote call of the proxy or the notifier meets a scripted fault: not
      sent, refused, or answered with the answer lost. A database statement of a
      node may fail before it changes anything. A transaction or batch is all or
      nothing; foreign keys are enforced, as db/client.ts asks for.
    - Signatures, hashes, base64, JSON, URL and date parsing beyond ISO, media
      types and image dimensions are third-party or runtime code: fields of the
      classes [Nostr], [NodeLib], [ReportLib] and [DateEngine], with the few laws
      that are used ([NostrLaws], [NodeLaws], [ReportLaws]) and
      concrete instances for the witnesses. That no two byte strings in play
      share a digest is a hypothesis where it is needed. So are the external
      programs and services: PostgreSQL ([PgServer]), the image and video tools
      ([MediaLib]), the object store ([S3Client] with [S3Laws]), key encryption
      ([SignerLib]), what the node and the extension answer the landing page
      ([Site]), the parsing of web addresses ([UrlLib]), the Rust library in the
      operator's worker with its host ([AdminCore]), JSON ([JsonText]), YAML
      ([Yaml]) and the schema library zod ([Zod] with [ZodLaws], which say what it
      does with each constructor of a schema).
    - A statement or commit of pg-agent may fail, and the answer to a request may
      be lost after it took effect; a statement of the migration may fail, and
      the process may then be started again.
    - What the worker pool answers an upload and what an origin answers a mirror
      are part of the request. Numbers in the node's error messages are left out.
    - Fuel: a purge runs one pass per row and one more, a notifier pass one page
      per hundred accounts and one more, paging through a listing one page per
      blob and one more; the theorems say that this is enough. The upload loop of
      [Servers] recurses on its candidates, a retried upload of [Landing] on the
      attempts that are left (four in all), and a match of [Regex] on the text
      that is left, which an iteration has to shorten.

    ** What is not modelled

    Markup of the console, the landing page, the dashboard, the extension's popup
    and the admin-app, and the components of these that only show what they are
    given or hand a click on; packages/browser-signer/extension, which is built
    from the sources that are modelled; the smoke tests, which drive a running
    stack, and the Rust services and library, which are in another language;
    request logs, CORS headers, static files, listening sockets and signal
    handlers; the timers of notices; the sends of the proxy's notifyModeration,
    whose log entries are modelled and whose failures are ignored; the console's
    signer.tsx, which keeps the result of [connectSigner] for the pages. *)

From stdpp Require Export base gmap strings list sorting.
From Stdlib Require Export ZArith Lia.

#[global] Open Scope string_scope.
#[global] Open Scope list_scope.
#[global] Open Scope Z_scope.

Declare Scope exc_scope.
Delimit Scope exc_scope with exc.

(** ** Results: a value or a thrown error *)

Inductive exc (E A : Type) :=
| Ok (a : A)
| Throw (e : E).
Arguments Ok {E A} a.
Arguments Throw {E A} e.

Definition exc_bind {E A B} (m : exc E A) (k : A -> exc E B) : exc E B :=
  match m with Ok a => k a | Throw e => Throw e end.

(** [if c then throw e], followed by the rest of the function. *)
Definition guard_throw {E B} (c : bool) (e : E) (k : exc E B) : exc E B :=
  if c then Throw e else k.

Notation "'let!' x := m 'in' k" := (exc_bind m (fun x => k))
  (at level 10, x pattern, m at level 100, k at level 200) : exc_scope.
Notation "'throw_if' c 'with' e 'then' k" := (guard_throw c e k)
  (at level 10, c at level 100, e at level 100, k at level 200) : exc_scope.

Definition is_ok {E A} (r : exc E A) : bool :=
  match r with Ok _ => true | Throw _ => false end.

(** ** Tactics *)

(** Split every [if] and [match] of the goal (or of a hypothesis) whose
    scrutinee is not itself a match. *)
Ltac split_ifs :=
  repeat match goal with
  | |- context [if ?c then _ else _] =>
      lazymatch c with
      | context [if _ then _ else _] => fail
      | context [match _ with _ => _ end] => fail
      | _ => destruct c eqn:?
      end
  end.

Ltac split_ifs_in H :=
  repeat match type of H with
  | context [if ?c then _ else _] =>
      lazymatch c with
      | context [if _ then _ else _] => fail
      | context [match _ with _ => _ end] => fail
      | _ => destruct c eqn:?
      end
  end.

(** Turn boolean comparisons in the context into propositions for [lia]. *)
Ltac zbool :=
  repeat match goal with
  | H : (_ && _)%bool = true |- _ => apply andb_true_iff in H; destruct H
  | H : (_ || _)%bool = false |- _ => apply orb_false_iff in H; destruct H
  | H : negb _ = true |- _ => apply negb_true_iff in H
  | H : negb _ = false |- _ => apply negb_false_iff in H
  | H : (_ <? _) = true |- _ => apply Z.ltb_lt in H
  | H : (_ <? _) = false |- _ => apply Z.ltb_ge in H
  | H : (_ <=? _) = true |- _ => apply Z.leb_le in H
  | H : (_ <=? _) = false |- _ => apply Z.leb_gt in H
  | H : (_ =? _) = true |- _ => apply Z.eqb_eq in H
  | H : (_ =? _) = false |- _ => apply Z.eqb_neq in H
  | H : bool_decide _ = true |- _ => apply bool_decide_eq_true in H
  | H : bool_decide _ = false |- _ => apply bool_decide_eq_false in H
  end.

(** [lia] on goals with division and remainder by constants. *)
Ltac dlia := Z.to_euclidean_division_equations; lia.

Create HintDb orch discriminated.
Create Rewrite HintDb orch.

(** ** Inversion of results *)

Lemma exc_bind_Ok {E A B} (m : exc E A) (k : A -> exc E B) b :
  exc_bind m k = Ok b -> exists a, m = Ok a /\ k a = Ok b.
Proof. destruct m; simpl; [eauto | discriminate]. Qed.

Lemma guard_throw_Ok {E B} c (e : E) (k : exc E B) b :
  guard_throw c e k = Ok b -> c = false /\ k = Ok b.
Proof. by destruct c. Qed.

Lemma guard_throw_true {E B} (e : E) (k : exc E B) : guard_throw true e k = Throw e.
Proof. reflexivity. Qed.

(** Peel one layer of a successful computation. *)
Ltac exc_inv H :=
  repeat match type of H with
  | exc_bind _ _ = Ok _ =>
      let a := fresh "v" in let Ha := fresh "Hv" in
      apply exc_bind_Ok in H as (a & Ha & H)
  | guard_throw _ _ _ = Ok _ =>
      let Hg := fresh "Hg" in apply guard_throw_Ok in H as [Hg H]
  end.

(** ** Sums over lists *)

Definition sumZ {A} (f : A -> Z) (l : list A) : Z := foldr (fun a s => f a + s) 0 l.

Lemma sumZ_nil {A} (f : A -> Z) : sumZ f [] = 0.
Proof. reflexivity. Qed.

Lemma sumZ_cons {A} (f : A -> Z) a l : sumZ f (a :: l) = f a + sumZ f l.
Proof. reflexivity. Qed.

Lemma sumZ_app {A} (f : A -> Z) l1 l2 : sumZ f (l1 ++ l2) = sumZ f l1 + sumZ f l2.
Proof. induction l1 as [|a l1 IH]; simpl; [done | unfold sumZ in *; simpl; lia]. Qed.

Lemma sumZ_perm {A} (f : A -> Z) l1 l2 : l1 ≡ₚ l2 -> sumZ f l1 = sumZ f l2.
Proof. unfold sumZ; induction 1; simpl; lia. Qed.

Lemma sumZ_nonneg {A} (f : A -> Z) l : Forall (fun a => 0 <= f a) l -> 0 <= sumZ f l.
Proof. unfold sumZ; induction 1; simpl; lia. Qed.

Lemma sumZ_ext {A} (f g : A -> Z) l : (forall a, a ∈ l -> f a = g a) -> sumZ f l = sumZ g l.
Proof.
  induction l as [|a l IH]; intros H; [done|].
  rewrite !sumZ_cons, IH, (H a) by set_solver. done.
Qed.

(** Splitting a sum by a predicate. *)
Lemma sumZ_filter_split {A} (P : A -> Prop) `{forall a, Decision (P a)} (f : A -> Z) l :
  sumZ f l = sumZ f (filter P l) + sumZ f (filter (fun a => ~ P a) l).
Proof.
  induction l as [|a l IH]; [done|].
  rewrite !filter_cons, sumZ_cons, IH. repeat case_decide; try tauto; rewrite ?sumZ_cons; lia.
Qed.

#[export] Hint Rewrite @sumZ_nil @sumZ_cons @sumZ_app : orch.

(** ** Lists with unique keys *)

Lemma NoDup_fmap_filter {A B} (g : A -> B) (P : A -> Prop) `{forall a, Decision (P a)} (l : list A) :
  NoDup (g <$> l) -> NoDup (g <$> filter P l).
Proof.
  induction l as [|a l IH]; [done|].
  rewrite filter_cons, fmap_cons, NoDup_cons. intros [Ha Hl].
  case_decide; [|auto]. rewrite fmap_cons, NoDup_cons. split; [|auto].
  intros Hin. apply Ha. apply list_elem_of_fmap in Hin as (b & -> & Hb).
  apply list_elem_of_filter in Hb as [_ Hb]. by apply list_elem_of_fmap_2.
Qed.

Lemma filter_none {A} (P : A -> Prop) `{forall a, Decision (P a)} (l : list A) :
  (forall a, a ∈ l -> ~ P a) -> filter P l = [].
Proof.
  induction l as [|a l IH]; intros H'; [done|].
  rewrite filter_cons, decide_False by (apply H'; set_solver). apply IH. set_solver.
Qed.

Lemma filter_all {A} (P : A -> Prop) `{forall a, Decision (P a)} (l : list A) :
  (forall a, a ∈ l -> P a) -> filter P l = l.
Proof.
  induction l as [|a l IH]; intros H'; [done|].
  rewrite filter_cons, decide_True by (apply H'; set_solver). f_equal. apply IH. set_solver.
Qed.

Lemma filter_ext_in {A} (P Q : A -> Prop) `{forall a, Decision (P a), forall a, Decision (Q a)} (l : list A) :
  (forall a, a ∈ l -> P a <-> Q a) -> filter P l = filter Q l.
Proof.
  induction l as [|a l IH]; intros H'; [done|].
  rewrite !filter_cons, IH by set_solver.
  destruct (H' a ltac:(set_solver)). repeat case_decide; tauto.
Qed.

(** In a list with unique keys, filtering by one key keeps at most one row. *)
Lemma filter_key_unique {A B} (g : A -> B) (l : list A) a `{!forall b, Decision (g b = g a)} :
  NoDup (g <$> l) -> a ∈ l -> filter (fun b => g b = g a) l = [a].
Proof.
  induction l as [|c l IH]; intros Hnd Hin; [by apply elem_of_nil in Hin|].
  rewrite fmap_cons, NoDup_cons in Hnd. destruct Hnd as [Hc Hl].
  rewrite filter_cons. apply elem_of_cons in Hin as [->|Hin].
  - rewrite decide_True by done. f_equal.
    apply filter_none. intros b Hb Heq.
    apply Hc. rewrite <- Heq. by apply list_elem_of_fmap_2.
  - case_decide as Heq; [|auto]. exfalso. apply Hc. rewrite Heq. by apply list_elem_of_fmap_2.
Qed.

(** ** Bounded search in a list ([Array.prototype.find]) *)

Fixpoint find_first {A} (p : A -> bool) (l : list A) : option A :=
  match l with
  | [] => None
  | a :: l => if p a then Some a else find_first p l
  end.

Lemma find_first_Some {A} (p : A -> bool) l a :
  find_first p l = Some a -> a ∈ l /\ p a = true.
Proof.
  induction l as [|b l IH]; simpl; [done|].
  destruct (p b) eqn:E; intros H; [simplify_eq; set_solver|].
  destruct (IH H). set_solver.
Qed.

Lemma find_first_None {A} (p : A -> bool) l :
  find_first p l = None <-> forall a, a ∈ l -> p a = false.
Proof.
  induction l as [|b l IH]; simpl; [set_solver|].
  destruct (p b) eqn:E; split; intros H; [done| |..].
  - rewrite (H b) in E by set_solver. done.
  - intros a [->|Ha]%elem_of_cons; [done | by apply IH].
  - apply IH. intros a Ha. apply H. set_solver.
Qed.
