(* ===== verification/Js.v ===== *)
(** * The JavaScript values and conversions the sources use

    - [num]: an IEEE-754 number (NaN, the infinities, a finite rational);
      [double_of] rounds to the nearest double, ties to even;
    - [jsval]: the value of an [unknown] (a parsed JSON or YAML document);
    - [BigInt(x)], [Number(s)], [parseInt(s, 10)], [String(z)],
      [trim], [toLowerCase] and the few regular expressions of the sources.

    Strings are byte strings (the UTF-8 bytes of the JavaScript string).  The
    strings the program classifies (hex hashes, bech32 keys, header values,
    ISO dates) are ASCII; for those, bytes and UTF-16 code units coincide. *)

From Stdlib Require Import QArith Qround Ascii.
From S2P Require Import Prelude.
Open Scope string_scope.
Open Scope list_scope.
Open Scope Z_scope.

(** ** Characters and strings *)

Definition code (c : ascii) : Z := Z.of_N (N_of_ascii c).

Definition is_digit (c : ascii) : bool := (48 <=? code c) && (code c <=? 57).
Definition digit_val (c : ascii) : Z := code c - 48.
Definition digit_char (d : Z) : ascii := ascii_of_N (Z.to_N (48 + d)).
Definition is_upper (c : ascii) : bool := (65 <=? code c) && (code c <=? 90).
Definition is_lower (c : ascii) : bool := (97 <=? code c) && (code c <=? 122).
(** [\w] of a regular expression. *)
Definition is_word (c : ascii) : bool :=
  is_digit c || is_upper c || is_lower c || (code c =? 95).
(** [\s] of a regular expression, the ASCII part. *)
Definition is_space (c : ascii) : bool := ((9 <=? code c) && (code c <=? 13)) || (code c =? 32).
(** [[0-9a-f]] *)
Definition is_hex_lower (c : ascii) : bool := is_digit c || ((97 <=? code c) && (code c <=? 102)).
(** [[0-9a-fA-F]] *)
Definition is_hex (c : ascii) : bool := is_hex_lower c || ((65 <=? code c) && (code c <=? 70)).

Definition lower_char (c : ascii) : ascii :=
  if is_upper c then ascii_of_N (Z.to_N (code c + 32)) else c.
Definition upper_char (c : ascii) : ascii :=
  if is_lower c then ascii_of_N (Z.to_N (code c - 32)) else c.

Fixpoint smap (f : ascii -> ascii) (s : string) : string :=
  match s with "" => "" | String c s => String (f c) (smap f s) end.
Fixpoint sall (p : ascii -> bool) (s : string) : bool :=
  match s with "" => true | String c s => p c && sall p s end.
Fixpoint sany (p : ascii -> bool) (s : string) : bool :=
  match s with "" => false | String c s => p c || sany p s end.

Definition toLowerCase : string -> string := smap lower_char.
Definition toUpperCase : string -> string := smap upper_char.

Fixpoint span (p : ascii -> bool) (s : string) : string * string :=
  match s with
  | "" => ("", "")
  | String c s' => if p c then let (a, b) := span p s' in (String c a, b) else ("", s)
  end.

Definition trim_left (s : string) : string := snd (span is_space s).
(** Drop the longest suffix of characters satisfying [p]. *)
Fixpoint strip_right (p : ascii -> bool) (s : string) : string :=
  match s with
  | "" => ""
  | String c s' =>
      match strip_right p s' with
      | "" => if p c then "" else String c ""
      | t => String c t
      end
  end.
Definition trim (s : string) : string := strip_right is_space (trim_left s).

Definition is_slash (c : ascii) : bool := code c =? 47.
(** [s.replace(/\/+$/, "")] *)
Definition strip_slashes : string -> string := strip_right is_slash.
(** [s.replace(/\/$/, "")]: at most one trailing slash. *)
Fixpoint strip_slash (s : string) : string :=
  match s with
  | "" => ""
  | String c "" => if is_slash c then "" else String c ""
  | String c s' => String c (strip_slash s')
  end.

Definition starts_with (pre s : string) : bool := String.prefix pre s.

(** [s.includes(t)] for strings. *)
Fixpoint contains (t s : string) : bool :=
  String.prefix t s || match s with "" => false | String _ s' => contains t s' end.

(** [s.split(",")] and the like, on a one-character separator. *)
Fixpoint split_on (sep : ascii) (s : string) : list string :=
  match s with
  | "" => [""]
  | String c s' =>
      if Ascii.eqb c sep then "" :: split_on sep s'
      else match split_on sep s' with
           | [] => [String c ""]
           | w :: ws => String c w :: ws
           end
  end.

(** [/^[0-9a-f]{64}$/] *)
Definition is_hex64 (s : string) : bool := (String.length s =? 64)%nat && sall is_hex_lower s.
(** [/^[0-9a-f]{64}$/i] *)
Definition is_hex64_i (s : string) : bool := (String.length s =? 64)%nat && sall is_hex s.
(** [/^\d+$/] *)
Definition all_digits (s : string) : bool := negb (String.eqb s "") && sall is_digit s.

(** ** Decimal digits *)

Fixpoint dec_acc (s : string) (a : Z) : Z :=
  match s with "" => a | String c s' => dec_acc s' (10 * a + digit_val c) end.
Definition dec_value (s : string) : Z := dec_acc s 0.

Fixpoint show_digits (fuel : nat) (n : Z) (acc : string) : string :=
  match fuel with
  | O => acc
  | S f =>
      let acc' := String (digit_char (n mod 10)) acc in
      if n / 10 =? 0 then acc' else show_digits f (n / 10) acc'
  end.

Definition show_nonneg (n : Z) : string := show_digits (S (Z.to_nat (Z.log2 n))) n "".

(** [z.toString()] of a bigint, [String(z)] of a safe integer. *)
Definition Z_to_string (z : Z) : string :=
  if z <? 0 then "-" +:+ show_nonneg (- z) else show_nonneg z.

(** ** Numbers *)

Inductive num :=
| NaN
| PInf
| NInf
| Fin (q : Q).

Definition num_Z (z : Z) : num := Fin (inject_Z z).

(** [Number.isInteger], with the integer. *)
Definition num_int (n : num) : option Z :=
  match n with
  | Fin q => if Qnum q mod QDen q =? 0 then Some (Qnum q / QDen q) else None
  | _ => None
  end.
Definition is_finite (n : num) : bool := match n with Fin _ => true | _ => false end.

(** [n > z], [n <= z] and so on against an integer; every comparison with
    NaN is false. *)
Definition num_gt (n : num) (z : Z) : bool :=
  match n with Fin q => z * QDen q <? Qnum q | PInf => true | _ => false end.
Definition num_lt (n : num) (z : Z) : bool :=
  match n with Fin q => Qnum q <? z * QDen q | NInf => true | _ => false end.
Definition num_le (n : num) (z : Z) : bool :=
  match n with Fin q => Qnum q <=? z * QDen q | NInf => true | _ => false end.
Definition num_ge (n : num) (z : Z) : bool :=
  match n with Fin q => z * QDen q <=? Qnum q | PInf => true | _ => false end.
Definition num_eqZ (n : num) (z : Z) : bool :=
  match n with Fin q => Qnum q =? z * QDen q | _ => false end.

Definition MAX_SAFE_INTEGER : Z := 2 ^ 53 - 1.
(** [Number.isSafeInteger], with the integer. *)
Definition num_safe_int (n : num) : option Z :=
  match num_int n with
  | Some z => if Z.abs z <=? MAX_SAFE_INTEGER then Some z else None
  | None => None
  end.

(** [Math.floor] *)
Definition num_floor (n : num) : num :=
  match n with Fin q => num_Z (Qnum q / QDen q) | _ => n end.

Definition round_half_even (a b : Z) : Z :=
  let q := a / b in
  let r := 2 * (a - q * b) in
  if r <? b then q else if b <? r then q + 1 else if Z.even q then q else q + 1.

(** The double nearest to [a / b], for [a >= 0] and [b > 0]. *)
Definition double_pos (a b : Z) : num :=
  if a =? 0 then num_Z 0 else
  let e := Z.log2 a - Z.log2 b in
  let lt := a * 2 ^ Z.max 0 (- e) <? b * 2 ^ Z.max 0 e in
  let fl := if lt then e - 1 else e in
  let k := Z.max (fl - 52) (-1074) in
  let m := round_half_even (a * 2 ^ Z.max 0 (- k)) (b * 2 ^ Z.max 0 k) in
  if 2 ^ 1024 <=? m * 2 ^ Z.max 0 k then PInf
  else Fin (Qmake (m * 2 ^ Z.max 0 k) (Z.to_pos (2 ^ Z.max 0 (- k)))).

Definition num_neg (n : num) : num :=
  match n with NaN => NaN | PInf => NInf | NInf => PInf | Fin q => Fin (Qopp q) end.

Definition double_of (neg : bool) (a b : Z) : num :=
  if neg then num_neg (double_pos a b) else double_pos a b.

(** ** [Number(string)] *)

Definition take_sign (s : string) : bool * string :=
  match s with
  | String c s' =>
      if code c =? 45 then (true, s') else if code c =? 43 then (false, s') else (false, s)
  | _ => (false, s)
  end.

Definition hex_digit_val (c : ascii) : option Z :=
  if is_digit c then Some (code c - 48)
  else if (97 <=? code c) && (code c <=? 102) then Some (code c - 87)
  else if (65 <=? code c) && (code c <=? 70) then Some (code c - 55)
  else None.

Fixpoint radix_acc (r : Z) (s : string) (a : Z) : option Z :=
  match s with
  | "" => Some a
  | String c s' =>
      match hex_digit_val c with
      | Some d => if d <? r then radix_acc r s' (a * r + d) else None
      | None => None
      end
  end.

(** The prefixed forms [0x1f], [0o17], [0b101]. *)
Definition radix_literal (s : string) : option (option Z) :=
  match s with
  | String z (String x rest) =>
      if code z =? 48 then
        let r := code (lower_char x) in
        let go radix := Some (match rest with "" => None | _ => radix_acc radix rest 0 end) in
        if r =? 120 then go 16 else if r =? 111 then go 8 else if r =? 98 then go 2 else None
      else None
  | _ => None
  end.

(** An optional exponent part, up to the end of the string. *)
Definition exponent_part (s : string) : option Z :=
  match s with
  | "" => Some 0
  | String c s' =>
      if code (lower_char c) =? 101 then
        let (neg, ds) := take_sign s' in
        if all_digits ds then Some (if neg then - dec_value ds else dec_value ds) else None
      else None
  end.

Definition decimal_literal (neg : bool) (s : string) : num :=
  let (ip, r1) := span is_digit s in
  let (fp, r2) :=
    match r1 with
    | String c r => if code c =? 46 then span is_digit r else ("", r1)
    | _ => ("", r1)
    end in
  if String.eqb (ip +:+ fp) "" then NaN else
  match exponent_part r2 with
  | None => NaN
  | Some e =>
      let e' := e - Z.of_nat (String.length fp) in
      double_of neg (dec_value (ip +:+ fp) * 10 ^ Z.max 0 e') (10 ^ Z.max 0 (- e'))
  end.

(** [Number(s)] for a string [s]. *)
Definition Number_string (s : string) : num :=
  let t := trim s in
  if String.eqb t "" then num_Z 0 else
  match radix_literal t with
  | Some (Some z) => double_of false z 1
  | Some None => NaN
  | None =>
      let (neg, body) := take_sign t in
      if String.eqb body "Infinity" then (if neg then NInf else PInf)
      else decimal_literal neg body
  end.

(** [Number(s)] for a [string | undefined]. *)
Definition Number_opt (s : option string) : num :=
  match s with Some s => Number_string s | None => NaN end.

(** [parseInt(s, 10)]; [None] is NaN. *)
Definition parseInt10 (s : string) : option Z :=
  let (neg, body) := take_sign (trim_left s) in
  let (ds, _) := span is_digit body in
  if String.eqb ds "" then None else Some (if neg then - dec_value ds else dec_value ds).

(** ** [BigInt] *)

(** [BigInt(s)] for a string; [None] is a SyntaxError. *)
Definition BigInt_string (s : string) : option Z :=
  let t := trim s in
  if String.eqb t "" then Some 0 else
  match radix_literal t with
  | Some r => r
  | None =>
      let (neg, ds) := take_sign t in
      if all_digits ds then Some (if neg then - dec_value ds else dec_value ds) else None
  end.

(** ** Values *)

Inductive jsval :=
| JUndefined
| JNull
| JBool (b : bool)
| JNum (n : num)
| JStr (s : string)
| JArr (l : list jsval)
| JObj (l : list (string * jsval)).

(** [JSON], the runtime's. *)
Class JsonText := {
  json_parse : string -> option jsval;     (* [None] when it throws *)
  json_stringify : jsval -> string
}.

(** Property read on an object. *)
Fixpoint assoc (k : string) (l : list (string * jsval)) : jsval :=
  match l with
  | [] => JUndefined
  | (k', v) :: l' => if String.eqb k k' then v else assoc k l'
  end.
Definition jget (v : jsval) (k : string) : jsval :=
  match v with JObj l => assoc k l | _ => JUndefined end.

(** [value === undefined || value === null] *)
Definition nullish (v : jsval) : bool :=
  match v with JUndefined | JNull => true | _ => false end.
Definition is_undefined (v : jsval) : bool :=
  match v with JUndefined => true | _ => false end.

(** [BigInt(x)] for a number or a boolean or a string; an array goes through
    [ToPrimitive], i.e. its elements joined with commas. [None] is a thrown
    TypeError, RangeError or SyntaxError. *)
Fixpoint BigInt (v : jsval) : option Z :=
  match v with
  | JUndefined | JNull => None
  | JBool b => Some (if b then 1 else 0)
  | JNum n => num_int n
  | JStr s => BigInt_string s
  | JArr [] => Some 0
  | JArr [x] =>
      match x with
      | JUndefined | JNull => Some 0
      | JBool _ => None
      | JNum n => match num_int n with
                  | Some z => if Z.abs z <? 10 ^ 21 then Some z else None
                  | None => None
                  end
      | _ => BigInt x
      end
  | JArr _ => None
  | JObj _ => None
  end.

(** The value of a key in a list of entries. *)
Fixpoint assoc_str {A} (k : string) (l : list (string * A)) : option A :=
  match l with
  | [] => None
  | (k', v) :: l => if String.eqb k k' then Some v else assoc_str k l
  end.

(** ** Digits: printing and reading back *)

Lemma code_digit_char d : 0 <= d < 10 -> code (digit_char d) = 48 + d.
Proof.
  intros H. assert (d = 0 \/ d = 1 \/ d = 2 \/ d = 3 \/ d = 4 \/ d = 5 \/ d = 6 \/ d = 7 \/ d = 8 \/ d = 9) by lia.
  by intuition subst.
Qed.

Lemma digit_val_char d : 0 <= d < 10 -> digit_val (digit_char d) = d.
Proof. intros H. unfold digit_val. rewrite code_digit_char by done. lia. Qed.

Lemma is_digit_char d : 0 <= d < 10 -> is_digit (digit_char d) = true.
Proof. intros H. unfold is_digit. rewrite code_digit_char by done. lia. Qed.

Lemma is_digit_code c : is_digit c = true -> 48 <= code c <= 57.
Proof. unfold is_digit. lia. Qed.

Lemma dec_acc_show fuel n acc :
  0 <= n < 10 ^ Z.of_nat fuel -> dec_acc (show_digits fuel n acc) 0 = dec_acc acc n.
Proof.
  revert n acc; induction fuel as [|f IH]; intros n acc H.
  { simpl in *. by replace n with 0 by lia. }
  rewrite Nat2Z.inj_succ, Z.pow_succ_r in H by lia.
  cbn [show_digits]. assert (0 <= n mod 10 < 10) by (apply Z.mod_pos_bound; lia).
  case_match eqn:E; zbool.
  - cbn [dec_acc]. rewrite digit_val_char by done. f_equal. dlia.
  - rewrite IH by (split; [apply Z.div_pos; lia | apply Z.div_lt_upper_bound; lia]).
    cbn [dec_acc]. rewrite digit_val_char by done. f_equal. dlia.
Qed.

Lemma sall_show fuel n acc :
  0 <= n -> sall is_digit acc = true -> sall is_digit (show_digits fuel n acc) = true.
Proof.
  revert n acc; induction fuel as [|f IH]; intros n acc Hn Ha; [done|].
  cbn [show_digits]. assert (0 <= n mod 10 < 10) by (apply Z.mod_pos_bound; lia).
  case_match; [|apply IH; [apply Z.div_pos; lia|]]; cbn [sall];
    by rewrite is_digit_char, Ha.
Qed.

Lemma show_digits_nonempty fuel n acc : exists c s, show_digits (S fuel) n acc = String c s.
Proof.
  revert n acc; induction fuel as [|f IH]; intros n acc; cbn [show_digits]; case_match; eauto.
Qed.

Lemma show_fuel_enough n : 0 <= n -> n < 10 ^ Z.of_nat (S (Z.to_nat (Z.log2 n))).
Proof.
  intros Hn. rewrite Nat2Z.inj_succ, Z2Nat.id by apply Z.log2_nonneg.
  destruct (Z.eq_dec n 0) as [->|]; [simpl; lia|].
  apply Z.lt_le_trans with (2 ^ Z.succ (Z.log2 n)); [by apply Z.log2_spec; lia|].
  apply Z.pow_le_mono_l. lia.
Qed.

Lemma dec_value_show n : 0 <= n -> dec_value (show_nonneg n) = n.
Proof.
  intros Hn. unfold dec_value, show_nonneg.
  rewrite dec_acc_show; [done|]. split; [done | by apply show_fuel_enough].
Qed.

Lemma all_digits_show n : 0 <= n -> all_digits (show_nonneg n) = true.
Proof.
  intros Hn. unfold all_digits, show_nonneg.
  destruct (show_digits_nonempty (Z.to_nat (Z.log2 n)) n "") as (c & s & Hs).
  rewrite sall_show by done. rewrite Hs. done.
Qed.

(** A string of digits is its own trimming. *)
Lemma strip_right_none p s : sall (fun c => negb (p c)) s = true -> strip_right p s = s.
Proof.
  induction s as [|c s IH]; cbn; [done|]. rewrite andb_true_iff, negb_true_iff.
  intros [Hc Hs]. rewrite IH by done. destruct s; [by rewrite Hc | done].
Qed.

Lemma digit_not_space c : is_digit c = true -> is_space c = false.
Proof. intros H%is_digit_code. unfold is_space. lia. Qed.

Lemma sall_impl (p q : ascii -> bool) s :
  (forall c, p c = true -> q c = true) -> sall p s = true -> sall q s = true.
Proof.
  intros Hpq. induction s as [|c s IH]; cbn; [done|]. rewrite !andb_true_iff.
  intros [? ?]; auto.
Qed.

Definition no_space (s : string) : bool := sall (fun c => negb (is_space c)) s.

Lemma trim_no_space s : no_space s = true -> trim s = s.
Proof.
  intros H. unfold trim, trim_left. replace (span is_space s) with ("", s).
  - by apply strip_right_none.
  - destruct s as [|c s]; [done|]. cbn in H. apply andb_true_iff in H as [Hc _].
    apply negb_true_iff in Hc. cbn. by rewrite Hc.
Qed.

Lemma all_digits_no_space s : all_digits s = true -> no_space s = true.
Proof.
  unfold all_digits. intros [_ H]%andb_true_iff. revert H. apply sall_impl.
  intros c Hc. by rewrite digit_not_space.
Qed.

(** A digit string is not one of the prefixed radix forms. *)
Lemma radix_literal_digits s : sall is_digit s = true -> radix_literal s = None.
Proof.
  destruct s as [|z [|x rest]]; [done..|]. cbn [sall radix_literal].
  rewrite !andb_true_iff. intros (_ & Hx & _). apply is_digit_code in Hx.
  case_match; [|done].
  assert (lower_char x = x) as ->.
  { unfold lower_char, is_upper. by replace (65 <=? code x) with false by lia. }
  replace (code x =? 120) with false by lia.
  replace (code x =? 111) with false by lia.
  by replace (code x =? 98) with false by lia.
Qed.

Lemma take_sign_digit c s : is_digit c = true -> take_sign (String c s) = (false, String c s).
Proof.
  intros H%is_digit_code. cbn. replace (code c =? 45) with false by lia.
  by replace (code c =? 43) with false by lia.
Qed.

Lemma all_digits_inv s :
  all_digits s = true -> exists c s', s = String c s' /\ is_digit c = true /\ sall is_digit s = true.
Proof.
  unfold all_digits. destruct s as [|c s]; [done|]. cbn.
  intros H. apply andb_true_iff in H as [? ?]. exists c, s. by rewrite H, H0.
Qed.

(** [BigInt(String(z))] is [z]: the wire format of every byte counter. *)
Lemma BigInt_Z_to_string z : BigInt_string (Z_to_string z) = Some z.
Proof.
  unfold Z_to_string. destruct (z <? 0) eqn:E; zbool.
  - assert (0 <= - z) as Hz by lia.
    pose proof (all_digits_show _ Hz) as Hd. pose proof (dec_value_show _ Hz) as Hv.
    set (s := show_nonneg (- z)) in *. clearbody s. change ("-" +:+ s) with (String "-" s). unfold BigInt_string.
    rewrite trim_no_space.
    2:{ change (negb (is_space "-"%char) && no_space s = true). by rewrite all_digits_no_space. }
    destruct (all_digits_inv _ Hd) as (c & s' & Hs & Hc & _).
    rewrite Hs. change (code "-") with 45. cbn -[all_digits dec_value code]. change (code "-") with 45. cbn -[all_digits dec_value code]. rewrite <- Hs, Hd, Hv. f_equal. lia.
  - pose proof (all_digits_show _ E) as Hd. pose proof (dec_value_show _ E) as Hv.
    set (s := show_nonneg z) in *. unfold BigInt_string.
    rewrite trim_no_space by (by apply all_digits_no_space).
    destruct (all_digits_inv _ Hd) as (c & s' & Hs & Hc & Hall).
    rewrite radix_literal_digits by done.
    rewrite Hs, take_sign_digit by done. rewrite <- Hs, Hd, Hv. by rewrite Hs.
Qed.
#[export] Hint Rewrite BigInt_Z_to_string : orch.

Lemma span_all p s : sall p s = true -> span p s = (s, "").
Proof.
  induction s as [|c s IH]; cbn; [done|]. intros [Hc Hs]%andb_true_iff. by rewrite Hc, IH.
Qed.

Lemma parseInt10_digits s : all_digits s = true -> parseInt10 s = Some (dec_value s).
Proof.
  intros Hd. destruct (all_digits_inv _ Hd) as (c & s' & Hs & Hc & Hall). unfold parseInt10.
  assert (trim_left s = s) as ->.
  { unfold trim_left. subst s. cbn. by rewrite digit_not_space. }
  rewrite Hs, take_sign_digit, <- Hs by done. rewrite span_all by done. by subst s.
Qed.

Lemma parseInt10_show z : 0 <= z -> parseInt10 (Z_to_string z) = Some z.
Proof.
  intros Hz. unfold Z_to_string. replace (z <? 0) with false by lia.
  rewrite parseInt10_digits by (by apply all_digits_show). by rewrite dec_value_show.
Qed.

Lemma all_digits_Z z : 0 <= z -> all_digits (Z_to_string z) = true.
Proof.
  intros Hz. unfold Z_to_string. replace (z <? 0) with false by lia. by apply all_digits_show.
Qed.

(** ** Case folding *)

Lemma code_range c : 0 <= code c < 256.
Proof.
  unfold code. pose proof (N_ascii_bounded c). lia.
Qed.

Lemma code_of_N n : (n < 256)%N -> code (ascii_of_N n) = Z.of_N n.
Proof. intros H. unfold code. by rewrite N_ascii_embedding. Qed.

Lemma lower_char_idemp c : lower_char (lower_char c) = lower_char c.
Proof.
  destruct (is_upper c) eqn:E.
  2:{ assert (lower_char c = c) as -> by (unfold lower_char; by rewrite E). unfold lower_char. by rewrite E. }
  assert (lower_char c = ascii_of_N (Z.to_N (code c + 32))) as -> by (unfold lower_char; by rewrite E).
  unfold is_upper in E. pose proof (code_range c).
  assert (code (ascii_of_N (Z.to_N (code c + 32))) = code c + 32) as Hc.
  { rewrite code_of_N by lia. lia. }
  unfold lower_char, is_upper. rewrite Hc. replace (code c + 32 <=? 90) with false by lia.
  by rewrite andb_false_r.
Qed.

Lemma upper_char_idemp c : upper_char (upper_char c) = upper_char c.
Proof.
  destruct (is_lower c) eqn:E.
  2:{ assert (upper_char c = c) as -> by (unfold upper_char; by rewrite E). unfold upper_char. by rewrite E. }
  assert (upper_char c = ascii_of_N (Z.to_N (code c - 32))) as -> by (unfold upper_char; by rewrite E).
  unfold is_lower in E. pose proof (code_range c).
  assert (code (ascii_of_N (Z.to_N (code c - 32))) = code c - 32) as Hc.
  { rewrite code_of_N by lia. lia. }
  unfold upper_char, is_lower. rewrite Hc. by replace (97 <=? code c - 32) with false by lia.
Qed.

Lemma toUpperCase_idemp s : toUpperCase (toUpperCase s) = toUpperCase s.
Proof.
  unfold toUpperCase. induction s as [|c s IH]; cbn; [done|]. by rewrite upper_char_idemp, IH.
Qed.

Lemma toLowerCase_idemp s : toLowerCase (toLowerCase s) = toLowerCase s.
Proof.
  unfold toLowerCase. induction s as [|c s IH]; cbn; [done|]. by rewrite lower_char_idemp, IH.
Qed.

Lemma lower_char_hex c : is_hex_lower c = true -> lower_char c = c.
Proof.
  unfold is_hex_lower, lower_char, is_upper, is_digit. intros H.
  destruct ((65 <=? code c) && (code c <=? 90)) eqn:E; [lia | done].
Qed.

Lemma is_hex_lower_lower c : is_hex c = true -> is_hex_lower (lower_char c) = true.
Proof.
  unfold is_hex. destruct (is_hex_lower c) eqn:E; intros H.
  - by rewrite lower_char_hex.
  - cbn in H. unfold lower_char, is_upper. pose proof (code_range c).
    replace ((65 <=? code c) && (code c <=? 90)) with true by lia.
    unfold is_hex_lower. rewrite code_of_N by lia. rewrite Z2N.id by lia. lia.
Qed.

Lemma toLowerCase_hex s : sall is_hex_lower s = true -> toLowerCase s = s.
Proof.
  unfold toLowerCase. induction s as [|c s IH]; cbn; [done|].
  rewrite andb_true_iff. intros [Hc Hs]. by rewrite lower_char_hex, IH.
Qed.

Lemma length_smap f s : String.length (smap f s) = String.length s.
Proof. induction s as [|c s IH]; cbn; [done|]. by rewrite IH. Qed.

Lemma sall_smap p q f s :
  (forall c, p c = true -> q (f c) = true) -> sall p s = true -> sall q (smap f s) = true.
Proof.
  intros Hpq. induction s as [|c s IH]; cbn; [done|]. rewrite !andb_true_iff. intros [? ?]; auto.
Qed.

Lemma is_hex64_lower s : is_hex64_i s = true -> is_hex64 (toLowerCase s) = true.
Proof.
  unfold is_hex64_i, is_hex64, toLowerCase. rewrite length_smap, !andb_true_iff.
  intros [? H]. split; [done|]. revert H. apply sall_smap, is_hex_lower_lower.
Qed.

(** ** Small integers are exact doubles *)

Lemma round_half_even_exact a b : 0 < b -> round_half_even (a * b) b = a.
Proof.
  intros Hb. unfold round_half_even. rewrite Z.div_mul by lia.
  by replace (2 * (a * b - a * b) <? b) with true by lia.
Qed.

(** ** Concatenation of strings *)

Lemma sapp_cons x a b : String x a +:+ b = String x (a +:+ b).
Proof. reflexivity. Qed.

Lemma sapp_nil_r s : s +:+ "" = s.
Proof. induction s as [|c s IH]; [done|]. by rewrite sapp_cons, IH. Qed.

Lemma sapp_assoc a b c : a +:+ (b +:+ c) = (a +:+ b) +:+ c.
Proof. induction a as [|x a IH]; [done|]. by rewrite !sapp_cons, IH. Qed.

Lemma sapp_length a b : String.length (a +:+ b) = (String.length a + String.length b)%nat.
Proof. induction a as [|x a IH]; [done|]. rewrite sapp_cons. simpl. by rewrite IH. Qed.

(** Two concatenations with first parts of the same length agree part by part. *)
Lemma sapp_inj a a' b b' :
  String.length a = String.length a' -> a +:+ b = a' +:+ b' -> a = a' /\ b = b'.
Proof.
  revert a'. induction a as [|x a IH]; intros [|y a'] Hl H; [done| done | done |].
  rewrite !sapp_cons in H. simplify_eq/=. by destruct (IH a') as [-> ->].
Qed.

Lemma sall_app p a b : sall p (a +:+ b) = sall p a && sall p b.
Proof. induction a as [|x a IH]; [done|]. rewrite sapp_cons. simpl. by rewrite IH, andb_assoc. Qed.

Lemma lower_no_upper s : toLowerCase s = s -> sall (fun c => negb (is_upper c)) s = true.
Proof.
  unfold toLowerCase. induction s as [|c s IH]; [done|]. cbn [smap sall]. intros [= Hc Hs].
  rewrite IH by done. rewrite andb_true_r. destruct (is_upper c) eqn:E; [|done].
  unfold lower_char in Hc. rewrite E in Hc. apply (f_equal code) in Hc. revert Hc.
  unfold is_upper in E. rewrite code_of_N by lia. lia.
Qed.

(** ** The order of strings *)

Lemma leb_cons a b s t :
  String.leb (String a s) (String b t) = true <->
  (code a < code b \/ code a = code b /\ String.leb s t = true).
Proof.
  unfold String.leb. simpl. unfold Ascii.compare, code.
  destruct (N.compare_spec (N_of_ascii a) (N_of_ascii b)) as [He|Hl|Hg].
  - rewrite He. split; [right; done|]. intros [?|[_ ?]]; [lia|done].
  - split; [left; lia | done].
  - split; [done|]. intros [?|[? _]]; lia.
Qed.

Lemma leb_trans s1 s2 s3 : String.leb s1 s2 = true -> String.leb s2 s3 = true -> String.leb s1 s3 = true.
Proof.
  revert s2 s3. induction s1 as [|a s1 IH]; intros s2 s3 H12 H23; [by destruct s3|].
  destruct s2 as [|b s2]; [done|]. destruct s3 as [|c s3]; [done|].
  rewrite leb_cons in *. destruct H12 as [?|[? ?]], H23 as [?|[? ?]]; [left; lia..|].
  right. split; [lia | eauto].
Qed.

(** ** [Number(String(n))] of a safe integer *)

Lemma num_int_double a : 0 <= a < 2 ^ 53 -> num_int (double_pos a 1) = Some a.
Proof.
  intros Ha. unfold double_pos. destruct (a =? 0) eqn:E0; zbool.
  { subst. reflexivity. }
  assert (Hlog : 0 <= Z.log2 a <= 52).
  { split; [apply Z.log2_nonneg|]. assert (Z.log2 a < 53) by (apply Z.log2_lt_pow2; lia). lia. }
  pose proof (Z.log2_spec a ltac:(lia)) as [Hlo _].
  rewrite Z.sub_0_r, (Z.max_l 0 (- Z.log2 a)), (Z.max_r 0 (Z.log2 a)) by lia.
  rewrite Z.pow_0_r, Z.mul_1_r, Z.mul_1_l, (proj2 (Z.ltb_ge _ _)) by done.
  rewrite (Z.max_l (Z.log2 a - 52)), (Z.max_l 0 (Z.log2 a - 52)), (Z.max_r 0 (- (Z.log2 a - 52))) by lia.
  set (p := 2 ^ (- (Z.log2 a - 52))).
  assert (Hp : 0 < p) by (apply Z.pow_pos_nonneg; lia).
  pose proof (round_half_even_exact (a * p) 1 ltac:(lia)) as Hr. rewrite Z.mul_1_r in Hr.
  rewrite Z.pow_0_r, !Z.mul_1_r, Hr.
  assert (Hle : p <= 2 ^ 52) by (apply Z.pow_le_mono_r; lia).
  assert (Hlt : a * p < 2 ^ 1024) by (change (2 ^ 1024) with (2 ^ 53 * 2 ^ 52 * 2 ^ 919); nia).
  apply Z.leb_gt in Hlt. rewrite Hlt. unfold num_int. cbn [Qnum Qden].
  rewrite Z2Pos.id by done. rewrite Z.mod_mul, Z.eqb_refl, Z.div_mul by lia. done.
Qed.

Lemma Number_show n : 0 <= n < 2 ^ 53 -> num_int (Number_string (Z_to_string n)) = Some n.
Proof.
  intros Hn. pose proof (all_digits_Z n ltac:(lia)) as Hd.
  unfold Number_string. rewrite trim_no_space by (by apply all_digits_no_space).
  destruct (all_digits_inv _ Hd) as (c & s & Hs & Hc & Hall).
  assert (Hall2 : sall is_digit (Z_to_string n) = true) by (unfold all_digits in Hd; zbool; done).
  rewrite radix_literal_digits by done. rewrite Hs. cbn [String.eqb].
  rewrite take_sign_digit by done. rewrite <- Hs.
  destruct (String.eqb _ "Infinity") eqn:Ei.
  { apply String.eqb_eq in Ei. rewrite Ei in Hall2. discriminate. }
  unfold decimal_literal. rewrite span_all by done. rewrite sapp_nil_r.
  replace (String.eqb (Z_to_string n) "") with false by (by rewrite Hs). cbn [exponent_part String.length].
  change (0 - Z.of_nat 0) with 0. rewrite Z.max_id, Z.opp_0, Z.max_id, Z.pow_0_r, Z.mul_1_r.
  unfold Z_to_string. rewrite (proj2 (Z.ltb_ge n 0)), dec_value_show by lia.
  by apply num_int_double.
Qed.
