(* ===== verification/Dates.v ===== *)
(** * Dates: [Date.prototype.toISOString] and [new Date(string)]

    A [Date] is its time value, a number of milliseconds since the epoch as a
    [Z]; ECMAScript bounds it by 8.64e15 in absolute value.  [toISOString] and
    the ISO reader are written out; every other spelling [new Date(s)] accepts
    is left to the engine by the language standard, so it is the parameter
    [otherDate].

    The main fact is [parse_toISOString]: db-api sends dates with
    [toISOString] and the proxy and the notifier read them back with
    [new Date], and this gives the same instant. *)

From Stdlib Require Import Ascii.
From S2P Require Import Prelude Js.

(** ** Civil dates of the proleptic Gregorian calendar *)

Record civil := Civil { cy : Z; cm : Z; cd : Z }.

(** Years start in March so that the leap day comes last. *)
Definition days_of_civil (c : civil) : Z :=
  let y := if cm c <=? 2 then cy c - 1 else cy c in
  let mp := if cm c <=? 2 then cm c + 9 else cm c - 3 in
  let era := y / 400 in
  let yoe := y - era * 400 in
  let doy := (153 * mp + 2) / 5 + cd c - 1 in
  era * 146097 + (365 * yoe + yoe / 4 - yoe / 100 + doy) - 719468.

Definition civil_of_days (d : Z) : civil :=
  let z := d + 719468 in
  let era := z / 146097 in
  let doe := z - era * 146097 in
  let c := Z.min 3 (doe / 36524) in
  let d1 := doe - c * 36524 in
  let q := d1 / 1461 in
  let d2 := d1 - q * 1461 in
  let a := Z.min 3 (d2 / 365) in
  let doy := d2 - a * 365 in
  let y := era * 400 + 100 * c + 4 * q + a in
  let mp := (5 * doy + 2) / 153 in
  let day := doy - (153 * mp + 2) / 5 + 1 in
  let m := if mp <? 10 then mp + 3 else mp - 9 in
  Civil (if m <=? 2 then y + 1 else y) m day.

(** ** Printing *)

Definition MAX_TIME : Z := 8640000000000000.
Definition valid_time (t : Z) : bool := (- MAX_TIME <=? t) && (t <=? MAX_TIME).

(** The last [n] decimal digits of [v]. *)
Fixpoint pad (n : nat) (v : Z) (acc : string) : string :=
  match n with
  | O => acc
  | S n => pad n (v / 10) (String (digit_char (v mod 10)) acc)
  end.

Definition show_year (y : Z) (rest : string) : string :=
  if (0 <=? y) && (y <=? 9999) then pad 4 y rest
  else if y <? 0 then String "-" (pad 6 (- y) rest) else String "+" (pad 6 y rest).

Definition DAY : Z := 86400000.

(** [date.toISOString()]; [None] is the RangeError of an invalid date. *)
Definition toISOString (t : Z) : option string :=
  if valid_time t then
    let d := t / DAY in
    let ms := t mod DAY in
    let c := civil_of_days d in
    Some (show_year (cy c) (String "-" (pad 2 (cm c) (String "-" (pad 2 (cd c) (String "T"
      (pad 2 (ms / 3600000) (String ":" (pad 2 (ms / 60000 mod 60) (String ":"
      (pad 2 (ms / 1000 mod 60) (String "." (pad 3 (ms mod 1000) "Z")))))))))))))
  else None.

(** ** Reading *)

(** Exactly [n] digits. *)
Fixpoint read_digits (n : nat) (s : string) (a : Z) : option (Z * string) :=
  match n with
  | O => Some (a, s)
  | S n =>
      match s with
      | String c s => if is_digit c then read_digits n s (10 * a + digit_val c) else None
      | "" => None
      end
  end.

Definition read_char (c : Ascii.ascii) (s : string) : option string :=
  match s with String c' s => if Ascii.eqb c c' then Some s else None | "" => None end.

Definition read_year (s : string) : option (Z * string) :=
  match s with
  | String c s' =>
      if Ascii.eqb c "+" then read_digits 6 s' 0
      else if Ascii.eqb c "-" then
        match read_digits 6 s' 0 with Some (y, r) => Some (- y, r) | None => None end
      else read_digits 4 s 0
  | "" => None
  end.

Definition is_leap (y : Z) : bool :=
  (y mod 4 =? 0) && (negb (y mod 100 =? 0) || (y mod 400 =? 0)).
Definition days_in_month (y m : Z) : Z :=
  if m =? 2 then (if is_leap y then 29 else 28)
  else if (m =? 4) || (m =? 6) || (m =? 9) || (m =? 11) then 30 else 31.

(** The reader of the format [toISOString] writes. *)
Definition parseISO (s : string) : option Z :=
  y ← read_year s;
  s ← read_char "-" y.2;
  m ← read_digits 2 s 0;
  s ← read_char "-" m.2;
  d ← read_digits 2 s 0;
  s ← read_char "T" d.2;
  hh ← read_digits 2 s 0;
  s ← read_char ":" hh.2;
  mi ← read_digits 2 s 0;
  s ← read_char ":" mi.2;
  ss ← read_digits 2 s 0;
  s ← read_char "." ss.2;
  ms ← read_digits 3 s 0;
  s ← read_char "Z" ms.2;
  let t := days_of_civil (Civil y.1 m.1 d.1) * DAY
           + hh.1 * 3600000 + mi.1 * 60000 + ss.1 * 1000 + ms.1 in
  if String.eqb s "" && (1 <=? m.1) && (m.1 <=? 12) && (1 <=? d.1) && (d.1 <=? days_in_month y.1 m.1)
     && (hh.1 <=? 23) && (mi.1 <=? 59) && (ss.1 <=? 59) && valid_time t
  then Some t else None.

(** What the JavaScript engine does with the other spellings of a date. *)
Class DateEngine := { otherDate : string -> option Z }.

(** [new Date(s).getTime()]; [None] is NaN. A Date clips its time value. *)
Definition Date_parse `{DateEngine} (s : string) : option Z :=
  match parseISO s with
  | Some t => Some t
  | None => match otherDate s with
            | Some t => if valid_time t then Some t else None
            | None => None
            end
  end.

(** ** The calendar is inverted exactly *)

Lemma civil_fields d :
  exists era c q a doy mp,
    d + 719468 = era * 146097 + c * 36524 + q * 1461 + a * 365 + doy /\
    0 <= c <= 3 /\ 0 <= q <= 24 /\ 0 <= a <= 3 /\ 0 <= doy <= 365 /\
    (c < 3 -> c * 36524 + q * 1461 + a * 365 + doy < (c + 1) * 36524) /\
    (a < 3 -> doy < 365) /\
    mp = (5 * doy + 2) / 153 /\ 0 <= mp <= 11 /\
    let y := era * 400 + 100 * c + 4 * q + a in
    let m := if mp <? 10 then mp + 3 else mp - 9 in
    civil_of_days d = Civil (if m <=? 2 then y + 1 else y) m (doy - (153 * mp + 2) / 5 + 1).
Proof.
  set (z := d + 719468). set (era := z / 146097).
  set (doe := z - era * 146097). set (c := Z.min 3 (doe / 36524)).
  set (d1 := doe - c * 36524). set (q := d1 / 1461). set (d2 := d1 - q * 1461).
  set (a := Z.min 3 (d2 / 365)). set (doy := d2 - a * 365).
  assert (0 <= doe < 146097) as Hdoe by (unfold doe, era; dlia).
  assert (0 <= c <= 3 /\ 0 <= d1 /\ (c < 3 -> d1 < 36524) /\ d1 <= 36524) as Hc
    by (unfold d1, c; dlia).
  assert (0 <= q <= 24 /\ 0 <= d2 < 1461) as Hq by (unfold d2, q; dlia).
  assert (0 <= a <= 3 /\ 0 <= doy <= 365 /\ (a < 3 -> doy < 365)) as Ha by (unfold doy, a; dlia).
  exists era, c, q, a, doy, ((5 * doy + 2) / 153).
  split_and!; try reflexivity; try (unfold doy, d2, d1, doe; lia); try (clear -Ha; dlia).
Qed.

Theorem days_of_civil_of_days d : days_of_civil (civil_of_days d) = d.
Proof.
  destruct (civil_fields d) as (era & c & q & a & doy & mp & Hd & Hc & Hq & Ha & Hdoy & Hc3 & Ha3 & Hmp & Hmpr & ->).
  set (y := era * 400 + 100 * c + 4 * q + a).
  assert (y / 400 = era) as Hera by (unfold y; dlia).
  assert ((y - era * 400) / 4 = 25 * c + q) as H4 by (unfold y; dlia).
  assert ((y - era * 400) / 100 = c) as H100 by (unfold y; dlia).
  unfold days_of_civil. cbn [cy cm cd]. destruct (mp <? 10) eqn:E; zbool.
  - replace (mp + 3 <=? 2) with false by lia. rewrite Hera, H4, H100.
    replace (mp + 3 - 3) with mp by lia. unfold y. lia.
  - replace (mp - 9 <=? 2) with true by lia. replace (y + 1 - 1) with y by lia.
    rewrite Hera, H4, H100. replace (mp - 9 + 9) with mp by lia. unfold y. lia.
Qed.

(** The printed month and day are the ones the reader accepts. *)
Lemma civil_of_days_range d :
  let c := civil_of_days d in
  1 <= cm c <= 12 /\ 1 <= cd c <= days_in_month (cy c) (cm c).
Proof.
  destruct (civil_fields d) as (era & c & q & a & doy & mp & Hd & Hc & Hq & Ha & Hdoy & Hc3 & Ha3 & Hmp & Hmpr & ->).
  set (y := era * 400 + 100 * c + 4 * q + a). cbn [cy cm cd].
  assert (mp = 11 -> doy - (153 * mp + 2) / 5 + 1 <= if is_leap (y + 1) then 29 else 28) as Hfeb.
  { intros ->. change ((153 * 11 + 2) / 5) with 337. unfold is_leap.
    destruct (Z.eq_dec doy 365) as [Hd'|]; [|case_match; dlia].
    assert (a = 3 /\ (q < 24 \/ c = 3)) as [Ha' Hq'] by lia.
    replace ((y + 1) mod 4 =? 0) with true by (symmetry; apply Z.eqb_eq; unfold y; dlia).
    destruct Hq' as [Hq'|Hq'].
    - replace ((y + 1) mod 100 =? 0) with false by (symmetry; apply Z.eqb_neq; unfold y; dlia).
      simpl. lia.
    - destruct (Z.eq_dec q 24) as [->|].
      + replace ((y + 1) mod 400 =? 0) with true by (symmetry; apply Z.eqb_eq; unfold y; subst; dlia).
        rewrite orb_true_r. simpl. lia.
      + replace ((y + 1) mod 100 =? 0) with false by (symmetry; apply Z.eqb_neq; unfold y; dlia).
        simpl. lia. }
  assert (mp = 0 \/ mp = 1 \/ mp = 2 \/ mp = 3 \/ mp = 4 \/ mp = 5 \/ mp = 6 \/ mp = 7 \/ mp = 8
          \/ mp = 9 \/ mp = 10 \/ mp = 11) as Hcases by lia.
  destruct Hcases as [->|[->|[->|[->|[->|[->|[->|[->|[->|[->|[->| ->]]]]]]]]]]]; unfold days_in_month; simpl;
    (split; [lia|]); try (clear Hfeb; dlia).
  specialize (Hfeb eq_refl). simpl in Hfeb. clear -Hfeb Hmp. dlia.
Qed.

(** ** Fixed-width digits *)

Lemma read_digits_pad n v acc a :
  0 <= v < 10 ^ Z.of_nat n ->
  read_digits n (pad n v acc) a = Some (a * 10 ^ Z.of_nat n + v, acc).
Proof.
  revert v acc a. induction n as [|n IH]; intros v acc a Hv.
  { simpl in *. do 2 f_equal. lia. }
  rewrite Nat2Z.inj_succ, Z.pow_succ_r in Hv by lia.
  assert (forall k s a, read_digits (S k) s a =
    match read_digits k s a with
    | Some (b, String c s') => if is_digit c then Some (10 * b + digit_val c, s') else None
    | _ => None end) as Hsnoc.
  { clear. induction k as [|k IH]; intros s a; [by destruct s|].
    destruct s as [|c s]; [done|]. cbn [read_digits]. destruct (is_digit c); [|done]. apply IH. }
  rewrite Hsnoc. cbn [pad].
  rewrite IH by (split; [apply Z.div_pos; lia | apply Z.div_lt_upper_bound; lia]).
  assert (0 <= v mod 10 < 10) by (apply Z.mod_pos_bound; lia).
  rewrite is_digit_char, digit_val_char by done. do 2 f_equal.
  rewrite Nat2Z.inj_succ, Z.pow_succ_r by lia. dlia.
Qed.

Lemma read_char_eq c s : read_char c (String c s) = Some s.
Proof. cbn. by rewrite Ascii.eqb_refl. Qed.

Lemma pad_head n v acc :
  0 <= v < 10 ^ Z.of_nat (S n) -> exists d s, pad (S n) v acc = String (digit_char d) s /\ 0 <= d < 10.
Proof.
  revert v acc. induction n as [|n IH]; intros v acc Hv.
  - cbn. exists (v mod 10), acc. split; [done | apply Z.mod_pos_bound; lia].
  - change (pad (S (S n)) v acc) with (pad (S n) (v / 10) (String (digit_char (v mod 10)) acc)).
    apply IH. rewrite Nat2Z.inj_succ, Z.pow_succ_r in Hv by lia.
    split; [apply Z.div_pos; lia | apply Z.div_lt_upper_bound; lia].
Qed.

Lemma read_show_year y rest : -999999 <= y <= 999999 -> read_year (show_year y rest) = Some (y, rest).
Proof.
  intros Hy. unfold show_year. destruct ((0 <=? y) && (y <=? 9999)) eqn:E; zbool.
  - assert (0 <= y < 10 ^ Z.of_nat 4) as H4 by (simpl; lia).
    pose proof (read_digits_pad 4 y rest 0 H4) as Hr.
    destruct (pad_head 3 y rest H4) as (d & s & Hs & Hd).
    rewrite Hs in *. unfold read_year.
    assert (code (digit_char d) = 48 + d) as Hc by (by apply code_digit_char).
    destruct (Ascii.eqb_spec (digit_char d) "+") as [Heq|_];
      [rewrite Heq in Hc; change (code "+") with 43 in Hc; lia|].
    destruct (Ascii.eqb_spec (digit_char d) "-") as [Heq|_];
      [rewrite Heq in Hc; change (code "-") with 45 in Hc; lia|].
    exact Hr.
  - destruct (y <? 0) eqn:E2; zbool; cbn -[read_digits pad].
    + rewrite read_digits_pad by (simpl; lia). by rewrite ?Z.mul_0_l, ?Z.add_0_l, ?Z.opp_involutive.
    + rewrite read_digits_pad by (simpl; lia). by rewrite ?Z.mul_0_l, ?Z.add_0_l, ?Z.opp_involutive.
Qed.

(** The years of valid time values. *)
Lemma civil_year_bound d :
  -100000001 <= d <= 100000000 -> -999999 <= cy (civil_of_days d) <= 999999.
Proof.
  intros Hd0.
  destruct (civil_fields d) as (era & c & q & a & doy & mp & Hd & Hc & Hq & Ha & Hdoy & Hc3 & Ha3 & Hmp & Hmpr & ->).
  cbn [cy]. clear Hmp. assert (-690 <= era <= 690) by lia. repeat case_match; lia.
Qed.

(** Reading back what [toISOString] printed gives the same instant. *)
Theorem parseISO_toISOString t s : toISOString t = Some s -> parseISO s = Some t.
Proof.
  unfold toISOString. destruct (valid_time t) eqn:Hv; [|done]. cbv zeta. intros Hs%(inj Some). subst s.
  assert (-MAX_TIME <= t <= MAX_TIME) as Ht by (unfold valid_time in Hv; zbool; lia).
  unfold MAX_TIME in Ht. set (d := t / DAY). set (ms := t mod DAY).
  assert (0 <= ms < 86400000) as Hms by (apply Z.mod_pos_bound; done).
  assert (t = d * 86400000 + ms) as Htd by (unfold d, ms, DAY; dlia).
  pose proof (civil_of_days_range d) as (Hm & Hd1 & Hd2).
  assert (-999999 <= cy (civil_of_days d) <= 999999) as Hy by (apply civil_year_bound; lia).
  pose proof (days_of_civil_of_days d) as Hinv.
  destruct (civil_of_days d) as [y m day]; cbn [cy cm cd] in *.
  assert (days_in_month y m <= 31) as H31 by (unfold days_in_month; repeat case_match; lia).
  assert (0 <= ms / 3600000 < 24 /\ 0 <= ms / 60000 mod 60 < 60 /\ 0 <= ms / 1000 mod 60 < 60
    /\ 0 <= ms mod 1000 < 1000 /\ ms / 3600000 * 3600000 + ms / 60000 mod 60 * 60000
       + ms / 1000 mod 60 * 1000 + ms mod 1000 = ms) as (Hh & Hmi & Hse & Hmsr & Hsum)
    by (clear -Hms; dlia).
  unfold parseISO. rewrite read_show_year by done. cbn [mbind option_bind fst snd].
  repeat (rewrite ?read_char_eq; cbn [mbind option_bind fst snd];
          rewrite ?read_digits_pad by (simpl Z.of_nat; simpl Z.pow; lia); cbn [mbind option_bind fst snd]).
  rewrite !Z.mul_0_l, !Z.add_0_l, Hinv. unfold DAY.
  replace (d * 86400000 + ms / 3600000 * 3600000 + ms / 60000 mod 60 * 60000
           + ms / 1000 mod 60 * 1000 + ms mod 1000) with t by lia.
  rewrite Hv. cbn [String.eqb].
  replace (1 <=? m) with true by lia. replace (m <=? 12) with true by lia.
  replace (1 <=? day) with true by lia. replace (day <=? days_in_month y m) with true by lia.
  replace (ms / 3600000 <=? 23) with true by lia. replace (ms / 60000 mod 60 <=? 59) with true by lia.
  by replace (ms / 1000 mod 60 <=? 59) with true by lia.
Qed.

Lemma Date_parse_ISO `{DateEngine} t s : toISOString t = Some s -> Date_parse s = Some t.
Proof. intros Hs. unfold Date_parse. by rewrite (parseISO_toISOString t s Hs). Qed.

Lemma parseISO_valid s t : parseISO s = Some t -> valid_time t = true.
Proof.
  unfold parseISO. intros H. repeat (apply bind_Some in H as (? & _ & H)).
  case_match eqn:E; [|done]. injection H as <-. apply andb_true_iff in E. tauto.
Qed.

Lemma Date_parse_valid `{DateEngine} s t : Date_parse s = Some t -> valid_time t = true.
Proof.
  unfold Date_parse. destruct (parseISO s) eqn:E; [intros [= <-]; by eapply parseISO_valid|].
  destruct (otherDate s); [|done]. case_match; naive_solver.
Qed.

Lemma toISOString_valid t : valid_time t = true -> exists s, toISOString t = Some s.
Proof. intros H. unfold toISOString. rewrite H. eauto. Qed.
#[export] Hint Resolve Date_parse_ISO toISOString_valid : orch.

Example iso_2026 : toISOString 1790812800000 = Some "2026-10-01T00:00:00.000Z".
Proof. reflexivity. Qed.
Example iso_leap : parseISO "2024-02-29T12:34:56.789Z" = Some 1709210096789.
Proof. reflexivity. Qed.
Example iso_expanded : toISOString (-62198755200000) = Some "-000001-01-01T00:00:00.000Z".
Proof. reflexivity. Qed.
