(* ===== verification/Http.v ===== *)
(** * Replies and pagination

    The replies of the Express handlers and packages/db/src/pagination.ts. *)

From S2P Require Import Prelude Js.

(** [res.status(st).json(body)] or [res.status(st).json({ error })]. *)
Inductive reply (A : Type) :=
| Res (st : Z) (body : A)
| Err (st : Z) (error : string).
Arguments Res {A} st body.
Arguments Err {A} st error.

Definition reply_status {A} (r : reply A) : Z :=
  match r with Res st _ => st | Err st _ => st end.

(** A body whose serialisation throws ends in the error handler. *)
Definition send {A} (st : Z) (body : option A) : reply A :=
  match body with Some a => Res st a | None => Err 500 "internal_error" end.

(** A query value as Express parses it: absent, a string, or something else
    (a repeated or nested parameter). *)
Inductive query_value := QAbsent | QStr (s : string) | QOther.

Definition queryString (value : query_value) : option string :=
  match value with
  | QStr s => if (0 <? String.length s)%nat then Some s else None
  | _ => None
  end.

Record Pagination := { page : Z; pageSize : Z; skip : Z; take_n : Z }.

Definition DEFAULT_PAGE_SIZE : Z := 25.
Definition MAX_PAGE_SIZE : Z := 100.

(** A string of digits; [parseInt] is exact up to 2^53. *)
Definition digits_of (v : query_value) : option Z :=
  match v with
  | QStr s => if all_digits s then parseInt10 s else None
  | _ => None
  end.

Definition parsePagination (rawPage rawPageSize : query_value) : Pagination :=
  let page := match digits_of rawPage with Some p => Z.max 1 p | None => 1 end in
  let pageSize :=
    match digits_of rawPageSize with
    | Some n => Z.min MAX_PAGE_SIZE (Z.max 1 n)
    | None => DEFAULT_PAGE_SIZE
    end in
  {| page := page; pageSize := pageSize; skip := (page - 1) * pageSize; take_n := pageSize |}.

Record Page (A : Type) := {
  items : list A;
  total : Z;
  pg_page : Z;
  pg_pageSize : Z
}.
Arguments items {A} _.
Arguments total {A} _.
Arguments pg_page {A} _.
Arguments pg_pageSize {A} _.

Definition paginated {A} (items : list A) (total : Z) (p : Pagination) : Page A :=
  {| items := items; total := total; pg_page := page p; pg_pageSize := pageSize p |}.

(** [skip]/[take] of a query. *)
Definition slice {A} (p : Pagination) (l : list A) : list A :=
  take (Z.to_nat (take_n p)) (drop (Z.to_nat (skip p)) l).

(** [orderBy: { key: "desc" }] and ["asc"]; rows with equal keys come in an
    order the database chooses. *)
Definition key_le {A} (key : A -> Z) (a b : A) : Prop := key a <= key b.
Definition key_ge {A} (key : A -> Z) (a b : A) : Prop := key b <= key a.
#[export] Instance key_le_dec {A} (key : A -> Z) : RelDecision (key_le key).
Proof. intros a b. unfold key_le. apply _. Defined.
#[export] Instance key_ge_dec {A} (key : A -> Z) : RelDecision (key_ge key).
Proof. intros a b. unfold key_ge. apply _. Defined.

Definition order_desc {A} (key : A -> Z) (l : list A) : list A := merge_sort (key_ge key) l.
Definition order_asc {A} (key : A -> Z) (l : list A) : list A := merge_sort (key_le key) l.

(** ** Lemmas *)

Lemma parsePagination_ok a b :
  1 <= page (parsePagination a b) /\ 1 <= pageSize (parsePagination a b) <= MAX_PAGE_SIZE /\
  skip (parsePagination a b) = (page (parsePagination a b) - 1) * pageSize (parsePagination a b) /\
  take_n (parsePagination a b) = pageSize (parsePagination a b).
Proof.
  unfold parsePagination, MAX_PAGE_SIZE, DEFAULT_PAGE_SIZE. simpl.
  destruct (digits_of a), (digits_of b); lia.
Qed.

Lemma length_slice {A} a b (l : list A) :
  Z.of_nat (length (slice (parsePagination a b) l)) <= pageSize (parsePagination a b).
Proof.
  destruct (parsePagination_ok a b) as (_ & Hs & _ & Ht).
  unfold slice. rewrite length_take, Ht. lia.
Qed.

Definition page_at (size n : nat) : Pagination :=
  {| page := Z.of_nat n + 1; pageSize := Z.of_nat size;
     skip := Z.of_nat n * Z.of_nat size; take_n := Z.of_nat size |}.

Lemma slice_page_at {A} size n (l : list A) : slice (page_at size n) l = take size (drop (n * size) l).
Proof. unfold slice, page_at. simpl. by rewrite <- Nat2Z.inj_mul, !Nat2Z.id. Qed.

(** The pages before page [n], put together, are the first [n * size] rows. *)
Lemma pages_prefix {A} size n (l : list A) :
  concat ((fun i => slice (page_at size i) l) <$> seq 0 n) = take (n * size) l.
Proof.
  induction n as [|n IH]; [done|].
  rewrite seq_S, fmap_app, concat_app, IH. simpl. rewrite app_nil_r, slice_page_at.
  rewrite take_take_drop. f_equal. lia.
Qed.

(** Paging with a fixed size until the rows run out returns every row once. *)
Lemma pages_cover {A} size n (l : list A) :
  (length l <= n * size)%nat ->
  concat ((fun i => slice (page_at size i) l) <$> seq 0 n) = l.
Proof. intros Hl. rewrite pages_prefix. by apply take_ge. Qed.

Lemma order_desc_perm {A} (key : A -> Z) l : order_desc key l ≡ₚ l.
Proof. apply merge_sort_Permutation. Qed.
Lemma order_asc_perm {A} (key : A -> Z) l : order_asc key l ≡ₚ l.
Proof. apply merge_sort_Permutation. Qed.

Lemma order_asc_sorted {A} (key : A -> Z) l :
  StronglySorted (key_le key) (order_asc key l).
Proof.
  apply StronglySorted_merge_sort; unfold key_le; [intros ???; lia | intros ??; lia].
Qed.

(** The query a client sends for page [n] of [size] rows. *)
Lemma parsePagination_page_at size n :
  (1 <= size <= 100)%nat ->
  parsePagination (QStr (Z_to_string (Z.of_nat n + 1))) (QStr (Z_to_string (Z.of_nat size))) = page_at size n.
Proof.
  intros Hs. unfold parsePagination, digits_of.
  rewrite !all_digits_Z, !parseInt10_show by lia. unfold page_at, MAX_PAGE_SIZE.
  rewrite (Z.max_r 1 (Z.of_nat n + 1)), (Z.max_r 1 (Z.of_nat size)), Z.min_r by lia.
  by rewrite Z.add_simpl_r.
Qed.
