(* ===== verification/Regex.v ===== *)
(** * Regular expressions of JavaScript

    The backtracking matcher behind [re.test(s)] and [s.replace(re, t)], for
    the constructs the sources use: characters and classes, sequence,
    alternatives, greedy and lazy repetition, [^], [$], the word boundary and negative
    lookahead. [lang] is what an expression means; [test_spec] says that the
    matcher finds a match exactly when there is one. *)

From Stdlib Require Import Ascii.
From S2P Require Import Prelude Js.

Inductive re :=
| REps
| RChr (p : ascii -> bool)
| RSeq (a b : re)
| RAlt (a b : re)          (* a|b, the left one first *)
| RStar (a : re)           (* a*, greedy *)
| RLazy (a : re)           (* a*?, lazy *)
| RBnd                     (* word boundary *)
| RStart                   (* ^ *)
| REnd                     (* $ *)
| RNotAhead (a : re).      (* (?!a) *)

(** A position: the character before it and the text after it. *)
Definition pos : Type := option ascii * string.
Definition rest_len (x : pos) : nat := String.length (snd x).

Definition word_at (c : option ascii) : bool := match c with Some c => is_word c | None => false end.
Definition next_char (s : string) : option ascii := match s with "" => None | String c _ => Some c end.
Definition boundary (x : pos) : bool := negb (Bool.eqb (word_at (fst x)) (word_at (next_char (snd x)))).

(** Match [r] at [x] and go on with [k]; the first way that succeeds wins. *)
Fixpoint rmatch (r : re) (x : pos) (k : pos -> option pos) : option pos :=
  match r with
  | REps => k x
  | RChr p => match snd x with
              | String c s => if p c then k (Some c, s) else None
              | "" => None
              end
  | RSeq a b => rmatch a x (fun y => rmatch b y k)
  | RAlt a b => match rmatch a x k with Some y => Some y | None => rmatch b x k end
  | RStar a =>
      (fix loop (n : nat) (x : pos) : option pos :=
         match n with
         | O => k x
         | S n => match rmatch a x (fun y => if (rest_len y <? rest_len x)%nat then loop n y else None) with
                  | Some z => Some z
                  | None => k x
                  end
         end) (rest_len x) x
  | RLazy a =>
      (fix loop (n : nat) (x : pos) : option pos :=
         match k x with
         | Some z => Some z
         | None => match n with
                   | O => None
                   | S n => rmatch a x (fun y => if (rest_len y <? rest_len x)%nat then loop n y else None)
                   end
         end) (rest_len x) x
  | RBnd => if boundary x then k x else None
  | RStart => match fst x with None => k x | Some _ => None end
  | REnd => match snd x with "" => k x | _ => None end
  | RNotAhead a => match rmatch a x Some with Some _ => None | None => k x end
  end.

Definition match_at (r : re) (x : pos) : option pos := rmatch r x Some.

Definition advance (x : pos) : option pos :=
  match snd x with "" => None | String c s => Some (Some c, s) end.

(** [re.test(s)] *)
Fixpoint test_from (r : re) (prev : option ascii) (s : string) : bool :=
  match match_at r (prev, s) with
  | Some _ => true
  | None => match s with "" => false | String c s' => test_from r (Some c) s' end
  end.
Definition test (r : re) (s : string) : bool := test_from r None s.

(** [s.replace(re, t)]; with the flag g every match from left to right, and an
    empty match moves on by one character. *)
Fixpoint replace_from (fuel : nat) (all : bool) (r : re) (t : string) (x : pos) : string :=
  match fuel with
  | O => snd x
  | S f =>
      match match_at r x with
      | Some y =>
          t +:+ (if negb all then snd y
                 else if (rest_len y <? rest_len x)%nat then replace_from f all r t y
                 else match snd x with
                      | "" => ""
                      | String c s => String c (replace_from f all r t (Some c, s))
                      end)
      | None => match snd x with
                | "" => ""
                | String c s => String c (replace_from f all r t (Some c, s))
                end
      end
  end.
Definition replace (r : re) (t s : string) : string := replace_from (S (String.length s)) false r t (None, s).
Definition replace_all (r : re) (t s : string) : string := replace_from (S (String.length s)) true r t (None, s).

(** ** Notation of the sources *)

Definition ROpt (a : re) : re := RAlt a REps.
Definition RPlus (a : re) : re := RSeq a (RStar a).
Definition rchar (c : ascii) : re := RChr (Ascii.eqb c).
(** A character under the flag i. *)
Definition rchar_i (c : ascii) : re := RChr (fun x => Ascii.eqb (lower_char x) (lower_char c)).
Fixpoint rlit (s : string) : re :=
  match s with "" => REps | String c s => RSeq (rchar c) (rlit s) end.
Fixpoint rlit_i (s : string) : re :=
  match s with "" => REps | String c s => RSeq (rchar_i c) (rlit_i s) end.
Fixpoint rseq (l : list re) : re := match l with [] => REps | [r] => r | r :: l => RSeq r (rseq l) end.
Fixpoint ralt (r : re) (l : list re) : re := match l with [] => r | q :: l => RAlt r (ralt q l) end.
Definition rspace : re := RChr is_space.
Definition rnospace : re := RChr (fun c => negb (is_space c)).

(** ** What an expression means *)

Fixpoint lang (r : re) (x y : pos) : Prop :=
  match r with
  | REps => y = x
  | RChr p => exists c, snd x = String c (snd y) /\ fst y = Some c /\ p c = true
  | RSeq a b => exists z, lang a x z /\ lang b z y
  | RAlt a b => lang a x y \/ lang b x y
  | RStar a | RLazy a => rtc (fun u v => lang a u v /\ (rest_len v < rest_len u)%nat) x y
  | RBnd => boundary x = true /\ y = x
  | RStart => fst x = None /\ y = x
  | REnd => snd x = "" /\ y = x
  | RNotAhead a => (forall z, ~ lang a x z) /\ y = x
  end.

(** The positions of a text. *)
Inductive reaches : pos -> pos -> Prop :=
| reaches_here x : reaches x x
| reaches_next p c s y : reaches (Some c, s) y -> reaches (p, String c s) y.

(** The matcher succeeds with a continuation exactly when some match of the
    expression ends where the continuation succeeds. *)
Lemma rmatch_spec r : forall x k,
  (forall z, rmatch r x k = Some z -> exists y, lang r x y /\ k y = Some z) /\
  (rmatch r x k = None -> forall y, lang r x y -> k y = None).
Proof.
  induction r as [|p|a IHa b IHb|a IHa b IHb|a IHa|a IHa| | | |a IHa]; intros x k; cbn [rmatch lang].
  - split; [eauto|]. by intros H y ->.
  - destruct x as [pr [|c s]]; cbn; split.
    + done.
    + by intros _ y (c & ? & _).
    + destruct (p c) eqn:E; [|done]. intros z Hz. exists (Some c, s). eauto.
    + intros Hk [q t] (c' & [= <- <-] & Hq & Hp). cbn in Hq. subst. by rewrite Hp in Hk.
  - split.
    + intros z Hz. apply IHa in Hz as (y & Hy & Hz). apply IHb in Hz as (w & Hw & Hz). eauto.
    + intros Hn y (w & Hw & Hy).
      destruct (IHa x (fun y => rmatch b y k)) as [_ H]. specialize (H Hn w Hw).
      by apply (IHb w k).
  - split.
    + intros z. destruct (rmatch a x k) eqn:E; intros Hz.
      * injection Hz as <-. apply IHa in E as (y & ? & ?); eauto.
      * apply IHb in Hz as (y & ? & ?); eauto.
    + destruct (rmatch a x k) eqn:E; [done|]. intros Hb y [Hy|Hy].
      * by apply (IHa x k).
      * by apply (IHb x k).
  - set (loop := fix loop (n : nat) (x : pos) : option pos := _).
    assert (Hl : forall n x, (rest_len x <= n)%nat ->
      (forall z, loop n x = Some z -> exists y, rtc (fun u v => lang a u v /\ (rest_len v < rest_len u)%nat) x y /\ k y = Some z) /\
      (loop n x = None -> forall y, rtc (fun u v => lang a u v /\ (rest_len v < rest_len u)%nat) x y -> k y = None)).
    { intros n. induction n as [|n IHn]; intros u Hu; cbn [loop]; fold loop.
      - split; [intros z Hz; exists u; split; [constructor|done]|].
        intros Hn y Hy. inversion Hy as [|? w ? [_ Hw] _]; subst; [done|]. lia.
      - specialize (IHa u (fun y => if (rest_len y <? rest_len u)%nat then loop n y else None)) as [IH1 IH2].
        destruct (rmatch a u _) as [z'|] eqn:E; split.
        + intros z [= <-]. destruct (IH1 _ eq_refl) as (w & Hw & Hz).
          destruct (rest_len w <? rest_len u)%nat eqn:Hlt; [|done]. apply Nat.ltb_lt in Hlt.
          apply IHn in Hz as (y & Hy & Hz); [|lia]. exists y. split; [|done]. by eapply rtc_l.
        + done.
        + intros z Hz. exists u. split; [constructor|done].
        + intros Hn y Hy. inversion Hy as [|? w ? [Hw Hlt] Hy']; subst; [done|].
          specialize (IH2 eq_refl w Hw). apply Nat.ltb_lt in Hlt as Hb. rewrite Hb in IH2.
          apply (IHn w); [lia | done..]. }
    apply Hl. lia.
  - set (loop := fix loop (n : nat) (x : pos) : option pos := _).
    assert (Hl : forall n x, (rest_len x <= n)%nat ->
      (forall z, loop n x = Some z -> exists y, rtc (fun u v => lang a u v /\ (rest_len v < rest_len u)%nat) x y /\ k y = Some z) /\
      (loop n x = None -> forall y, rtc (fun u v => lang a u v /\ (rest_len v < rest_len u)%nat) x y -> k y = None)).
    { intros n. induction n as [|n IHn]; intros u Hu; cbn [loop]; fold loop; destruct (k u) as [w|] eqn:Ek.
      1, 3: split; [intros z [= <-]; exists u; split; [constructor|done]|done].
      - split; [done|]. intros _ y Hy. inversion Hy as [|? w ? [_ Hw] _]; subst; [done|]. lia.
      - specialize (IHa u (fun y => if (rest_len y <? rest_len u)%nat then loop n y else None)) as [IH1 IH2]. split.
        + intros z Hz. destruct (IH1 _ Hz) as (w & Hw & Hz').
          destruct (rest_len w <? rest_len u)%nat eqn:Hlt; [|done]. apply Nat.ltb_lt in Hlt.
          apply IHn in Hz' as (y & Hy & Hz'); [|lia]. exists y. split; [|done]. by eapply rtc_l.
        + intros Hn y Hy. inversion Hy as [|? w ? [Hw Hlt] Hy']; subst; [done|].
          specialize (IH2 Hn w Hw). apply Nat.ltb_lt in Hlt as Hb. rewrite Hb in IH2.
          apply (IHn w); [lia | done..]. }
    apply Hl. lia.
  - destruct (boundary x) eqn:E; split; [eauto| |done|].
    + by intros ? y [_ ->].
    + by intros _ y [? _].
  - destruct x as [[c|] s]; cbn; split; [done| |eauto|].
    + by intros _ y [? _].
    + by intros ? y [_ ->].
  - destruct x as [q [|c s]]; cbn; split; [eauto| |done|].
    + by intros ? y [_ ->].
    + by intros _ y [? _].
  - destruct (IHa x Some) as [H1 H2]. destruct (rmatch a x Some) as [w|] eqn:E; split.
    + done.
    + intros _ y [Hn _]. destruct (H1 _ eq_refl) as (z & Hz & _). by destruct (Hn z).
    + intros z Hz. exists x. split; [|done]. split; [|done].
      intros y Hy. by specialize (H2 eq_refl y Hy).
    + by intros ? y [_ ->].
Qed.

Lemma match_at_Some r x y : match_at r x = Some y -> lang r x y.
Proof. intros H. apply rmatch_spec in H as (z & Hz & [= <-]). done. Qed.

Lemma match_at_None r x y : match_at r x = None -> ~ lang r x y.
Proof. intros H Hl. by specialize (proj2 (rmatch_spec r x Some) H y Hl). Qed.

Lemma test_from_spec r s : forall p,
  test_from r p s = true <-> exists x y, reaches (p, s) x /\ lang r x y.
Proof.
  induction s as [|c s IH]; intros p; cbn [test_from]; destruct (match_at r _) as [y|] eqn:E.
  1, 3: split; [intros _|done]; eexists _, y; split; [constructor | by apply match_at_Some].
  - split; [done|]. intros (x & y & Hx & Hy). inversion Hx; subst.
    by apply (match_at_None _ _ y) in E.
  - rewrite IH. split.
    + intros (x & y & Hx & Hy). exists x, y. split; [by constructor | done].
    + intros (x & y & Hx & Hy). inversion Hx; subst; [by apply (match_at_None _ _ y) in E | eauto].
Qed.

(** [re.test(s)] is true exactly when the expression matches at some position. *)
Lemma test_spec r s : test r s = true <-> exists x y, reaches (None, s) x /\ lang r x y.
Proof. apply test_from_spec. Qed.

(** A text without a match is left as it is. *)
Lemma replace_from_none f all r t s : forall p,
  test_from r p s = false -> replace_from f all r t (p, s) = s.
Proof.
  revert s. induction f as [|f IH]; intros s p; [done|].
  destruct s as [|c s]; cbn [test_from replace_from snd]; destruct (match_at r _); try done.
  intros H. by rewrite IH.
Qed.

Lemma replace_none r t s : test r s = false -> replace r t s = s.
Proof. apply replace_from_none. Qed.
Lemma replace_all_none r t s : test r s = false -> replace_all r t s = s.
Proof. apply replace_from_none. Qed.
