(* ===== verification/Lifecycle.v ===== *)
(** * Account lifecycle (packages/lifecycle)

    [state.ts]: the configuration parser and [deriveAccess], the single source
    of enforcement; [load.ts]: the loader.  A [Date] is [Some t] with [t] its
    time value, or [None] for an invalid date (whose time value is NaN, so
    that every comparison with it is false). *)

From S2P Require Import Prelude Js Dates.

(** ** Data *)

Inductive UserStatus := UNPAID | ACTIVE | GRACE | WRITE_BLOCKED | READ_BLOCKED | CLOSED.

#[export] Instance UserStatus_eq_dec : EqDecision UserStatus.
Proof. solve_decision. Defined.

Definition status_string (s : UserStatus) : string :=
  match s with
  | UNPAID => "UNPAID" | ACTIVE => "ACTIVE" | GRACE => "GRACE"
  | WRITE_BLOCKED => "WRITE_BLOCKED" | READ_BLOCKED => "READ_BLOCKED" | CLOSED => "CLOSED"
  end.

Inductive Reason :=
| unpaid | active | grace_expired_plan | grace_over_quota
| write_blocked | read_blocked | closed.

#[export] Instance Reason_eq_dec : EqDecision Reason.
Proof. solve_decision. Defined.

Record LifecycleNotifyConfig := {
  expiryWarningDays : list Z;
  quotaWarningPercent : list Z
}.

Record LifecycleConfig := {
  graceDays : Z;
  writeBlockedDays : Z;
  readBlockedDays : Z;
  purgeEnabled : bool;
  notify : LifecycleNotifyConfig
}.

Definition DEFAULT_LIFECYCLE_CONFIG : LifecycleConfig := {|
  graceDays := 7;
  writeBlockedDays := 30;
  readBlockedDays := 30;
  purgeEnabled := false;
  notify := {| expiryWarningDays := [14; 3; 1]; quotaWarningPercent := [80; 100] |}
|}.

(** ** The configuration parser *)

Definition positiveInt (value : jsval) (name : string) (fallback : Z) : exc string Z :=
  if nullish value then Ok fallback else
  let err := Throw ("lifecycle config: " +:+ name +:+ " must be a non-negative integer") in
  match value with
  | JNum n => match num_int n with
              | Some z => if z <? 0 then err else Ok z
              | None => err
              end
  | _ => err
  end.

(** [typeof v === "number" && Number.isInteger(v) && v >= 0], with the integer. *)
Definition nonneg_int (v : jsval) : option Z :=
  match v with
  | JNum n => match num_int n with Some z => if z <? 0 then None else Some z | None => None end
  | _ => None
  end.

(** [[...value].sort((a, b) => b - a)] *)
Definition sort_desc (l : list Z) : list Z := merge_sort Z.ge l.

Definition positiveIntArray (value : jsval) (name : string) (fallback : list Z)
  : exc string (list Z) :=
  if nullish value then Ok fallback else
  let err := Throw ("lifecycle config: " +:+ name +:+ " must be an array of non-negative integers") in
  match value with
  | JArr vs => match mapM nonneg_int vs with
               | Some zs => Ok (sort_desc zs)
               | None => err
               end
  | _ => err
  end.

Definition parse_purgeEnabled (v : jsval) : exc string bool :=
  match v with
  | JUndefined => Ok (purgeEnabled DEFAULT_LIFECYCLE_CONFIG)
  | JBool b => Ok b
  | _ => Throw "lifecycle config: purgeEnabled must be a boolean"
  end.

Definition parseLifecycleConfig (raw : jsval) : exc string LifecycleConfig :=
  match raw with
  | JUndefined | JNull => Ok DEFAULT_LIFECYCLE_CONFIG
  | JObj _ => (
      let! grace := positiveInt (jget raw "graceDays") "graceDays" (graceDays DEFAULT_LIFECYCLE_CONFIG) in
      throw_if grace <=? 0 with "lifecycle config: graceDays must be positive" then
      let! wb := positiveInt (jget raw "writeBlockedDays") "writeBlockedDays"
                   (writeBlockedDays DEFAULT_LIFECYCLE_CONFIG) in
      let! rb := positiveInt (jget raw "readBlockedDays") "readBlockedDays"
                   (readBlockedDays DEFAULT_LIFECYCLE_CONFIG) in
      let! purge := parse_purgeEnabled (jget raw "purgeEnabled") in
      let rawNotify := jget raw "notify" in
      let! ew := positiveIntArray (jget rawNotify "expiryWarningDays") "notify.expiryWarningDays"
                   (expiryWarningDays (notify DEFAULT_LIFECYCLE_CONFIG)) in
      let! qw := positiveIntArray (jget rawNotify "quotaWarningPercent") "notify.quotaWarningPercent"
                   (quotaWarningPercent (notify DEFAULT_LIFECYCLE_CONFIG)) in
      Ok {| graceDays := grace; writeBlockedDays := wb; readBlockedDays := rb;
            purgeEnabled := purge;
            notify := {| expiryWarningDays := ew;
                         quotaWarningPercent := filter (fun p => p <= 100) qw |} |})%exc
  | _ => Throw "lifecycle config: root must be a mapping"
  end.

(** [load.ts]. Reading and parsing the YAML file is outside the program: its
    outcome is an argument. *)
Inductive yaml_read :=
| YamlDoc (v : jsval)
| YamlMissing                 (* readFileSync failed with ENOENT *)
| YamlFailed (msg : string).  (* any other read or parse error *)

Definition loadLifecycleConfig (path : string) (file : yaml_read) : exc string LifecycleConfig :=
  match file with
  | YamlMissing => Ok DEFAULT_LIFECYCLE_CONFIG
  | YamlFailed msg => Throw ("lifecycle config: failed to read/parse " +:+ path +:+ ": " +:+ msg)
  | YamlDoc raw => parseLifecycleConfig raw
  end.

(** ** Access derivation *)

Definition jsdate := option Z.
(** [new Date(t)] for an integral [t] (TimeClip). *)
Definition mkDate (t : Z) : jsdate := if valid_time t then Some t else None.
(** [date.getTime() + ms] and then [new Date]. *)
Definition addMs (d : jsdate) (ms : Z) : jsdate :=
  match d with Some t => mkDate (t + ms) | None => None end.
(** [now.getTime() < d.getTime()] and [now.getTime() >= d.getTime()]. *)
Definition before (now : Z) (d : jsdate) : bool := match d with Some t => now <? t | None => false end.
Definition reached (now : Z) (d : jsdate) : bool := match d with Some t => t <=? now | None => false end.

(** [Date | string | null | undefined] *)
Inductive date_in := DDate (d : jsdate) | DStr (s : string) | DNull.
(** [bigint | number | string] *)
Inductive big_in := BBig (z : Z) | BNum (n : num) | BStr (s : string).

Definition BigInt_in (b : big_in) : option Z :=
  match b with BBig z => Some z | BNum n => num_int n | BStr s => BigInt_string s end.

Record EntitlementDates := {
  ed_planExpiresAt : date_in;
  ed_storageBytes : option big_in;
  ed_usedStorage : big_in
}.

Record AccessState := {
  status : UserStatus;
  canUpload : bool;
  canRead : bool;
  canDelete : bool;
  graceUntil : option jsdate;
  writeBlockedUntil : option jsdate;
  readBlockedUntil : option jsdate;
  purgeAt : option jsdate;
  reason : Reason
}.

Definition DAY_MS : Z := 24 * 60 * 60 * 1000.

Section WithEngine.
Context `{DateEngine}.

(** [toDate]: an unreadable date counts as no date. *)
Definition toDate (value : date_in) : option Z :=
  match value with
  | DNull => None
  | DDate d => d
  | DStr s => Date_parse s
  end.

(** The derivation once the three inputs are read. *)
Definition accessOf (planExpiresAt : option Z) (allowance : option Z) (used : Z)
    (now : Z) (config : LifecycleConfig) : AccessState :=
  match planExpiresAt with
  | None =>
      {| status := UNPAID; canUpload := false; canRead := false; canDelete := false;
         graceUntil := None; writeBlockedUntil := None; readBlockedUntil := None;
         purgeAt := None; reason := unpaid |}
  | Some expiry =>
      let graceU := mkDate (expiry + graceDays config * DAY_MS) in
      let writeU := addMs graceU (writeBlockedDays config * DAY_MS) in
      let readU := addMs writeU (readBlockedDays config * DAY_MS) in
      let at_ st up rd dl pa rs :=
        {| status := st; canUpload := up; canRead := rd; canDelete := dl;
           graceUntil := Some graceU; writeBlockedUntil := Some writeU;
           readBlockedUntil := Some readU; purgeAt := pa; reason := rs |} in
      if reached now readU then at_ CLOSED false false false (Some readU) closed else
      let overQuota := match allowance with Some a => a <? used | None => false end in
      if now <? expiry then
        if overQuota then at_ GRACE false true true None grace_over_quota
        else {| status := ACTIVE; canUpload := true; canRead := true; canDelete := true;
                graceUntil := None; writeBlockedUntil := None; readBlockedUntil := None;
                purgeAt := None; reason := active |}
      else if before now graceU then
        at_ GRACE false true true None (if overQuota then grace_over_quota else grace_expired_plan)
      else if before now writeU then at_ WRITE_BLOCKED false true true None write_blocked
      else at_ READ_BLOCKED false false true (Some readU) read_blocked
  end.

(** [None] is the SyntaxError or RangeError of [BigInt]. *)
Definition deriveAccess (user : EntitlementDates) (now : Z) (config : LifecycleConfig)
  : option AccessState :=
  let planExpiresAt := toDate (ed_planExpiresAt user) in
  used ← BigInt_in (ed_usedStorage user);
  match ed_storageBytes user with
  | None => Some (accessOf planExpiresAt None used now config)
  | Some b => allowance ← BigInt_in b;
              Some (accessOf planExpiresAt (Some allowance) used now config)
  end.

End WithEngine.

(** [Math.ceil((target - now) / DAY_MS)]; the quotient of two integral time
    values is exact enough for [Math.ceil] while they are less than 2^26 days
    apart. *)
Definition daysUntil (target now : Z) : Z := - ((now - target) / DAY_MS).

(** ** What the parser accepts *)

Record config_ok (c : LifecycleConfig) : Prop := {
  co_grace : 0 < graceDays c;
  co_write : 0 <= writeBlockedDays c;
  co_read : 0 <= readBlockedDays c;
  co_warn : StronglySorted Z.ge (expiryWarningDays (notify c));
  co_warn_nonneg : Forall (fun d => 0 <= d) (expiryWarningDays (notify c));
  co_quota : StronglySorted Z.ge (quotaWarningPercent (notify c))
             \/ quotaWarningPercent (notify c) = [80; 100];
  co_quota_range : Forall (fun p => 0 <= p <= 100) (quotaWarningPercent (notify c))
}.

Lemma positiveInt_nonneg v name fb z :
  0 <= fb -> positiveInt v name fb = Ok z -> 0 <= z.
Proof.
  intros Hfb. unfold positiveInt. destruct v; simpl; try (intros [=]; subst; lia).
  destruct (num_int n) as [w|]; [|done]. case_match; zbool; intros [=]; subst; lia.
Qed.

Lemma sort_desc_sorted l : StronglySorted Z.ge (sort_desc l).
Proof.
  apply Sorted_StronglySorted; [intros a b c; lia|].
  apply Sorted_merge_sort. intros a b; lia.
Qed.

Lemma sort_desc_perm l : sort_desc l ≡ₚ l.
Proof. apply merge_sort_Permutation. Qed.

Lemma mapM_nonneg vs zs : mapM nonneg_int vs = Some zs -> Forall (fun z => 0 <= z) zs.
Proof.
  intros Hm%mapM_Some_1. induction Hm as [|v z vs zs Hv _ IH]; constructor; [|done].
  unfold nonneg_int in Hv. destruct v; try done. destruct (num_int n); [|done].
  case_match; zbool; simplify_eq. lia.
Qed.

Lemma positiveIntArray_ok v name fb l :
  Forall (fun z => 0 <= z) fb -> positiveIntArray v name fb = Ok l ->
  (StronglySorted Z.ge l \/ l = fb) /\ Forall (fun z => 0 <= z) l.
Proof.
  intros Hn. unfold positiveIntArray. destruct v; simpl; try (intros [=]; subst; tauto).
  destruct (mapM nonneg_int l0) as [zs|] eqn:E; intros [=]; subst.
  split; [left; apply sort_desc_sorted|]. rewrite sort_desc_perm. by apply mapM_nonneg in E.
Qed.

Lemma StronglySorted_filter' {A} (R : A -> A -> Prop) (P : A -> Prop) `{forall a, Decision (P a)} l :
  StronglySorted R l -> StronglySorted R (filter P l).
Proof.
  induction 1 as [|a l Hs IH Ha]; [constructor|]. rewrite filter_cons. case_decide; [|done].
  constructor; [done|]. rewrite Forall_forall in *. intros b [_ Hb]%list_elem_of_filter. auto.
Qed.

Lemma default_config_ok : config_ok DEFAULT_LIFECYCLE_CONFIG.
Proof. constructor; simpl; try (by right); repeat first [lia | constructor]. Qed.
#[export] Hint Resolve default_config_ok : orch.

Lemma parse_config_ok raw c : parseLifecycleConfig raw = Ok c -> config_ok c.
Proof.
  pose proof default_config_ok as D. destruct D as [Dg Dw Dr Dws Dwn Dqs Dqr].
  unfold parseLifecycleConfig. destruct raw; try done; try (intros [= <-]; auto with orch).
  intros Hp. exc_inv Hp. simplify_eq. zbool.
  destruct (positiveIntArray_ok _ _ _ _ Dwn Hv3) as [Hs1 Hn1].
  destruct (positiveIntArray_ok _ _ _ _ ltac:(eapply Forall_impl; [exact Dqr|]; simpl; lia) Hv4) as [Hs2 Hn2].
  apply positiveInt_nonneg in Hv0; [|done]. apply positiveInt_nonneg in Hv1; [|done].
  constructor; simpl; try done.
  - destruct Hs1 as [?| ->]; done.
  - destruct Hs2 as [?| ->]; [left; by apply StronglySorted_filter' | by right].
  - rewrite Forall_forall in *. intros p [Hp1 Hp2]%list_elem_of_filter. split; [by apply Hn2 | done].
Qed.

(** ** The derived state as a timeline *)

(** Order of the progression UNPAID, ACTIVE, GRACE, WRITE_BLOCKED, READ_BLOCKED, CLOSED. *)
Definition rank (s : UserStatus) : Z :=
  match s with
  | UNPAID => 0 | ACTIVE => 1 | GRACE => 2 | WRITE_BLOCKED => 3 | READ_BLOCKED => 4 | CLOSED => 5
  end.

(** The progression of the comment in config/lifecycle.yml as consecutive
    windows after the expiry, in plain arithmetic; over quota before the expiry
    is GRACE, with no clock of its own. *)
Definition timeline (expiry : Z) (over : bool) (now : Z) (c : LifecycleConfig) : UserStatus :=
  if now <? expiry then (if over then GRACE else ACTIVE)
  else if now <? expiry + graceDays c * DAY_MS then GRACE
  else if now <? expiry + (graceDays c + writeBlockedDays c) * DAY_MS then WRITE_BLOCKED
  else if now <? expiry + (graceDays c + writeBlockedDays c + readBlockedDays c) * DAY_MS
       then READ_BLOCKED
  else CLOSED.

Definition may_upload (s : UserStatus) : bool := bool_decide (s = ACTIVE).
Definition may_read (s : UserStatus) : bool :=
  match s with ACTIVE | GRACE | WRITE_BLOCKED => true | _ => false end.
Definition may_delete (s : UserStatus) : bool :=
  match s with UNPAID | CLOSED => false | _ => true end.

Definition over_quota (allowance : option Z) (used : Z) : bool :=
  match allowance with Some a => a <? used | None => false end.

Lemma mkDate_valid t : valid_time t = true -> mkDate t = Some t.
Proof. unfold mkDate. by intros ->. Qed.

Lemma valid_time_between a b t :
  valid_time a = true -> valid_time b = true -> a <= t <= b -> valid_time t = true.
Proof. unfold valid_time. intros. zbool. lia. Qed.

Section Timeline.
Context `{DateEngine}.

(** The whole window is representable as dates. *)
Definition window_valid (expiry : Z) (c : LifecycleConfig) : Prop :=
  valid_time expiry = true /\
  valid_time (expiry + (graceDays c + writeBlockedDays c + readBlockedDays c) * DAY_MS) = true.

Lemma window_dates expiry c :
  config_ok c -> window_valid expiry c ->
  let g := expiry + graceDays c * DAY_MS in
  let w := expiry + (graceDays c + writeBlockedDays c) * DAY_MS in
  let r := expiry + (graceDays c + writeBlockedDays c + readBlockedDays c) * DAY_MS in
  mkDate g = Some g /\ addMs (mkDate g) (writeBlockedDays c * DAY_MS) = Some w /\
  addMs (addMs (mkDate g) (writeBlockedDays c * DAY_MS)) (readBlockedDays c * DAY_MS) = Some r /\
  expiry < g <= w /\ w <= r.
Proof.
  intros Hc [Hv1 Hv2] g w r. destruct Hc as [Hg Hw Hr _ _ _ _].
  assert (expiry < g <= w /\ w <= r) as Hord by (unfold g, w, r, DAY_MS; lia).
  assert (valid_time g = true) as Vg by (eapply valid_time_between; [exact Hv1|exact Hv2|]; fold r; lia).
  assert (valid_time w = true) as Vw by (eapply valid_time_between; [exact Hv1|exact Hv2|]; fold r; lia).
  rewrite mkDate_valid by done. split_and!; try lia; try done.
  - cbn. replace (g + writeBlockedDays c * DAY_MS) with w by (unfold g, w; lia). by apply mkDate_valid.
  - cbn. replace (g + writeBlockedDays c * DAY_MS) with w by (unfold g, w; lia).
    rewrite mkDate_valid by done. cbn.
    replace (w + readBlockedDays c * DAY_MS) with r by (unfold w, r; lia). by apply mkDate_valid.
Qed.

Lemma accessOf_timeline expiry allowance used now c :
  config_ok c -> window_valid expiry c ->
  status (accessOf (Some expiry) allowance used now c)
  = timeline expiry (over_quota allowance used) now c.
Proof.
  intros Hc Hw. destruct (window_dates expiry c Hc Hw) as (Hg & Hwd & Hr & Hord).
  unfold accessOf. rewrite Hg in *. rewrite Hwd in *. rewrite Hr.
  unfold timeline, reached, before. fold (over_quota allowance used).
  set (g := expiry + graceDays c * DAY_MS) in *.
  set (w := expiry + (graceDays c + writeBlockedDays c) * DAY_MS) in *.
  set (r := expiry + (graceDays c + writeBlockedDays c + readBlockedDays c) * DAY_MS) in *.
  split_ifs; zbool; try reflexivity; lia.
Qed.

(** Permissions are a function of the status alone, for every input. *)
Lemma accessOf_permissions exp allowance used now c :
  let a := accessOf exp allowance used now c in
  canUpload a = may_upload (status a) /\ canRead a = may_read (status a) /\
  canDelete a = may_delete (status a).
Proof. unfold accessOf. destruct exp; [|done]. simpl. repeat case_match; done. Qed.

(** The purge instant is due exactly in the CLOSED state. *)
Lemma accessOf_purge exp allowance used now c :
  let a := accessOf exp allowance used now c in
  (exists d, purgeAt a = Some d /\ reached now d = true) <-> status a = CLOSED.
Proof.
  unfold accessOf. destruct exp as [e|]; simpl; [|split; [by intros (?&?&?)|done]].
  destruct (reached now _) eqn:E; simpl; [naive_solver|].
  repeat case_match; simpl; (split; [intros (d & Hd & Hr); simplify_eq; congruence | discriminate]).
Qed.

Lemma accessOf_monotone exp allowance used now1 now2 c :
  config_ok c -> now1 <= now2 ->
  rank (status (accessOf exp allowance used now1 c))
  <= rank (status (accessOf exp allowance used now2 c)).
Proof.
  intros [Hg Hw Hr _ _ _ _] Hnow. destruct exp as [e|]; [|simpl; lia].
  unfold accessOf.
  set (g := mkDate (e + graceDays c * DAY_MS)).
  set (w := addMs g (writeBlockedDays c * DAY_MS)).
  set (r := addMs w (readBlockedDays c * DAY_MS)).
  fold (over_quota allowance used). destruct (over_quota allowance used);
  destruct r as [tr|]; destruct w as [tw|]; destruct g as [tg|]; simpl;
    split_ifs; zbool; simpl; lia.
Qed.

Lemma deriveAccess_inv user now c a :
  deriveAccess user now c = Some a ->
  exists allowance used, a = accessOf (toDate (ed_planExpiresAt user)) allowance used now c /\
    BigInt_in (ed_usedStorage user) = Some used /\
    (match ed_storageBytes user with Some b => BigInt_in b | None => None end) = allowance /\
    (allowance = None -> ed_storageBytes user = None).
Proof.
  unfold deriveAccess. destruct (BigInt_in (ed_usedStorage user)) as [used|]; simpl; [|done].
  destruct (ed_storageBytes user) as [b|].
  - destruct (BigInt_in b) as [al|]; simpl; [|done]. intros [= <-]. exists (Some al), used. done.
  - intros [= <-]. by exists None, used.
Qed.

End Timeline.

(** ** Properties *)

Section Properties.
Context `{DateEngine}.

(** C14: the status the code derives, in plain arithmetic. For every accepted
    configuration and every account whose windows are representable dates, the
    status is that of consecutive windows after the expiry, in the order of
    config/lifecycle.yml: ACTIVE (GRACE when over quota) until the expiry, GRACE
    for graceDays, WRITE_BLOCKED for writeBlockedDays, READ_BLOCKED for
    readBlockedDays, then CLOSED; the permissions follow from the status alone
    (uploads only when ACTIVE, reads until READ_BLOCKED, deletes until CLOSED),
    and the purge is due exactly when CLOSED. This is the timeline of the code
    and not of docs/BLOSSOM_PRODUCTIONISATION_PLAN.md, from which it departs in
    three places: the plan lets an account in GRACE upload while it is within
    its allowance, makes READ_BLOCKED terminal until purgeEnabled is set (the
    status does not depend on purgeEnabled: it is CLOSED by time alone), and
    gives an over-quota account a grace clock (the code keeps it in GRACE until
    the plan expires). *)
Theorem deriveAccess_refines_timeline raw c user now a expiry used :
  parseLifecycleConfig raw = Ok c ->
  toDate (ed_planExpiresAt user) = Some expiry -> window_valid expiry c ->
  BigInt_in (ed_usedStorage user) = Some used ->
  deriveAccess user now c = Some a ->
  status a = timeline expiry
    (over_quota (match ed_storageBytes user with Some b => BigInt_in b | None => None end) used) now c
  /\ canUpload a = may_upload (status a) /\ canRead a = may_read (status a)
  /\ canDelete a = may_delete (status a)
  /\ ((exists d, purgeAt a = Some d /\ reached now d = true) <-> status a = CLOSED).
Proof.
  intros Hc%parse_config_ok He Hw Hu Ha.
  apply deriveAccess_inv in Ha as (al & u & -> & Hu' & Hal & _).
  rewrite He. simplify_eq. split; [by apply accessOf_timeline|].
  destruct (accessOf_permissions (Some expiry)
    (match ed_storageBytes user with Some b => BigInt_in b | None => None end) used now c) as (? & ? & ?).
  split_and!; try done. apply accessOf_purge.
Qed.

(** Time only moves an account forward in the progression: with the same
    entitlement and usage, a later evaluation never yields an earlier state
    (even when a window overflows the range of dates). *)
Theorem deriveAccess_monotone raw c user now1 now2 a1 a2 :
  parseLifecycleConfig raw = Ok c -> now1 <= now2 ->
  deriveAccess user now1 c = Some a1 -> deriveAccess user now2 c = Some a2 ->
  rank (status a1) <= rank (status a2).
Proof.
  intros Hc%parse_config_ok Hn H1 H2.
  apply deriveAccess_inv in H1 as (al & u & -> & Hu & Hal & Hn1).
  apply deriveAccess_inv in H2 as (al' & u' & -> & Hu' & Hal' & Hn2).
  simplify_eq. by apply accessOf_monotone.
Qed.

(** The purge instant has been reached exactly when the account is CLOSED,
    so a due purge is always seen in the CLOSED state and a READ_BLOCKED
    account is never purged early. *)
Theorem purge_due_iff_closed user now c a :
  deriveAccess user now c = Some a ->
  (exists d, purgeAt a = Some d /\ reached now d = true) <-> status a = CLOSED.
Proof.
  intros Ha. apply deriveAccess_inv in Ha as (al & u & -> & _). apply accessOf_purge.
Qed.

(** The configuration parser only lets through positive grace,
    non-negative windows, warning days sorted from the largest, and quota
    thresholds between 0 and 100; everything else is rejected at boot. *)
Theorem parseLifecycleConfig_sound path file c :
  loadLifecycleConfig path file = Ok c -> config_ok c.
Proof.
  destruct file as [v| |]; simpl; [apply parse_config_ok | intros [= <-]; apply default_config_ok | done].
Qed.

End Properties.

(** ** Witnesses *)

Module LifecycleExamples.
#[export] Instance noOtherDates : DateEngine := {| otherDate := fun _ => None |}.

Definition NOW : Z := 1790812800000.
Definition cfg_raw : jsval :=
  JObj [("graceDays", JNum (num_Z 7)); ("writeBlockedDays", JNum (num_Z 30));
        ("readBlockedDays", JNum (num_Z 30)); ("purgeEnabled", JBool false)].
Definition user_exp (s : string) : EntitlementDates :=
  {| ed_planExpiresAt := DStr s; ed_storageBytes := Some (BStr "1000000000"); ed_usedStorage := BStr "100" |}.

Lemma deriveAccess_refines_timeline_witness :
  exists a, deriveAccess (user_exp "2026-09-29T00:00:00.000Z") NOW DEFAULT_LIFECYCLE_CONFIG = Some a
    /\ status a = GRACE.
Proof.
  destruct (deriveAccess (user_exp "2026-09-29T00:00:00.000Z") NOW DEFAULT_LIFECYCLE_CONFIG) as [a|] eqn:E.
  2:{ vm_compute in E. discriminate. }
  exists a. split; [reflexivity|].
  destruct (deriveAccess_refines_timeline JNull DEFAULT_LIFECYCLE_CONFIG (user_exp "2026-09-29T00:00:00.000Z")
    NOW a (NOW - 2 * DAY_MS) 100 eq_refl eq_refl (conj eq_refl eq_refl) eq_refl E) as [Hs _].
  rewrite Hs. reflexivity.
Defined.

Lemma deriveAccess_monotone_witness :
  exists a1 a2, deriveAccess (user_exp "2026-09-29T00:00:00.000Z") NOW DEFAULT_LIFECYCLE_CONFIG = Some a1 /\
    deriveAccess (user_exp "2026-09-29T00:00:00.000Z") (NOW + 40 * DAY_MS) DEFAULT_LIFECYCLE_CONFIG = Some a2 /\
    rank (status a1) <= rank (status a2).
Proof.
  destruct (deriveAccess (user_exp "2026-09-29T00:00:00.000Z") NOW DEFAULT_LIFECYCLE_CONFIG) as [a1|] eqn:E1.
  2:{ vm_compute in E1. discriminate. }
  destruct (deriveAccess (user_exp "2026-09-29T00:00:00.000Z") (NOW + 40 * DAY_MS) DEFAULT_LIFECYCLE_CONFIG)
    as [a2|] eqn:E2.
  2:{ vm_compute in E2. discriminate. }
  exists a1, a2. split; [reflexivity|]. split; [reflexivity|].
  apply (deriveAccess_monotone JNull DEFAULT_LIFECYCLE_CONFIG (user_exp "2026-09-29T00:00:00.000Z")
    NOW (NOW + 40 * DAY_MS) a1 a2 eq_refl); [unfold NOW, DAY_MS; lia | exact E1 | exact E2].
Defined.

Lemma purge_due_iff_closed_witness :
  exists a, deriveAccess (user_exp "2026-06-01T00:00:00.000Z") NOW DEFAULT_LIFECYCLE_CONFIG = Some a
    /\ ((exists d, purgeAt a = Some d /\ reached NOW d = true) <-> status a = CLOSED).
Proof.
  destruct (deriveAccess (user_exp "2026-06-01T00:00:00.000Z") NOW DEFAULT_LIFECYCLE_CONFIG) as [a|] eqn:E.
  2:{ vm_compute in E. discriminate. }
  exists a. split; [reflexivity|].
  apply (purge_due_iff_closed (user_exp "2026-06-01T00:00:00.000Z") NOW DEFAULT_LIFECYCLE_CONFIG a E).
Defined.

Lemma parseLifecycleConfig_sound_witness :
  exists c, loadLifecycleConfig "config/lifecycle.yml" (YamlDoc cfg_raw) = Ok c /\ config_ok c.
Proof.
  eexists. split; [reflexivity|].
  apply (parseLifecycleConfig_sound "config/lifecycle.yml" (YamlDoc cfg_raw)). reflexivity.
Defined.
End LifecycleExamples.
