(* ===== verification/Entitlement.v ===== *)
(** * Entitlement requests (packages/db/src/entitlement.ts)

    [parseEntitlementRequest] validates an untyped request body,
    [computeEntitlement] computes the new expiry and allowance. *)

From S2P Require Import Prelude Js Dates Lifecycle.

Inductive EntitlementMode := extend | upgrade.
Inductive EntitlementSource := payment | admin.

#[export] Instance EntitlementMode_eq_dec : EqDecision EntitlementMode.
Proof. solve_decision. Defined.
#[export] Instance EntitlementSource_eq_dec : EqDecision EntitlementSource.
Proof. solve_decision. Defined.

Record EntitlementError := { ee_status : Z; ee_code : string }.

Record ParsedEntitlementRequest := {
  pr_durationDays : Z;
  pr_storageBytes : jsval;
  pr_source : EntitlementSource;
  pr_storageBytesBig : Z;
  pr_mode : option EntitlementMode;
  pr_force : bool;
  pr_paymentHash : option string;
  pr_planExpiresAt : option string
}.

Definition MAX_DURATION_DAYS : Z := 36500.

Definition ent_error {A} (st : Z) (code : string) : exc EntitlementError A :=
  Throw {| ee_status := st; ee_code := code |}.

Definition is_object (v : jsval) : bool := match v with JObj _ | JArr _ => true | _ => false end.

Definition parse_duration (v : jsval) : exc EntitlementError Z :=
  match v with
  | JNum n => match num_int n with
              | Some z => if (z <=? 0) || (MAX_DURATION_DAYS <? z) then ent_error 400 "invalid_duration"
                          else Ok z
              | None => ent_error 400 "invalid_duration"
              end
  | _ => ent_error 400 "invalid_duration"
  end.

Definition parse_source (v : jsval) : exc EntitlementError EntitlementSource :=
  match v with
  | JStr s => if String.eqb s "payment" then Ok payment
              else if String.eqb s "admin" then Ok admin
              else ent_error 400 "invalid_source"
  | _ => ent_error 400 "invalid_source"
  end.

Definition parse_bytes (v : jsval) : exc EntitlementError Z :=
  match BigInt v with
  | Some z => if z <=? 0 then ent_error 400 "invalid_storage_bytes" else Ok z
  | None => ent_error 400 "invalid_storage_bytes"
  end.

Definition parse_mode (v : jsval) : exc EntitlementError (option EntitlementMode) :=
  match v with
  | JUndefined => Ok None
  | JStr s => if String.eqb s "extend" then Ok (Some extend)
              else if String.eqb s "upgrade" then Ok (Some upgrade)
              else ent_error 400 "invalid_mode"
  | _ => ent_error 400 "invalid_mode"
  end.

Definition parse_paymentHash (v : jsval) : exc EntitlementError (option string) :=
  match v with
  | JUndefined => Ok None
  | JStr s => if is_hex64_i s then Ok (Some (toLowerCase s)) else ent_error 400 "invalid_payment_hash"
  | _ => ent_error 400 "invalid_payment_hash"
  end.

Section Parse.
Context `{DateEngine}.

Definition parse_override (source : EntitlementSource) (v : jsval) : exc EntitlementError (option string) :=
  match v with
  | JUndefined => Ok None
  | _ =>
      if decide (source = admin) then
        match v with
        | JStr s => match Date_parse s with
                    | Some _ => Ok (Some s)
                    | None => ent_error 400 "invalid_plan_expires_at"
                    end
        | _ => ent_error 400 "invalid_plan_expires_at"
        end
      else ent_error 403 "expiry_override_requires_admin"
  end.

Definition parseEntitlementRequest (body : jsval) : exc EntitlementError ParsedEntitlementRequest := (
  throw_if negb (is_object body) with {| ee_status := 400; ee_code := "invalid_entitlement" |} then
  let! durationDays := parse_duration (jget body "durationDays") in
  let! source := parse_source (jget body "source") in
  let! storageBytesBig := parse_bytes (jget body "storageBytes") in
  let! mode := parse_mode (jget body "mode") in
  let force := match jget body "force" with JBool b => b | _ => false end in
  throw_if force && bool_decide (source <> admin)
    with {| ee_status := 403; ee_code := "force_requires_admin" |} then
  let! paymentHash := parse_paymentHash (jget body "paymentHash") in
  throw_if bool_decide (source = payment) && bool_decide (paymentHash = None)
    with {| ee_status := 400; ee_code := "payment_hash_required" |} then
  let! override := parse_override source (jget body "planExpiresAt") in
  Ok {| pr_durationDays := durationDays; pr_storageBytes := jget body "storageBytes";
        pr_source := source; pr_storageBytesBig := storageBytesBig; pr_mode := mode;
        pr_force := force; pr_paymentHash := paymentHash; pr_planExpiresAt := override |})%exc.

(** ** The effect *)

Record UserEntitlement := { ue_planExpiresAt : option Z; ue_storageBytes : option Z }.

Record EntitlementEffect := { ef_planExpiresAt : jsdate; ef_storageBytes : option Z }.

(** [user.planExpiresAt !== null && user.planExpiresAt.getTime() > now.getTime()] *)
Definition live (u : UserEntitlement) (now : Z) : bool :=
  match ue_planExpiresAt u with Some e => now <? e | None => false end.

Definition computeEntitlement (u : UserEntitlement) (r : ParsedEntitlementRequest) (now : Z)
  : exc EntitlementError EntitlementEffect :=
  let lv := live u now in
  if lv && negb (pr_force r) && bool_decide (pr_mode r = None) then ent_error 409 "mode_required" else
  let mode := default extend (pr_mode r) in
  let base := Z.max now (default 0 (ue_planExpiresAt u)) in
  let planExpiresAt := mkDate (base + pr_durationDays r * DAY_MS) in
  let preserve := bool_decide (mode = extend) && lv && negb (pr_force r) in
  Ok {| ef_planExpiresAt :=
          match pr_planExpiresAt r with
          | Some s => if String.eqb s "" then planExpiresAt else Date_parse s
          | None => planExpiresAt
          end;
        ef_storageBytes := if preserve then ue_storageBytes u else Some (pr_storageBytesBig r) |}.

(** ** What a parsed request guarantees *)

Record request_ok (r : ParsedEntitlementRequest) : Prop := {
  ro_days : 0 < pr_durationDays r <= MAX_DURATION_DAYS;
  ro_bytes : 0 < pr_storageBytesBig r;
  ro_payment : pr_source r = payment ->
    pr_force r = false /\ pr_planExpiresAt r = None /\
    exists h, pr_paymentHash r = Some h;
  ro_hash : forall h, pr_paymentHash r = Some h -> is_hex64 h = true;
  ro_override : forall s, pr_planExpiresAt r = Some s -> pr_source r = admin /\ is_Some (Date_parse s)
}.

Lemma parse_duration_ok v z : parse_duration v = Ok z -> 0 < z <= MAX_DURATION_DAYS.
Proof.
  unfold parse_duration. destruct v; try done. destruct (num_int n) as [w|]; [|done].
  destruct ((w <=? 0) || (MAX_DURATION_DAYS <? w)) eqn:E; [done|].
  intros [= <-]. unfold MAX_DURATION_DAYS in *. lia.
Qed.

Lemma parse_bytes_ok v z : parse_bytes v = Ok z -> 0 < z.
Proof.
  unfold parse_bytes. destruct (BigInt v) as [w|]; [|done].
  destruct (w <=? 0) eqn:E; [done|]. intros [= <-]. lia.
Qed.

Lemma parse_paymentHash_ok v o h :
  parse_paymentHash v = Ok o -> o = Some h -> is_hex64 h = true.
Proof.
  unfold parse_paymentHash. destruct v; try (intros [= <-]; done); try done.
  destruct (is_hex64_i s) eqn:E; [|done]. intros [= <-] [= <-]. by apply is_hex64_lower.
Qed.

Lemma parse_override_ok src v o :
  parse_override src v = Ok o ->
  (src = payment -> o = None) /\ forall s, o = Some s -> src = admin /\ is_Some (Date_parse s).
Proof.
  unfold parse_override.
  destruct v; try (intros [= <-]; naive_solver);
    (destruct (decide (src = admin)) as [->|]; [|done]); try done.
  destruct (Date_parse s) eqn:E; [|done]. intros [= <-]. naive_solver.
Qed.

Lemma parseEntitlementRequest_ok body r :
  parseEntitlementRequest body = Ok r -> request_ok r.
Proof.
  unfold parseEntitlementRequest. intros H0. exc_inv H0. simplify_eq.
  apply parse_override_ok in Hv4 as [Ho1 Ho2].
  constructor; simpl.
  - by apply parse_duration_ok in Hv.
  - by apply parse_bytes_ok in Hv1.
  - intros ->. rewrite bool_decide_eq_true_2 in Hg0 by done. rewrite andb_true_r in Hg0.
    split; [done|]. split; [by apply Ho1|].
    rewrite bool_decide_eq_true_2 in Hg1 by done. simpl in Hg1. zbool.
    destruct v3; [eauto | done].
  - intros h. by eapply parse_paymentHash_ok.
  - done.
Qed.

(** ** The effect, case by case *)

Lemma computeEntitlement_ok_iff u r now :
  is_ok (computeEntitlement u r now) = true <->
  ~ (live u now = true /\ pr_force r = false /\ pr_mode r = None).
Proof.
  unfold computeEntitlement.
  destruct (live u now); destruct (pr_force r); destruct (pr_mode r); simpl; naive_solver.
Qed.

Lemma computeEntitlement_no_override u r now e :
  pr_planExpiresAt r = None -> computeEntitlement u r now = Ok e ->
  ef_planExpiresAt e = mkDate (Z.max now (default 0 (ue_planExpiresAt u)) + pr_durationDays r * DAY_MS).
Proof.
  intros Ho. unfold computeEntitlement. rewrite Ho. case_match; [done|]. by intros [= <-].
Qed.

Lemma computeEntitlement_allowance u r now e :
  computeEntitlement u r now = Ok e ->
  ef_storageBytes e =
    if live u now && negb (pr_force r) && bool_decide (pr_mode r = Some extend)
    then ue_storageBytes u else Some (pr_storageBytesBig r).
Proof.
  unfold computeEntitlement. case_match eqn:E; [done|]. intros [= <-]. simpl.
  destruct (live u now), (pr_force r), (pr_mode r) as [[]|]; simpl in *; done.
Qed.

Lemma computeEntitlement_valid u r now e t :
  computeEntitlement u r now = Ok e -> ef_planExpiresAt e = Some t -> valid_time t = true.
Proof.
  assert (forall x, mkDate x = Some t -> valid_time t = true) as Hm.
  { intros x. unfold mkDate. case_match; [by intros [= <-] | done]. }
  unfold computeEntitlement. case_match; [done|]. intros [= <-]. simpl.
  destruct (pr_planExpiresAt r) as [s|]; [|apply Hm].
  destruct (String.eqb s ""); [apply Hm | apply Date_parse_valid].
Qed.

Lemma computeEntitlement_bytes u r now e :
  (ue_planExpiresAt u = None <-> ue_storageBytes u = None) ->
  computeEntitlement u r now = Ok e -> is_Some (ef_storageBytes e).
Proof.
  intros Hp He. rewrite (computeEntitlement_allowance _ _ _ _ He). case_match eqn:E; [|by eexists].
  zbool. unfold live in *. destruct (ue_planExpiresAt u); [|done].
  destruct (ue_storageBytes u); [by eexists | naive_solver].
Qed.

End Parse.

(** ** Properties *)

Section Properties.
Context `{DateEngine}.

(** C22: a request that passes the parser has a duration of 1 to 36500 days and
    a positive allowance; if it comes from a payment it carries a lower-case
    hex payment hash and neither forces nor overrides the expiry. *)
Theorem parseEntitlementRequest_sound body r :
  parseEntitlementRequest body = Ok r -> request_ok r.
Proof. apply parseEntitlementRequest_ok. Qed.

(** A paid grant adds exactly the purchased days on top of the later of
    now and the current expiry, so no remaining day is lost, and it changes
    the allowance exactly when it is not a renewal of a live plan. *)
Theorem payment_grant_additive body r u now e :
  parseEntitlementRequest body = Ok r -> pr_source r = payment ->
  (forall x, ue_planExpiresAt u = Some x -> valid_time x = true) ->
  0 <= now -> valid_time (Z.max now (default 0 (ue_planExpiresAt u)) + pr_durationDays r * DAY_MS) = true ->
  computeEntitlement u r now = Ok e ->
  exists t, ef_planExpiresAt e = Some t /\
    t = Z.max now (default 0 (ue_planExpiresAt u)) + pr_durationDays r * DAY_MS /\
    now + DAY_MS <= t /\ (forall x, ue_planExpiresAt u = Some x -> x + DAY_MS <= t) /\
    ef_storageBytes e =
      (if live u now && bool_decide (pr_mode r = Some extend)
       then ue_storageBytes u else Some (pr_storageBytesBig r)).
Proof.
  intros Hr%parseEntitlementRequest_ok Hs Hu Hn Hv He. destruct Hr as [Hd Hb Hp _ _].
  destruct (Hp Hs) as (Hf & Ho & _).
  rewrite (computeEntitlement_no_override _ _ _ _ Ho He), (computeEntitlement_allowance _ _ _ _ He), Hf.
  rewrite mkDate_valid by done. eexists. split; [done|]. split; [done|].
  assert (DAY_MS <= pr_durationDays r * DAY_MS) by (unfold DAY_MS; lia).
  split; [lia|]. split.
  - intros x Hx. rewrite Hx in *. simpl. lia.
  - simpl. by rewrite andb_true_r.
Qed.

(** [computeEntitlement] fails exactly for a request without mode against
    a live plan that is not forced, and then with 409 mode_required. *)
Theorem computeEntitlement_total u r now :
  match computeEntitlement u r now with
  | Ok _ => ~ (live u now = true /\ pr_force r = false /\ pr_mode r = None)
  | Throw err => err = {| ee_status := 409; ee_code := "mode_required" |} /\
                 live u now = true /\ pr_force r = false /\ pr_mode r = None
  end.
Proof.
  pose proof (computeEntitlement_ok_iff u r now) as Hiff.
  destruct (computeEntitlement u r now) eqn:E; simpl in Hiff; [tauto|].
  unfold computeEntitlement in E. case_match eqn:Hc; [|done]. unfold ent_error in E.
  simplify_eq. destruct (live u now), (pr_force r), (pr_mode r); naive_solver.
Qed.

(** Right after a purchase the account is usable: with usage within the
    new allowance, the derived state is ACTIVE until the new expiry. *)
Theorem purchase_activates body r u now e raw c now' used a :
  parseEntitlementRequest body = Ok r -> pr_source r = payment -> 0 <= now ->
  computeEntitlement u r now = Ok e ->
  parseLifecycleConfig raw = Ok c ->
  (forall al, ef_storageBytes e = Some al -> used <= al) ->
  deriveAccess {| ed_planExpiresAt := DDate (ef_planExpiresAt e);
                  ed_storageBytes := BBig <$> ef_storageBytes e;
                  ed_usedStorage := BBig used |} now' c = Some a ->
  forall t, ef_planExpiresAt e = Some t -> now' < t -> window_valid t c ->
  status a = ACTIVE /\ canUpload a = true /\ canRead a = true.
Proof.
  intros Hr Hs Hn He Hc Hu Ha t Ht Hlt Hw. pose proof Hc as Hc'%parse_config_ok.
  apply deriveAccess_inv in Ha as (al & u' & -> & Hu' & Hal & _). simpl in *. simplify_eq.
  rewrite Ht.
  assert (status (accessOf (Some t) (match BBig <$> ef_storageBytes e with Some b => BigInt_in b | None => None end)
    u' now' c) = ACTIVE) as Hst.
  { rewrite accessOf_timeline by done. unfold timeline. replace (now' <? t) with true by lia.
    destruct (ef_storageBytes e) as [al|]; simpl; [|done].
    specialize (Hu al eq_refl). by replace (al <? u') with false by lia. }
  pose proof (accessOf_permissions (Some t)
    (match BBig <$> ef_storageBytes e with Some b => BigInt_in b | None => None end) u' now' c) as (H1 & H2 & _).
  rewrite H1, H2, Hst. done.
Qed.

End Properties.

(** ** Witnesses *)

Module EntitlementExamples.
Import LifecycleExamples.

Definition hash64 : string :=
  "aaaaaaaaaaaaaaaaaaaaaaaaaaaaaaaaaaaaaaaaaaaaaaaaaaaaaaaaaaaaaaaa".
Definition body : jsval :=
  JObj [("durationDays", JNum (num_Z 30)); ("storageBytes", JStr "500000000");
        ("source", JStr "payment"); ("mode", JStr "extend"); ("paymentHash", JStr hash64)].
Definition req : ParsedEntitlementRequest :=
  {| pr_durationDays := 30; pr_storageBytes := JStr "500000000"; pr_source := payment;
     pr_storageBytesBig := 500000000; pr_mode := Some extend; pr_force := false;
     pr_paymentHash := Some hash64; pr_planExpiresAt := None |}.
Definition live_user : UserEntitlement :=
  {| ue_planExpiresAt := Some (NOW + 10 * DAY_MS); ue_storageBytes := Some 2000000000 |}.

Example body_parses : parseEntitlementRequest body = Ok req.
Proof. reflexivity. Qed.

Lemma parseEntitlementRequest_sound_witness :
  parseEntitlementRequest body = Ok req /\ request_ok req.
Proof. split; [reflexivity | apply (parseEntitlementRequest_sound body req); reflexivity]. Defined.

Lemma payment_grant_additive_witness :
  exists e t, computeEntitlement live_user req NOW = Ok e /\ ef_planExpiresAt e = Some t /\
    t = NOW + 40 * DAY_MS /\ ef_storageBytes e = Some 2000000000.
Proof.
  destruct (computeEntitlement live_user req NOW) as [e|] eqn:E.
  2:{ vm_compute in E. discriminate. }
  destruct (payment_grant_additive body req live_user NOW e) as (t & H1 & H2 & _ & _ & H3).
  - reflexivity.
  - reflexivity.
  - intros x Hx. vm_compute in Hx. injection Hx as <-. reflexivity.
  - unfold NOW. lia.
  - reflexivity.
  - exact E.
  - exists e, t. split; [reflexivity|]. split; [exact H1|].
    split; [rewrite H2; reflexivity | rewrite H3; reflexivity].
Defined.

Lemma purchase_activates_witness :
  exists e a, computeEntitlement live_user req NOW = Ok e /\
    deriveAccess {| ed_planExpiresAt := DDate (ef_planExpiresAt e);
                    ed_storageBytes := BBig <$> ef_storageBytes e;
                    ed_usedStorage := BBig 100 |} (NOW + DAY_MS) DEFAULT_LIFECYCLE_CONFIG = Some a /\
    status a = ACTIVE.
Proof.
  eexists _, _. split; [reflexivity|]. split; [reflexivity|].
  refine (proj1 (purchase_activates body req live_user NOW _ JNull DEFAULT_LIFECYCLE_CONFIG
    (NOW + DAY_MS) 100 _ eq_refl eq_refl _ eq_refl eq_refl _ eq_refl _ eq_refl _ _)).
  - unfold NOW. lia.
  - intros al Hal. vm_compute in Hal. injection Hal as <-. lia.
  - unfold NOW, DAY_MS. simpl. lia.
  - split; reflexivity.
Defined.
End EntitlementExamples.
