(* ===== verification/Db.v ===== *)
(** * The database: tables and statements

    The tables of packages/db/prisma/schema.prisma, the Prisma statements the
    handlers use (with the errors the schema's constraints raise) and the
    serialisers of packages/db/src/serialize.ts. A statement is a [tx]
    computation: it reads and changes the tables or fails with an error, and a
    failed transaction leaves the tables as they were. *)

From S2P Require Import Prelude Js Dates Http Lifecycle Entitlement.

(** ** Rows *)

Record User := {
  u_npub : string;
  u_planExpiresAt : option Z;
  u_storageBytes : option Z;
  u_usedStorage : Z;
  u_createdAt : Z
}.

Record Blob := {
  b_hash : string;
  b_npub : string;
  b_size : Z;
  b_replicas : list string;
  b_createdAt : Z
}.

Record EntitlementGrant := { g_npub : string; g_createdAt : Z }.

Record ServiceAccount := {
  sa_label : option string;
  sa_enabled : bool;
  sa_createdAt : Z
}.

Record NotificationLog := {
  n_id : string;
  n_npub : string;
  n_kind : string;
  n_ref : option string;
  n_channel : string;
  n_sentAt : Z
}.

Record ModerationAction := {
  m_id : string;
  m_hash : string;
  m_npub : string;
  m_adminNpub : string;
  m_reason : string;
  m_createdAt : Z
}.

Inductive MeshRole := CLIENT | ADMIN.
Inductive MeshStatus := M_ACTIVE | M_REVOKED.
Inductive StorageLifecycle := LINKED | REMOVED.

#[export] Instance MeshRole_eq_dec : EqDecision MeshRole.
Proof. solve_decision. Defined.
#[export] Instance MeshStatus_eq_dec : EqDecision MeshStatus.
Proof. solve_decision. Defined.
#[export] Instance StorageLifecycle_eq_dec : EqDecision StorageLifecycle.
Proof. solve_decision. Defined.

Record MeshMember := {
  mm_role : MeshRole;
  mm_status : MeshStatus;
  mm_addedByNpub : option string;
  mm_createdAt : Z;
  mm_updatedAt : Z
}.

Record StorageProvider := {
  sp_npub : string;
  sp_ownerNpub : string;
  sp_tunnelIp : option string;
  sp_blossomPort : option Z;
  sp_pgAgentPort : option Z;
  sp_declaredCapacityBytes : option Z;
  sp_reportedTotalBytes : option Z;
  sp_reportedFreeBytes : option Z;
  sp_lifecycle : StorageLifecycle;
  sp_lastPingAt : option Z;
  sp_createdAt : Z
}.

(** Blob rows, notifications and moderation actions are kept in the order in
    which they were inserted; the other tables are keyed by their primary key. *)
Record Db := {
  users : gmap string User;
  blobs : list Blob;
  grants : gmap string EntitlementGrant;
  accounts : gmap string ServiceAccount;
  notifications : list NotificationLog;
  moderation : list ModerationAction;
  members : gmap string MeshMember;
  storages : gmap string StorageProvider
}.

Definition set_users (f : gmap string User -> gmap string User) (db : Db) : Db :=
  {| users := f (users db); blobs := blobs db; grants := grants db; accounts := accounts db;
     notifications := notifications db; moderation := moderation db; members := members db;
     storages := storages db |}.
Definition set_blobs (f : list Blob -> list Blob) (db : Db) : Db :=
  {| users := users db; blobs := f (blobs db); grants := grants db; accounts := accounts db;
     notifications := notifications db; moderation := moderation db; members := members db;
     storages := storages db |}.
Definition set_grants (f : gmap string EntitlementGrant -> gmap string EntitlementGrant) (db : Db) : Db :=
  {| users := users db; blobs := blobs db; grants := f (grants db); accounts := accounts db;
     notifications := notifications db; moderation := moderation db; members := members db;
     storages := storages db |}.
Definition set_accounts (f : gmap string ServiceAccount -> gmap string ServiceAccount) (db : Db) : Db :=
  {| users := users db; blobs := blobs db; grants := grants db; accounts := f (accounts db);
     notifications := notifications db; moderation := moderation db; members := members db;
     storages := storages db |}.
Definition set_notifications (f : list NotificationLog -> list NotificationLog) (db : Db) : Db :=
  {| users := users db; blobs := blobs db; grants := grants db; accounts := accounts db;
     notifications := f (notifications db); moderation := moderation db; members := members db;
     storages := storages db |}.
Definition set_moderation (f : list ModerationAction -> list ModerationAction) (db : Db) : Db :=
  {| users := users db; blobs := blobs db; grants := grants db; accounts := accounts db;
     notifications := notifications db; moderation := f (moderation db); members := members db;
     storages := storages db |}.
Definition set_members (f : gmap string MeshMember -> gmap string MeshMember) (db : Db) : Db :=
  {| users := users db; blobs := blobs db; grants := grants db; accounts := accounts db;
     notifications := notifications db; moderation := moderation db; members := f (members db);
     storages := storages db |}.
Definition set_storages (f : gmap string StorageProvider -> gmap string StorageProvider) (db : Db) : Db :=
  {| users := users db; blobs := blobs db; grants := grants db; accounts := accounts db;
     notifications := notifications db; moderation := moderation db; members := members db;
     storages := f (storages db) |}.

(** ** Statements *)

(** What a statement or a transaction body can fail with: a Prisma error with a
    code, a value a column cannot hold, or an error the body throws. *)
Inductive tx_error :=
| P2002 | P2003 | P2025
| InvalidValue
| QuotaExceededError | AlreadyExistsError
| EntError (e : EntitlementError).

Definition prismaErrorCode (e : tx_error) : option string :=
  match e with
  | P2002 => Some "P2002" | P2003 => Some "P2003" | P2025 => Some "P2025"
  | _ => None
  end.

Definition tx (A : Type) : Type := Db -> exc tx_error (A * Db).

Definition tx_ret {A} (a : A) : tx A := fun db => Ok (a, db).
Definition tx_throw {A} (e : tx_error) : tx A := fun _ => Throw e.
Definition tx_bind {A B} (m : tx A) (k : A -> tx B) : tx B :=
  fun db => match m db with Ok (a, db') => k a db' | Throw e => Throw e end.
Definition tx_lift {A} (r : exc EntitlementError A) : tx A :=
  match r with Ok a => tx_ret a | Throw e => tx_throw (EntError e) end.

Declare Scope tx_scope.
Delimit Scope tx_scope with tx.
Notation "'do!' x := m 'in' k" := (tx_bind m (fun x => k))
  (at level 10, x pattern, m at level 100, k at level 200) : tx_scope.

(** [prisma.$transaction(body)]: all or nothing. *)
Definition transaction {A} (body : tx A) (db : Db) : exc tx_error A * Db :=
  match body db with Ok (a, db') => (Ok a, db') | Throw e => (Throw e, db) end.

(** BIGINT and INTEGER columns. *)
Definition int64 (z : Z) : bool := (- 2 ^ 63 <=? z) && (z <? 2 ^ 63).
Definition int32 (z : Z) : bool := (- 2 ^ 31 <=? z) && (z <? 2 ^ 31).
Definition int64_opt (z : option Z) : bool := match z with Some z => int64 z | None => true end.

Definition blob_key (b : Blob) : string * string := (b_hash b, b_npub b).
Definition has_blob (hash npub : string) (b : Blob) : Prop := blob_key b = (hash, npub).
#[export] Instance has_blob_dec hash npub b : Decision (has_blob hash npub b) := decide (_ = _).

(** [user.findUnique] *)
Definition user_find (npub : string) : tx (option User) := fun db => Ok (users db !! npub, db).

(** [user.update({ where: { npub }, data })]; [f] is [None] when a value does
    not fit its column. *)
Definition user_update (npub : string) (f : User -> option User) : tx User := fun db =>
  match users db !! npub with
  | None => Throw P2025
  | Some u => match f u with
              | Some u' => Ok (u', set_users <[npub := u']> db)
              | None => Throw InvalidValue
              end
  end.

(** [user.upsert({ where: { npub }, update: {}, create: { npub } })] *)
Definition user_upsert (npub : string) (now : Z) : tx User := fun db =>
  match users db !! npub with
  | Some u => Ok (u, db)
  | None =>
      let u := {| u_npub := npub; u_planExpiresAt := None; u_storageBytes := None;
                  u_usedStorage := 0; u_createdAt := now |} in
      Ok (u, set_users <[npub := u]> db)
  end.

Definition set_used (z : Z) (u : User) : User :=
  {| u_npub := u_npub u; u_planExpiresAt := u_planExpiresAt u; u_storageBytes := u_storageBytes u;
     u_usedStorage := z; u_createdAt := u_createdAt u |}.

(** [data: { usedStorage: { increment: d } }] *)
Definition increment_used (d : Z) (u : User) : option User :=
  if int64 (u_usedStorage u + d) then Some (set_used (u_usedStorage u + d) u) else None.

(** [data: { usedStorage: z }] *)
Definition assign_used (z : Z) (u : User) : option User :=
  if int64 z then Some (set_used z u) else None.

(** [data: { planExpiresAt, storageBytes }]; an invalid Date is refused. *)
Definition assign_plan (expires : jsdate) (bytes : option Z) (u : User) : option User :=
  match expires with
  | Some t =>
      if int64_opt bytes then
        Some {| u_npub := u_npub u; u_planExpiresAt := Some t; u_storageBytes := bytes;
                u_usedStorage := u_usedStorage u; u_createdAt := u_createdAt u |}
      else None
  | None => None
  end.

(** [blob.findUnique({ where: { hash_npub } })] *)
Definition blob_find (hash npub : string) : tx (option Blob) := fun db =>
  Ok (find_first (fun b => bool_decide (has_blob hash npub b)) (blobs db), db).

(** [blob.findMany({ where })] *)
Definition blob_findMany (p : Blob -> bool) : tx (list Blob) := fun db =>
  Ok (filter (fun b => p b = true) (blobs db), db).

(** [blob.create({ data })] *)
Definition blob_create (b : Blob) : tx Blob := fun db =>
  if negb (int64 (b_size b)) then Throw InvalidValue
  else if existsb (fun b' => bool_decide (blob_key b' = blob_key b)) (blobs db) then Throw P2002
  else match users db !! b_npub b with
       | None => Throw P2003
       | Some _ => Ok (b, set_blobs (fun l => l ++ [b]) db)
       end.

(** [blob.delete({ where: { hash_npub } })] *)
Definition blob_delete (hash npub : string) : tx Blob := fun db =>
  match find_first (fun b => bool_decide (has_blob hash npub b)) (blobs db) with
  | None => Throw P2025
  | Some b => Ok (b, set_blobs (filter (fun b => ~ has_blob hash npub b)) db)
  end.

(** [blob.deleteMany({ where: { npub } })] *)
Definition blob_deleteMany (npub : string) : tx unit := fun db =>
  Ok (tt, set_blobs (filter (fun b => b_npub b <> npub)) db).

(** [blob.count({ where: { hash } })] *)
Definition blob_count (hash : string) : tx Z := fun db =>
  Ok (Z.of_nat (length (filter (fun b => b_hash b = hash) (blobs db))), db).

(** [entitlementGrant.create({ data: { paymentHash, npub } })] *)
Definition grant_create (paymentHash npub : string) (now : Z) : tx unit := fun db =>
  match grants db !! paymentHash with
  | Some _ => Throw P2002
  | None => Ok (tt, set_grants <[paymentHash := {| g_npub := npub; g_createdAt := now |}]> db)
  end.

(** ** Serialisers *)

Record UserJson := {
  uj_npub : string;
  uj_planExpiresAt : option string;
  uj_storageBytes : option string;
  uj_usedStorage : string;
  uj_createdAt : string
}.

Record BlobJson := {
  bj_hash : string;
  bj_npub : string;
  bj_size : string;
  bj_replicas : list string;
  bj_createdAt : string
}.

(** [d?.toISOString() ?? null]; the outer [None] is a RangeError. *)
Definition iso_opt (d : option Z) : option (option string) :=
  match d with
  | None => Some None
  | Some t => Some <$> toISOString t
  end.

Definition userToJson (user : User) : option UserJson :=
  planExpiresAt ← iso_opt (u_planExpiresAt user);
  createdAt ← toISOString (u_createdAt user);
  Some {| uj_npub := u_npub user; uj_planExpiresAt := planExpiresAt;
          uj_storageBytes := Z_to_string <$> u_storageBytes user;
          uj_usedStorage := Z_to_string (u_usedStorage user); uj_createdAt := createdAt |}.

Definition blobToJson (blob : Blob) : option BlobJson :=
  createdAt ← toISOString (b_createdAt blob);
  Some {| bj_hash := b_hash blob; bj_npub := b_npub blob; bj_size := Z_to_string (b_size blob);
          bj_replicas := b_replicas blob; bj_createdAt := createdAt |}.

Record MeshMemberJson := {
  mj_npub : string;
  mj_role : string;
  mj_status : string;
  mj_addedByNpub : option string;
  mj_createdAt : string;
  mj_updatedAt : string;
  mj_storageCount : option Z
}.

Definition role_string (r : MeshRole) : string := match r with CLIENT => "CLIENT" | ADMIN => "ADMIN" end.
Definition mesh_status_string (s : MeshStatus) : string :=
  match s with M_ACTIVE => "ACTIVE" | M_REVOKED => "REVOKED" end.
Definition lifecycle_string (l : StorageLifecycle) : string :=
  match l with LINKED => "LINKED" | REMOVED => "REMOVED" end.

Definition meshMemberToJson (npub : string) (m : MeshMember) (storageCount : option Z) : option MeshMemberJson :=
  createdAt ← toISOString (mm_createdAt m);
  updatedAt ← toISOString (mm_updatedAt m);
  Some {| mj_npub := npub; mj_role := role_string (mm_role m);
          mj_status := mesh_status_string (mm_status m); mj_addedByNpub := mm_addedByNpub m;
          mj_createdAt := createdAt; mj_updatedAt := updatedAt; mj_storageCount := storageCount |}.

Record StorageProviderJson := {
  sj_npub : string;
  sj_ownerNpub : string;
  sj_tunnelIp : option string;
  sj_blossomPort : option Z;
  sj_pgAgentPort : option Z;
  sj_declaredCapacityBytes : option string;
  sj_reportedTotalBytes : option string;
  sj_reportedFreeBytes : option string;
  sj_lifecycle : string;
  sj_lastPingAt : option string;
  sj_createdAt : string
}.

Definition storageProviderToJson (s : StorageProvider) : option StorageProviderJson :=
  lastPingAt ← iso_opt (sp_lastPingAt s);
  createdAt ← toISOString (sp_createdAt s);
  Some {| sj_npub := sp_npub s; sj_ownerNpub := sp_ownerNpub s; sj_tunnelIp := sp_tunnelIp s;
          sj_blossomPort := sp_blossomPort s; sj_pgAgentPort := sp_pgAgentPort s;
          sj_declaredCapacityBytes := Z_to_string <$> sp_declaredCapacityBytes s;
          sj_reportedTotalBytes := Z_to_string <$> sp_reportedTotalBytes s;
          sj_reportedFreeBytes := Z_to_string <$> sp_reportedFreeBytes s;
          sj_lifecycle := lifecycle_string (sp_lifecycle s);
          sj_lastPingAt := lastPingAt; sj_createdAt := createdAt |}.

Record NotificationJson := {
  nj_id : string;
  nj_npub : string;
  nj_kind : string;
  nj_ref : option string;
  nj_channel : string;
  nj_sentAt : string
}.

Definition notificationToJson (n : NotificationLog) : option NotificationJson :=
  sentAt ← toISOString (n_sentAt n);
  Some {| nj_id := n_id n; nj_npub := n_npub n; nj_kind := n_kind n; nj_ref := n_ref n;
          nj_channel := n_channel n; nj_sentAt := sentAt |}.

Record ModerationJson := {
  oj_id : string;
  oj_hash : string;
  oj_npub : string;
  oj_adminNpub : string;
  oj_reason : string;
  oj_createdAt : string
}.

Definition moderationToJson (a : ModerationAction) : option ModerationJson :=
  createdAt ← toISOString (m_createdAt a);
  Some {| oj_id := m_id a; oj_hash := m_hash a; oj_npub := m_npub a; oj_adminNpub := m_adminNpub a;
          oj_reason := m_reason a; oj_createdAt := createdAt |}.

(** ** The accounting invariant *)

Definition owned (npub : string) (l : list Blob) : list Blob := filter (fun b => b_npub b = npub) l.
Definition used_by (npub : string) (l : list Blob) : Z := sumZ b_size (owned npub l).

Record user_ok (npub : string) (u : User) (l : list Blob) : Prop := {
  uo_key : u_npub u = npub;
  uo_used : u_usedStorage u = used_by npub l;
  uo_int64 : int64 (u_usedStorage u) = true /\ int64_opt (u_storageBytes u) = true;
  uo_plan : u_planExpiresAt u = None <-> u_storageBytes u = None;
  uo_dates : valid_time (u_createdAt u) = true /\
             forall t, u_planExpiresAt u = Some t -> valid_time t = true
}.

Record db_ok (db : Db) : Prop := {
  do_users : forall npub u, users db !! npub = Some u -> user_ok npub u (blobs db);
  do_keys : NoDup (blob_key <$> blobs db);
  do_owner : forall b, b ∈ blobs db -> is_Some (users db !! b_npub b);
  do_blobs : forall b, b ∈ blobs db -> int64 (b_size b) = true /\ valid_time (b_createdAt b) = true;
  do_grants : forall h g, grants db !! h = Some g -> is_Some (users db !! g_npub g)
}.
