(* ===== verification/DbApi.v ===== *)
(** * db-api: blobs, users and the audit tables

    The handlers of packages/db/src/index.ts and of routes/users.ts, admin.ts,
    notifications.ts, moderation.ts and service-accounts.ts, behind the service
    gate. A request is what the handler reads of it, with the body's declared
    field types; [now] is the server's clock. *)

From S2P Require Import Prelude Js Dates Http Lifecycle Entitlement Db.

(** ** Blobs (index.ts) *)

Definition getBlobsTotal (db : Db) : string := Z_to_string (sumZ b_size (blobs db)).

Definition rows_of_hash (hash : string) (db : Db) : list Blob :=
  order_asc b_createdAt (filter (fun b => b_hash b = hash) (blobs db)).

(** [GET /blobs/:hash] *)
Definition getBlob (hash : string) (db : Db) : reply (BlobJson * list string) :=
  match rows_of_hash hash db with
  | [] => Err 404 "not_found"
  | first :: _ => send 200 (j ← blobToJson first; Some (j, b_npub <$> rows_of_hash hash db))
  end.

Record PostBlob := {
  pb_hash : string;
  pb_npub : string;
  pb_size : jsval;
  pb_replicas : list string
}.

Definition over_allowance (u : User) (size : Z) : bool :=
  match u_storageBytes u with Some a => a <? u_usedStorage u + size | None => false end.

(** The body of the transaction of [POST /blobs]. *)
Definition postBlob_tx (now : Z) (req : PostBlob) (size : Z) : tx (Blob * User) := (
  do! locked := user_find (pb_npub req) in
  match locked with
  | None => tx_throw P2025
  | Some current =>
      do! dup := blob_find (pb_hash req) (pb_npub req) in
      match dup with
      | Some _ => tx_throw AlreadyExistsError
      | None =>
          if over_allowance current size then tx_throw QuotaExceededError else
          do! blob := blob_create {| b_hash := pb_hash req; b_npub := pb_npub req; b_size := size;
                                     b_replicas := pb_replicas req; b_createdAt := now |} in
          do! user := user_update (pb_npub req) (increment_used size) in
          tx_ret (blob, user)
      end
  end)%tx.

(** [POST /blobs]; the body of a 201 is the blob and the new [usedStorage]. *)
Definition postBlob (now : Z) (req : PostBlob) (db : Db) : reply (BlobJson * string) * Db :=
  match BigInt (pb_size req) with
  | None => (Err 500 "internal_error", db)
  | Some size =>
      let (r, db') := transaction (postBlob_tx now req size) db in
      (match r with
       | Ok (blob, user) => send 201 (j ← blobToJson blob; Some (j, Z_to_string (u_usedStorage user)))
       | Throw QuotaExceededError => Err 409 "quota_exceeded"
       | Throw AlreadyExistsError => Err 409 "already_exists"
       | Throw e =>
           if bool_decide (prismaErrorCode e = Some "P2025") then Err 404 "user_not_found"
           else if bool_decide (prismaErrorCode e = Some "P2002") then Err 409 "already_exists"
           else Err 500 "internal_error"
       end, db')
  end.

Definition delete_where (hash : string) (npub : option string) (all : bool) (b : Blob) : bool :=
  bool_decide (b_hash b = hash) &&
  (all || match npub with Some n => bool_decide (b_npub b = n) | None => true end).

(** The loop over the owner rows; the result is the last [usedStorage]. *)
Fixpoint delete_rows (hash : string) (rows : list Blob) (lastUsed : string) : tx string :=
  match rows with
  | [] => tx_ret lastUsed
  | row :: rows => (
      do! _ := blob_delete hash (b_npub row) in
      do! user := user_update (b_npub row) (increment_used (- b_size row)) in
      delete_rows hash rows (Z_to_string (u_usedStorage user)))%tx
  end.

Definition deleteBlob_tx (hash : string) (npub : option string) (all : bool) : tx (string * Z) := (
  do! rows := blob_findMany (delete_where hash npub all) in
  match rows with
  | [] => tx_throw P2025
  | _ =>
      do! lastUsed := delete_rows hash rows "0" in
      do! remainingOwners := blob_count hash in
      tx_ret (lastUsed, remainingOwners)
  end)%tx.

(** [DELETE /blobs/:hash?npub=&all=]; the body is [usedStorage] and
    [remainingOwners]. *)
Definition deleteBlob (hash : string) (qnpub qall : query_value) (db : Db) : reply (string * Z) * Db :=
  let npub := match qnpub with QStr s => Some s | _ => None end in
  let all := match qall with QStr s => String.eqb s "true" | _ => false end in
  if match npub with Some s => String.eqb s "" | None => true end && negb all then
    (Err 400 "npub_or_all_required", db)
  else
    let (r, db') := transaction (deleteBlob_tx hash npub all) db in
    (match r with
     | Ok res => Res 200 res
     | Throw e => if bool_decide (prismaErrorCode e = Some "P2025") then Err 404 "not_found"
                  else Err 500 "internal_error"
     end, db').

(** ** Users (routes/users.ts) *)

Definition all_users (db : Db) : list User := snd <$> map_to_list (users db).

Definition page_reply {A B} (f : A -> option B) (rows : list A) (p : Pagination) : reply (Page B) :=
  send 200 (js ← mapM f (slice p rows); Some (paginated js (Z.of_nat (length rows)) p)).

Definition attention_rows (db : Db) : list User :=
  order_asc (fun u => default 0 (u_planExpiresAt u))
    (filter (fun u => u_planExpiresAt u <> None) (all_users db)).

(** [GET /users/attention] *)
Definition getAttention (p : Pagination) (db : Db) : reply (Page UserJson) :=
  page_reply userToJson (attention_rows db) p.

(** [GET /users/:npub] *)
Definition getUser (npub : string) (db : Db) : reply UserJson :=
  match users db !! npub with
  | None => Err 404 "not_found"
  | Some user => send 200 (userToJson user)
  end.

(** The database's case-insensitive substring match on a column. *)
Class TextSearch := { matches_insensitive : string -> string -> bool }.

(** [GET /users] *)
Definition listUsers `{TextSearch} (query : query_value) (p : Pagination) (db : Db) : reply (Page UserJson) :=
  page_reply userToJson
    (order_desc u_createdAt
       (filter (fun u => match queryString query with
                         | Some q => matches_insensitive q (u_npub u)
                         | None => true
                         end = true) (all_users db))) p.

Definition entitlement_of (u : User) : UserEntitlement :=
  {| ue_planExpiresAt := u_planExpiresAt u; ue_storageBytes := u_storageBytes u |}.

(** A non-empty string, for [if (s)]. *)
Definition truthy (s : option string) : option string :=
  match s with Some s => if String.eqb s "" then None else Some s | None => None end.

Section Entitlements.
Context `{DateEngine}.

(** The body of the transaction of [POST /users/:npub/entitlement]. *)
Definition entitlement_tx (now : Z) (npub : string) (request : ParsedEntitlementRequest) : tx User := (
  do! current := user_upsert npub now in
  do! _ := match truthy (pr_paymentHash request) with
           | Some h => grant_create h npub now
           | None => tx_ret tt
           end in
  do! effect := tx_lift (computeEntitlement (entitlement_of current) request now) in
  user_update npub (assign_plan (ef_planExpiresAt effect) (ef_storageBytes effect)))%tx.

(** [POST /users/:npub/entitlement] *)
Definition postEntitlement (now : Z) (npub : string) (body : jsval) (db : Db) : reply UserJson * Db :=
  match parseEntitlementRequest body with
  | Throw e => (Err (ee_status e) (ee_code e), db)
  | Ok request =>
      let (r, db') := transaction (entitlement_tx now npub request) db in
      (match r with
       | Ok user => send 200 (userToJson user)
       | Throw (EntError e) => Err (ee_status e) (ee_code e)
       | Throw e =>
           match truthy (pr_paymentHash request) with
           | Some h =>
               if bool_decide (prismaErrorCode e = Some "P2002") then
                 match grants db' !! h with
                 | Some g =>
                     if bool_decide (g_npub g <> npub) then Err 409 "payment_hash_used_by_other_user"
                     else match users db' !! npub with
                          | Some user => send 200 (userToJson user)
                          | None => Err 500 "internal_error"
                          end
                 | None => match users db' !! npub with
                           | Some user => send 200 (userToJson user)
                           | None => Err 500 "internal_error"
                           end
                 end
               else Err 500 "internal_error"
           | None => Err 500 "internal_error"
           end
       end, db')
  end.
End Entitlements.

(** [GET /users/:npub/blobs] *)
Definition getUserBlobs (npub : string) (p : Pagination) (db : Db) : reply (Page BlobJson) :=
  page_reply blobToJson (order_desc b_createdAt (owned npub (blobs db))) p.

Definition purge_tx (npub : string) : tx (list Blob) := (
  do! rows := blob_findMany (fun b => bool_decide (b_npub b = npub)) in
  match rows with
  | [] => tx_ret []
  | _ =>
      do! _ := blob_deleteMany npub in
      do! _ := user_update npub (assign_used 0) in
      tx_ret rows
  end)%tx.

(** [DELETE /users/:npub/blobs] *)
Definition deleteUserBlobs (npub : string) (db : Db) : reply (Z * list BlobJson) * Db :=
  let (r, db') := transaction (purge_tx npub) db in
  (match r with
   | Ok rows => send 200 (js ← mapM blobToJson rows; Some (Z.of_nat (length rows), js))
   | Throw _ => Err 500 "internal_error"
   end, db').

Definition notifications_of (npub : string) (db : Db) : list NotificationLog :=
  order_desc n_sentAt (filter (fun n => n_npub n = npub) (notifications db)).

(** [GET /users/:npub/notifications] *)
Definition getUserNotifications (npub : string) (p : Pagination) (db : Db) : reply (Page NotificationJson) :=
  page_reply notificationToJson (notifications_of npub db) p.

(** ** Admin search and statistics (routes/admin.ts) *)

(** [GET /blobs]; a [query] replaces the [npub] filter. *)
Definition searchBlobs `{TextSearch} (qhash qnpub qquery : query_value) (p : Pagination) (db : Db)
  : reply (Page BlobJson) :=
  let keep (b : Blob) :=
    match queryString qhash with Some h => bool_decide (b_hash b = h) | None => true end &&
    match queryString qquery with
    | Some q => matches_insensitive q (b_npub b)
    | None => match queryString qnpub with Some n => bool_decide (b_npub b = n) | None => true end
    end in
  page_reply blobToJson (order_desc b_createdAt (filter (fun b => keep b = true) (blobs db))) p.

Record StorageStats := { ss_users : Z; ss_blobs : Z; ss_bytes : string }.

(** [GET /storage-stats] *)
Definition getStorageStats (db : Db) : StorageStats :=
  {| ss_users := Z.of_nat (size (users db)); ss_blobs := Z.of_nat (length (blobs db));
     ss_bytes := Z_to_string (sumZ b_size (blobs db)) |}.

(** ** The notification log (routes/notifications.ts) *)

(** A unique index does not compare NULLs: rows without [ref] never clash. *)
Definition same_notification (n n' : NotificationLog) : bool :=
  bool_decide (n_npub n = n_npub n') && bool_decide (n_kind n = n_kind n') &&
  match n_ref n, n_ref n' with Some r, Some r' => String.eqb r r' | _, _ => false end &&
  bool_decide (n_channel n = n_channel n').

Definition notification_create (n : NotificationLog) : tx NotificationLog := fun db =>
  if existsb (fun n' => same_notification n n' || bool_decide (n_id n = n_id n')) (notifications db)
  then Throw P2002
  else Ok (n, set_notifications (fun l => l ++ [n]) db).

Record PostNotification := {
  pn_npub : option string;
  pn_kind : option string;
  pn_ref : option string;
  pn_channel : option string
}.

(** [POST /notifications]; [id] is the fresh [cuid()]. *)
Definition postNotification (now : Z) (id : string) (req : PostNotification) (db : Db)
  : reply NotificationJson * Db :=
  match truthy (pn_npub req), truthy (pn_kind req), truthy (pn_channel req) with
  | Some npub, Some kind, Some channel =>
      let (r, db') := transaction (notification_create
        {| n_id := id; n_npub := npub; n_kind := kind; n_ref := pn_ref req; n_channel := channel;
           n_sentAt := now |}) db in
      (match r with
       | Ok n => send 201 (notificationToJson n)
       | Throw e => if bool_decide (prismaErrorCode e = Some "P2002") then Err 409 "already_exists"
                    else Err 500 "internal_error"
       end, db')
  | _, _, _ => (Err 400 "invalid_notification", db)
  end.

(** [GET /notifications?npub=] *)
Definition getNotifications (qnpub : query_value) (p : Pagination) (db : Db) : reply (Page NotificationJson) :=
  match queryString qnpub with
  | None => Err 400 "npub_required"
  | Some npub => page_reply notificationToJson (notifications_of npub db) p
  end.

(** ** Moderation audit (routes/moderation.ts) *)

Record PostModeration := {
  pm_hash : option string;
  pm_npub : option string;
  pm_adminNpub : option string;
  pm_reason : option string
}.

(** [POST /moderation]; nothing catches a clash of the generated id. *)
Definition postModeration (now : Z) (id : string) (req : PostModeration) (db : Db)
  : reply ModerationJson * Db :=
  match truthy (pm_hash req), truthy (pm_npub req), truthy (pm_adminNpub req), truthy (pm_reason req) with
  | Some hash, Some npub, Some adminNpub, Some reason =>
      let action := {| m_id := id; m_hash := hash; m_npub := npub; m_adminNpub := adminNpub;
                       m_reason := reason; m_createdAt := now |} in
      if existsb (fun a => bool_decide (m_id a = id)) (moderation db) then (Err 500 "internal_error", db)
      else (send 201 (moderationToJson action), set_moderation (fun l => l ++ [action]) db)
  | _, _, _, _ => (Err 400 "invalid_moderation_action", db)
  end.

(** [GET /moderation] *)
Definition getModeration (qhash qnpub : query_value) (p : Pagination) (db : Db) : reply (Page ModerationJson) :=
  let keep (a : ModerationAction) :=
    match queryString qhash with Some h => bool_decide (m_hash a = h) | None => true end &&
    match queryString qnpub with Some n => bool_decide (m_npub a = n) | None => true end in
  page_reply moderationToJson
    (order_desc m_createdAt (filter (fun a => keep a = true) (moderation db))) p.

(** ** Service accounts (routes/service-accounts.ts, scripts/registerService.ts) *)

Record AccountJson := {
  aj_npub : string;
  aj_label : option string;
  aj_enabled : bool;
  aj_createdAt : string
}.

Definition accountToJson (a : string * ServiceAccount) : option AccountJson :=
  createdAt ← toISOString (sa_createdAt (snd a));
  Some {| aj_npub := fst a; aj_label := sa_label (snd a); aj_enabled := sa_enabled (snd a);
          aj_createdAt := createdAt |}.

(** [GET /service-accounts/:npub] *)
Definition getServiceAccount (npub : string) (db : Db) : reply AccountJson :=
  match accounts db !! npub with
  | None => Err 404 "not_found"
  | Some a => send 200 (accountToJson (npub, a))
  end.

(** [GET /service-accounts] *)
Definition listServiceAccounts (qenabled : query_value) (p : Pagination) (db : Db) : reply (Page AccountJson) :=
  page_reply accountToJson
    (order_desc (fun a => sa_createdAt (snd a))
       (filter (fun a => match queryString qenabled with
                         | Some e => Bool.eqb (sa_enabled (snd a)) (String.eqb e "true")
                         | None => true
                         end = true) (map_to_list (accounts db)))) p.

(** [register:service]; [npubEncode] is nostr-tools' bech32 encoder ([None] when
    it throws). The first argument that is not an option is the account, which
    makes the label's value a candidate too. *)
Definition is_option (arg : string) : bool := starts_with "--" arg.

Fixpoint label_arg (args : list string) : option (option string) :=
  match args with
  | [] => None
  | a :: rest => if String.eqb a "--label" then Some (head rest) else label_arg rest
  end.

Definition registerService (npubEncode : string -> option string) (now : Z) (args : list string) (db : Db)
  : exc string ServiceAccount * Db :=
  let target := find_first (fun a => negb (is_option a)) args in
  let label := match label_arg args with Some (Some l) => Some l | _ => None end in
  let enabled := negb (existsb (String.eqb "--disable") args) in
  match truthy target with
  | None => (Throw "usage", db)
  | Some target =>
      match (if starts_with "npub1" target then Some target else npubEncode target) with
      | None => (Throw "npubEncode", db)
      | Some npub =>
          let row :=
            match accounts db !! npub with
            | Some a => {| sa_label := match label with Some l => Some l | None => sa_label a end;
                           sa_enabled := enabled; sa_createdAt := sa_createdAt a |}
            | None => {| sa_label := label; sa_enabled := enabled; sa_createdAt := now |}
            end in
          (Ok row, set_accounts <[npub := row]> db)
      end
  end.
