(* ===== verification/DbFacts.v ===== *)
(** * db-api: accounting, quotas and grants

    The accounting invariant [db_ok] under every operation, and the contracts
    of the operations the proxy relies on. *)

From S2P Require Import Prelude Js Dates Http Lifecycle Entitlement Db DbApi.

(** ** Transactions *)

Lemma transaction_Ok {A} (m : tx A) db a db' :
  transaction m db = (Ok a, db') -> m db = Ok (a, db').
Proof. unfold transaction. destruct (m db) as [[]|]; naive_solver. Qed.

Lemma transaction_Throw {A} (m : tx A) db e db' :
  transaction m db = (Throw e, db') -> m db = Throw e /\ db' = db.
Proof. unfold transaction. destruct (m db) as [[]|]; naive_solver. Qed.

Lemma tx_bind_Ok {A B} (m : tx A) (k : A -> tx B) db r :
  tx_bind m k db = Ok r -> exists a db1, m db = Ok (a, db1) /\ k a db1 = Ok r.
Proof. unfold tx_bind. destruct (m db) as [[a db1]|]; naive_solver. Qed.

Lemma user_update_Ok npub f db u' db' :
  user_update npub f db = Ok (u', db') ->
  exists u, users db !! npub = Some u /\ f u = Some u' /\ db' = set_users <[npub := u']> db.
Proof.
  unfold user_update. destruct (users db !! npub) as [u|]; [|done].
  destruct (f u) as [v|] eqn:E; [|done]. intros [= <- <-]. eauto.
Qed.

Lemma blob_create_Ok b db b' db' :
  blob_create b db = Ok (b', db') ->
  b' = b /\ db' = set_blobs (fun l => l ++ [b]) db /\ int64 (b_size b) = true /\
  blob_key b ∉ (blob_key <$> blobs db).
Proof.
  unfold blob_create. destruct (int64 (b_size b)) eqn:E; [|done]. simpl.
  destruct (existsb _ (blobs db)) eqn:Ex; [done|].
  destruct (users db !! b_npub b); [|done]. intros [= <- <-]. split_and!; try done.
  intros (b' & Hk & Hin)%list_elem_of_fmap.
  assert (existsb (fun b' => bool_decide (blob_key b' = blob_key b)) (blobs db) = true) as Ht; [|congruence].
  apply existsb_exists. exists b'. split; [by apply list_elem_of_In | by apply bool_decide_eq_true].
Qed.

Lemma blob_delete_Ok hash npub db b db' :
  blob_delete hash npub db = Ok (b, db') ->
  b ∈ blobs db /\ has_blob hash npub b /\
  db' = set_blobs (filter (fun b => ~ has_blob hash npub b)) db.
Proof.
  unfold blob_delete. destruct (find_first _ _) as [b0|] eqn:E; [|done].
  intros [= <- <-]. apply find_first_Some in E as [Hin Hb]. zbool. done.
Qed.

Lemma increment_used_Some d u u' :
  increment_used d u = Some u' -> int64 (u_usedStorage u + d) = true /\ u' = set_used (u_usedStorage u + d) u.
Proof. unfold increment_used. case_match; naive_solver. Qed.

Ltac tx_inv H :=
  repeat match type of H with
  | tx_bind _ _ _ = Ok _ =>
      let a := fresh "a" in let db1 := fresh "db1" in let Ha := fresh "Ha" in
      apply tx_bind_Ok in H as (a & db1 & Ha & H)
  end.

(** ** Usage sums *)

Lemma used_by_snoc npub l b :
  used_by npub (l ++ [b]) = used_by npub l + (if decide (b_npub b = npub) then b_size b else 0).
Proof.
  unfold used_by, owned. rewrite filter_app, sumZ_app, filter_cons, filter_nil.
  case_decide; autorewrite with orch; lia.
Qed.

Lemma owned_delete npub hash n l :
  owned npub (filter (fun b => ~ has_blob hash n b) l) =
  filter (fun b => ~ has_blob hash n b) (owned npub l).
Proof.
  unfold owned. rewrite !list_filter_filter. apply list_filter_iff. tauto.
Qed.

Lemma used_by_delete npub l b :
  NoDup (blob_key <$> l) -> b ∈ l ->
  used_by npub (filter (fun b' => ~ has_blob (b_hash b) (b_npub b) b') l) =
  used_by npub l - (if decide (b_npub b = npub) then b_size b else 0).
Proof.
  intros Hnd Hin. unfold used_by. rewrite owned_delete.
  rewrite (sumZ_filter_split (has_blob (b_hash b) (b_npub b)) b_size (owned npub l)).
  assert (sumZ b_size (filter (has_blob (b_hash b) (b_npub b)) (owned npub l)) =
          if decide (b_npub b = npub) then b_size b else 0) as ->; [|lia].
  unfold owned. rewrite list_filter_filter. case_decide as Hn.
  - rewrite (list_filter_iff _ (fun b' => blob_key b' = blob_key b)).
    + rewrite (filter_key_unique blob_key l b) by done. autorewrite with orch. lia.
    + intros b'. unfold has_blob, blob_key. split; [naive_solver|]. intros [= -> ->]. naive_solver.
  - rewrite filter_none; [done|]. intros b' _. unfold has_blob, blob_key. naive_solver.
Qed.

Lemma used_by_purge npub n l :
  used_by n (filter (fun b => b_npub b <> npub) l) = if decide (n = npub) then 0 else used_by n l.
Proof.
  unfold used_by, owned. rewrite list_filter_filter. case_decide as Hn.
  - rewrite filter_none; [done|]. naive_solver.
  - f_equal. apply list_filter_iff. naive_solver.
Qed.

(** ** Preservation of the invariant *)

Lemma user_ok_used npub u l l' z :
  user_ok npub u l -> z = used_by npub l' -> int64 z = true -> user_ok npub (set_used z u) l'.
Proof. intros [] -> Hz. constructor; simpl; naive_solver. Qed.

Lemma user_ok_ext npub u l l' :
  used_by npub l' = used_by npub l -> user_ok npub u l -> user_ok npub u l'.
Proof. intros E []. constructor; try done. congruence. Qed.

(** Replacing the rows of one account and its running total together. *)
Lemma rebill_ok db npub u l' z :
  db_ok db -> users db !! npub = Some u ->
  (forall n, n <> npub -> used_by n l' = used_by n (blobs db)) ->
  z = used_by npub l' -> int64 z = true -> NoDup (blob_key <$> l') ->
  (forall b, b ∈ l' -> b ∈ blobs db \/
     b_npub b = npub /\ int64 (b_size b) = true /\ valid_time (b_createdAt b) = true) ->
  db_ok (set_users <[npub := set_used z u]> (set_blobs (fun _ => l') db)).
Proof.
  intros Hdb Hu Hother Hz Hz64 Hnd Hrows.
  assert (forall n, is_Some (users db !! n) -> is_Some (<[npub := set_used z u]> (users db) !! n)) as Hmono.
  { intros n. rewrite lookup_insert_is_Some'. tauto. }
  constructor; simpl.
  - intros n v. rewrite lookup_insert. case_decide as Hn.
    + intros [= <-]. subst n. eapply user_ok_used; [by apply do_users| |]; done.
    + intros Hv. apply (user_ok_ext _ _ (blobs db)); [auto|]. by apply do_users.
  - done.
  - intros b Hb. apply Hmono. destruct (Hrows b Hb) as [Hb'|(-> & _)]; [by apply do_owner | by eexists].
  - intros b Hb. destruct (Hrows b Hb) as [Hb'|(_ & H1 & H2)]; [by eapply do_blobs | done].
  - intros h g Hg. apply Hmono. by eapply do_grants.
Qed.

Lemma bill_ok db npub u b :
  db_ok db -> users db !! npub = Some u -> b_npub b = npub ->
  blob_key b ∉ (blob_key <$> blobs db) -> int64 (b_size b) = true ->
  int64 (u_usedStorage u + b_size b) = true -> valid_time (b_createdAt b) = true ->
  db_ok (set_users <[npub := set_used (u_usedStorage u + b_size b) u]>
           (set_blobs (fun l => l ++ [b]) db)).
Proof.
  intros Hdb Hu Hn Hk Hs Ht Hv.
  apply (rebill_ok db npub u (blobs db ++ [b])); try done.
  - intros n Hne. rewrite used_by_snoc, decide_False by congruence. lia.
  - rewrite used_by_snoc, decide_True by done. by rewrite (uo_used _ _ _ (do_users _ Hdb _ _ Hu)).
  - rewrite fmap_app. apply NoDup_app. split_and!; [by apply do_keys| |apply NoDup_singleton].
    intros k Hk1 ->%list_elem_of_singleton. done.
  - intros b' [Hb| ->%list_elem_of_singleton]%elem_of_app; auto.
Qed.

Lemma unbill_ok db npub u b :
  db_ok db -> users db !! npub = Some u -> b_npub b = npub -> b ∈ blobs db ->
  int64 (u_usedStorage u - b_size b) = true ->
  db_ok (set_users <[npub := set_used (u_usedStorage u - b_size b) u]>
           (set_blobs (filter (fun b' => ~ has_blob (b_hash b) npub b')) db)).
Proof.
  intros Hdb Hu <- Hin Hs.
  apply (rebill_ok db _ u (filter _ (blobs db))); try done.
  - intros n Hne. rewrite used_by_delete, decide_False by (done || by apply do_keys). lia.
  - rewrite used_by_delete, decide_True by (done || by apply do_keys).
    by rewrite (uo_used _ _ _ (do_users _ Hdb _ _ Hu)).
  - apply NoDup_fmap_filter, Hdb.
  - intros b' [_ Hb]%list_elem_of_filter. auto.
Qed.

Lemma postBlob_tx_Ok now req size db b u' db' :
  postBlob_tx now req size db = Ok ((b, u'), db') ->
  exists u, users db !! pb_npub req = Some u /\ over_allowance u size = false /\
    int64 size = true /\ int64 (u_usedStorage u + size) = true /\
    b = {| b_hash := pb_hash req; b_npub := pb_npub req; b_size := size;
           b_replicas := pb_replicas req; b_createdAt := now |} /\
    blob_key b ∉ (blob_key <$> blobs db) /\
    u' = set_used (u_usedStorage u + size) u /\
    db' = set_users <[pb_npub req := u']> (set_blobs (fun l => l ++ [b]) db).
Proof.
  unfold postBlob_tx. intros Htx. tx_inv Htx. unfold user_find in Ha. simplify_eq.
  destruct (users db1 !! pb_npub req) as [u|] eqn:Hu; [|done].
  tx_inv Htx. unfold blob_find in Ha. simplify_eq.
  destruct (find_first _ _); [done|]. destruct (over_allowance u size) eqn:Hq; [done|].
  tx_inv Htx. apply blob_create_Ok in Ha as (-> & -> & Hs & Hk).
  apply user_update_Ok in Ha0 as (v & Hv & Hf & ->). simpl in Hv. simplify_eq.
  apply increment_used_Some in Hf as [Ht ->].
  unfold tx_ret in Htx. simplify_eq. eexists. by split_and!.
Qed.

Lemma postBlob_db_ok now req db : valid_time now = true -> db_ok db -> db_ok (postBlob now req db).2.
Proof.
  intros Hn Hdb. unfold postBlob. destruct (BigInt (pb_size req)) as [size|]; [|done].
  destruct (transaction _ db) as [[[b u']|e] db'] eqn:E; simpl.
  - apply transaction_Ok, postBlob_tx_Ok in E as (u & Hu & Hq & Hs & Ht & -> & Hk & -> & ->).
    by eapply (bill_ok db (pb_npub req) u {| b_size := size |}).
  - by apply transaction_Throw in E as [_ ->].
Qed.

(** The loop of [DELETE /blobs/:hash] over rows of distinct owners. *)
Lemma delete_rows_spec hash rows last db r db' :
  db_ok db -> NoDup (b_npub <$> rows) ->
  (forall b, b ∈ rows -> b ∈ blobs db /\ b_hash b = hash) ->
  delete_rows hash rows last db = Ok (r, db') ->
  db_ok db' /\
  blobs db' = filter (fun b => ~ (b_hash b = hash /\ b_npub b ∈ (b_npub <$> rows))) (blobs db) /\
  grants db' = grants db /\
  (forall n, n ∉ (b_npub <$> rows) -> users db' !! n = users db !! n).
Proof.
  revert last db. induction rows as [|row rows IH]; intros last db Hdb Hnd Hrows Hdel.
  - simpl in Hdel. unfold tx_ret in Hdel. simplify_eq. split_and!; try done.
    symmetry. apply filter_all. set_solver.
  - simpl in Hdel. tx_inv Hdel. rewrite fmap_cons, NoDup_cons in Hnd. destruct Hnd as [Hn Hnd].
    apply blob_delete_Ok in Ha as (_ & _ & ->).
    apply user_update_Ok in Ha0 as (u & Hu & Hf & ->). simpl in Hu.
    apply increment_used_Some in Hf as [Ht ->].
    destruct (Hrows row ltac:(set_solver)) as [Hin <-].
    apply IH in Hdel as (Hok & Hb & Hg & Hus).
    + split; [done|]. simpl in *. split; [|split; [done|]].
      * rewrite Hb, list_filter_filter. apply list_filter_iff.
        intros b. unfold has_blob, blob_key. rewrite elem_of_cons.
        split; [intros [H1 H2] [H3 [H4|H4]]; [apply H2; congruence | tauto] |].
        intros H1. split; [tauto|]. intros [= ? ?]. apply H1. auto.
      * intros n [Hne Hn']%not_elem_of_cons. rewrite Hus by done. by rewrite lookup_insert_ne by congruence.
    + by apply (unbill_ok db _ u row).
    + done.
    + intros b Hb. destruct (Hrows b ltac:(set_solver)) as [Hb1 Hb2]. split; [|done].
      simpl. apply list_elem_of_filter. split; [|done]. unfold has_blob, blob_key.
      intros [= _ Heq]. apply Hn. rewrite <- Heq. by apply list_elem_of_fmap_2.
Qed.

Lemma NoDup_owners hash l :
  NoDup (blob_key <$> l) -> (forall b, b ∈ l -> b_hash b = hash) -> NoDup (b_npub <$> l).
Proof.
  intros Hnd Hh. apply (NoDup_fmap_1 (pair hash)). rewrite <- list_fmap_compose.
  erewrite list_fmap_ext; [exact Hnd|]. intros i b Hb. unfold blob_key. simpl.
  f_equal. symmetry. apply Hh. by eapply list_elem_of_lookup_2.
Qed.

Lemma delete_where_hash hash npub all b : delete_where hash npub all b = true -> b_hash b = hash.
Proof. unfold delete_where. intros Hd. by zbool. Qed.

Lemma deleteBlob_tx_Ok hash npub all db last rem db' :
  db_ok db -> deleteBlob_tx hash npub all db = Ok ((last, rem), db') ->
  db_ok db' /\
  blobs db' = filter (fun b => delete_where hash npub all b = false) (blobs db) /\
  grants db' = grants db /\
  rem = Z.of_nat (length (filter (fun b => b_hash b = hash) (blobs db'))).
Proof.
  intros Hdb. unfold deleteBlob_tx. intros Htx. tx_inv Htx.
  unfold blob_findMany in Ha. simplify_eq.
  set (rows := filter (fun b => delete_where hash npub all b = true) (blobs db1)) in *.
  destruct rows as [|r0 rs] eqn:Er; [done|]. rewrite <- Er in *. subst rows.
  tx_inv Htx. unfold blob_count in Ha0. unfold tx_ret in Htx. simplify_eq.
  assert (forall b, b ∈ filter (fun b => delete_where hash npub all b = true) (blobs db1) ->
    b ∈ blobs db1 /\ b_hash b = hash) as Hrows.
  { intros b [Hd Hb]%list_elem_of_filter. split; [done|]. by eapply delete_where_hash. }
  apply delete_rows_spec in Ha as (Hok & Hb & Hg & _); try done.
  - split_and!; try done. rewrite Hb. apply filter_ext_in. intros b Hin.
    rewrite <- not_true_iff_false. split; intros Hd Hc; apply Hd.
    + split; [by eapply delete_where_hash|]. apply list_elem_of_fmap_2, list_elem_of_filter. done.
    + destruct Hc as [Hh (b0 & Hn & [Hd0 _]%list_elem_of_filter)%list_elem_of_fmap].
      rewrite <- Hd0. unfold delete_where. rewrite Hh, Hn.
      by rewrite (delete_where_hash _ _ _ _ Hd0).
  - apply (NoDup_owners hash); [apply NoDup_fmap_filter, Hdb | naive_solver].
Qed.

(** Accounts that lose no row keep their account row. *)
Lemma deleteBlob_tx_users hash npub all db r db' n :
  db_ok db -> deleteBlob_tx hash npub all db = Ok (r, db') ->
  (forall b, b ∈ blobs db -> delete_where hash npub all b = true -> b_npub b <> n) ->
  users db' !! n = users db !! n.
Proof.
  intros Hdb Htx Hn. unfold deleteBlob_tx in Htx. tx_inv Htx. unfold blob_findMany in Ha. simplify_eq.
  set (rows := filter (fun b => delete_where hash npub all b = true) (blobs db1)) in *.
  assert (forall b, b ∈ rows -> b ∈ blobs db1 /\ b_hash b = hash) as Hrows.
  { intros b [Hd Hb]%list_elem_of_filter. split; [done|]. by eapply delete_where_hash. }
  assert (n ∉ (b_npub <$> rows)) as Hnot.
  { intros (b & -> & [Hd Hb]%list_elem_of_filter)%list_elem_of_fmap. by apply (Hn b). }
  assert (NoDup (b_npub <$> rows)) as Hnd.
  { apply (NoDup_owners hash); [apply NoDup_fmap_filter, Hdb | naive_solver]. }
  destruct rows as [|r0 rs]; [done|]. tx_inv Htx. unfold blob_count in Ha0. unfold tx_ret in Htx. simplify_eq.
  apply delete_rows_spec in Ha as (_ & _ & _ & Hus); auto.
Qed.

Lemma deleteBlob_db_ok hash qn qa db : db_ok db -> db_ok (deleteBlob hash qn qa db).2.
Proof.
  intros Hdb. unfold deleteBlob. case_match; [done|].
  destruct (transaction _ db) as [[[last rem]|e] db'] eqn:E; simpl.
  - apply transaction_Ok, deleteBlob_tx_Ok in E; naive_solver.
  - by apply transaction_Throw in E as [_ ->].
Qed.

Lemma purge_tx_Ok npub db rows db' :
  db_ok db -> purge_tx npub db = Ok (rows, db') ->
  db_ok db' /\ rows = owned npub (blobs db) /\
  blobs db' = filter (fun b => b_npub b <> npub) (blobs db) /\ grants db' = grants db /\
  (forall n, n <> npub -> users db' !! n = users db !! n).
Proof.
  intros Hdb. unfold purge_tx. intros Htx. tx_inv Htx. unfold blob_findMany in Ha. simplify_eq.
  assert (filter (fun b => bool_decide (b_npub b = npub) = true) (blobs db1) = owned npub (blobs db1)) as Ho.
  { unfold owned. apply list_filter_iff. intros b. apply bool_decide_eq_true. }
  rewrite Ho in Htx. destruct (owned npub (blobs db1)) as [|r0 rs] eqn:Er.
  - unfold tx_ret in Htx. simplify_eq. split_and!; try done. symmetry. apply filter_all.
    intros b Hb Hn. assert (b ∈ owned npub (blobs db')) as Hin by by apply list_elem_of_filter.
    rewrite Er in Hin. set_solver.
  - tx_inv Htx. unfold blob_deleteMany in Ha. simplify_eq.
    apply user_update_Ok in Ha0 as (u & Hu & Hf & ->). simpl in Hu. unfold assign_used in Hf. simpl in Hf.
    unfold tx_ret in Htx. simplify_eq.
    split_and!; try done; [|intros n Hn; simpl; by rewrite lookup_insert_ne by done].
    apply (rebill_ok db1 npub u (filter _ (blobs db1))); try done.
    + intros n Hn. by rewrite used_by_purge, decide_False.
    + by rewrite used_by_purge, decide_True.
    + apply NoDup_fmap_filter, Hdb.
    + intros b [_ Hb]%list_elem_of_filter. auto.
Qed.

Lemma purge_tx_progress npub db : db_ok db -> exists rows db', purge_tx npub db = Ok (rows, db').
Proof.
  intros Hdb. unfold purge_tx, tx_bind, blob_findMany.
  destruct (filter _ (blobs db)) as [|b rows] eqn:E; [by eexists _, _|].
  assert (b ∈ filter (fun b => bool_decide (b_npub b = npub) = true) (blobs db)) as Hb by (rewrite E; set_solver).
  apply list_elem_of_filter in Hb as [Hn Hb]. zbool.
  destruct (do_owner _ Hdb b Hb) as [u Hu]. rewrite Hn in Hu.
  simpl. unfold user_update. simpl. rewrite Hu. simpl. by eexists _, _.
Qed.

Lemma deleteUserBlobs_db_ok npub db : db_ok db -> db_ok (deleteUserBlobs npub db).2.
Proof.
  intros Hdb. unfold deleteUserBlobs. destruct (transaction _ db) as [[rows|e] db'] eqn:E; simpl.
  - apply transaction_Ok, purge_tx_Ok in E; naive_solver.
  - by apply transaction_Throw in E as [_ ->].
Qed.

Section Grants.
Context `{DateEngine}.

Definition new_user (npub : string) (now : Z) : User :=
  {| u_npub := npub; u_planExpiresAt := None; u_storageBytes := None; u_usedStorage := 0;
     u_createdAt := now |}.
Definition user_or_new (npub : string) (now : Z) (db : Db) : User :=
  default (new_user npub now) (users db !! npub).
Definition set_plan (t : Z) (bytes : option Z) (u : User) : User :=
  {| u_npub := u_npub u; u_planExpiresAt := Some t; u_storageBytes := bytes;
     u_usedStorage := u_usedStorage u; u_createdAt := u_createdAt u |}.

Lemma assign_plan_Some d bytes u u' :
  assign_plan d bytes u = Some u' ->
  exists t, d = Some t /\ int64_opt bytes = true /\ u' = set_plan t bytes u.
Proof. unfold assign_plan. destruct d; [|done]. case_match; naive_solver. Qed.

Lemma entitlement_tx_Ok now npub req db u' db' :
  entitlement_tx now npub req db = Ok (u', db') ->
  let u := user_or_new npub now db in
  exists e t, computeEntitlement (entitlement_of u) req now = Ok e /\
    ef_planExpiresAt e = Some t /\ int64_opt (ef_storageBytes e) = true /\
    u' = set_plan t (ef_storageBytes e) u /\
    users db' = <[npub := u']> (users db) /\ blobs db' = blobs db /\
    match truthy (pr_paymentHash req) with
    | Some h => grants db !! h = None /\
                grants db' = <[h := {| g_npub := npub; g_createdAt := now |}]> (grants db)
    | None => grants db' = grants db
    end.
Proof.
  intros Htx u. unfold entitlement_tx in Htx. tx_inv Htx.
  assert (a = u /\ blobs db1 = blobs db /\ grants db1 = grants db /\
          users db1 = <[npub := u]> (users db)) as (-> & Hb1 & Hg1 & Hu1).
  { unfold user_upsert in Ha. subst u. unfold user_or_new.
    destruct (users db !! npub) as [u|] eqn:Hu; simplify_eq; simpl; split_and!; try done.
    by rewrite insert_id. }
  assert (users db0 = users db1 /\ blobs db0 = blobs db1 /\
    match truthy (pr_paymentHash req) with
    | Some h => grants db1 !! h = None /\
                grants db0 = <[h := {| g_npub := npub; g_createdAt := now |}]> (grants db1)
    | None => grants db0 = grants db1
    end) as (Hu0 & Hb0 & Hg0).
  { destruct (truthy _) as [h|]; [|unfold tx_ret in Ha0; by simplify_eq].
    unfold grant_create in Ha0. destruct (grants db1 !! h); [done|]. by simplify_eq. }
  destruct (computeEntitlement _ _ _) as [e|] eqn:He; simpl in Ha1; unfold tx_ret, tx_throw in Ha1; simplify_eq.
  apply user_update_Ok in Htx as (v & Hv & Hf & ->).
  rewrite Hu0, Hu1, lookup_insert_eq in Hv. simplify_eq.
  apply assign_plan_Some in Hf as (t & Ht & H64 & ->).
  exists a1, t. simpl. rewrite Hu0, Hu1, Hb0, Hb1, insert_insert_eq. split_and!; try done.
  by rewrite Hg1 in Hg0.
Qed.

Lemma user_or_new_ok npub now db :
  db_ok db -> valid_time now = true -> user_ok npub (user_or_new npub now db) (blobs db).
Proof.
  intros Hdb Hn. unfold user_or_new. destruct (users db !! npub) as [u|] eqn:Hu; simpl.
  - by apply do_users.
  - constructor; try done. simpl. unfold used_by, owned. rewrite filter_none; [done|].
    intros b Hb <-. destruct (do_owner _ Hdb b Hb). congruence.
Qed.

Lemma entitlement_tx_db_ok now npub req db u' db' :
  db_ok db -> valid_time now = true -> entitlement_tx now npub req db = Ok (u', db') -> db_ok db'.
Proof.
  intros Hdb Hn Htx.
  apply entitlement_tx_Ok in Htx as (e & t & He & Ht & H64 & -> & Hus & Hbs & Hgs).
  pose proof (user_or_new_ok npub now db Hdb Hn) as Hu.
  assert (forall n, is_Some (users db !! n) \/ n = npub -> is_Some (users db' !! n)) as Hmono.
  { intros n Hd. rewrite Hus, lookup_insert_is_Some'. naive_solver. }
  constructor.
  - intros n v. rewrite Hus, Hbs, lookup_insert. case_decide as Hne; [|by apply do_users].
    intros [= <-]. subst n. destruct Hu as [Hk Hused [H1 H2] Hp [H3 H4]].
    constructor; simpl; try done.
    + destruct (computeEntitlement_bytes (entitlement_of _) _ _ _ Hp He) as [b Hb]. by rewrite Hb.
    + split; [done|]. intros t' [= <-]. by eapply computeEntitlement_valid.
  - rewrite Hbs. apply Hdb.
  - intros b. rewrite Hbs. intros Hb. apply Hmono. left. by apply do_owner.
  - rewrite Hbs. apply Hdb.
  - intros h g Hg. apply Hmono. destruct (truthy _) as [h'|].
    + destruct Hgs as [_ Hgs]. rewrite Hgs, lookup_insert in Hg. case_decide.
      * simplify_eq. auto.
      * left. by eapply do_grants.
    + rewrite Hgs in Hg. left. by eapply do_grants.
Qed.

Lemma postEntitlement_db_ok now npub body db :
  valid_time now = true -> db_ok db -> db_ok (postEntitlement now npub body db).2.
Proof.
  intros Hn Hdb. unfold postEntitlement. destruct (parseEntitlementRequest body) as [req|]; [|done].
  destruct (transaction _ db) as [[u|e] db'] eqn:E; simpl.
  - apply transaction_Ok in E. by eapply entitlement_tx_db_ok.
  - by apply transaction_Throw in E as [_ ->].
Qed.

(** A claimed payment hash makes the transaction fail with P2002, whatever the
    rest of the request says. *)
Lemma entitlement_tx_claimed now npub req db h g :
  pr_paymentHash req = Some h -> h <> "" -> grants db !! h = Some g ->
  entitlement_tx now npub req db = Throw P2002.
Proof.
  intros Hh Hne Hg. unfold entitlement_tx. rewrite Hh. simpl.
  rewrite (proj2 (String.eqb_neq h "") Hne). unfold tx_bind, user_upsert, grant_create.
  destruct (users db !! npub); simpl; by rewrite Hg.
Qed.

Lemma postEntitlement_claimed now npub body db req h g :
  parseEntitlementRequest body = Ok req -> pr_paymentHash req = Some h -> grants db !! h = Some g ->
  postEntitlement now npub body db =
    (if bool_decide (g_npub g <> npub) then Err 409 "payment_hash_used_by_other_user"
     else match users db !! npub with
          | Some user => send 200 (userToJson user)
          | None => Err 500 "internal_error"
          end, db).
Proof.
  intros Hreq Hh Hg. pose proof (parseEntitlementRequest_ok _ _ Hreq) as Hr.
  assert (h <> "") as Hne by (intros ->; specialize (ro_hash _ Hr _ Hh); done).
  unfold postEntitlement, transaction.
  rewrite Hreq, (entitlement_tx_claimed now npub req db h g) by done. rewrite Hh. simpl.
  rewrite (proj2 (String.eqb_neq h "") Hne), Hg. done.
Qed.
End Grants.

(** ** Progress of deletions *)

Lemma int64_between a z : 0 <= z <= a -> int64 a = true -> int64 z = true.
Proof. unfold int64. lia. Qed.

Lemma used_by_nonneg n l : Forall (fun b => 0 <= b_size b) l -> 0 <= used_by n l.
Proof.
  intros Hl. apply sumZ_nonneg. rewrite Forall_forall in *.
  intros b [_ Hb]%list_elem_of_filter. auto.
Qed.

Lemma used_by_ge n l b :
  Forall (fun b => 0 <= b_size b) l -> b ∈ owned n l -> b_size b <= used_by n l.
Proof.
  intros Hl Hb. unfold used_by. apply list_elem_of_split in Hb as (l1 & l2 & Hsp).
  rewrite Hsp. autorewrite with orch.
  assert (forall l', (forall b', b' ∈ l' -> b' ∈ owned n l) -> 0 <= sumZ b_size l') as Hnn.
  { intros l' Hsub. apply sumZ_nonneg, Forall_forall. intros b' Hb'.
    rewrite Forall_forall in Hl. apply Hl. by apply Hsub, list_elem_of_filter in Hb' as [_ ?]. }
  assert (0 <= sumZ b_size l1) by (apply Hnn; rewrite Hsp; set_solver).
  assert (0 <= sumZ b_size l2) by (apply Hnn; rewrite Hsp; set_solver).
  lia.
Qed.

Lemma blob_delete_found b db :
  b ∈ blobs db -> exists b', blob_delete (b_hash b) (b_npub b) db =
    Ok (b', set_blobs (filter (fun b' => ~ has_blob (b_hash b) (b_npub b) b')) db).
Proof.
  intros Hb. unfold blob_delete. destruct (find_first _ _) as [b'|] eqn:E; [by exists b'|].
  rewrite find_first_None in E. specialize (E b Hb). zbool. done.
Qed.

Lemma delete_rows_progress hash rows last db :
  db_ok db -> Forall (fun b => 0 <= b_size b) (blobs db) -> NoDup (b_npub <$> rows) ->
  (forall b, b ∈ rows -> b ∈ blobs db /\ b_hash b = hash) ->
  exists r db', delete_rows hash rows last db = Ok (r, db').
Proof.
  revert last db. induction rows as [|row rows IH]; intros last db Hdb Hnn Hnd Hrows; [by eexists _, _|].
  rewrite fmap_cons, NoDup_cons in Hnd. destruct Hnd as [Hn Hnd].
  destruct (Hrows row ltac:(set_solver)) as [Hin <-].
  destruct (do_owner _ Hdb row Hin) as [u Hu].
  pose proof (do_users _ Hdb _ _ Hu) as [Hk Hused [H64 _] _ _].
  assert (int64 (u_usedStorage u + - b_size row) = true) as H64'.
  { apply (int64_between (u_usedStorage u)); [|done]. rewrite Hused.
    assert (row ∈ owned (b_npub row) (blobs db)) by by apply list_elem_of_filter.
    pose proof (used_by_ge _ _ _ Hnn H). rewrite Forall_forall in Hnn. specialize (Hnn _ Hin). lia. }
  destruct (blob_delete_found row db Hin) as [b' Hdel].
  simpl. unfold tx_bind at 1. rewrite Hdel. unfold tx_bind, user_update. simpl. rewrite Hu.
  unfold increment_used. rewrite H64'. simpl. apply IH.
  - by apply (unbill_ok db _ u row).
  - simpl. rewrite Forall_forall in *. intros b [_ Hb]%list_elem_of_filter. auto.
  - done.
  - intros b Hb. destruct (Hrows b ltac:(set_solver)) as [Hb1 Hb2]. split; [|done].
    simpl. apply list_elem_of_filter. split; [|done]. unfold has_blob, blob_key.
    intros [= _ Heq]. apply Hn. rewrite <- Heq. by apply list_elem_of_fmap_2.
Qed.

Lemma deleteBlob_tx_progress hash npub all db :
  db_ok db -> Forall (fun b => 0 <= b_size b) (blobs db) ->
  (exists b, b ∈ blobs db /\ delete_where hash npub all b = true) ->
  exists last rem db', deleteBlob_tx hash npub all db = Ok ((last, rem), db').
Proof.
  intros Hdb Hnn (b & Hb & Hd). unfold deleteBlob_tx, tx_bind at 1. simpl.
  set (rows := filter (fun b => delete_where hash npub all b = true) (blobs db)).
  assert (b ∈ rows) as Hin by by apply list_elem_of_filter.
  assert (forall b, b ∈ rows -> b ∈ blobs db /\ b_hash b = hash) as Hrows.
  { intros b' [Hd' Hb']%list_elem_of_filter. split; [done|]. by eapply delete_where_hash. }
  destruct (delete_rows_progress hash rows "0" db) as (last & db' & Hdel); try done.
  { apply (NoDup_owners hash); [apply NoDup_fmap_filter, Hdb | naive_solver]. }
  destruct rows as [|r0 rs] eqn:Er; [by apply elem_of_nil in Hin|].
  unfold tx_bind. rewrite Hdel. unfold blob_count, tx_ret. by eexists _, _, _.
Qed.

(** ** What a client reads back *)

(** The fields of a user row the lifecycle derivation reads, as JSON carries
    them. *)
Definition dates_of_json (j : UserJson) : EntitlementDates :=
  {| ed_planExpiresAt := match uj_planExpiresAt j with Some s => DStr s | None => DNull end;
     ed_storageBytes := BStr <$> uj_storageBytes j;
     ed_usedStorage := BStr (uj_usedStorage j) |}.

Lemma userToJson_total npub u l : user_ok npub u l -> is_Some (userToJson u).
Proof.
  intros [_ _ _ _ [Hc Hp]]. unfold userToJson, iso_opt.
  destruct (toISOString_valid _ Hc) as [c ->].
  destruct (u_planExpiresAt u) as [t|]; simpl; [|by eexists].
  destruct (toISOString_valid t (Hp t eq_refl)) as [s ->]. by eexists.
Qed.

Lemma userToJson_access `{DateEngine} u j now c :
  userToJson u = Some j ->
  deriveAccess (dates_of_json j) now c =
    Some (accessOf (u_planExpiresAt u) (u_storageBytes u) (u_usedStorage u) now c).
Proof.
  unfold userToJson, iso_opt. intros Hj.
  apply bind_Some in Hj as (d & Hd & Hj). apply bind_Some in Hj as (cr & _ & Hj). simplify_eq.
  unfold deriveAccess, dates_of_json. simpl. rewrite BigInt_Z_to_string. simpl.
  assert (toDate (match d with Some s => DStr s | None => DNull end) = u_planExpiresAt u) as ->.
  { destruct (u_planExpiresAt u) as [t|]; simpl in Hd; simplify_eq; [|done].
    destruct (toISOString t) as [s|] eqn:Hs; simpl in Hd; simplify_eq. by apply Date_parse_ISO. }
  destruct (u_storageBytes u); simpl; [by rewrite BigInt_Z_to_string | done].
Qed.

(** The transaction of [POST /blobs] for an existing account, branch by branch. *)
Lemma postBlob_tx_cases now req size db u :
  users db !! pb_npub req = Some u ->
  (exists b, b ∈ blobs db /\ has_blob (pb_hash req) (pb_npub req) b /\
     postBlob_tx now req size db = Throw AlreadyExistsError) \/
  (forall b, b ∈ blobs db -> ~ has_blob (pb_hash req) (pb_npub req) b) /\
  if over_allowance u size then postBlob_tx now req size db = Throw QuotaExceededError
  else (exists b, b_createdAt b = now /\ postBlob_tx now req size db =
          Ok ((b, set_used (u_usedStorage u + size) u),
              set_users <[pb_npub req := set_used (u_usedStorage u + size) u]>
                (set_blobs (fun l => l ++ [b]) db))) \/
       postBlob_tx now req size db = Throw InvalidValue.
Proof.
  intros Hu. unfold postBlob_tx, tx_bind, user_find, blob_find. rewrite Hu.
  destruct (find_first _ _) as [b|] eqn:Eb.
  { apply find_first_Some in Eb as [Hb Hbk]. zbool. left. eauto. }
  rewrite find_first_None in Eb. right.
  assert (forall b, b ∈ blobs db -> ~ has_blob (pb_hash req) (pb_npub req) b) as Hno.
  { intros b Hb. specialize (Eb b Hb). by zbool. }
  split; [done|]. destruct (over_allowance u size); [done|].
  unfold blob_create. simpl. destruct (int64 size); [|by right]. simpl.
  destruct (existsb _ (blobs db)) eqn:Ex.
  { apply existsb_exists in Ex as (b & Hb%list_elem_of_In & Hk). zbool. by destruct (Hno b). }
  rewrite Hu. unfold user_update. simpl. rewrite Hu. unfold increment_used.
  destruct (int64 (u_usedStorage u + size)); [|by right]. left. by eexists; split; [|reflexivity].
Qed.

(** ** Properties *)

(** C8: a 201 of [POST /blobs] recorded exactly one new row for this owner and
    hash, the running total it reports is the sum of the owner's rows, and it
    is within the owner's allowance. *)
Theorem postBlob_within_quota now req db j used db' :
  db_ok db -> postBlob now req db = (Res 201 (j, used), db') ->
  exists b u', blobs db' = blobs db ++ [b] /\ blob_key b = (pb_hash req, pb_npub req) /\
    BigInt (pb_size req) = Some (b_size b) /\ blobToJson b = Some j /\
    users db' !! pb_npub req = Some u' /\ BigInt_string used = Some (u_usedStorage u') /\
    u_usedStorage u' = used_by (pb_npub req) (blobs db') /\
    (forall a, u_storageBytes u' = Some a -> u_usedStorage u' <= a).
Proof.
  intros Hdb. unfold postBlob. destruct (BigInt (pb_size req)) as [size|] eqn:Es; [|done].
  destruct (transaction _ db) as [[[b u']|e] db1] eqn:E; simpl; [|repeat case_match; naive_solver].
  apply transaction_Ok, postBlob_tx_Ok in E as (u & Hu & Hq & Hs & Ht & Hb & Hk & -> & ->).
  unfold send. case_match eqn:Ej; [|done]. intros [= -> <-].
  apply bind_Some in Ej as (j' & Hj & [= <- <-]).
  exists b, (set_used (u_usedStorage u + size) u). simpl. rewrite lookup_insert_eq, BigInt_Z_to_string.
  split_and!; try done; [by rewrite Hb | by rewrite Hb | |].
  - rewrite used_by_snoc, decide_True by (by rewrite Hb). rewrite Hb. simpl.
    by rewrite (uo_used _ _ _ (do_users _ Hdb _ _ Hu)).
  - intros a Ha. unfold over_allowance in Hq. rewrite Ha in Hq. lia.
Qed.

(** Whatever [POST /blobs] answers other than 201, no table changed; an
    owner that already has the blob is told so even when over quota, and a 409
    quota_exceeded is given exactly when the allowance would be exceeded. *)
Theorem postBlob_failures now req db size u :
  db_ok db -> valid_time now = true ->
  BigInt (pb_size req) = Some size -> users db !! pb_npub req = Some u ->
  let (r, db') := postBlob now req db in
  (reply_status r <> 201 -> db' = db) /\
  (r = Err 409 "already_exists" <-> exists b, b ∈ blobs db /\ has_blob (pb_hash req) (pb_npub req) b) /\
  (r = Err 409 "quota_exceeded" <->
     (forall b, b ∈ blobs db -> ~ has_blob (pb_hash req) (pb_npub req) b) /\
     exists a, u_storageBytes u = Some a /\ a < u_usedStorage u + size).
Proof.
  intros Hdb Hn Hs Hu. unfold postBlob. rewrite Hs. unfold transaction.
  destruct (postBlob_tx_cases now req size db u Hu) as [(b & Hb & Hk & ->)|[Hno Hrest]].
  - simpl. naive_solver.
  - destruct (over_allowance u size) eqn:Eo; [rewrite Hrest|destruct Hrest as [(b & Hc & ->) | ->]].
    + unfold over_allowance in Eo. destruct (u_storageBytes u) as [a|]; [|done]. simpl.
      split; [done|]. split; [naive_solver|]. split; [|done]. intros _. split; [done|].
      exists a. split; [done|lia].
    + destruct (toISOString_valid now Hn) as [iso Hiso].
      unfold blobToJson. rewrite Hc, Hiso. simpl. unfold over_allowance in Eo.
      split; [done|]. split; [naive_solver|]. split; [done|].
      intros (_ & a & Ha & Hlt). rewrite Ha in Eo. lia.
    + simpl. unfold over_allowance in Eo. split; [done|]. split; [naive_solver|]. split; [done|].
      intros (_ & a & Ha & Hlt). rewrite Ha in Eo. lia.
Qed.

(** Who loses the blob: one owner ([?npub=]) or every owner ([?all=true]). *)
Definition who_npub (who : option string) : query_value :=
  match who with Some n => QStr n | None => QAbsent end.
Definition who_all (who : option string) : query_value :=
  match who with Some _ => QAbsent | None => QStr "true" end.

Lemma deleteBlob_who hash who db :
  who <> Some "" ->
  deleteBlob hash (who_npub who) (who_all who) db =
    let (r, db') := transaction (deleteBlob_tx hash who (bool_decide (who = None))) db in
    (match r with
     | Ok res => Res 200 res
     | Throw e => if bool_decide (prismaErrorCode e = Some "P2025") then Err 404 "not_found"
                  else Err 500 "internal_error"
     end, db').
Proof.
  intros Hw. destruct who as [n|]; [|done]. unfold deleteBlob. simpl.
  rewrite (proj2 (String.eqb_neq n "")) by congruence. done.
Qed.

(** Deleting a blob with rows for the given owner (or for everyone)
    succeeds, removes exactly those rows, gives each owner exactly the bytes of
    its removed row back, and reports how many owners are left, which is zero
    exactly when no row of the hash remains. *)
Theorem deleteBlob_exact hash who db :
  db_ok db -> Forall (fun b => 0 <= b_size b) (blobs db) -> who <> Some "" ->
  (exists b, b ∈ blobs db /\ delete_where hash who (bool_decide (who = None)) b = true) ->
  exists used rem db',
    deleteBlob hash (who_npub who) (who_all who) db = (Res 200 (used, rem), db') /\ db_ok db' /\
    blobs db' = filter (fun b => delete_where hash who (bool_decide (who = None)) b = false) (blobs db) /\
    rem = Z.of_nat (length (filter (fun b => b_hash b = hash) (blobs db'))) /\
    (rem = 0 <-> forall b, b ∈ blobs db' -> b_hash b <> hash) /\
    (forall n u u', users db !! n = Some u -> users db' !! n = Some u' ->
       u_usedStorage u' = u_usedStorage u -
         sumZ b_size (filter (fun b => delete_where hash who (bool_decide (who = None)) b = true)
                        (owned n (blobs db)))).
Proof.
  intros Hdb Hnn Hw Hex. rewrite deleteBlob_who by done.
  destruct (deleteBlob_tx_progress _ _ _ _ Hdb Hnn Hex) as (last & rem & db' & Htx).
  unfold transaction. rewrite Htx. exists last, rem, db'. split; [done|].
  destruct (deleteBlob_tx_Ok _ _ _ _ _ _ _ Hdb Htx) as (Hok & Hb & _ & Hr).
  split_and!; try done.
  - rewrite Hr. split.
    + intros Hz b Hin Hh. assert (b ∈ filter (fun b => b_hash b = hash) (blobs db')) as Hf
        by by apply list_elem_of_filter.
      destruct (filter _ (blobs db')); [by apply elem_of_nil in Hf | simpl in Hz; lia].
    + intros Hno. by rewrite filter_none.
  - intros n u u' Hu Hu'.
    rewrite (uo_used _ _ _ (do_users _ Hdb _ _ Hu)), (uo_used _ _ _ (do_users _ Hok _ _ Hu')).
    rewrite Hb. unfold used_by.
    rewrite (sumZ_filter_split (fun b => delete_where hash who (bool_decide (who = None)) b = true)
      b_size (owned n (blobs db))).
    unfold owned. rewrite !list_filter_filter.
    rewrite (list_filter_iff (fun b => b_npub b = n /\ _)
      (fun b => ~ delete_where hash who (bool_decide (who = None)) b = true /\ b_npub b = n)); [lia|].
    intros b. rewrite not_true_iff_false. tauto.
Qed.

(** A purge removes all rows of the account and only those, returns them,
    and leaves the account with nothing used and the others untouched. *)
Theorem deleteUserBlobs_exact npub db :
  db_ok db ->
  exists js, let db' := (deleteUserBlobs npub db).2 in
    (deleteUserBlobs npub db).1 = Res 200 (Z.of_nat (length (owned npub (blobs db))), js) /\
    mapM blobToJson (owned npub (blobs db)) = Some js /\
    blobs db' = filter (fun b => b_npub b <> npub) (blobs db) /\ db_ok db' /\
    (forall u', users db' !! npub = Some u' -> u_usedStorage u' = 0) /\
    (forall n, n <> npub -> users db' !! n = users db !! n).
Proof.
  intros Hdb. 
  assert (is_Some (mapM blobToJson (owned npub (blobs db)))) as [js Hjs].
  { apply mapM_is_Some_2, Forall_forall. intros b [_ Hb]%list_elem_of_filter.
    destruct (do_blobs _ Hdb b Hb) as [_ [iso Hiso]%toISOString_valid].
    unfold blobToJson. simpl. rewrite Hiso. by eexists. }
  exists js. unfold deleteUserBlobs, transaction.
  destruct (purge_tx_progress npub db Hdb) as (rows & db' & Htx). rewrite Htx. simpl.
  destruct (purge_tx_Ok _ _ _ _ Hdb Htx) as (Hok & -> & Hb & _ & Hus).
  rewrite Hjs. split_and!; try done.
  intros u' Hu'. rewrite (uo_used _ _ _ (do_users _ Hok _ _ Hu')), Hb.
  by rewrite used_by_purge, decide_True.
Qed.

(** The unique key of the notification log suppresses a repeat of the same
    (account, kind, ref, channel) when there is a ref, and never suppresses one
    without ref. *)
Theorem notification_dedup now now' id id' npub kind ref channel db j db' :
  postNotification now id {| pn_npub := Some npub; pn_kind := Some kind; pn_ref := ref;
                             pn_channel := Some channel |} db = (Res 201 j, db') ->
  id' ∉ (n_id <$> notifications db') -> valid_time now' = true ->
  let second := postNotification now' id' {| pn_npub := Some npub; pn_kind := Some kind;
                  pn_ref := ref; pn_channel := Some channel |} db' in
  match ref with
  | Some _ => second = (Err 409 "already_exists", db')
  | None => reply_status second.1 = 201 /\ length (notifications second.2) = S (length (notifications db'))
  end.
Proof.
  unfold postNotification. intros Hpost Hid Hn. simpl in *.
  destruct (String.eqb npub ""), (String.eqb kind ""), (String.eqb channel ""); try done.
  unfold transaction, notification_create in *.
  destruct (existsb _ (notifications db)) eqn:Ex; [done|]. simplify_eq.
  set (l := notifications db) in *. simpl. 
  destruct ref as [r|].
  - rewrite (proj2 (existsb_exists _ _)); [done|]. eexists. split.
    + apply list_elem_of_In, elem_of_app. right. by apply list_elem_of_singleton.
    + unfold same_notification. simpl. rewrite !bool_decide_eq_true_2, String.eqb_refl by done. done.
  - match goal with |- context [existsb ?f ?l] => assert (existsb f l = false) as -> end.
    { apply not_true_is_false. intros (x & Hx & Hs)%existsb_exists. apply Hid.
      apply list_elem_of_fmap. exists x. split; [|by apply list_elem_of_In].
      unfold same_notification in Hs. simpl in Hs. rewrite andb_false_r in Hs. simpl in Hs. by zbool. }
    destruct (toISOString_valid now' Hn) as [iso Hiso]. unfold notificationToJson. simpl.
    rewrite Hiso. simpl. split; [done|]. rewrite !length_app. simpl. lia.
Qed.

(** A client that reads an account row over HTTP and derives its access
    gets what the row itself says: dates and byte counts survive the JSON. *)
Theorem getUser_access `{DateEngine} npub db u now c :
  db_ok db -> users db !! npub = Some u ->
  exists j, getUser npub db = Res 200 j /\
    deriveAccess (dates_of_json j) now c =
      Some (accessOf (u_planExpiresAt u) (u_storageBytes u) (u_usedStorage u) now c).
Proof.
  intros Hdb Hu. destruct (userToJson_total npub u (blobs db)) as [j Hj]; [by apply do_users|].
  exists j. unfold getUser. rewrite Hu, Hj. split; [done|]. by apply userToJson_access.
Qed.

Definition page_items {A} (r : reply (Page A)) : list A := match r with Res _ p => items p | _ => [] end.

Lemma page_items_slice {A B} (f : A -> option B) rows js p :
  mapM f rows = Some js -> page_items (page_reply f rows p) = slice p js.
Proof.
  intros Hm. unfold page_reply, slice.
  assert (mapM f (take (Z.to_nat (take_n p)) (drop (Z.to_nat (skip p)) rows)) =
          Some (take (Z.to_nat (take_n p)) (drop (Z.to_nat (skip p)) js))) as ->; [|done].
  apply mapM_Some_2, Forall2_take, Forall2_drop, mapM_Some_1, Hm.
Qed.

(** Paging through [GET /users/attention] returns every account with a
    plan exactly once, earliest expiry first. *)
Theorem attention_pages_cover db size n :
  db_ok db -> (1 <= size <= 100)%nat -> (length (attention_rows db) <= n * size)%nat ->
  exists js, mapM userToJson (attention_rows db) = Some js /\
    concat ((fun i => page_items (getAttention
      (parsePagination (QStr (Z_to_string (Z.of_nat i + 1))) (QStr (Z_to_string (Z.of_nat size)))) db))
      <$> seq 0 n) = js /\
    (forall npub u, users db !! npub = Some u /\ u_planExpiresAt u <> None <->
                    u ∈ attention_rows db /\ u_npub u = npub) /\
    NoDup (u_npub <$> attention_rows db) /\
    StronglySorted (key_le (fun u => default 0 (u_planExpiresAt u))) (attention_rows db).
Proof.
  intros Hdb Hs Hn.
  assert (attention_rows db ≡ₚ filter (fun u => u_planExpiresAt u <> None) (all_users db)) as Hperm
    by apply order_asc_perm.
  assert (forall u, u ∈ attention_rows db -> users db !! u_npub u = Some u /\ u_planExpiresAt u <> None) as Hrow.
  { intros u. rewrite Hperm. intros [Hp ([n0 v] & -> & Hv)%list_elem_of_fmap]%list_elem_of_filter.
    apply elem_of_map_to_list in Hv. simpl in *. by rewrite (uo_key _ _ _ (do_users _ Hdb _ _ Hv)). }
  assert (is_Some (mapM userToJson (attention_rows db))) as [js Hjs].
  { apply mapM_is_Some_2, Forall_forall. intros u [Hu _]%Hrow.
    eapply userToJson_total. by apply (do_users _ Hdb). }
  exists js. split; [done|]. split_and!.
  - transitivity (concat ((fun i => slice (page_at size i) js) <$> seq 0 n)).
    + f_equal. apply list_fmap_ext. intros _ i _. rewrite parsePagination_page_at by done.
      unfold getAttention. by apply page_items_slice.
    + apply pages_cover. apply length_mapM in Hjs. lia.
  - intros npub u. split; [|intros [Hu <-]; by apply Hrow].
    intros [Hu Hp]. split; [|by apply (uo_key _ _ _ (do_users _ Hdb _ _ Hu))].
    rewrite Hperm. apply list_elem_of_filter. split; [done|].
    apply list_elem_of_fmap. exists (npub, u). split; [done|]. by apply elem_of_map_to_list.
  - rewrite Hperm. apply NoDup_fmap_filter. unfold all_users. rewrite <- list_fmap_compose.
    erewrite list_fmap_ext; [apply (NoDup_fst_map_to_list (users db))|].
    intros i [n0 v] Hv%list_elem_of_lookup_2. apply elem_of_map_to_list in Hv. simpl.
    apply (uo_key _ _ _ (do_users _ Hdb _ _ Hv)).
  - apply order_asc_sorted.
Qed.

(** ** Witnesses *)

Module DbExamples.
Import LifecycleExamples EntitlementExamples.

Definition empty_db : Db :=
  {| users := ∅; blobs := []; grants := ∅; accounts := ∅; notifications := []; moderation := [];
     members := ∅; storages := ∅ |}.

Lemma empty_db_ok : db_ok empty_db.
Proof. constructor; simpl; try set_solver. apply NoDup_nil_2. Qed.

(** Two paid accounts that share one blob. *)
Definition paid (n : string) (used : Z) : User :=
  {| u_npub := n; u_planExpiresAt := Some (NOW + 10 * DAY_MS); u_storageBytes := Some 1000;
     u_usedStorage := used; u_createdAt := NOW |}.
Definition row (h n : string) (s : Z) : Blob :=
  {| b_hash := h; b_npub := n; b_size := s; b_replicas := ["npub1s"]; b_createdAt := NOW |}.
Definition two_db : Db :=
  {| users := <["npub1a" := paid "npub1a" 900]> {["npub1b" := paid "npub1b" 400]};
     blobs := [row "h1" "npub1a" 400; row "h1" "npub1b" 400; row "h2" "npub1a" 500];
     grants := {[hash64 := {| g_npub := "npub1a"; g_createdAt := NOW |}]};
     accounts := ∅; notifications := []; moderation := []; members := ∅; storages := ∅ |}.

Lemma two_db_ok : db_ok two_db.
Proof.
  constructor.
  - intros n u Hu. unfold two_db in Hu. cbn [users] in Hu.
    rewrite lookup_insert, lookup_singleton in Hu. repeat case_decide; simplify_eq;
    (constructor; [reflexivity | reflexivity | by split | done |]; split; [reflexivity|];
     intros t [= <-]; reflexivity).
  - refine (bool_decide_unpack _ _). vm_compute. exact I.
  - intros b Hb. repeat (apply elem_of_cons in Hb as [->|Hb]; [by eexists|]). by apply elem_of_nil in Hb.
  - intros b Hb. repeat (apply elem_of_cons in Hb as [->|Hb]; [done|]). by apply elem_of_nil in Hb.
  - intros h g Hg. unfold two_db in Hg. cbn [grants] in Hg. rewrite lookup_singleton in Hg.
    case_decide; simplify_eq. by eexists.
Qed.

Lemma two_db_sizes : Forall (fun b => 0 <= b_size b) (blobs two_db).
Proof. repeat constructor; simpl; lia. Qed.

Definition up (h : string) (s : string) : PostBlob :=
  {| pb_hash := h; pb_npub := "npub1a"; pb_size := JStr s; pb_replicas := ["npub1s"] |}.

Lemma postBlob_within_quota_witness :
  exists j used db', postBlob NOW (up "h3" "100") two_db = (Res 201 (j, used), db') /\
    exists u', users db' !! "npub1a" = Some u' /\ u_usedStorage u' <= 1000.
Proof.
  eexists _, _, _. split; [vm_compute; reflexivity|].
  edestruct (postBlob_within_quota NOW (up "h3" "100") two_db) as (b & u' & _ & _ & _ & _ & Hu & _ & _ & Ha).
  - apply two_db_ok.
  - vm_compute. reflexivity.
  - exists u'. split; [exact Hu|]. apply Ha. vm_compute in Hu. injection Hu as <-. reflexivity.
Defined.

Lemma postBlob_failures_witness :
  (postBlob NOW (up "h3" "101") two_db).1 = Err 409 "quota_exceeded" /\
  (postBlob NOW (up "h3" "101") two_db).2 = two_db.
Proof.
  pose proof (postBlob_failures NOW (up "h3" "101") two_db 101 (paid "npub1a" 900)
    two_db_ok eq_refl eq_refl eq_refl) as H.
  destruct (postBlob NOW (up "h3" "101") two_db) as [r db'] eqn:E. destruct H as (H1 & _ & H2).
  assert (r = Err 409 "quota_exceeded") as Hr.
  { apply H2. split; [|exists 1000; split; [reflexivity | simpl; lia]].
    intros b Hb. repeat (apply elem_of_cons in Hb as [->|Hb]; [discriminate|]).
    apply elem_of_nil in Hb. destruct Hb. }
  split; [exact Hr|]. apply H1. rewrite Hr. discriminate.
Defined.

Lemma deleteBlob_exact_witness :
  exists used rem db', deleteBlob "h1" (QStr "npub1b") QAbsent two_db = (Res 200 (used, rem), db') /\ rem = 1.
Proof.
  destruct (deleteBlob_exact "h1" (Some "npub1b") two_db) as (used & rem & db' & H1 & _ & H2 & H3 & _).
  - apply two_db_ok.
  - apply two_db_sizes.
  - discriminate.
  - exists (row "h1" "npub1b" 400). split; [set_solver | reflexivity].
  - exists used, rem, db'. split; [exact H1|]. rewrite H3, H2. reflexivity.
Defined.

Lemma deleteUserBlobs_exact_witness :
  exists js, (deleteUserBlobs "npub1a" two_db).1 = Res 200 (2, js).
Proof.
  destruct (deleteUserBlobs_exact "npub1a" two_db two_db_ok) as (js & H & _). exists js. exact H.
Defined.

Definition note (ref : option string) : PostNotification :=
  {| pn_npub := Some "npub1a"; pn_kind := Some "expiry"; pn_ref := ref; pn_channel := Some "email" |}.

Lemma notification_dedup_witness :
  exists j db', postNotification NOW "id1" (note (Some "7d")) two_db = (Res 201 j, db') /\
    postNotification (NOW + 1) "id2" (note (Some "7d")) db' = (Err 409 "already_exists", db').
Proof.
  eexists _, _. split; [vm_compute; reflexivity|].
  eapply (notification_dedup NOW (NOW + 1) "id1" "id2" "npub1a" "expiry" (Some "7d") "email" two_db).
  - vm_compute. reflexivity.
  - refine (bool_decide_unpack _ _). vm_compute. exact I.
  - reflexivity.
Defined.

Lemma getUser_access_witness :
  exists j, getUser "npub1a" two_db = Res 200 j /\
    (status <$> deriveAccess (dates_of_json j) NOW DEFAULT_LIFECYCLE_CONFIG) = Some ACTIVE.
Proof.
  destruct (getUser_access "npub1a" two_db (paid "npub1a" 900) NOW DEFAULT_LIFECYCLE_CONFIG two_db_ok eq_refl)
    as (j & H1 & H2). exists j. split; [exact H1|]. rewrite H2. reflexivity.
Defined.

Lemma attention_pages_cover_witness :
  exists js, mapM userToJson (attention_rows two_db) = Some js /\
    concat ((fun i => page_items (getAttention
      (parsePagination (QStr (Z_to_string (Z.of_nat i + 1))) (QStr (Z_to_string 1))) two_db)) <$> seq 0 2) = js.
Proof.
  destruct (attention_pages_cover two_db 1 2 two_db_ok) as (js & H1 & H2 & _).
  - lia.
  - vm_compute. lia.
  - exists js. split; [exact H1 | exact H2].
Defined.
End DbExamples.
