(* ===== verification/MeshApi.v ===== *)
(** * db-api: mesh members and storage providers

    The handlers of packages/db/src/routes/members.ts and storages.ts. *)

From Stdlib Require Import QArith Qround.
From S2P Require Import Prelude Js Dates Http Lifecycle Entitlement Db DbApi.
#[local] Open Scope Z_scope.

(** ** Members *)

Definition enum_role (v : jsval) : option MeshRole :=
  match v with
  | JStr s => if String.eqb s "CLIENT" then Some CLIENT
              else if String.eqb s "ADMIN" then Some ADMIN else None
  | _ => None
  end.
Definition enum_status (v : jsval) : option MeshStatus :=
  match v with
  | JStr s => if String.eqb s "ACTIVE" then Some M_ACTIVE
              else if String.eqb s "REVOKED" then Some M_REVOKED else None
  | _ => None
  end.
Definition enum_lifecycle (v : jsval) : option StorageLifecycle :=
  match v with
  | JStr s => if String.eqb s "LINKED" then Some LINKED
              else if String.eqb s "REMOVED" then Some REMOVED else None
  | _ => None
  end.

Definition query_jsval (q : query_value) : jsval :=
  match q with QAbsent => JUndefined | QStr s => JStr s | QOther => JArr [] end.

Definition storage_count (npub : string) (db : Db) : Z :=
  Z.of_nat (length (filter (fun s => sp_ownerNpub (snd s) = npub) (map_to_list (storages db)))).

(** [GET /members] *)
Definition listMembers (qrole qstatus : query_value) (db : Db) : reply (list MeshMemberJson) :=
  let role := enum_role (query_jsval qrole) in
  let status := enum_status (query_jsval qstatus) in
  if (negb (is_undefined (query_jsval qrole)) && bool_decide (role = None)) ||
     (negb (is_undefined (query_jsval qstatus)) && bool_decide (status = None))
  then Err 400 "invalid_filter"
  else
    let keep (m : string * MeshMember) :=
      match role with Some r => bool_decide (mm_role (snd m) = r) | None => true end &&
      match status with Some s => bool_decide (mm_status (snd m) = s) | None => true end in
    send 200 (mapM (fun m => meshMemberToJson (fst m) (snd m) (Some (storage_count (fst m) db)))
                (filter (fun m => keep m = true) (map_to_list (members db)))).

(** [GET /members/:npub] *)
Definition getMember (npub : string) (db : Db) : reply MeshMemberJson :=
  match members db !! npub with
  | None => Err 404 "not_found"
  | Some m => send 200 (meshMemberToJson npub m None)
  end.

(** [PUT /members/:npub]; [addedByNpub] is only written on creation. *)
Definition putMember (now : Z) (npub : string) (body : jsval) (db : Db) : reply MeshMemberJson * Db :=
  let role := if is_undefined (jget body "role") then Some CLIENT else enum_role (jget body "role") in
  let bad_status := match jget body "status" with
                    | JUndefined => false
                    | JStr s => negb (String.eqb s "ACTIVE")
                    | _ => true
                    end in
  let bad_adder := match jget body "addedByNpub" with
                   | JUndefined | JNull | JStr _ => false
                   | _ => true
                   end in
  match role with
  | None => (Err 400 "invalid_member", db)
  | Some role =>
      if bad_status || bad_adder then (Err 400 "invalid_member", db) else
      let addedByNpub := match jget body "addedByNpub" with JStr s => Some s | _ => None end in
      let m := match members db !! npub with
               | Some m => {| mm_role := role; mm_status := M_ACTIVE; mm_addedByNpub := mm_addedByNpub m;
                              mm_createdAt := mm_createdAt m; mm_updatedAt := now |}
               | None => {| mm_role := role; mm_status := M_ACTIVE; mm_addedByNpub := addedByNpub;
                            mm_createdAt := now; mm_updatedAt := now |}
               end in
      (send 200 (meshMemberToJson npub m None), set_members <[npub := m]> db)
  end.

(** [DELETE /members/:npub] *)
Definition deleteMember (now : Z) (npub : string) (db : Db) : reply MeshMemberJson * Db :=
  match members db !! npub with
  | None => (Err 404 "not_found", db)
  | Some m =>
      let m' := {| mm_role := mm_role m; mm_status := M_REVOKED; mm_addedByNpub := mm_addedByNpub m;
                   mm_createdAt := mm_createdAt m; mm_updatedAt := now |} in
      (send 200 (meshMemberToJson npub m' None), set_members <[npub := m']> db)
  end.

(** ** Storage providers: request fields *)

(** [positiveNumber]: a finite positive number, or the fallback. *)
Definition positiveNumber (value : option string) (fallback : Q) : Q :=
  match Number_opt value with
  | Fin q => if Qle_bool q 0 then fallback else q
  | _ => fallback
  end.

(** A field that may be absent, null or a value. *)
Inductive field (A : Type) := FUndef | FNull | FVal (a : A).
Arguments FUndef {A}.
Arguments FNull {A}.
Arguments FVal {A} a.

(** [None] is the thrown ["invalid_bigint"]. *)
Definition parseBigInt (v : jsval) : option (field Z) :=
  match v with
  | JNull => Some FNull
  | JUndefined => Some FUndef
  | JNum n => match num_safe_int n with
              | Some z => if 0 <=? z then Some (FVal z) else None
              | None => None
              end
  | JStr s => if all_digits s then FVal <$> BigInt_string s else None
  | _ => None
  end.

(** [None] is NaN. *)
Definition parseOptionalPort (v : jsval) : option (field Z) :=
  match v with
  | JNull => Some FNull
  | JUndefined => Some FUndef
  | JNum n => match num_safe_int n with
              | Some z => if 0 <=? z then Some (FVal z) else None
              | None => None
              end
  | _ => None
  end.

Definition parseOptionalDate `{DateEngine} (v : jsval) : field Z :=
  match v with
  | JNull => FNull
  | JUndefined => FUndef
  | JStr s => match Date_parse s with Some t => FVal t | None => FUndef end
  | _ => FUndef
  end.

Definition normalizeUrl (value : string) : string := strip_slashes value.

(** Assigning a field: absent leaves the column as it is. *)
Definition assign {A} (f : field A) (old : option A) : option A :=
  match f with FUndef => old | FNull => None | FVal a => Some a end.

Definition field_fits (range : Z -> bool) (f : field Z) : bool :=
  match f with FVal z => range z | _ => true end.

(** ** Reading providers *)

Record StorageEnv := {
  STORAGE_ACTIVE_WINDOW_SECS : option string;
  BLOSSOM_REPLICAS : option string;
  SIGNUPS_COUNT_COMMITMENTS : option string;
  SIGNUPS_MIN_FREE_BYTES : option string
}.

Definition ACTIVE_WINDOW_SECS (env : StorageEnv) : Q := positiveNumber (STORAGE_ACTIVE_WINDOW_SECS env) 960.

(** [new Date(Date.now() - ACTIVE_WINDOW_SECS * 1000)]; a Date drops the
    fraction of its time value. *)
Definition Qtrunc (q : Q) : Z := Z.quot (Qnum q) (Zpos (Qden q)).
Definition cutoff (env : StorageEnv) (now : Z) : jsdate :=
  mkDate (Qtrunc (inject_Z now - ACTIVE_WINDOW_SECS env * 1000)).

Definition is_active (cut : Z) (s : StorageProvider) : bool :=
  bool_decide (sp_lifecycle s = LINKED) &&
  match sp_lastPingAt s with Some t => cut <? t | None => false end &&
  bool_decide (sp_tunnelIp s <> None) && bool_decide (sp_blossomPort s <> None).

Definition all_storages (db : Db) : list StorageProvider := snd <$> map_to_list (storages db).

Definition active_storages (cut : Z) (db : Db) : list StorageProvider :=
  filter (fun s => is_active cut s = true) (all_storages db).

(** [GET /storages/active] *)
Definition getActive (env : StorageEnv) (now : Z) (db : Db) : reply (list StorageProviderJson) :=
  send 200 (cut ← cutoff env now; mapM storageProviderToJson (active_storages cut db)).

(** [GET /storages/active-pg] *)
Definition getActivePg (env : StorageEnv) (now : Z) (db : Db) : reply (list StorageProviderJson) :=
  send 200 (cut ← cutoff env now;
            mapM storageProviderToJson
              (filter (fun s => is_active cut s && bool_decide (sp_pgAgentPort s <> None) = true)
                 (all_storages db))).

Record CapacityJson := {
  cj_providers : Z;
  cj_replicas : Z;
  cj_totalBytes : string;
  cj_freeBytes : string;
  cj_committedBytes : string;
  cj_availableBytes : string;
  cj_minFreeBytes : string;
  cj_signupsOpen : bool
}.

Definition committed_bytes (now : Z) (db : Db) : Z :=
  sumZ (fun u => Z.max (default 0 (u_storageBytes u) - u_usedStorage u) 0)
    (filter (fun u => match u_planExpiresAt u with Some t => now <? t | None => false end = true /\
                      u_storageBytes u <> None) (all_users db)).

(** [GET /storages/capacity] *)
Definition getCapacity (env : StorageEnv) (now : Z) (db : Db) : reply CapacityJson :=
  match cutoff env now with
  | None => Err 500 "internal_error"
  | Some cut =>
      let providers := active_storages cut db in
      let freeBytes := sumZ (fun s => default 0 (sp_reportedFreeBytes s)) providers in
      let totalBytes := sumZ (fun s => default 0 (sp_reportedTotalBytes s)) providers in
      let n := Z.of_nat (length providers) in
      let configuredReplicas := Z.max 1 (Qfloor (positiveNumber (BLOSSOM_REPLICAS env) 2)) in
      let replicas := Z.max 1 (Z.min configuredReplicas n) in
      let rawAvailable := if n =? 0 then 0 else Z.quot freeBytes replicas in
      let committed := committed_bytes now db in
      if negb (int64 committed) then Err 500 "internal_error" else
      let countCommitments := bool_decide (SIGNUPS_COUNT_COMMITMENTS env = Some "true") in
      let available :=
        if countCommitments then (if committed <? rawAvailable then rawAvailable - committed else 0)
        else rawAvailable in
      let minFree := Qfloor (positiveNumber (SIGNUPS_MIN_FREE_BYTES env) 1073741824) in
      Res 200 {| cj_providers := n; cj_replicas := replicas; cj_totalBytes := Z_to_string totalBytes;
                 cj_freeBytes := Z_to_string freeBytes; cj_committedBytes := Z_to_string committed;
                 cj_availableBytes := Z_to_string available; cj_minFreeBytes := Z_to_string minFree;
                 cj_signupsOpen := (0 <? n) && (minFree <=? available) |}
  end.

(** [GET /storages] *)
Definition listStorages (qowner : query_value) (db : Db) : reply (list StorageProviderJson) :=
  match qowner with
  | QOther => Err 400 "invalid_filter"
  | QStr owner =>
      send 200 (mapM storageProviderToJson (filter (fun s => sp_ownerNpub s = owner) (all_storages db)))
  | QAbsent => send 200 (mapM storageProviderToJson (all_storages db))
  end.

(** [GET /storages/:npub] *)
Definition getStorage (npub : string) (db : Db) : reply StorageProviderJson :=
  match storages db !! npub with
  | None => Err 404 "not_found"
  | Some s => send 200 (storageProviderToJson s)
  end.

(** ** Writing providers *)

Definition set_lifecycle (l : StorageLifecycle) (declared : field Z) (s : StorageProvider) : StorageProvider :=
  {| sp_npub := sp_npub s; sp_ownerNpub := sp_ownerNpub s; sp_tunnelIp := sp_tunnelIp s;
     sp_blossomPort := sp_blossomPort s; sp_pgAgentPort := sp_pgAgentPort s;
     sp_declaredCapacityBytes := assign declared (sp_declaredCapacityBytes s);
     sp_reportedTotalBytes := sp_reportedTotalBytes s; sp_reportedFreeBytes := sp_reportedFreeBytes s;
     sp_lifecycle := l; sp_lastPingAt := sp_lastPingAt s; sp_createdAt := sp_createdAt s |}.

(** [POST /storages]. The retry after a P2002 belongs to a concurrent creation
    and does the same update as the first branch. *)
Definition postStorage (now : Z) (body : jsval) (db : Db) : reply StorageProviderJson * Db :=
  match jget body "npub", jget body "ownerNpub" with
  | JStr npub, JStr ownerNpub =>
      match parseBigInt (jget body "declaredCapacityBytes") with
      | None => (Err 400 "invalid_bigint", db)
      | Some declared =>
          match storages db !! npub with
          | Some s =>
              if bool_decide (sp_ownerNpub s <> ownerNpub) then (Err 409 "owner_conflict", db)
              else if negb (field_fits int64 declared) then (Err 500 "internal_error", db)
              else
                let s' := set_lifecycle LINKED declared s in
                (send 200 (storageProviderToJson s'), set_storages <[npub := s']> db)
          | None =>
              if negb (field_fits int64 declared) then (Err 500 "internal_error", db)
              else match members db !! ownerNpub with
                   | None => (Err 500 "internal_error", db)
                   | Some _ =>
                       let s := {| sp_npub := npub; sp_ownerNpub := ownerNpub; sp_tunnelIp := None;
                                   sp_blossomPort := None; sp_pgAgentPort := None;
                                   sp_declaredCapacityBytes := assign declared None;
                                   sp_reportedTotalBytes := None; sp_reportedFreeBytes := None;
                                   sp_lifecycle := LINKED; sp_lastPingAt := None; sp_createdAt := now |} in
                       (send 201 (storageProviderToJson s), set_storages <[npub := s]> db)
                   end
          end
      end
  | _, _ => (Err 400 "invalid_storage", db)
  end.

Section Patch.
Context `{DateEngine}.

(** [PATCH /storages/:npub] *)
Definition patchStorage (npub : string) (body : jsval) (db : Db) : reply StorageProviderJson * Db :=
  if negb (is_undefined (jget body "ownerNpub")) ||
     (negb (is_undefined (jget body "lifecycle")) &&
      bool_decide (enum_lifecycle (jget body "lifecycle") = None))
  then (Err 400 "invalid_storage", db) else
  let lastPingAt := parseOptionalDate (jget body "lastPingAt") in
  let createdAt := parseOptionalDate (jget body "createdAt") in
  let bad_date v d := negb (is_undefined v) && match d with FUndef => true | _ => false end in
  match parseOptionalPort (jget body "blossomPort"), parseOptionalPort (jget body "pgAgentPort") with
  | Some blossomPort, Some pgAgentPort =>
      if bad_date (jget body "lastPingAt") lastPingAt || bad_date (jget body "createdAt") createdAt
      then (Err 400 "invalid_storage", db) else
      match jget body "tunnelIp" with
      | JUndefined | JNull | JStr _ =>
          let tunnelIp := match jget body "tunnelIp" with
                          | JStr s => FVal s | JNull => FNull | _ => FUndef
                          end in
          match parseBigInt (jget body "declaredCapacityBytes"),
                parseBigInt (jget body "reportedTotalBytes"),
                parseBigInt (jget body "reportedFreeBytes") with
          | Some declared, Some reportedTotal, Some reportedFree =>
              if negb (field_fits int32 blossomPort && field_fits int32 pgAgentPort &&
                       field_fits int64 declared && field_fits int64 reportedTotal &&
                       field_fits int64 reportedFree)
              then (Err 500 "internal_error", db) else
              match storages db !! npub with
              | None => (Err 404 "not_found", db)
              | Some s =>
                  let s' :=
                    {| sp_npub := sp_npub s; sp_ownerNpub := sp_ownerNpub s;
                       sp_tunnelIp := assign tunnelIp (sp_tunnelIp s);
                       sp_blossomPort := assign blossomPort (sp_blossomPort s);
                       sp_pgAgentPort := assign pgAgentPort (sp_pgAgentPort s);
                       sp_declaredCapacityBytes := assign declared (sp_declaredCapacityBytes s);
                       sp_reportedTotalBytes := assign reportedTotal (sp_reportedTotalBytes s);
                       sp_reportedFreeBytes := assign reportedFree (sp_reportedFreeBytes s);
                       sp_lifecycle := default (sp_lifecycle s) (enum_lifecycle (jget body "lifecycle"));
                       sp_lastPingAt := assign lastPingAt (sp_lastPingAt s);
                       sp_createdAt := match createdAt with FVal t => t | _ => sp_createdAt s end |} in
                  (send 200 (storageProviderToJson s'), set_storages <[npub := s']> db)
              end
          | _, _, _ => (Err 400 "invalid_bigint", db)
          end
      | _ => (Err 400 "invalid_storage", db)
      end
  | _, _ => (Err 400 "invalid_storage", db)
  end.
End Patch.

(** [DELETE /storages/:npub] *)
Definition deleteStorage (npub : string) (db : Db) : reply StorageProviderJson * Db :=
  match storages db !! npub with
  | None => (Err 404 "not_found", db)
  | Some s =>
      let s' := set_lifecycle REMOVED FUndef s in
      (send 200 (storageProviderToJson s'), set_storages <[npub := s']> db)
  end.

(** ** Replica backfill *)

Record aliases := { al_map : gmap string string; al_ambiguous : gset string }.

Definition addAlias (url npub : string) (a : aliases) : aliases :=
  match truthy (al_map a !! url) with
  | Some existing =>
      if bool_decide (existing <> npub) then
        {| al_map := delete url (al_map a); al_ambiguous := al_ambiguous a ∪ {[url]} |}
      else if bool_decide (url ∉ al_ambiguous a) then
        {| al_map := <[url := npub]> (al_map a); al_ambiguous := al_ambiguous a |}
      else a
  | None =>
      if bool_decide (url ∉ al_ambiguous a) then
        {| al_map := <[url := npub]> (al_map a); al_ambiguous := al_ambiguous a |}
      else a
  end.

Definition add_storage (s : StorageProvider) (a : aliases) : aliases :=
  match truthy (sp_tunnelIp s), sp_blossomPort s with
  | Some ip, Some port =>
      addAlias ("https://" +:+ ip +:+ ":" +:+ Z_to_string port) (sp_npub s)
        (addAlias ("http://" +:+ ip +:+ ":" +:+ Z_to_string port) (sp_npub s) a)
  | _, _ => a
  end.

Definition build_aliases (l : list StorageProvider) : aliases :=
  foldl (fun a s => add_storage s a) {| al_map := ∅; al_ambiguous := ∅ |} l.

Definition is_url (s : string) : bool :=
  let l := toLowerCase s in
  starts_with "http://" l || starts_with "https://" l || starts_with "ws://" l || starts_with "wss://" l.

(** One replica value: the new value, and whether it was replaced ([Some true])
    or kept for want of a match ([Some false]). *)
Definition rewrite_one (a : aliases) (replica : string) : string * option bool :=
  if negb (is_url replica) then (replica, None) else
  match truthy (al_map a !! normalizeUrl replica) with
  | Some npub => (npub, Some true)
  | None => (replica, Some false)
  end.

Definition rewrite_replicas (a : aliases) (l : list string) : list string := (fun r => (rewrite_one a r).1) <$> l.
Definition count_rewrites (a : aliases) (kind : bool) (l : list string) : Z :=
  Z.of_nat (length (filter (fun r => (rewrite_one a r).2 = Some kind) l)).

(** [distinct: ["hash"]]: the first row of each hash. *)
Fixpoint distinct_hash (seen : gset string) (l : list Blob) : list Blob :=
  match l with
  | [] => []
  | b :: l => if bool_decide (b_hash b ∈ seen) then distinct_hash seen l
              else b :: distinct_hash ({[b_hash b]} ∪ seen) l
  end.

Definition set_replicas (replicas : list string) (b : Blob) : Blob :=
  {| b_hash := b_hash b; b_npub := b_npub b; b_size := b_size b; b_replicas := replicas;
     b_createdAt := b_createdAt b |}.

Definition update_hash (hash : string) (replicas : list string) (l : list Blob) : list Blob :=
  (fun b => if bool_decide (b_hash b = hash) then set_replicas replicas b else b) <$> l.

Record BackfillJson := { bf_dryRun : bool; bf_changedRows : Z; bf_replacedValues : Z; bf_unmatchedValues : Z }.

(** [POST /storages/backfill-replicas] *)
Definition backfillReplicas (body : jsval) (db : Db) : reply BackfillJson * Db :=
  match jget body "dryRun" with
  | JUndefined | JNull | JBool _ =>
      let dryRun := match jget body "dryRun" with JBool b => b | _ => false end in
      let a := build_aliases (all_storages db) in
      let rows := distinct_hash ∅ (blobs db) in
      let changed := filter (fun b => rewrite_replicas a (b_replicas b) <> b_replicas b) rows in
      let db' :=
        if dryRun then db
        else set_blobs (fun l => foldl (fun l b => update_hash (b_hash b) (rewrite_replicas a (b_replicas b)) l)
                                  l changed) db in
      (Res 200 {| bf_dryRun := dryRun; bf_changedRows := Z.of_nat (length changed);
                  bf_replacedValues := sumZ (fun b => count_rewrites a true (b_replicas b)) rows;
                  bf_unmatchedValues := sumZ (fun b => count_rewrites a false (b_replicas b)) rows |}, db')
  | _ => (Err 400 "invalid_dry_run", db)
  end.

(** ** What the alias table says *)

(** The addresses a provider claims. *)
Definition claims (s : StorageProvider) : list (string * string) :=
  match truthy (sp_tunnelIp s), sp_blossomPort s with
  | Some ip, Some port =>
      [("http://" +:+ ip +:+ ":" +:+ Z_to_string port, sp_npub s);
       ("https://" +:+ ip +:+ ":" +:+ Z_to_string port, sp_npub s)]
  | _, _ => []
  end.

Definition claimed (l : list StorageProvider) : list (string * string) := l ≫= claims.

Record aliases_ok (a : aliases) (ps : list (string * string)) : Prop := {
  ao_map : forall url n, al_map a !! url = Some n <->
    (url, n) ∈ ps /\ forall n', (url, n') ∈ ps -> n' = n;
  ao_amb : forall url, url ∈ al_ambiguous a <->
    exists n n', n <> n' /\ (url, n) ∈ ps /\ (url, n') ∈ ps
}.

Lemma truthy_nonempty s : s <> "" -> truthy (Some s) = Some s.
Proof. intros Hs. simpl. by rewrite (proj2 (String.eqb_neq s "")). Qed.

Lemma addAlias_ok a ps url n :
  n <> "" -> (forall p, p ∈ ps -> p.2 <> "") -> aliases_ok a ps ->
  aliases_ok (addAlias url n a) (ps ++ [(url, n)]).
Proof.
  intros Hn Hps [Hm Ha]. unfold addAlias.
  assert (forall u m, (u, m) ∈ ps ++ [(url, n)] <-> (u, m) ∈ ps \/ u = url /\ m = n) as Hin.
  { intros u m. rewrite elem_of_app, list_elem_of_singleton. naive_solver. }
  destruct (al_map a !! url) as [e|] eqn:He.
  - pose proof He as [Hep Heu]%Hm. rewrite truthy_nonempty by apply (Hps _ Hep).
    case_bool_decide as Hne; [|destruct (bool_decide_reflect (url ∉ al_ambiguous a)) as [Hna|Hna]].
    + constructor; simpl.
      * intros u m. rewrite lookup_delete_Some, Hm, !Hin. setoid_rewrite Hin. naive_solver.
      * intros u. rewrite elem_of_union, elem_of_singleton, Ha. setoid_rewrite Hin. naive_solver.
    + assert (e = n) as -> by (by destruct (decide (e = n))). rewrite insert_id by done.
      constructor; simpl.
      * intros u m. rewrite Hm, Hin. setoid_rewrite Hin. naive_solver.
      * intros u. rewrite Ha. setoid_rewrite Hin. naive_solver.
    + exfalso. apply Hna. intros (x & y & Hxy & Hx & Hy)%Ha. naive_solver.
  - simpl. destruct (bool_decide_reflect (url ∉ al_ambiguous a)) as [Hna|Hna].
    + assert (forall m, (url, m) ∉ ps) as Hnone.
      { intros m Hmem. assert (al_map a !! url = Some m) as Hc; [|congruence].
        apply Hm. split; [done|]. intros m' Hm'. destruct (decide (m' = m)) as [|Hne]; [done|].
        destruct Hna. apply Ha. by exists m', m. }
      constructor; simpl.
      * intros u m. rewrite lookup_insert_Some, Hm, Hin. setoid_rewrite Hin. naive_solver.
      * intros u. rewrite Ha. setoid_rewrite Hin. naive_solver.
    + apply dec_stable in Hna. pose proof Hna as (x & y & Hxy & Hx & Hy)%Ha.
      constructor; simpl.
      * intros u m. rewrite Hm, Hin. setoid_rewrite Hin. split; [naive_solver|].
        intros [[Hum | [-> ->]] Hall]; [naive_solver|].
        destruct Hxy. rewrite (Hall x), (Hall y) by auto. done.
      * intros u. rewrite Ha. setoid_rewrite Hin. split; [naive_solver|].
        intros (p & q & Hpq & Hp & Hq).
        destruct (decide (u = url)) as [->|Hu]; [by exists x, y | naive_solver].
Qed.

Lemma claims_nonempty s p : sp_npub s <> "" -> p ∈ claims s -> p.2 <> "".
Proof. unfold claims. repeat case_match; set_solver. Qed.

Lemma add_storage_ok a ps s :
  sp_npub s <> "" -> (forall p, p ∈ ps -> p.2 <> "") -> aliases_ok a ps ->
  aliases_ok (add_storage s a) (ps ++ claims s).
Proof.
  intros Hs Hps Hok. unfold add_storage, claims.
  destruct (truthy (sp_tunnelIp s)) as [ip|], (sp_blossomPort s) as [port|]; try by rewrite app_nil_r.
  rewrite cons_middle, app_assoc. apply addAlias_ok; [done| |by apply addAlias_ok].
  intros p [Hp| ->%list_elem_of_singleton]%elem_of_app; auto.
Qed.

(** The table maps an address exactly when one provider claims it. *)
Lemma build_aliases_ok l :
  (forall s, s ∈ l -> sp_npub s <> "") -> aliases_ok (build_aliases l) (claimed l).
Proof.
  unfold build_aliases, claimed. induction l as [|s l IH] using rev_ind; intros Hl.
  - simpl. constructor; set_solver.
  - rewrite foldl_app, bind_app. simpl. rewrite app_nil_r. apply add_storage_ok.
    + apply Hl. set_solver.
    + intros p (s' & Hp & Hs')%list_elem_of_bind. eapply claims_nonempty; [|done]. apply Hl. set_solver.
    + apply IH. set_solver.
Qed.

(** Owners of one hash share its replica list. *)
Definition shared_replicas (l : list Blob) : Prop :=
  forall b b', b ∈ l -> b' ∈ l -> b_hash b = b_hash b' -> b_replicas b = b_replicas b'.

Lemma distinct_hash_elem seen l b : b ∈ distinct_hash seen l -> b ∈ l /\ b_hash b ∉ seen.
Proof.
  revert seen. induction l as [|c l IH]; intros seen; simpl; [set_solver|].
  case_bool_decide; [intros ?%IH; set_solver|].
  intros [->|Hb%IH]%elem_of_cons; set_solver.
Qed.

Lemma distinct_hash_complete seen l b :
  b ∈ l -> b_hash b ∉ seen -> exists b', b' ∈ distinct_hash seen l /\ b_hash b' = b_hash b.
Proof.
  revert seen. induction l as [|c l IH]; intros seen Hb Hs; simpl; [by apply elem_of_nil in Hb|].
  case_bool_decide as Hc.
  - apply elem_of_cons in Hb as [->|Hb]; [done | auto].
  - destruct (decide (b_hash b = b_hash c)) as [He|He]; [exists c; set_solver|].
    apply elem_of_cons in Hb as [->|Hb]; [done|].
    destruct (IH ({[b_hash c]} ∪ seen)) as (b' & Hb' & Hh); [done|set_solver|].
    exists b'. set_solver.
Qed.

(** The updates of the transaction, seen from one row. *)
Lemma update_hash_fold f (us : list Blob) b :
  (forall u, u ∈ us -> b_hash u = b_hash b -> f u = f b) ->
  foldl (fun x u => if bool_decide (b_hash x = b_hash u) then set_replicas (f u) x else x) b us =
  if bool_decide (b_hash b ∈ (b_hash <$> us)) then set_replicas (f b) b else b.
Proof.
  induction us as [|u us IH] using rev_ind; intros Hf; [done|].
  rewrite foldl_app, IH by set_solver. simpl. rewrite fmap_app.
  destruct (decide (b_hash b = b_hash u)) as [He|He].
  - rewrite (bool_decide_eq_true_2 (b_hash b ∈ _ ++ _)) by set_solver.
    rewrite (Hf u) by set_solver. case_bool_decide as H1; simpl; by rewrite bool_decide_eq_true_2.
  - case_bool_decide as H1; simpl; rewrite bool_decide_eq_false_2 by done.
    + by rewrite bool_decide_eq_true_2 by set_solver.
    + by rewrite bool_decide_eq_false_2 by set_solver.
Qed.

Lemma update_hash_fold_list f (us l : list Blob) :
  foldl (fun l u => update_hash (b_hash u) (f u) l) l us =
  (fun b => foldl (fun x u => if bool_decide (b_hash x = b_hash u) then set_replicas (f u) x else x) b us) <$> l.
Proof.
  revert l. induction us as [|u us IH]; intros l; simpl; [by rewrite list_fmap_id|].
  rewrite IH. unfold update_hash. by rewrite <- list_fmap_compose.
Qed.

Lemma set_replicas_id b : set_replicas (b_replicas b) b = b.
Proof. by destruct b. Qed.

Lemma backfill_rows a l :
  shared_replicas l ->
  let changed := filter (fun b => rewrite_replicas a (b_replicas b) <> b_replicas b) (distinct_hash ∅ l) in
  foldl (fun l b => update_hash (b_hash b) (rewrite_replicas a (b_replicas b)) l) l changed =
  (fun b => set_replicas (rewrite_replicas a (b_replicas b)) b) <$> l.
Proof.
  intros Hsh changed. rewrite (update_hash_fold_list (fun b => rewrite_replicas a (b_replicas b))).
  apply list_fmap_ext. intros i b Hb%list_elem_of_lookup_2.
  assert (forall u, u ∈ changed -> u ∈ l) as Hsub.
  { intros u [_ Hu]%list_elem_of_filter. by apply distinct_hash_elem in Hu as [? _]. }
  rewrite update_hash_fold.
  - case_bool_decide as Hc; [done|].
    destruct (decide (rewrite_replicas a (b_replicas b) = b_replicas b)) as [->|Hne];
      [by rewrite set_replicas_id|].
    destruct Hc. destruct (distinct_hash_complete ∅ l b) as (b' & Hb' & Hh); [done|set_solver|].
    apply list_elem_of_fmap. exists b'. split; [done|]. apply list_elem_of_filter. split; [|done].
    rewrite (Hsh b' b); [done| |done|done]. by apply distinct_hash_elem in Hb' as [? _].
  - intros u Hu Hh. by rewrite (Hsh u b) by auto.
Qed.

(** ** Properties *)

(** The backfill rewrites each replica value of each row on its own: a
    value is replaced only when it is a URL that exactly one provider claims,
    by that provider's npub; every other pointer is kept, and a dry run changes
    nothing. *)
Theorem backfill_safe body db r db' :
  shared_replicas (blobs db) -> (forall s, s ∈ all_storages db -> sp_npub s <> "") ->
  backfillReplicas body db = (Res 200 r, db') ->
  let a := build_aliases (all_storages db) in
  (blobs db' = if bf_dryRun r then blobs db
               else (fun b => set_replicas (rewrite_replicas a (b_replicas b)) b) <$> blobs db) /\
  forall v, (exists n, rewrite_one a v = (n, Some true) /\ is_url v = true /\
               (normalizeUrl v, n) ∈ claimed (all_storages db) /\
               forall n', (normalizeUrl v, n') ∈ claimed (all_storages db) -> n' = n) \/
            (rewrite_one a v).1 = v.
Proof.
  intros Hsh Hnpub Hbf a. split.
  - unfold backfillReplicas in Hbf. fold a in Hbf.
    repeat case_match; simplify_eq; simpl; try done; by apply backfill_rows.
  - intros v. unfold rewrite_one. destruct (is_url v); [|by right]. simpl.
    pose proof (build_aliases_ok _ Hnpub) as Hok. fold a in Hok.
    destruct (al_map a !! normalizeUrl v) as [n|] eqn:Hn; [|by right].
    pose proof Hn as [Hin Huniq]%(ao_map _ _ Hok).
    simpl. destruct (String.eqb n ""); [by right|]. left. exists n. by split_and!.
Qed.

Lemma quot_mul_le a b : 0 <= a -> 0 < b -> b * Z.quot a b <= a.
Proof. intros Ha Hb. rewrite Z.quot_div_nonneg by lia. by apply Z.mul_div_le. Qed.

(** While signups are open and commitments are counted, the free space of
    the active providers holds, on every replica, the unused part of every live
    allowance and the configured reserve on top. *)
Theorem capacity_covers_commitments env now db c :
  (forall s, s ∈ all_storages db -> forall z, sp_reportedFreeBytes s = Some z -> 0 <= z) ->
  getCapacity env now db = Res 200 c -> cj_signupsOpen c = true ->
  SIGNUPS_COUNT_COMMITMENTS env = Some "true" ->
  0 < Qfloor (positiveNumber (SIGNUPS_MIN_FREE_BYTES env) 1073741824) ->
  exists free minFree, BigInt_string (cj_freeBytes c) = Some free /\
    BigInt_string (cj_minFreeBytes c) = Some minFree /\
    cj_replicas c * (committed_bytes now db + minFree) <= free /\ 1 <= cj_replicas c <= cj_providers c.
Proof.
  intros Hfree. unfold getCapacity. destruct (cutoff env now) as [cut|]; [|done].
  set (providers := active_storages cut db).
  set (free := sumZ (fun s => default 0 (sp_reportedFreeBytes s)) providers). set (n := Z.of_nat (length providers)).
  set (reps := Z.max 1 (Z.min (Z.max 1 _) n)).
  destruct (int64 (committed_bytes now db)); [|done]. simpl. intros [= <-]. simpl.
  set (minFree := Qfloor _). intros Hopen Henv Hpos.
  rewrite (bool_decide_eq_true_2 _ Henv) in Hopen. zbool.
  exists free, minFree. rewrite !BigInt_Z_to_string. split; [done|]. split; [done|].
  assert (0 <= free) as Hf.
  { apply sumZ_nonneg, Forall_forall. intros s [_ Hs]%list_elem_of_filter.
    destruct (sp_reportedFreeBytes s) eqn:E; simpl; [by eapply Hfree | lia]. }
  replace (n =? 0) with false in H0 by lia.
  pose proof (quot_mul_le free reps Hf ltac:(lia)).
  split; [|lia]. destruct (committed_bytes now db <? Z.quot free reps) eqn:E; zbool; nia.
Qed.

(** ** Witnesses *)

Module MeshExamples.
Definition T0 : Z := 1790812800000.

Definition provider (n ip : string) (free : Z) : StorageProvider :=
  {| sp_npub := n; sp_ownerNpub := "npub1o"; sp_tunnelIp := Some ip; sp_blossomPort := Some 3000;
     sp_pgAgentPort := None; sp_declaredCapacityBytes := None; sp_reportedTotalBytes := Some 9000;
     sp_reportedFreeBytes := Some free; sp_lifecycle := LINKED; sp_lastPingAt := Some (T0 - 1000);
     sp_createdAt := T0 |}.

Definition mesh_db : Db :=
  {| users := {["npub1a" := {| u_npub := "npub1a"; u_planExpiresAt := Some (T0 + 1000);
                               u_storageBytes := Some 1000; u_usedStorage := 400; u_createdAt := T0 |}]};
     blobs := [{| b_hash := "h1"; b_npub := "npub1a"; b_size := 400;
                  b_replicas := ["http://10.0.0.1:3000/"; "http://10.0.0.9:3000"]; b_createdAt := T0 |}];
     grants := ∅; accounts := ∅; notifications := []; moderation := []; members := ∅;
     storages := <["npub1p" := provider "npub1p" "10.0.0.1" 4000]>
                   {["npub1q" := provider "npub1q" "10.0.0.2" 2000]} |}.

Definition env : StorageEnv :=
  {| STORAGE_ACTIVE_WINDOW_SECS := None; BLOSSOM_REPLICAS := Some "2";
     SIGNUPS_COUNT_COMMITMENTS := Some "true"; SIGNUPS_MIN_FREE_BYTES := Some "1000" |}.

Lemma mesh_db_storages s :
  s ∈ all_storages mesh_db -> s = provider "npub1p" "10.0.0.1" 4000 \/ s = provider "npub1q" "10.0.0.2" 2000.
Proof.
  intros ([k v] & -> & Hv%elem_of_map_to_list)%list_elem_of_fmap. unfold mesh_db in Hv.
  cbn [storages] in Hv. rewrite lookup_insert, lookup_singleton in Hv.
  repeat case_decide; simplify_eq; simpl; auto.
Qed.

Lemma backfill_safe_witness :
  exists r db', backfillReplicas (JObj []) mesh_db = (Res 200 r, db') /\
    b_replicas <$> blobs db' = [["npub1p"; "http://10.0.0.9:3000"]].
Proof.
  destruct (backfillReplicas (JObj []) mesh_db) as [[st r|st e] db'] eqn:E;
    [|vm_compute in E; discriminate].
  assert (st = 200) as -> by (vm_compute in E; injection E; intros; subst; reflexivity).
  destruct (backfill_safe (JObj []) mesh_db r db') as [H1 _].
  - intros b b' Hb Hb' _. apply list_elem_of_singleton in Hb as ->.
    apply list_elem_of_singleton in Hb' as ->. reflexivity.
  - intros s [->| ->]%mesh_db_storages; discriminate.
  - exact E.
  - exists r, db'. split; [reflexivity|]. rewrite H1.
    assert (bf_dryRun r = false) as -> by (vm_compute in E; injection E; intros; subst; reflexivity).
    vm_compute. reflexivity.
Defined.

Lemma capacity_covers_commitments_witness :
  exists c, getCapacity env T0 mesh_db = Res 200 c /\ 1 <= cj_replicas c <= cj_providers c.
Proof.
  eexists. split; [vm_compute; reflexivity|].
  edestruct (capacity_covers_commitments env T0 mesh_db) as (f & m & _ & _ & _ & H1).
  - intros s [->| ->]%mesh_db_storages z; simpl; intros [= <-]; lia.
  - vm_compute. reflexivity.
  - reflexivity.
  - reflexivity.
  - vm_compute. reflexivity.
  - exact H1.
Defined.
End MeshExamples.
