(* ===== verification/DbSystem.v ===== *)
(** * db-api as one state machine

    Every operation of db-api that changes a table, in any order, and what
    holds of the tables after any sequence of them. *)

From S2P Require Import Prelude Js Dates Http Lifecycle Entitlement Db DbApi DbFacts MeshApi.

Section System.
Context `{DateEngine} (npubEncode : string -> option string).

Inductive api_op :=
| OpPostBlob (req : PostBlob)
| OpDeleteBlob (hash : string) (qnpub qall : query_value)
| OpEntitlement (npub : string) (body : jsval)
| OpPurge (npub : string)
| OpNotify (id : string) (req : PostNotification)
| OpModerate (id : string) (req : PostModeration)
| OpRegister (args : list string)
| OpPutMember (npub : string) (body : jsval)
| OpDeleteMember (npub : string)
| OpPostStorage (body : jsval)
| OpPatchStorage (npub : string) (body : jsval)
| OpDeleteStorage (npub : string)
| OpBackfill (body : jsval).

Definition run_op (now : Z) (op : api_op) (db : Db) : Db :=
  match op with
  | OpPostBlob req => (postBlob now req db).2
  | OpDeleteBlob hash qn qa => (deleteBlob hash qn qa db).2
  | OpEntitlement npub body => (postEntitlement now npub body db).2
  | OpPurge npub => (deleteUserBlobs npub db).2
  | OpNotify id req => (postNotification now id req db).2
  | OpModerate id req => (postModeration now id req db).2
  | OpRegister args => (registerService npubEncode now args db).2
  | OpPutMember npub body => (putMember now npub body db).2
  | OpDeleteMember npub => (deleteMember now npub db).2
  | OpPostStorage body => (postStorage now body db).2
  | OpPatchStorage npub body => (patchStorage npub body db).2
  | OpDeleteStorage npub => (deleteStorage npub db).2
  | OpBackfill body => (backfillReplicas body db).2
  end.

Definition run_ops (ops : list (Z * api_op)) (db : Db) : Db :=
  foldl (fun db o => run_op o.1 o.2 db) db ops.

(** ** Operations that leave the accounts alone *)

Record same_accounts (db db' : Db) : Prop := {
  sa_users : users db' = users db;
  sa_blobs : blobs db' = blobs db;
  sa_grants : grants db' = grants db
}.

Lemma same_accounts_refl db : same_accounts db db.
Proof. done. Qed.

Lemma db_ok_same db db' : same_accounts db db' -> db_ok db -> db_ok db'.
Proof. intros [Hu Hb Hg] []. constructor; rewrite ?Hu, ?Hb, ?Hg; done. Qed.

(** Splits the handler's branches; each one sets a table that is not [users],
    [blobs] or [grants], or none. *)
Ltac table_only := repeat case_match; simplify_eq; simpl; done.

Lemma postNotification_same now id req db : same_accounts db (postNotification now id req db).2.
Proof. unfold postNotification, transaction, notification_create. table_only. Qed.
Lemma postModeration_same now id req db : same_accounts db (postModeration now id req db).2.
Proof. unfold postModeration. table_only. Qed.
Lemma registerService_same now args db : same_accounts db (registerService npubEncode now args db).2.
Proof. unfold registerService. table_only. Qed.
Lemma putMember_same now npub body db : same_accounts db (putMember now npub body db).2.
Proof. unfold putMember. table_only. Qed.
Lemma deleteMember_same now npub db : same_accounts db (deleteMember now npub db).2.
Proof. unfold deleteMember. table_only. Qed.
Lemma postStorage_same now body db : same_accounts db (postStorage now body db).2.
Proof. unfold postStorage. table_only. Qed.
Lemma patchStorage_same npub body db : same_accounts db (patchStorage npub body db).2.
Proof. unfold patchStorage. table_only. Qed.
Lemma deleteStorage_same npub db : same_accounts db (deleteStorage npub db).2.
Proof. unfold deleteStorage. table_only. Qed.

#[local] Hint Resolve postNotification_same postModeration_same registerService_same putMember_same
  deleteMember_same postStorage_same patchStorage_same deleteStorage_same : orch.

Lemma grants_same db db' h g : same_accounts db db' -> grants db !! h = Some g -> grants db' !! h = Some g.
Proof. by intros [_ _ ->]. Qed.

(** ** The backfill rewrites replica lists only *)

Definition same_rows (l l' : list Blob) : Prop :=
  Forall2 (fun b b' => b_hash b' = b_hash b /\ b_npub b' = b_npub b /\ b_size b' = b_size b /\
                       b_createdAt b' = b_createdAt b) l l'.

Lemma same_rows_refl l : same_rows l l.
Proof. by apply Forall_Forall2_diag, Forall_forall. Qed.

Lemma same_rows_trans l1 l2 l3 : same_rows l1 l2 -> same_rows l2 l3 -> same_rows l1 l3.
Proof.
  intros H12. revert l3. induction H12 as [|b1 b2 l1 l2 Hb _ IH]; intros l3 H23.
  - inversion H23. constructor.
  - inversion H23 as [|? b3 ? l3' Hb' H23']; subst. constructor; [|by apply IH].
    destruct Hb as (<- & <- & <- & <-). exact Hb'.
Qed.

Lemma update_hash_same hash reps l : same_rows l (update_hash hash reps l).
Proof.
  unfold update_hash. induction l as [|b l IH]; [constructor|].
  rewrite fmap_cons. constructor; [|exact IH]. by case_bool_decide.
Qed.

Lemma same_rows_keys l l' : same_rows l l' -> blob_key <$> l' = blob_key <$> l.
Proof.
  induction 1 as [|b b' l l' (H1 & H2 & _) _ IH]; [done|].
  rewrite !fmap_cons, IH. unfold blob_key at 1 3. by rewrite H1, H2.
Qed.

Lemma same_rows_used n l l' : same_rows l l' -> used_by n l' = used_by n l.
Proof.
  unfold used_by, owned. induction 1 as [|b b' l l' (_ & H2 & H3 & _) _ IH]; [done|].
  rewrite !filter_cons, H2. case_decide; rewrite ?sumZ_cons; congruence.
Qed.

Lemma db_ok_same_rows db f : same_rows (blobs db) (f (blobs db)) -> db_ok db -> db_ok (set_blobs f db).
Proof.
  intros Hs [Hu Hk Ho Hb Hg].
  assert (forall b', b' ∈ f (blobs db) -> exists b, b ∈ blobs db /\ b_npub b' = b_npub b /\
    b_size b' = b_size b /\ b_createdAt b' = b_createdAt b) as Hrow.
  { intros b' [i Hi]%list_elem_of_lookup_1.
    destruct (Forall2_lookup_r _ _ _ _ _ Hs Hi) as (b & Hbi & _ & ? & ? & ?).
    exists b. split; [by eapply list_elem_of_lookup_2 | done]. }
  constructor; simpl.
  - intros n u Hn. eapply user_ok_ext; [by apply same_rows_used | by apply Hu].
  - by rewrite (same_rows_keys _ _ Hs).
  - intros b' (b & Hin & -> & _)%Hrow. auto.
  - intros b' (b & Hin & _ & -> & ->)%Hrow. auto.
  - done.
Qed.

Lemma backfill_same_rows body db :
  users (backfillReplicas body db).2 = users db /\ grants (backfillReplicas body db).2 = grants db /\
  exists f, (backfillReplicas body db).2 = set_blobs f db /\ same_rows (blobs db) (f (blobs db)).
Proof.
  assert (forall d, exists f, d = set_blobs f d /\ same_rows (blobs d) (f (blobs d))) as Hid.
  { intros d. exists id. split; [by destruct d | apply same_rows_refl]. }
  assert (forall (g : Blob -> list string) us l,
    same_rows l (foldl (fun l b => update_hash (b_hash b) (g b) l) l us)) as Hfold.
  { intros g us. induction us as [|u us IH]; intros l; simpl; [apply same_rows_refl|].
    eapply same_rows_trans; [apply update_hash_same | apply IH]. }
  unfold backfillReplicas. repeat case_match; simplify_eq; simpl; (split; [done|]); (split; [done|]);
    first [apply Hid | eexists; split; [reflexivity|]; apply Hfold].
Qed.

(** ** Preservation, and grants are kept forever *)

Lemma run_op_db_ok now op db : valid_time now = true -> db_ok db -> db_ok (run_op now op db).
Proof.
  intros Hn Hdb. destruct op; simpl; try (eapply db_ok_same; [|exact Hdb]; solve [auto with orch]).
  - by apply postBlob_db_ok.
  - by apply deleteBlob_db_ok.
  - by apply postEntitlement_db_ok.
  - by apply deleteUserBlobs_db_ok.
  - destruct (backfill_same_rows body db) as (_ & _ & f & -> & Hs). by apply db_ok_same_rows.
Qed.

Lemma run_ops_db_ok ops db :
  Forall (fun o => valid_time o.1 = true) ops -> db_ok db -> db_ok (run_ops ops db).
Proof.
  intros Hops. revert db. induction Hops as [|o ops Ho _ IH]; intros db Hdb; [done|].
  apply IH. by apply run_op_db_ok.
Qed.

Lemma run_op_grants now op db h g :
  db_ok db -> grants db !! h = Some g -> grants (run_op now op db) !! h = Some g.
Proof.
  intros Hdb Hg. destruct op; simpl;
    try (eapply grants_same; [|exact Hg]; solve [auto with orch]).
  - unfold postBlob. destruct (BigInt (pb_size req)) as [z|]; [|done].
    destruct (transaction _ db) as [[[b u]|e] db'] eqn:E; simpl.
    + apply transaction_Ok, postBlob_tx_Ok in E as (u0 & _ & _ & _ & _ & _ & _ & _ & ->). done.
    + by apply transaction_Throw in E as [_ ->].
  - unfold deleteBlob. case_match; [done|].
    destruct (transaction _ db) as [[[last rem]|e] db'] eqn:E; simpl.
    + apply transaction_Ok, deleteBlob_tx_Ok in E as (_ & _ & -> & _); done.
    + by apply transaction_Throw in E as [_ ->].
  - unfold postEntitlement. destruct (parseEntitlementRequest body) as [req|]; [|done].
    destruct (transaction _ db) as [[u|e] db'] eqn:E; simpl.
    + apply transaction_Ok, entitlement_tx_Ok in E as (_ & _ & _ & _ & _ & _ & _ & _ & Hgs).
      destruct (truthy _) as [h'|]; [|by rewrite Hgs]. destruct Hgs as [Hnone ->].
      rewrite lookup_insert_ne; [done|]. congruence.
    + by apply transaction_Throw in E as [_ ->].
  - unfold deleteUserBlobs. destruct (transaction _ db) as [[rows|e] db'] eqn:E; simpl.
    + apply transaction_Ok, purge_tx_Ok in E as (_ & _ & _ & -> & _); done.
    + by apply transaction_Throw in E as [_ ->].
  - by destruct (backfill_same_rows body db) as (_ & -> & _).
Qed.

Lemma run_ops_grants ops db h g :
  Forall (fun o => valid_time o.1 = true) ops -> db_ok db ->
  grants db !! h = Some g -> grants (run_ops ops db) !! h = Some g.
Proof.
  intros Hops. revert db. induction Hops as [|o ops Ho _ IH]; intros db Hdb Hg; [done|].
  apply IH; [by apply run_op_db_ok | by apply run_op_grants].
Qed.

Lemma user_update_not_P2002 npub f db : user_update npub f db <> Throw P2002.
Proof. unfold user_update. repeat case_match; done. Qed.

Lemma entitlement_tx_fresh now npub req db h :
  truthy (pr_paymentHash req) = Some h -> grants db !! h = None ->
  entitlement_tx now npub req db <> Throw P2002.
Proof.
  intros Ht Hg. unfold entitlement_tx. rewrite Ht. unfold tx_bind.
  destruct (user_upsert npub now db) as [[cur db1]|e] eqn:E.
  2:{ unfold user_upsert in E. by case_match. }
  assert (grants db1 = grants db) as Hg1 by (unfold user_upsert in E; case_match; by simplify_eq).
  unfold grant_create. rewrite Hg1, Hg.
  destruct (computeEntitlement _ _ _); [apply user_update_not_P2002 | done].
Qed.

(** A 200 for a request with a payment hash means the hash is claimed for this
    account. *)
Lemma postEntitlement_claims now npub body db req h j db' :
  parseEntitlementRequest body = Ok req -> pr_paymentHash req = Some h ->
  postEntitlement now npub body db = (Res 200 j, db') ->
  exists g, grants db' !! h = Some g /\ g_npub g = npub.
Proof.
  intros Hreq Hh Hpost. pose proof (parseEntitlementRequest_ok _ _ Hreq) as Hr.
  destruct (grants db !! h) as [g|] eqn:Hg.
  - rewrite (postEntitlement_claimed _ _ _ _ _ _ _ Hreq Hh Hg) in Hpost.
    case_bool_decide as Hn; [done|]. exists g. split; [naive_solver|].
    by destruct (decide (g_npub g = npub)).
  - assert (truthy (Some h) = Some h) as Ht.
    { apply truthy_nonempty. intros ->. by specialize (ro_hash _ Hr _ Hh). }
    unfold postEntitlement in Hpost. rewrite Hreq in Hpost.
    destruct (transaction _ db) as [[u|e] db1] eqn:E.
    + apply transaction_Ok, entitlement_tx_Ok in E as (_ & _ & _ & _ & _ & _ & _ & _ & Hgs).
      rewrite Hh, Ht in Hgs. destruct Hgs as [_ Hgs]. injection Hpost as _ <-.
      rewrite Hgs, lookup_insert_eq. by eexists.
    + apply transaction_Throw in E as [E ->]. rewrite Hh, Ht, Hg in Hpost.
      assert (e <> P2002) as Hne.
      { intros ->. by apply (entitlement_tx_fresh now npub req db h) in E; [|rewrite Hh|]. }
      destruct e; simpl in Hpost; try (case_bool_decide; [done|]); naive_solver.
Qed.

(** ** Properties *)

(** C1: the accounting invariant. Whatever sequence of operations db-api
    serves, starting from a consistent database, each account's recorded usage
    is the sum of the sizes of its blob rows, no (hash, owner) pair is recorded
    twice, every row and every grant has its account, and an account has an
    allowance exactly when it has an expiry. *)
Theorem accounting_invariant ops db :
  Forall (fun o => valid_time o.1 = true) ops -> db_ok db -> db_ok (run_ops ops db).
Proof. apply run_ops_db_ok. Qed.

(** C2: a payment is applied once. After a paid push was acknowledged, and
    whatever operations db-api served since, pushing the same payment hash
    again for the same account is acknowledged with the account's current row
    and changes nothing, whatever else that request says; for any other account
    it is refused with 409 and changes nothing. *)
Theorem payment_applied_once now npub body db req h j db1 ops now' npub' body' req' :
  db_ok db -> valid_time now = true ->
  parseEntitlementRequest body = Ok req -> pr_paymentHash req = Some h ->
  postEntitlement now npub body db = (Res 200 j, db1) ->
  Forall (fun o => valid_time o.1 = true) ops ->
  parseEntitlementRequest body' = Ok req' -> pr_paymentHash req' = Some h ->
  let db2 := run_ops ops db1 in
  (postEntitlement now' npub' body' db2).2 = db2 /\
  if decide (npub' = npub) then
    exists u j', users db2 !! npub = Some u /\ userToJson u = Some j' /\
      (postEntitlement now' npub' body' db2).1 = Res 200 j'
  else (postEntitlement now' npub' body' db2).1 = Err 409 "payment_hash_used_by_other_user".
Proof.
  intros Hdb Hn Hreq Hh Hpost Hops Hreq' Hh' db2.
  destruct (postEntitlement_claims _ _ _ _ _ _ _ _ Hreq Hh Hpost) as (g & Hg & Hgn).
  assert (db_ok db1) as Hdb1.
  { replace db1 with (postEntitlement now npub body db).2 by by rewrite Hpost. by apply postEntitlement_db_ok. }
  pose proof (run_ops_db_ok ops db1 Hops Hdb1) as Hdb2.
  pose proof (run_ops_grants ops db1 h g Hops Hdb1 Hg) as Hg2. fold db2 in Hdb2, Hg2.
  rewrite (postEntitlement_claimed _ _ _ _ _ _ _ Hreq' Hh' Hg2). simpl. split; [done|].
  rewrite Hgn. case_decide as He.
  - subst npub'. rewrite bool_decide_eq_false_2 by auto.
    destruct (do_grants _ Hdb2 _ _ Hg2) as [u Hu]. rewrite Hgn in Hu.
    destruct (userToJson_total _ _ _ (do_users _ Hdb2 _ _ Hu)) as [j' Hj'].
    exists u, j'. rewrite Hu, Hj'. done.
  - by rewrite bool_decide_eq_true_2 by congruence.
Qed.
End System.

(** ** Witnesses *)

Module SystemExamples.
Import LifecycleExamples EntitlementExamples DbExamples.

Definition sample_ops : list (Z * api_op) :=
  [(NOW, OpEntitlement "npub1c" body);
   (NOW + 1, OpPostBlob {| pb_hash := "h7"; pb_npub := "npub1c"; pb_size := JStr "100"; pb_replicas := ["npub1s"] |});
   (NOW + 2, OpDeleteBlob "h7" (QStr "npub1c") QAbsent);
   (NOW + 3, OpPutMember "npub1m" (JObj []))].

Lemma accounting_invariant_witness : db_ok (run_ops (fun _ => None) sample_ops empty_db).
Proof.
  apply (accounting_invariant (fun _ => None) sample_ops empty_db).
  - repeat constructor.
  - apply empty_db_ok.
Defined.

Lemma payment_applied_once_witness :
  exists j db1, postEntitlement NOW "npub1c" body empty_db = (Res 200 j, db1) /\
    (postEntitlement (NOW + 9) "npub1d" body (run_ops (fun _ => None) sample_ops db1)).1 =
      Err 409 "payment_hash_used_by_other_user".
Proof.
  destruct (postEntitlement NOW "npub1c" body empty_db) as [[st j|st e] db1] eqn:E;
    [|vm_compute in E; discriminate].
  assert (st = 200) as -> by (vm_compute in E; injection E; intros; subst; reflexivity).
  exists j, db1. split; [reflexivity|].
  destruct (payment_applied_once (fun _ => None) NOW "npub1c" body empty_db req hash64 j db1 sample_ops
    (NOW + 9) "npub1d" body req) as [_ H].
  - apply empty_db_ok.
  - reflexivity.
  - reflexivity.
  - reflexivity.
  - exact E.
  - repeat constructor.
  - reflexivity.
  - reflexivity.
  - exact H.
Defined.
End SystemExamples.
