(* ===== verification/Nip98.v ===== *)
(** * NIP-98 request authentication (packages/nip98)

    [verifyNip98] with its replay cache, [createNip98Signer], and the gates
    built on them: packages/db/src/internal-auth.ts and, in the proxy,
    createInternalRoleGate. Keys, signatures, hashes and the JSON and base64
    codecs are third-party or runtime code: they are the class [Nostr]. *)

From Stdlib Require Import QArith Qabs Lqa Ascii.
From S2P Require Import Prelude Js Http Db.
#[local] Open Scope Z_scope.

Record Event := {
  ev_id : string;
  ev_pubkey : string;
  ev_created_at : num;
  ev_kind : num;
  ev_tags : list (list string);
  ev_content : string;
  ev_sig : string
}.

Record EventTemplate := {
  tm_kind : Z;
  tm_created_at : Z;
  tm_tags : list (list string);
  tm_content : string
}.

(** What the program uses of nostr-tools, node:crypto, Buffer and JSON. *)
Class Nostr := {
  secretKey : Type;
  (** [JSON.parse(Buffer.from(s, "base64").toString())]; [None] when it throws. *)
  decodeEvent : string -> option Event;
  (** [Buffer.from(JSON.stringify(e)).toString("base64")] *)
  encodeEvent : Event -> string;
  verifyEvent : Event -> bool;
  finalizeEvent : EventTemplate -> secretKey -> Event;
  getPublicKey : secretKey -> string;
  npubEncode : string -> string;
  (** [nip19.decode(s)] when it is an nsec. *)
  nsecDecode : string -> option secretKey;
  keyFromHex : string -> secretKey;
  sha256 : string -> string;
  stringify : jsval -> string
}.

(** The documented behaviour the signer and the verifier rely on together. *)
Class NostrLaws `{Nostr} := {
  decode_encode : forall e, decodeEvent (encodeEvent e) = Some e;
  encode_no_space : forall e, no_space (encodeEvent e) = true;
  verify_finalize : forall t sk, verifyEvent (finalizeEvent t sk) = true;
  finalize_fields : forall t sk, let e := finalizeEvent t sk in
    ev_kind e = num_Z (tm_kind t) /\ ev_created_at e = num_Z (tm_created_at t) /\
    ev_tags e = tm_tags t /\ ev_pubkey e = getPublicKey sk;
  sha256_lower : forall s, toLowerCase (sha256 s) = sha256 s
}.

Record Nip98Error := { ne_message : string; ne_status : Z }.

(** A request body: raw bytes, nothing, or parsed JSON. *)
Inductive req_body := RawBody (b : string) | NoBody | JsonBody (v : jsval).

Record Nip98Request := {
  rq_authorization : option string;
  rq_method : string;
  rq_originalUrl : string;
  rq_protocol : string;
  rq_host : option string;
  rq_body : req_body
}.

Definition DEFAULT_SKEW : Z := 300.

(** ** The replay cache *)

Notation cache := (gmap string Z).

Definition evict (now : Z) (seen : cache) : cache :=
  filter (fun p : string * Z => (DEFAULT_SKEW * 2 <? now - p.2) = false) seen.

Definition remember (id : string) (now : Z) (seen : cache) : bool * cache :=
  let seen := evict now seen in
  match seen !! id with
  | Some _ => (false, seen)
  | None => (true, <[id := now]> seen)
  end.

(** ** Tags and headers *)

(** [tags.find((t) => t[0] === name)?.[1]] *)
Fixpoint tag_value (name : string) (tags : list (list string)) : option string :=
  match tags with
  | [] => None
  | t :: tags => match t with
                 | k :: rest => if String.eqb k name then head rest else tag_value name tags
                 | [] => tag_value name tags
                 end
  end.

(** [raw.replace(/^Nostr\s+/i, "")] *)
Definition strip_scheme (raw : string) : string :=
  if String.eqb (toLowerCase (String.substring 0 5 raw)) "nostr" then
    let rest := String.substring 5 (String.length raw - 5) raw in
    if String.eqb (trim_left rest) rest then raw else trim_left rest
  else raw.

(** [Math.abs(now - n) > skew] *)
Definition outside_window (now : Z) (n : num) (skew : Z) : bool :=
  match n with
  | Fin q => negb (Qle_bool (Qabs (inject_Z now - q)) (inject_Z skew))
  | NaN => false
  | _ => true
  end.

Definition normalized (value : string) : string := strip_slashes value.

Definition derivedUrl (req : Nip98Request) : string :=
  rq_protocol req +:+ "://" +:+ default "undefined" (rq_host req) +:+ rq_originalUrl req.

Section Verify.
Context `{Nostr}.

Record VerifyOptions := { expectedUrl : option string; maxSkewSeconds : option Z }.

Definition nip98_error {A} (m : string) (st : Z) : exc Nip98Error A :=
  Throw {| ne_message := m; ne_status := st |}.

Definition sha256Hex (value : string) : string := sha256 value.

(** A body that is [null] (or [undefined]) counts as an empty one. *)
Definition payload_hash (b : req_body) : string :=
  match b with
  | RawBody s => sha256 s
  | NoBody => sha256Hex ""
  | JsonBody v => if nullish v then sha256Hex "" else sha256Hex (stringify v)
  end.

(** The checks before the replay cache; [now] is in seconds. *)
Definition checkNip98 (now : Z) (options : VerifyOptions) (req : Nip98Request) : exc Nip98Error Event :=
  match rq_authorization req with
  | None => nip98_error "Missing Authorization header" 401
  | Some "" => nip98_error "Missing Authorization header" 401
  | Some raw =>
      match decodeEvent (strip_scheme raw) with
      | None => nip98_error "Malformed Authorization header" 400
      | Some event =>
          if negb (verifyEvent event) then nip98_error "Invalid Nostr signature" 401
          else if negb (num_eqZ (ev_kind event) 27235) then
            nip98_error "Authorization event must be kind 27235" 401
          else if outside_window now (ev_created_at event) (default DEFAULT_SKEW (maxSkewSeconds options)) then
            nip98_error "Authorization event timestamp outside the accepted window" 401
          else
            let uTag := default "" (tag_value "u" (ev_tags event)) in
            let methodTag := toUpperCase <$> tag_value "method" (ev_tags event) in
            if String.eqb uTag "" || negb (bool_decide (methodTag = Some (toUpperCase (rq_method req)))) then
              nip98_error "Authorization event must carry matching u and method tags" 401
            else if negb (String.eqb (normalized (derivedUrl req)) (normalized uTag) ||
                          match expectedUrl options with
                          | Some u => String.eqb (normalized u) (normalized uTag)
                          | None => false
                          end) then
              nip98_error "Authorization event URL does not match the request" 401
            else
              match tag_value "payload" (ev_tags event) with
              | None | Some "" => Ok event
              | Some payloadTag =>
                  if String.eqb (payload_hash (rq_body req)) (toLowerCase payloadTag) then Ok event
                  else nip98_error "Authorization event payload hash does not match the request body" 401
              end
      end
  end.

Record Signer := { sg_pubkey : string; sg_npub : string }.

Definition verifyNip98 (now : Z) (options : VerifyOptions) (req : Nip98Request) (seen : cache)
  : exc Nip98Error Signer * cache :=
  match checkNip98 now options req with
  | Throw e => (Throw e, seen)
  | Ok event =>
      let (fresh, seen') := remember (ev_id event) now seen in
      if fresh then (Ok {| sg_pubkey := ev_pubkey event; sg_npub := npubEncode (ev_pubkey event) |}, seen')
      else (nip98_error "Authorization event has already been used" 401, seen')
  end.

(** ** The signer (packages/nip98/src/index.ts) *)

Definition decodeSecretKey (secret : string) : exc string secretKey :=
  if starts_with "nsec1" secret then
    match nsecDecode secret with Some k => Ok k | None => Throw "not an nsec" end
  else if is_hex64_i secret then Ok (keyFromHex secret)
  else Throw "secret key must be a bech32 nsec or 64-char hex".

Definition publicKeyOf (secret : string) : exc string Signer :=
  match decodeSecretKey secret with
  | Ok k => Ok {| sg_pubkey := getPublicKey k; sg_npub := npubEncode (getPublicKey k) |}
  | Throw e => Throw e
  end.

(** [header(method, url, body)] at second [now] with the random [nonce]. *)
Definition header_event (sk : secretKey) (now : Z) (nonce method url : string) (body : option jsval) : Event :=
  finalizeEvent
    {| tm_kind := 27235; tm_created_at := now; tm_content := "";
       tm_tags := [["u"; url]; ["method"; toUpperCase method]; ["nonce"; nonce]] ++
                  match body with Some b => [["payload"; sha256Hex (stringify b)]] | None => [] end |} sk.

Definition header (sk : secretKey) (now : Z) (nonce method url : string) (body : option jsval) : string :=
  "Nostr " +:+ encodeEvent (header_event sk now nonce method url body).

(** ** The service-account gate (packages/db/src/internal-auth.ts) *)

(** [inl] is the reply that ends the request, [inr] the npub [next()] runs with. *)
Definition serviceGate (now : Z) (req : Nip98Request) (accounts : gmap string ServiceAccount) (seen : cache)
  : (reply unit + string) * cache :=
  let (r, seen') := verifyNip98 now {| expectedUrl := None; maxSkewSeconds := None |} req seen in
  (match r with
   | Throw e => inl (Err (ne_status e) "unauthorized")
   | Ok signer =>
       match accounts !! sg_npub signer with
       | Some a => if sa_enabled a then inr (sg_npub signer) else inl (Err 403 "forbidden_service_account")
       | None => inl (Err 403 "forbidden_service_account")
       end
   end, seen').
End Verify.

(** ** Lemmas *)

Lemma substring_full s : String.substring 0 (String.length s) s = s.
Proof. induction s as [|c s IH]; simpl; [done | by rewrite IH]. Qed.

Lemma trim_left_no_space s : no_space s = true -> trim_left s = s.
Proof.
  unfold no_space, trim_left. destruct s as [|c s]; [done|]. cbn.
  intros [Hc _]%andb_true_iff. apply negb_true_iff in Hc. by rewrite Hc.
Qed.

Lemma string_cons_neq c s : String.eqb s (String c s) = false.
Proof.
  apply String.eqb_neq. intros Hs. apply (f_equal String.length) in Hs. simpl in Hs. lia.
Qed.

Lemma strip_scheme_header s : no_space s = true -> strip_scheme ("Nostr " +:+ s) = s.
Proof.
  intros Hs. unfold strip_scheme. change ("Nostr " +:+ s) with
    (String "N"%char (String "o"%char (String "s"%char (String "t"%char (String "r"%char (String " "%char s)))))).
  replace (String.substring 0 5 _) with "Nostr" by done.
  change (String.eqb (toLowerCase "Nostr") "nostr") with true. cbv iota.
  cbn [String.length]. replace (S _ - 5)%nat with (String.length (String " "%char s)) by (simpl; lia).
  cbn [String.substring String.length]. rewrite substring_full.
  replace (trim_left (String " "%char s)) with s.
  - by rewrite string_cons_neq.
  - transitivity (trim_left s); [by rewrite trim_left_no_space|].
    unfold trim_left. cbn. destruct (span is_space s). done.
Qed.

Lemma lookup_evict now seen id :
  evict now seen !! id =
  match seen !! id with Some at_ => if 600 <? now - at_ then None else Some at_ | None => None end.
Proof.
  unfold evict. rewrite map_lookup_filter. destruct (seen !! id) as [t|]; simpl; [|done].
  change (DEFAULT_SKEW * 2) with 600. case_guard as Hg; destruct (600 <? now - t); done.
Qed.

Section Facts.
Context `{Nostr}.

Lemma checkNip98_Ok now o req e :
  checkNip98 now o req = Ok e ->
  exists raw, rq_authorization req = Some raw /\ decodeEvent (strip_scheme raw) = Some e /\
    verifyEvent e = true /\ num_eqZ (ev_kind e) 27235 = true /\
    outside_window now (ev_created_at e) (default DEFAULT_SKEW (maxSkewSeconds o)) = false /\
    (toUpperCase <$> tag_value "method" (ev_tags e)) = Some (toUpperCase (rq_method req)) /\
    (exists u, tag_value "u" (ev_tags e) = Some u /\ u <> "" /\
       (normalized (derivedUrl req) = normalized u \/
        exists x, expectedUrl o = Some x /\ normalized x = normalized u)) /\
    (forall p, tag_value "payload" (ev_tags e) = Some p -> p <> "" ->
       payload_hash (rq_body req) = toLowerCase p).
Proof.
  unfold checkNip98. destruct (rq_authorization req) as [raw|]; [|done].
  destruct raw as [|c raw']; [done|]. set (raw := String c raw') in *. clearbody raw.
  destruct (decodeEvent (strip_scheme raw)) as [ev|] eqn:Ed; [|done].
  destruct (verifyEvent ev) eqn:Ev; [|done]. cbn [negb].
  destruct (num_eqZ (ev_kind ev) 27235) eqn:Ek; [|done]. cbn [negb].
  destruct (outside_window _ _ _) eqn:Eo; [done|].
  destruct (String.eqb (default "" (tag_value "u" (ev_tags ev))) "") eqn:Eu; [done|].
  destruct (bool_decide _) eqn:Em; [|done]. cbn [negb orb]. zbool.
  destruct (tag_value "u" (ev_tags ev)) as [u|] eqn:Etu; [|done]. cbn [default] in *.
  destruct (_ || _) eqn:Eurl; [|done]. cbn [negb].
  intros Hpay.
  assert (ev = e /\ forall p, tag_value "payload" (ev_tags e) = Some p -> p <> "" ->
       payload_hash (rq_body req) = toLowerCase p) as [-> Hp].
  { destruct (tag_value "payload" (ev_tags ev)) as [p|] eqn:Ep.
    - destruct p as [|pc p']; [simplify_eq; split; [done|]; rewrite Ep; naive_solver|].
      case_match eqn:Eh; [|done]. simplify_eq. split; [done|]. rewrite Ep. intros p [= <-] _.
      by apply String.eqb_eq.
    - simplify_eq. split; [done|]. rewrite Ep. done. }
  exists raw. split_and!; try done. exists u. split; [done|].
  split; [by apply String.eqb_neq|].
  apply orb_true_iff in Eurl as [Hd|Hx]; [left; by apply String.eqb_eq|].
  destruct (expectedUrl o) as [x|]; [|done]. right. exists x. split; [done|]. by apply String.eqb_eq.
Qed.
End Facts.

(** ** Replay *)

Section Replay.
Context `{Nostr}.

(** Requests served one after the other, with the second each is checked at. *)
Definition serve (seen : cache) (reqs : list (Z * Nip98Request)) : cache :=
  foldl (fun seen r => (verifyNip98 r.1 {| expectedUrl := None; maxSkewSeconds := None |} r.2 seen).2) seen reqs.

Lemma remember_keeps id id' now seen t :
  seen !! id = Some t -> now - t <= 600 -> (remember id' now seen).2 !! id = Some t.
Proof.
  intros Hs Ht. unfold remember.
  assert (evict now seen !! id = Some t) as He.
  { rewrite lookup_evict, Hs. by replace (600 <? now - t) with false by lia. }
  destruct (evict now seen !! id') eqn:Hid; simpl; [done|]. by rewrite lookup_insert_ne by congruence.
Qed.

Lemma verifyNip98_keeps now o req seen id t :
  seen !! id = Some t -> now - t <= 600 -> (verifyNip98 now o req seen).2 !! id = Some t.
Proof.
  intros Hs Ht. unfold verifyNip98. destruct (checkNip98 now o req) as [e|]; [|done].
  pose proof (remember_keeps id (ev_id e) now seen t Hs Ht) as Hk.
  destruct (remember (ev_id e) now seen) as [[] seen']; done.
Qed.

Lemma serve_keeps reqs seen id t hi :
  seen !! id = Some t -> hi - t <= 600 -> Forall (fun r => r.1 <= hi) reqs ->
  serve seen reqs !! id = Some t.
Proof.
  intros Hs Ht Hr. revert seen Hs. induction Hr as [|r reqs Hr _ IH]; intros seen Hs; [done|].
  apply IH. apply verifyNip98_keeps; [done|lia].
Qed.

Lemma verifyNip98_Ok now o req seen s seen' :
  verifyNip98 now o req seen = (Ok s, seen') ->
  exists e, checkNip98 now o req = Ok e /\ s = {| sg_pubkey := ev_pubkey e; sg_npub := npubEncode (ev_pubkey e) |} /\
    evict now seen !! ev_id e = None /\ seen' !! ev_id e = Some now.
Proof.
  unfold verifyNip98. destruct (checkNip98 now o req) as [e|]; [|done].
  unfold remember. destruct (evict now seen !! ev_id e) eqn:Ee; [done|].
  intros [= <- <-]. exists e. by rewrite lookup_insert_eq.
Qed.

(** Two accepted times of one event are at most twice the window apart. *)
Lemma window_apart t0 t1 n :
  n <> NaN -> outside_window t0 n 300 = false -> outside_window t1 n 300 = false -> t1 - t0 <= 600.
Proof.
  intros Hn H0 H1. destruct n as [| | |q]; try done.
  unfold outside_window in *. apply negb_false_iff, Qle_bool_iff in H0, H1.
  apply Qabs_Qle_condition in H0 as [H0a H0b]. apply Qabs_Qle_condition in H1 as [H1a H1b].
  assert (inject_Z t1 + - inject_Z t0 <= inject_Z 300 + inject_Z 300)%Q as Hq by lra.
  rewrite <- inject_Z_opp, <- !inject_Z_plus, <- Zle_Qle in Hq. lia.
Qed.
End Replay.

Section RoundTrip.
Context `{Nostr}.

(** The body as the receiver's parser hands it over, and that it is not the
    JSON [null], which the signer hashes as the text null and the verifier as
    an empty body. *)
Definition sent_body (body : option jsval) : req_body :=
  match body with Some b => JsonBody b | None => NoBody end.
Definition body_not_null (body : option jsval) : bool :=
  match body with Some b => negb (nullish b) | None => true end.

(** The header the signer writes passes every check up to the payload's. *)
Lemma checkNip98_reads `{!NostrLaws} e now now' method url body req :
  rq_authorization req = Some ("Nostr " +:+ encodeEvent e) ->
  verifyEvent e = true -> ev_kind e = num_Z 27235 -> ev_created_at e = num_Z now ->
  tag_value "u" (ev_tags e) = Some url -> tag_value "method" (ev_tags e) = Some (toUpperCase method) ->
  tag_value "payload" (ev_tags e) = (fun b => sha256Hex (stringify b)) <$> body ->
  rq_method req = method -> derivedUrl req = url -> url <> "" -> Z.abs (now' - now) <= 300 ->
  checkNip98 now' {| expectedUrl := None; maxSkewSeconds := None |} req =
    match body with
    | Some b => if String.eqb (sha256 (stringify b)) "" then Ok e
                else if String.eqb (payload_hash (rq_body req)) (sha256 (stringify b)) then Ok e
                else nip98_error "Authorization event payload hash does not match the request body" 401
    | None => Ok e
    end.
Proof.
  intros Hauth Hv Hk Hc Hut Hmt Hpt Hm Hu Hne Ht. unfold checkNip98. rewrite Hauth.
  rewrite strip_scheme_header, decode_encode by apply encode_no_space.
  change ("Nostr " +:+ encodeEvent e) with (String "N"%char ("ostr " +:+ encodeEvent e)). cbv iota.
  rewrite Hv, Hk, Hc. cbn [negb maxSkewSeconds default]. change (num_eqZ (num_Z 27235) 27235) with true.
  cbn [negb].
  replace (outside_window now' (num_Z now) DEFAULT_SKEW) with false.
  2:{ unfold outside_window, num_Z, DEFAULT_SKEW. symmetry. apply negb_false_iff, Qle_bool_iff.
      apply Qabs_Qle_condition. unfold Qminus.
      rewrite <- !inject_Z_opp, <- inject_Z_plus, <- !Zle_Qle. lia. }
  rewrite Hut, Hmt, Hpt. cbn [default id fmap option_fmap option_map].
  rewrite (proj2 (String.eqb_neq url "") Hne), Hm, toUpperCase_idemp.
  rewrite bool_decide_eq_true_2 by done. cbn [orb negb]. rewrite Hu, String.eqb_refl. cbn [orb negb].
  destruct body as [b|]; simpl; [|done]. unfold sha256Hex.
  pose proof (sha256_lower (stringify b)) as Hl. destruct (sha256 (stringify b)); [done|]. by rewrite Hl.
Qed.

(** With a body that is not null, it passes the payload's check too. *)
Lemma checkNip98_signed `{!NostrLaws} e now now' method url body req :
  rq_authorization req = Some ("Nostr " +:+ encodeEvent e) ->
  verifyEvent e = true -> ev_kind e = num_Z 27235 -> ev_created_at e = num_Z now ->
  tag_value "u" (ev_tags e) = Some url -> tag_value "method" (ev_tags e) = Some (toUpperCase method) ->
  tag_value "payload" (ev_tags e) = (fun b => sha256Hex (stringify b)) <$> body ->
  rq_method req = method -> derivedUrl req = url -> url <> "" ->
  rq_body req = sent_body body -> body_not_null body ->
  Z.abs (now' - now) <= 300 ->
  checkNip98 now' {| expectedUrl := None; maxSkewSeconds := None |} req = Ok e.
Proof.
  intros Hauth Hv Hk Hc Hut Hmt Hpt Hm Hu Hne Hb Hnn Ht.
  rewrite (checkNip98_reads e now now' method url body) by done. rewrite Hb.
  destruct body as [b|]; [|done]. simpl in *. destruct (nullish b); [done|].
  unfold sha256Hex. rewrite String.eqb_refl. by destruct (String.eqb _ _).
Qed.

(** The tags of the signer's event, as [header_event] writes them. *)
Lemma header_event_fields `{!NostrLaws} sk now nonce method url body :
  let e := header_event sk now nonce method url body in
  verifyEvent e = true /\ ev_kind e = num_Z 27235 /\ ev_created_at e = num_Z now /\
  tag_value "u" (ev_tags e) = Some url /\ tag_value "method" (ev_tags e) = Some (toUpperCase method) /\
  tag_value "payload" (ev_tags e) = (fun b => sha256Hex (stringify b)) <$> body /\
  ev_pubkey e = getPublicKey sk.
Proof.
  destruct (finalize_fields
    {| tm_kind := 27235; tm_created_at := now; tm_content := "";
       tm_tags := [["u"; url]; ["method"; toUpperCase method]; ["nonce"; nonce]] ++
                  match body with Some b => [["payload"; sha256Hex (stringify b)]] | None => [] end |} sk)
    as (Hk & Hc & Htags & Hpk).
  cbv zeta. unfold header_event. rewrite Htags.
  split_and!; [apply verify_finalize|done..| |done]. by destruct body.
Qed.

Lemma checkNip98_header `{!NostrLaws} sk now now' nonce method url body req :
  rq_authorization req = Some (header sk now nonce method url body) ->
  rq_method req = method -> derivedUrl req = url -> url <> "" ->
  rq_body req = sent_body body -> body_not_null body ->
  Z.abs (now' - now) <= 300 ->
  checkNip98 now' {| expectedUrl := None; maxSkewSeconds := None |} req =
    Ok (header_event sk now nonce method url body) /\
  ev_pubkey (header_event sk now nonce method url body) = getPublicKey sk.
Proof.
  intros Hauth Hm Hu Hne Hb Hnn Ht.
  destruct (header_event_fields sk now nonce method url body) as (Hv & Hk & Hc & Hut & Hmt & Hpt & Hpk).
  split; [|exact Hpk]. by apply (checkNip98_signed _ now now' method url body).
Qed.

(** The one body on which signer and verifier disagree: a JSON [null] is signed
    as the text null and checked as an empty body, so its request is refused. *)
Lemma null_body_refused `{!NostrLaws} sk now now' nonce method url req :
  rq_authorization req = Some (header sk now nonce method url (Some JNull)) ->
  rq_method req = method -> derivedUrl req = url -> url <> "" -> rq_body req = JsonBody JNull ->
  Z.abs (now' - now) <= 300 -> sha256 "" <> sha256 (stringify JNull) -> sha256 (stringify JNull) <> "" ->
  checkNip98 now' {| expectedUrl := None; maxSkewSeconds := None |} req =
    nip98_error "Authorization event payload hash does not match the request body" 401.
Proof.
  intros Hauth Hm Hu Hne Hb Ht Hd Hz.
  destruct (header_event_fields sk now nonce method url (Some JNull)) as (Hv & Hk & Hc & Hut & Hmt & Hpt & _).
  rewrite (checkNip98_reads _ now now' method url (Some JNull) req Hauth Hv Hk Hc Hut Hmt Hpt Hm Hu Hne Ht).
  rewrite (proj2 (String.eqb_neq _ _) Hz), Hb. simpl. unfold sha256Hex.
  by rewrite (proj2 (String.eqb_neq _ _) Hd).
Qed.

End RoundTrip.

(** ** Properties *)

Section Properties.
Context `{Nostr}.

(** The service gate lets a request through only for a correctly signed,
    current event for this very method, URL and (when it names one) payload,
    whose signer has an enabled service account, and whose id the replay cache
    did not hold; the id is then in the cache. *)
Theorem serviceGate_sound now req accounts seen npub seen' :
  serviceGate now req accounts seen = (inr npub, seen') ->
  exists raw e a u, rq_authorization req = Some raw /\ decodeEvent (strip_scheme raw) = Some e /\
    verifyEvent e = true /\ npub = npubEncode (ev_pubkey e) /\
    accounts !! npub = Some a /\ sa_enabled a = true /\
    outside_window now (ev_created_at e) 300 = false /\
    (toUpperCase <$> tag_value "method" (ev_tags e)) = Some (toUpperCase (rq_method req)) /\
    tag_value "u" (ev_tags e) = Some u /\ normalized (derivedUrl req) = normalized u /\
    (forall p, tag_value "payload" (ev_tags e) = Some p -> p <> "" ->
       payload_hash (rq_body req) = toLowerCase p) /\
    evict now seen !! ev_id e = None /\ seen' !! ev_id e = Some now.
Proof.
  unfold serviceGate. destruct (verifyNip98 _ _ _ _) as [[s|err] seen1] eqn:E; [|done].
  apply verifyNip98_Ok in E as (e & Hc & -> & Hfresh & Hin). simpl.
  destruct (accounts !! _) as [a|] eqn:Ha; [|done]. destruct (sa_enabled a) eqn:Hen; [|done].
  intros [= <- <-]. apply checkNip98_Ok in Hc as (raw & Hr & Hd & Hv & _ & Ho & Hm & (u & Hu & _ & Hurl) & Hp).
  destruct Hurl as [Hurl|(x & Hx & _)]; [|done].
  exists raw, e, a, u. by split_and!.
Qed.

(** C9: no signed event authorises two requests. Once an event was accepted,
    whatever requests are served in between, presenting it again at any later
    time is refused: the cache keeps the id for as long as the event stays
    inside the timestamp window. *)
Theorem no_replay t0 t1 req0 req1 seen s seen1 mid e :
  verifyNip98 t0 {| expectedUrl := None; maxSkewSeconds := None |} req0 seen = (Ok s, seen1) ->
  checkNip98 t0 {| expectedUrl := None; maxSkewSeconds := None |} req0 = Ok e ->
  t0 <= t1 -> Forall (fun r => r.1 <= t1) mid -> ev_created_at e <> NaN ->
  checkNip98 t1 {| expectedUrl := None; maxSkewSeconds := None |} req1 = Ok e ->
  (verifyNip98 t1 {| expectedUrl := None; maxSkewSeconds := None |} req1 (serve seen1 mid)).1 =
    nip98_error "Authorization event has already been used" 401.
Proof.
  intros Hv Hc0 Ht Hmid Hnan Hc1.
  apply verifyNip98_Ok in Hv as (e' & Hc0' & _ & _ & Hin). rewrite Hc0 in Hc0'. injection Hc0' as <-.
  pose proof Hc0 as (_ & _ & _ & _ & _ & Hw0 & _)%checkNip98_Ok.
  pose proof Hc1 as (_ & _ & _ & _ & _ & Hw1 & _)%checkNip98_Ok.
  pose proof (window_apart t0 t1 _ Hnan Hw0 Hw1) as Hap.
  pose proof (serve_keeps mid seen1 _ t0 t1 Hin Hap Hmid) as Hkept.
  unfold verifyNip98. rewrite Hc1. unfold remember.
  rewrite lookup_evict, Hkept. replace (600 <? t1 - t0) with false by lia. done.
Qed.

(** C19: what the signer writes, the verifier accepts. A request that carries
    the signer's header for its own method, URL and JSON body, or for no body,
    is accepted as the signer's, within five minutes of signing and with an
    unseen id. The body is any JSON value but [null], which the signer hashes
    as the text null and the verifier as the empty string: such a request is
    refused (null_body_refused). *)
Theorem signer_verifier_roundtrip `{!NostrLaws} sk now now' nonce method url body req seen :
  rq_authorization req = Some (header sk now nonce method url body) ->
  rq_method req = method -> derivedUrl req = url -> url <> "" ->
  rq_body req = sent_body body -> body_not_null body ->
  Z.abs (now' - now) <= 300 ->
  evict now' seen !! ev_id (header_event sk now nonce method url body) = None ->
  (verifyNip98 now' {| expectedUrl := None; maxSkewSeconds := None |} req seen).1 =
    Ok {| sg_pubkey := getPublicKey sk; sg_npub := npubEncode (getPublicKey sk) |}.
Proof.
  intros Hauth Hm Hu Hne Hb Hnn Ht Hfresh.
  destruct (checkNip98_header sk now now' nonce method url body req) as [Hcheck Hpk]; try done.
  unfold verifyNip98. rewrite Hcheck. unfold remember. rewrite Hfresh. by rewrite Hpk.
Qed.
End Properties.

(** ** Witnesses: a concrete instance of the cryptography's interface *)

Module Nip98Examples.

#[export] Instance Q_eq_dec : EqDecision Q.
Proof. solve_decision. Defined.
#[export] Instance num_eq_dec : EqDecision num.
Proof. solve_decision. Defined.
#[export] Instance num_countable : Countable num.
Proof.
  refine (inj_countable'
    (fun n => match n with NaN => inl 0 | PInf => inl 1 | NInf => inl 2 | Fin q => inr (Qnum q, Qden q) end)
    (fun x => match x with inl 0 => NaN | inl 1 => PInf | inl _ => NInf | inr (a, b) => Fin (Qmake a b) end) _).
  intros [| | |[a b]]; done.
Defined.
#[export] Instance Event_eq_dec : EqDecision Event.
Proof. solve_decision. Defined.
#[export] Instance Event_countable : Countable Event.
Proof.
  refine (inj_countable'
    (fun e => (ev_id e, ev_pubkey e, ev_created_at e, ev_kind e, ev_tags e, ev_content e, ev_sig e))
    (fun '(a, b, c, d, e, f, g) => Build_Event a b c d e f g) _).
  by intros [].
Defined.

(** The secret key is the public key, the signature names it, the hash is the
    lower-cased text and an event travels as the decimal form of its code. *)
#[export] Instance toyNostr : Nostr := {|
  secretKey := string;
  decodeEvent := fun s => match BigInt_string s with Some (Zpos p) => decode p | _ => None end;
  encodeEvent := fun e => Z_to_string (Zpos (encode e));
  verifyEvent := fun e => String.eqb (ev_sig e) ("sig:" +:+ ev_pubkey e);
  finalizeEvent := fun t sk =>
    {| ev_id := default "" (tag_value "nonce" (tm_tags t)); ev_pubkey := sk;
       ev_created_at := num_Z (tm_created_at t); ev_kind := num_Z (tm_kind t); ev_tags := tm_tags t;
       ev_content := tm_content t; ev_sig := "sig:" +:+ sk |};
  getPublicKey := fun sk => sk;
  npubEncode := fun pk => "npub1" +:+ pk;
  nsecDecode := fun s => Some s;
  keyFromHex := fun s => s;
  sha256 := toLowerCase;
  stringify := fun v => match v with JStr s => s | _ => "{}" end
|}.

#[export] Instance toyLaws : NostrLaws.
Proof.
  constructor.
  - intros e. simpl. rewrite BigInt_Z_to_string. apply countable.decode_encode.
  - intros e. apply all_digits_no_space, all_digits_Z. lia.
  - intros t sk. simpl. apply String.eqb_refl.
  - intros t sk. done.
  - intros s. apply toLowerCase_idemp.
Qed.

Definition NOWS : Z := 1790812800.
Definition get_req (url : string) (auth : string) : Nip98Request :=
  {| rq_authorization := Some auth; rq_method := "GET"; rq_originalUrl := url; rq_protocol := "http";
     rq_host := Some "db"; rq_body := NoBody |}.
Definition auth1 : string := header "alice" NOWS "n1" "GET" "http://db/users/x" None.
Definition req1 : Nip98Request := get_req "/users/x" auth1.
Definition opts : VerifyOptions := {| expectedUrl := None; maxSkewSeconds := None |}.
Definition ev1 : Event := header_event "alice" NOWS "n1" "GET" "http://db/users/x" None.
Definition acc : gmap string ServiceAccount :=
  {["npub1alice" := {| sa_label := None; sa_enabled := true; sa_createdAt := 0 |}]}.

Lemma ev1_checks t : Z.abs (t - NOWS) <= 300 -> checkNip98 t opts req1 = Ok ev1.
Proof.
  intros Ht. by destruct (checkNip98_header (H := toyNostr) "alice" NOWS t "n1" "GET" "http://db/users/x" None req1).
Qed.

Lemma serviceGate_sound_witness :
  serviceGate NOWS req1 acc ∅ = (inr "npub1alice", {["n1" := NOWS]}) /\
  exists e, verifyEvent e = true /\ ({["n1" := NOWS]} : gmap string Z) !! ev_id e = Some NOWS.
Proof.
  assert (serviceGate NOWS req1 acc ∅ = (inr "npub1alice", {["n1" := NOWS]})) as E.
  { unfold serviceGate, verifyNip98. fold opts. rewrite ev1_checks by (rewrite Z.sub_diag; discriminate).
    reflexivity. }
  split; [exact E|].
  destruct (serviceGate_sound NOWS req1 acc ∅ "npub1alice" _ E)
    as (raw & e & a & u & _ & _ & H2 & _ & _ & _ & _ & _ & _ & _ & _ & _ & H3).
  exists e. split; [exact H2 | exact H3].
Defined.

Lemma no_replay_witness :
  exists s seen1, verifyNip98 NOWS opts req1 ∅ = (Ok s, seen1) /\
    (verifyNip98 (NOWS + 299) opts req1 (serve seen1 [(NOWS + 10, req1)])).1 =
      nip98_error "Authorization event has already been used" 401.
Proof.
  assert (verifyNip98 NOWS opts req1 ∅ =
    (Ok {| sg_pubkey := "alice"; sg_npub := "npub1alice" |}, {["n1" := NOWS]})) as E.
  { unfold verifyNip98. rewrite ev1_checks by (rewrite Z.sub_diag; discriminate). reflexivity. }
  eexists _, _. split; [exact E|].
  refine (no_replay NOWS (NOWS + 299) req1 req1 ∅ _ _ [(NOWS + 10, req1)] ev1 E _ _ _ _ _).
  - apply ev1_checks. unfold NOWS. lia.
  - lia.
  - repeat constructor. simpl. lia.
  - discriminate.
  - apply ev1_checks. unfold NOWS. lia.
Defined.

Lemma signer_verifier_roundtrip_witness :
  (verifyNip98 (NOWS + 30) opts req1 ∅).1 = Ok {| sg_pubkey := "alice"; sg_npub := "npub1alice" |}.
Proof.
  refine (signer_verifier_roundtrip (H := toyNostr) "alice" NOWS (NOWS + 30) "n1" "GET" "http://db/users/x" None
    req1 ∅ eq_refl eq_refl eq_refl _ eq_refl I _ _).
  - discriminate.
  - unfold NOWS. lia.
  - reflexivity.
Defined.
End Nip98Examples.
