(* ===== verification/Bud11.v ===== *)
(** * BUD-11 tokens (proxy/blossom/src/nostr.ts)

    [verifyAuthToken]: the kind-24242 event that authorises a blob operation. *)

From Stdlib Require Import QArith.
From S2P Require Import Prelude Js Http Db Nip98.
#[local] Open Scope Z_scope.

Inductive BlossomAction := Get | Upload | List | Delete | Media.

Definition action_string (a : BlossomAction) : string :=
  match a with Get => "get" | Upload => "upload" | List => "list" | Delete => "delete" | Media => "media" end.

Record AuthError := { ae_message : string; ae_status : Z }.

Definition auth_error {A} (m : string) (st : Z) : exc AuthError A :=
  Throw {| ae_message := m; ae_status := st |}.

Section Bud11.
Context `{Nostr}.

Definition parseAuthHeader (authHeader : string) : exc AuthError Event :=
  match decodeEvent (strip_scheme authHeader) with
  | Some e => Ok e
  | None => auth_error "Malformed Authorization event" 400
  end.

(** [tags.filter((t) => t[0] === "x").map((t) => t[1]?.toLowerCase())] *)
Definition xTags (tags : list (list string)) : list (option string) :=
  omap (fun t => match t with
                 | k :: rest => if String.eqb k "x" then Some (toLowerCase <$> head rest) else None
                 | [] => None
                 end) tags.

(** [expirationTag ? Number(expirationTag) : NaN] with the finiteness check. *)
Definition expires_after (tag : option string) (now : Z) : bool :=
  match tag with
  | None => false
  | Some s => if String.eqb s "" then false
              else match Number_string s with Fin q => negb (Qle_bool q (inject_Z now)) | _ => false end
  end.

(** [opts.hash], as an [if (opts.hash)] reads it. *)
Definition given (hash : option string) : option string :=
  match hash with Some h => if String.eqb h "" then None else Some h | None => None end.

(** The messages quote the tag's name with double quotes in the source. *)
Definition check_scope (xs : list (option string)) (hash : option string) (requireHashScope : bool)
  : exc AuthError unit :=
  match given hash with
  | Some h =>
      if bool_decide (xs <> []) then
        if bool_decide (Some (toLowerCase h) ∈ xs) then Ok tt
        else auth_error "Authorization event's 'x' tag does not match the target blob hash" 401
      else if requireHashScope then
        auth_error "Authorization event must include an 'x' tag for the target blob hash" 401
      else Ok tt
  | None =>
      if requireHashScope && bool_decide (xs = []) then
        auth_error "Authorization event must include an 'x' tag for the target blob hash" 401
      else Ok tt
  end.

(** [now] is in seconds; the result is the signer's npub. *)
Definition verifyAuthToken (now : Z) (authHeader : option string) (action : BlossomAction)
    (hash : option string) (requireHashScope : bool) : exc AuthError string := (
  match given authHeader with
  | None => auth_error "Missing Authorization header" 401
  | Some h =>
      let! event := parseAuthHeader h in
      throw_if negb (verifyEvent event)
        with {| ae_message := "Invalid Nostr signature"; ae_status := 401 |} then
      throw_if negb (num_eqZ (ev_kind event) 24242)
        with {| ae_message := "Authorization event must be kind 24242"; ae_status := 401 |} then
      throw_if num_gt (ev_created_at event) now
        with {| ae_message := "Authorization event created_at must be in the past"; ae_status := 401 |} then
      throw_if negb (expires_after (tag_value "expiration" (ev_tags event)) now)
        with {| ae_message := "Authorization event is missing a valid future expiration tag"; ae_status := 401 |} then
      throw_if negb (bool_decide (tag_value "t" (ev_tags event) = Some (action_string action)))
        with {| ae_message := "Authorization event must have a 't' tag of '" +:+ action_string action +:+ "'";
                ae_status := 401 |} then
      let! _ := check_scope (xTags (ev_tags event)) hash requireHashScope in
      Ok (npubEncode (ev_pubkey event))
  end)%exc.

(** ** What an accepted token says *)

Record token_for (now : Z) (authHeader : option string) (action : BlossomAction) (e : Event) : Prop := {
  tf_header : exists h, given authHeader = Some h /\ decodeEvent (strip_scheme h) = Some e;
  tf_signed : verifyEvent e = true;
  tf_kind : num_eqZ (ev_kind e) 24242 = true;
  tf_past : num_gt (ev_created_at e) now = false;
  tf_live : expires_after (tag_value "expiration" (ev_tags e)) now = true;
  tf_action : tag_value "t" (ev_tags e) = Some (action_string action)
}.

Lemma verifyAuthToken_Ok now hdr action hash scope npub :
  verifyAuthToken now hdr action hash scope = Ok npub <->
  exists e, token_for now hdr action e /\ check_scope (xTags (ev_tags e)) hash scope = Ok tt /\
    npub = npubEncode (ev_pubkey e).
Proof.
  unfold verifyAuthToken. split.
  - destruct (given hdr) as [h|] eqn:Eh; [|done].
    intros Hv. exc_inv Hv. unfold parseAuthHeader in *.
    destruct (decodeEvent (strip_scheme h)) as [e|] eqn:Ed; [|done]. simplify_eq. zbool.
    exists v. split; [constructor; try done; eauto|]. by destruct v0.
  - intros (e & [(h & -> & Hd) Hs Hk Hp Hl Ha] & Hsc & ->).
    unfold parseAuthHeader. rewrite Hd. simpl. rewrite Hs, Hk, Hp, Hl, Ha. simpl.
    rewrite bool_decide_eq_true_2 by done. simpl. by rewrite Hsc.
Qed.

(** An x tag, and an x tag whose value is the hash in any case. *)
Definition has_x_tag (tags : list (list string)) : Prop :=
  exists t, t ∈ tags /\ t !! 0%nat = Some "x".
Definition names_hash (tags : list (list string)) (h : string) : Prop :=
  exists t x, t ∈ tags /\ t !! 0%nat = Some "x" /\ t !! 1%nat = Some x /\ toLowerCase x = toLowerCase h.

(** What the tags must say for a call with this target hash and scope. An empty
    hash counts as none, as [if (opts.hash)] reads it. *)
Definition scope_ok (tags : list (list string)) (hash : option string) (scope : bool) : Prop :=
  match given hash with
  | Some h => names_hash tags h \/ (scope = false /\ ~ has_x_tag tags)
  | None => scope = true -> has_x_tag tags
  end.

Lemma xTags_names tags h : Some (toLowerCase h) ∈ xTags tags <-> names_hash tags h.
Proof.
  unfold xTags, names_hash. rewrite list_elem_of_omap. split.
  - intros (t & Hin & Heq). destruct t as [|k rest]; [done|].
    destruct (String.eqb k "x") eqn:Ek; [|done]. apply String.eqb_eq in Ek as ->.
    destruct rest as [|x rest]; [done|]. simpl in Heq. simplify_eq. by exists ("x" :: x :: rest), x.
  - intros (t & x & Hin & H0 & H1 & Hx). exists t. split; [done|].
    destruct t as [|k [|y rest]]; try done. simpl in *. simplify_eq. by rewrite Hx.
Qed.

Lemma xTags_nil tags : xTags tags = [] <-> ~ has_x_tag tags.
Proof.
  unfold xTags, has_x_tag. split.
  - intros He (t & Hin & H0). destruct t as [|k rest]; [done|]. simpl in H0. simplify_eq.
    assert (toLowerCase <$> head rest ∈ xTags tags) as Hx; [|unfold xTags in Hx; rewrite He in Hx; by apply not_elem_of_nil in Hx].
    apply list_elem_of_omap. by exists ("x" :: rest).
  - intros Hno. destruct (omap _ tags) as [|o l] eqn:E; [done|]. exfalso. apply Hno.
    assert (o ∈ xTags tags) as (t & Hin & Heq)%list_elem_of_omap by (unfold xTags; rewrite E; left).
    exists t. split; [done|]. destruct t as [|k rest]; [done|].
    destruct (String.eqb k "x") eqn:Ek; [|done]. by apply String.eqb_eq in Ek as ->.
Qed.

Lemma check_scope_ok tags hash scope : check_scope (xTags tags) hash scope = Ok tt <-> scope_ok tags hash scope.
Proof.
  unfold check_scope, scope_ok. destruct (given hash) as [h|].
  - rewrite <- xTags_names, <- xTags_nil. case_bool_decide as Hne.
    + case_bool_decide; naive_solver.
    + rewrite Hne, elem_of_nil. destruct scope; naive_solver.
  - destruct scope; simpl; [|naive_solver]. case_bool_decide as Hx.
    + apply xTags_nil in Hx. naive_solver.
    + rewrite xTags_nil in Hx. split; [|done]. intros _ _.
      destruct (decide (Exists (fun t => t !! 0%nat = Some "x") tags)) as [He|He].
      * apply Exists_exists in He as (t & ? & ?). by exists t.
      * exfalso. apply Hx. intros (t & ? & ?). apply He, Exists_exists. by exists t.
Qed.

(** ** Properties *)

(** C20: the token check accepts exactly the tokens it should, whatever the
    action, the hash and the scope asked for. A header is accepted for an npub
    precisely when it decodes to an event that is correctly signed, of kind
    24242, already created, not yet expired and for this action, whose signer
    is that npub, and whose x tags suit the call: with a target hash, one of
    them names it, or the scope is not required and there is none at all; with
    no target hash (the early check of an upload, a listing), there is one, or
    the scope is not required. *)
Theorem verifyAuthToken_exact now hdr action hash scope npub :
  verifyAuthToken now hdr action hash scope = Ok npub <->
  exists e, token_for now hdr action e /\ npub = npubEncode (ev_pubkey e) /\
    scope_ok (ev_tags e) hash scope.
Proof.
  rewrite verifyAuthToken_Ok. setoid_rewrite check_scope_ok. naive_solver.
Qed.

(** The check before the body is read never refuses an upload that the
    check against the real hash would accept, and accepts the same signer. *)
Theorem precheck_not_stricter now hdr action hash npub :
  verifyAuthToken now hdr action (Some hash) true = Ok npub -> hash <> "" ->
  verifyAuthToken now hdr action None true = Ok npub.
Proof.
  intros (e & Ht & Hsc & ->)%verifyAuthToken_Ok Hne. apply verifyAuthToken_Ok. exists e.
  split; [done|]. split; [|done]. unfold check_scope in *. simpl in *.
  rewrite (proj2 (String.eqb_neq hash "") Hne) in Hsc.
  destruct (bool_decide (xTags (ev_tags e) <> [])) eqn:Hx; [|done]. zbool.
  by rewrite bool_decide_eq_false_2.
Qed.

End Bud11.

(** ** Witnesses *)

Module Bud11Examples.
Import Nip98Examples.

Definition ev2 : Event :=
  {| ev_id := "i2"; ev_pubkey := "bob"; ev_created_at := num_Z (NOWS - 5); ev_kind := num_Z 24242;
     ev_tags := [["t"; "upload"]; ["expiration"; "1790812900"]; ["x"; "AB12"]]; ev_content := "Upload";
     ev_sig := "sig:bob" |}.
Definition hdr2 : string := "Nostr " +:+ encodeEvent ev2.

Lemma hdr2_reads : decodeEvent (strip_scheme hdr2) = Some ev2.
Proof. unfold hdr2. rewrite strip_scheme_header by apply encode_no_space. apply decode_encode. Qed.

Lemma hdr2_accepted : verifyAuthToken NOWS (Some hdr2) Upload (Some "ab12") true = Ok "npub1bob".
Proof.
  apply verifyAuthToken_Ok. exists ev2. split; [|split; reflexivity].
  constructor; [|reflexivity..]. exists hdr2. split; [reflexivity | apply hdr2_reads].
Qed.

Lemma precheck_not_stricter_witness : verifyAuthToken NOWS (Some hdr2) Upload None true = Ok "npub1bob".
Proof.
  apply (precheck_not_stricter NOWS (Some hdr2) Upload "ab12" "npub1bob" hdr2_accepted). discriminate.
Defined.
End Bud11Examples.
