(* ===== verification/Console.v ===== *)
(** * The account console (packages/console/src)

    nostr.ts and api.ts: the tokens the console signs and the requests it
    makes, against the verifiers of the proxy ([Bud11], [Nip98]); and the state
    of the pricing page, from which plans are bought. *)

From Stdlib Require Import QArith Ascii.
From S2P Require Import Prelude Js Http Db Nip98 Bud11.
#[local] Open Scope Z_scope.

Section Console.
Context `{Nostr}.

(** ** nostr.ts *)

(** [window.nostr]: its [signEvent], when an extension is there. *)
Definition extension : Type := option (EventTemplate -> exc string Event).

Record Identities := { id_pubkey : string; id_npub : string; id_sk : option secretKey }.

Definition sign (nostr : extension) (identities : Identities) (template : EventTemplate) : exc string string :=
  let encoded e := "Nostr " +:+ encodeEvent e in
  match nostr, id_sk identities with
  | Some signEvent, _ => match signEvent template with Ok e => Ok (encoded e) | Throw m => Throw m end
  | None, Some sk => Ok (encoded (finalizeEvent template sk))
  | None, None => Throw "No signer available"
  end.

(** [now] in seconds. *)
Definition blossom_template (now : Z) (action : string) (hash message : option string) : EventTemplate :=
  {| tm_kind := 24242; tm_created_at := now;
     tm_content := default (action +:+ " via Blossom console") message;
     tm_tags := [["t"; action]] ++
       match given hash with Some h => [["x"; h]] | None => [] end ++
       [["expiration"; Z_to_string (now + 300)]] |}.

Definition blossomAuth (nostr : extension) (identities : Identities) (now : Z) (action : string)
    (hash message : option string) : exc string string :=
  sign nostr identities (blossom_template now action hash message).

Definition nip98_template (now : Z) (url method : string) (body : option jsval) : EventTemplate :=
  {| tm_kind := 27235; tm_created_at := now; tm_content := "";
     tm_tags := [["u"; url]; ["method"; toUpperCase method]] ++
       match body with Some b => [["payload"; sha256 (stringify b)]] | None => [] end |}.

Definition nip98Auth (nostr : extension) (identities : Identities) (now : Z) (url method : string)
    (body : option jsval) : exc string string :=
  sign nostr identities (nip98_template now url method body).

(** [connectSigner] without an extension keeps a key of its own; [stored] is
    the one in localStorage, [fresh] a random one with its text. *)
Definition connectSigner (nostr : option (exc string string)) (stored : option string)
    (fresh : secretKey * string) : exc string Identities * option string :=
  match nostr with
  | Some (Ok pubkey) => (Ok {| id_pubkey := pubkey; id_npub := npubEncode pubkey; id_sk := None |}, stored)
  | Some (Throw e) => (Throw e, stored)
  | None =>
      let identity sk := {| id_pubkey := getPublicKey sk; id_npub := npubEncode (getPublicKey sk); id_sk := Some sk |} in
      match stored with
      | Some s =>
          if starts_with "nsec1" s then
            match nsecDecode s with Some sk => (Ok (identity sk), stored) | None => (Throw "bad stored dev key", stored) end
          else (Ok (identity (fst fresh)), Some (snd fresh))
      | None => (Ok (identity (fst fresh)), Some (snd fresh))
      end
  end.

(** ** api.ts *)

Record ConsoleEnv := { ce_backend : string; ce_blossom : string; ce_origin : string; encodeURIComponent : string -> string }.

Definition url_of (base path : string) : string := strip_slashes base +:+ path.

Definition absolute (env : ConsoleEnv) (base path : string) : string :=
  let target := url_of base path in
  if starts_with "http://" (toLowerCase target) || starts_with "https://" (toLowerCase target) then target
  else ce_origin env +:+ target.

(** A request as it goes out. *)
Record ConsoleRequest := { cr_method : string; cr_url : string; cr_auth : option string; cr_body : option jsval }.

Inductive ConsoleCall :=
| CGetStorage | CGetAccount
| CListBlobs (page pageSize : Z) | CListNotifications (page : Z)
| CDeleteBlob (hash : string)
| CListTiers | CAvailability | CMyInvoices | CGetMe | CSubscription
| CGenerateInvoice (plan : string) (termsAccepted : bool) (termsVersion : string)
| CAdminGet (path query : string)
| CAdminSend (method path : string) (body : option jsval).

Definition blossom_get (nostr : extension) (ids : Identities) (env : ConsoleEnv) (now : Z) (action path : string)
  : exc string ConsoleRequest := (
  let! auth := blossomAuth nostr ids now action None None in
  Ok {| cr_method := "GET"; cr_url := url_of (ce_blossom env) path; cr_auth := Some auth; cr_body := None |})%exc.

Definition signed_call (nostr : extension) (ids : Identities) (env : ConsoleEnv) (now : Z) (base method path : string)
    (body : option jsval) : exc string ConsoleRequest := (
  let! auth := nip98Auth nostr ids now (absolute env base path) method body in
  Ok {| cr_method := method; cr_url := url_of base path; cr_auth := Some auth; cr_body := body |})%exc.

Definition console_request (nostr : extension) (ids : Identities) (env : ConsoleEnv) (now : Z) (c : ConsoleCall)
  : exc string ConsoleRequest := (
  match c with
  | CGetStorage => blossom_get nostr ids env now "get" "/storage"
  | CGetAccount => blossom_get nostr ids env now "get" "/account"
  | CListBlobs page pageSize =>
      blossom_get nostr ids env now "list" ("/account/blobs?page=" +:+ Z_to_string page +:+ "&pageSize=" +:+ Z_to_string pageSize)
  | CListNotifications page =>
      blossom_get nostr ids env now "list" ("/account/notifications?page=" +:+ Z_to_string page +:+ "&pageSize=25")
  | CDeleteBlob hash =>
      let! auth := blossomAuth nostr ids now "delete" (Some hash) None in
      Ok {| cr_method := "DELETE"; cr_url := url_of (ce_blossom env) ("/" +:+ hash); cr_auth := Some auth; cr_body := None |}
  | CListTiers => Ok {| cr_method := "GET"; cr_url := url_of (ce_backend env) "/api/tiers/storage"; cr_auth := None; cr_body := None |}
  | CAvailability =>
      Ok {| cr_method := "GET"; cr_url := url_of (ce_backend env) "/api/storage/availability"; cr_auth := None; cr_body := None |}
  | CMyInvoices => signed_call nostr ids env now (ce_backend env) "GET" "/api/invoices" None
  | CGetMe => signed_call nostr ids env now (ce_backend env) "GET" "/api/auth/me" None
  | CSubscription => signed_call nostr ids env now (ce_backend env) "GET" "/api/storage/subscription" None
  | CGenerateInvoice plan accepted version =>
      signed_call nostr ids env now (ce_backend env) "POST" "/api/generate-invoice/storage"
        (Some (JObj [("plan", JStr plan); ("termsAccepted", JBool accepted); ("termsVersion", JStr version)]))
  | CAdminGet path query => signed_call nostr ids env now (ce_blossom env) "GET" (path +:+ query) None
  | CAdminSend method path body => signed_call nostr ids env now (ce_blossom env) method path body
  end)%exc.

(** The admin operations. [query] is what URLSearchParams makes of the filters. *)
Definition adminListUsers (query : string) : ConsoleCall := CAdminGet "/admin/users" query.
Definition adminListBlobs (query : string) : ConsoleCall := CAdminGet "/admin/blobs" query.
Definition adminStats : ConsoleCall := CAdminGet "/admin/storage-stats" "".
Definition adminAudit : ConsoleCall := CAdminGet "/admin/audit" "".
Definition adminGrantPlan (env : ConsoleEnv) (npub : string) (request : jsval) : ConsoleCall :=
  CAdminSend "POST" ("/admin/users/" +:+ encodeURIComponent env npub +:+ "/entitlement") (Some request).
Definition adminForceStatus (env : ConsoleEnv) (npub status : string) : ConsoleCall :=
  CAdminSend "PATCH" ("/admin/users/" +:+ encodeURIComponent env npub +:+ "/status") (Some (JObj [("status", JStr status)])).
Definition consoleDeleteBlob (env : ConsoleEnv) (hash reason : string) : ConsoleCall :=
  CAdminSend "DELETE" ("/admin/blobs/" +:+ encodeURIComponent env hash) (Some (JObj [("reason", JStr reason)])).

(** [parse]: the body of a response, or the error that is thrown; [None] is an
    empty text. A text that is no JSON throws before the status is read. *)
Record ApiError := { ap_message : string; ap_status : option Z; ap_body : jsval }.

Definition js_true (v : jsval) : bool :=
  match v with
  | JUndefined | JNull => false
  | JBool b => b
  | JStr s => negb (String.eqb s "")
  | JNum (Fin q) => negb (Qeq_bool q 0)
  | JNum NaN => false
  | _ => true
  end.

Definition parse_response (status : Z) (text : option (option jsval)) : exc ApiError jsval :=
  match text with
  | Some None => Throw {| ap_message := "SyntaxError"; ap_status := None; ap_body := JUndefined |}
  | _ =>
      let body := match text with Some (Some v) => v | _ => JUndefined end in
      if (200 <=? status) && (status <? 300) then Ok body
      else
        let said := if js_true (jget body "error") then jget body "error" else jget body "message" in
        Throw {| ap_message := match said with
                               | JStr s => if String.eqb s "" then "request failed (" +:+ Z_to_string status +:+ ")" else s
                               | _ => "request failed (" +:+ Z_to_string status +:+ ")"
                               end;
                 ap_status := Some status; ap_body := body |}
  end.

(** [getSignupsOpen] of what the availability call gave. *)
Definition getSignupsOpen (r : exc ApiError jsval) : jsval :=
  match r with
  | Ok v => jget v "signupsOpen"
  | Throw e => let s := jget (ap_body e) "signupsOpen" in if nullish s then JBool true else s
  end.

(** [watchInvoice]: the socket's frames, until one says it was paid. The state
    is whether the watch was closed by a payment, and how often [onPaid] ran. *)
Definition watch_frame (st : bool * nat) (frame : option jsval) : bool * nat :=
  match frame with
  | Some v => match jget v "status" with
              | JStr s => if String.eqb s "paid" then (true, S (snd st)) else st
              | _ => st
              end
  | None => st
  end.

(** ** What the console signs, the proxy accepts *)

Section Accepted.
Context `{!NostrLaws}.

(** An extension that signs like nostr-tools, with the key it announces. *)
Definition signs_as (nostr : extension) (ids : Identities) (sk : secretKey) : Prop :=
  id_pubkey ids = getPublicKey sk /\
  match nostr with
  | Some signEvent => forall t, signEvent t = Ok (finalizeEvent t sk)
  | None => id_sk ids = Some sk
  end.

Lemma sign_event_as nostr ids sk t :
  signs_as nostr ids sk -> sign nostr ids t = Ok ("Nostr " +:+ encodeEvent (finalizeEvent t sk)).
Proof.
  intros [_ Hs]. unfold sign. destruct nostr as [f|]; [by rewrite Hs|]. by rewrite Hs.
Qed.

Lemma expires_in_300 now now' : 0 <= now <= now' -> now' < now + 300 -> now + 300 < 2 ^ 53 ->
  expires_after (Some (Z_to_string (now + 300))) now' = true.
Proof.
  intros Hn Hl Hb. unfold expires_after.
  destruct (String.eqb_spec (Z_to_string (now + 300)) "") as [He|_].
  { pose proof (all_digits_Z (now + 300) ltac:(lia)) as Hd. by rewrite He in Hd. }
  pose proof (Number_show (now + 300) ltac:(lia)) as Hnum.
  destruct (Number_string (Z_to_string (now + 300))) as [| | |q]; try done.
  unfold num_int in Hnum. destruct (Qnum q mod QDen q =? 0) eqn:Ed; [|done]. zbool. injection Hnum as Hz.
  apply negb_true_iff, not_true_is_false. rewrite Qle_bool_iff. unfold Qle, inject_Z. cbn.
  pose proof (Z.div_mod (Qnum q) (QDen q) ltac:(lia)). nia.
Qed.

(** C34: a token of the console is accepted by the proxy for the operation it
    was made for, in the console's own name, until it expires after five
    minutes: with the hash of the blob where the route asks for one. *)
Theorem console_token_accepted nostr ids sk now now' action hash header scope :
  signs_as nostr ids sk -> 0 <= now <= now' -> now' < now + 300 -> now + 300 < 2 ^ 53 ->
  blossomAuth nostr ids now (action_string action) hash None = Ok header ->
  (scope = true -> given hash <> None) ->
  verifyAuthToken now' (Some header) action hash scope = Ok (npubEncode (id_pubkey ids)).
Proof.
  intros Hs Hn Hl Hb Ha Hsc. unfold blossomAuth in Ha. rewrite (sign_event_as _ _ sk) in Ha by done. injection Ha as <-.
  set (t := blossom_template now (action_string action) hash None) in *.
  destruct (finalize_fields t sk) as (Hk & Hc & Ht & Hp). destruct Hs as [-> _].
  apply verifyAuthToken_Ok. exists (finalizeEvent t sk). split; [constructor|split].
  - eexists. split; [reflexivity|]. rewrite strip_scheme_header by apply encode_no_space. apply decode_encode.
  - apply verify_finalize.
  - rewrite Hk. reflexivity.
  - rewrite Hc. unfold num_gt, num_Z, t. cbn. lia.
  - rewrite Ht. assert (tag_value "expiration" (tm_tags t) = Some (Z_to_string (now + 300))) as ->.
    { unfold t. cbn [tm_tags blossom_template]. by destruct (given hash). }
    by apply expires_in_300.
  - rewrite Ht. reflexivity.
  - rewrite Ht. unfold check_scope, t. cbn [tm_tags blossom_template]. destruct (given hash) as [h|] eqn:Eg.
    + rewrite bool_decide_eq_true_2 by done. rewrite bool_decide_eq_true_2 by left. done.
    + destruct scope; [by destruct (Hsc eq_refl)|]. done.
  - by rewrite Hp.
Qed.

Lemma console_nip98_checked nostr ids sk now now' url method body header req :
  signs_as nostr ids sk -> nip98Auth nostr ids now url method body = Ok header ->
  rq_authorization req = Some header -> rq_method req = method -> derivedUrl req = url -> url <> "" ->
  rq_body req = sent_body body -> body_not_null body -> Z.abs (now' - now) <= 300 ->
  checkNip98 now' {| expectedUrl := None; maxSkewSeconds := None |} req =
    Ok (finalizeEvent (nip98_template now url method body) sk).
Proof.
  intros Hs Ha Hr Hm Hu Hne Hb Hnn Hw. unfold nip98Auth in Ha. rewrite (sign_event_as _ _ sk) in Ha by done. injection Ha as <-.
  destruct (finalize_fields (nip98_template now url method body) sk) as (Hk & Hc & Ht & Hp).
  apply (checkNip98_signed _ now now' method url body); try done.
  - apply verify_finalize.
  - by rewrite Ht.
  - by rewrite Ht.
  - rewrite Ht. by destruct body.
Qed.

(** A request the console signs for the proxy's admin routes is accepted
    once as its user's. Signed a second time in the same second it is refused
    as already used: unlike the services' signer, the console puts nothing in
    the event that would tell two equal requests apart. *)
Theorem console_request_once nostr ids sk now t0 t1 url method body header1 header2 req1 req2 seen :
  signs_as nostr ids sk ->
  nip98Auth nostr ids now url method body = Ok header1 -> nip98Auth nostr ids now url method body = Ok header2 ->
  rq_authorization req1 = Some header1 -> req2 = {| rq_authorization := Some header2; rq_method := rq_method req1;
    rq_originalUrl := rq_originalUrl req1; rq_protocol := rq_protocol req1; rq_host := rq_host req1; rq_body := rq_body req1 |} ->
  rq_method req1 = method -> derivedUrl req1 = url -> url <> "" ->
  rq_body req1 = sent_body body -> body_not_null body ->
  Z.abs (t0 - now) <= 300 -> Z.abs (t1 - now) <= 300 -> t0 <= t1 ->
  evict t0 seen !! ev_id (finalizeEvent (nip98_template now url method body) sk) = None ->
  let opts := {| expectedUrl := None; maxSkewSeconds := None |} in
  let (r1, seen1) := verifyNip98 t0 opts req1 seen in
  r1 = Ok {| sg_pubkey := id_pubkey ids; sg_npub := npubEncode (id_pubkey ids) |} /\
  (verifyNip98 t1 opts req2 seen1).1 = Throw {| ne_message := "Authorization event has already been used"; ne_status := 401 |}.
Proof.
  intros Hs H1 H2 Hr1 -> Hm Hu Hne Hb Hnn Hw0 Hw1 Hle Hfresh.
  pose proof (console_nip98_checked nostr ids sk now t0 url method body header1 req1 Hs H1 Hr1 Hm Hu Hne Hb Hnn Hw0) as C1.
  assert (header2 = header1) as -> by congruence.
  set (req2 := {| rq_authorization := _ |}).
  pose proof (console_nip98_checked nostr ids sk now t1 url method body header1 req2 Hs H1 eq_refl Hm Hu Hne Hb Hnn Hw1) as C2.
  destruct (finalize_fields (nip98_template now url method body) sk) as (_ & _ & _ & Hp).
  set (e := finalizeEvent (nip98_template now url method body) sk) in *.
  unfold verifyNip98. rewrite C1. unfold remember. rewrite Hfresh. split; [destruct Hs as [-> _]; by rewrite Hp|].
  rewrite C2. assert (evict t1 (<[ev_id e := t0]> (evict t0 seen)) !! ev_id e = Some t0) as ->; [|done].
  rewrite lookup_evict, lookup_insert_eq. cbn. replace (600 <? t1 - t0) with false by lia. done.
Qed.
End Accepted.
End Console.

(** ** pages/Pricing.tsx *)

Record StorageTier := { ti_id : string; ti_rank : Z; ti_storageBytes : Z; ti_comingSoon : bool }.
(** The account's plan expiry in milliseconds, and what it stores. *)
Record ConsoleAccount := { ca_planExpiresAt : option Z; ca_usedStorage : Z }.

Inductive PurchaseMode := ModeExtend | ModeUpgrade.

(** The page; [pr_plan] is the plan of the subscription. *)
Record PricingPage := {
  pr_connected : bool;
  pr_tiers : list StorageTier;
  pr_account : option ConsoleAccount;
  pr_plan : option StorageTier;
  pr_selected : option string;
  pr_terms : bool;
  pr_signupsOpen : option bool;
  pr_busy : bool
}.

(** The rank of the plan that is live at [now]; [-1] without one. *)
Definition live_plan (now : Z) (p : PricingPage) : option StorageTier :=
  match pr_account p with
  | Some a => match ca_planExpiresAt a with
              | Some t => if now <? t then pr_plan p else None
              | None => None
              end
  | None => None
  end.
Definition currentRank (now : Z) (p : PricingPage) : Z :=
  match live_plan now p with Some t => ti_rank t | None => -1 end.
Definition modeFor (now : Z) (p : PricingPage) (tier : StorageTier) : PurchaseMode :=
  match live_plan now p with Some t => if ti_rank t <? ti_rank tier then ModeUpgrade else ModeExtend | None => ModeExtend end.

Definition isExistingCustomer (p : PricingPage) : bool :=
  match pr_account p with Some a => bool_decide (is_Some (ca_planExpiresAt a)) | None => false end.
Definition signupsPaused (p : PricingPage) : bool :=
  match pr_signupsOpen p with Some false => negb (isExistingCustomer p) | _ => false end.
Definition chosen (p : PricingPage) : option StorageTier :=
  find_first (fun t => bool_decide (Some (ti_id t) = pr_selected p)) (pr_tiers p).
(** A tier below the live plan's: its card cannot be clicked. *)
Definition isBlocked (now : Z) (p : PricingPage) (tier : StorageTier) : bool :=
  bool_decide (is_Some (pr_account p)) && (0 <=? currentRank now p) && (ti_rank tier <? currentRank now p).
Definition blockedDowngrade (now : Z) (p : PricingPage) : bool :=
  match chosen p with Some t => isBlocked now p t | None => false end.
Definition wouldEnterGrace (p : PricingPage) : bool :=
  match chosen p, pr_account p with Some t, Some a => ti_storageBytes t <? ca_usedStorage a | _, _ => false end.
Definition buyEnabled (p : PricingPage) : bool :=
  pr_connected p && bool_decide (is_Some (chosen p)) && pr_terms p && negb (pr_busy p) && negb (signupsPaused p).

(** The effects and clicks that change it. *)
Inductive pricing_event :=
| TiersLoaded (tiers : list StorageTier)
| AccountLoaded (a : ConsoleAccount)
| PlanLoaded (plan : option StorageTier)
| SignupsLoaded (open : bool)
| Connected
| ClickTier (now : Z) (tier : StorageTier)
| AcceptTerms (b : bool).

Definition pricing_step (p : PricingPage) (e : pricing_event) : PricingPage :=
  let upd tiers account plan selected terms signups connected :=
    {| pr_connected := connected; pr_tiers := tiers; pr_account := account; pr_plan := plan; pr_selected := selected;
       pr_terms := terms; pr_signupsOpen := signups; pr_busy := pr_busy p |} in
  match e with
  | TiersLoaded tiers =>
      upd tiers (pr_account p) (pr_plan p)
        (match find_first (fun t => negb (ti_comingSoon t)) tiers with Some t => Some (ti_id t) | None => pr_selected p end)
        (pr_terms p) (pr_signupsOpen p) (pr_connected p)
  | AccountLoaded a => upd (pr_tiers p) (Some a) (pr_plan p) (pr_selected p) (pr_terms p) (pr_signupsOpen p) (pr_connected p)
  | PlanLoaded t => upd (pr_tiers p) (pr_account p) t (pr_selected p) (pr_terms p) (pr_signupsOpen p) (pr_connected p)
  | SignupsLoaded b => upd (pr_tiers p) (pr_account p) (pr_plan p) (pr_selected p) (pr_terms p) (Some b) (pr_connected p)
  | Connected => upd (pr_tiers p) (pr_account p) (pr_plan p) (pr_selected p) (pr_terms p) (pr_signupsOpen p) true
  | ClickTier now tier =>
      if negb (ti_comingSoon tier) && negb (isBlocked now p tier)
      then upd (pr_tiers p) (pr_account p) (pr_plan p) (Some (ti_id tier)) (pr_terms p) (pr_signupsOpen p) (pr_connected p)
      else p
  | AcceptTerms b => upd (pr_tiers p) (pr_account p) (pr_plan p) (pr_selected p) b (pr_signupsOpen p) (pr_connected p)
  end.

Definition pricing_start : PricingPage :=
  {| pr_connected := false; pr_tiers := []; pr_account := None; pr_plan := None; pr_selected := None; pr_terms := false;
     pr_signupsOpen := None; pr_busy := false |}.

(** A click never chooses a tier below the live plan. *)
Lemma click_not_blocked now p tier :
  chosen (pricing_step p (ClickTier now tier)) = Some tier -> chosen p <> Some tier -> isBlocked now p tier = false.
Proof.
  cbn. destruct (ti_comingSoon tier); cbn; [by intros ->|]. destruct (isBlocked now p tier); cbn; [by intros ->|done].
Qed.

(** ** Runs *)

Module ConsoleExamples.
Import Nip98Examples.

Definition alice : Identities := {| id_pubkey := "alice"; id_npub := "npub1alice"; id_sk := Some "alice" |}.

Lemma alice_signs : signs_as None alice "alice".
Proof. split; reflexivity. Qed.

Definition delete_header : string :=
  "Nostr " +:+ encodeEvent (finalizeEvent (blossom_template NOWS "delete" (Some "ab12") None) "alice").

Lemma console_token_accepted_witness :
  verifyAuthToken (NOWS + 299) (Some delete_header) Delete (Some "ab12") true = Ok "npub1alice".
Proof.
  apply (console_token_accepted None alice "alice" NOWS (NOWS + 299) Delete (Some "ab12") delete_header true alice_signs);
    [unfold NOWS; lia|lia|unfold NOWS; lia|reflexivity|done].
Defined.

Definition admin_url : string := "http://db/admin/users".
Definition admin_header : string := "Nostr " +:+ encodeEvent (finalizeEvent (nip98_template NOWS admin_url "GET" None) "alice").

Lemma console_request_once_witness :
  let opts := {| expectedUrl := None; maxSkewSeconds := None |} in
  let req := get_req "/admin/users" admin_header in
  let (r1, seen1) := verifyNip98 NOWS opts req empty in
  r1 = Ok {| sg_pubkey := "alice"; sg_npub := "npub1alice" |} /\
  (verifyNip98 NOWS opts req seen1).1 = Throw {| ne_message := "Authorization event has already been used"; ne_status := 401 |}.
Proof.
  apply (console_request_once None alice "alice" NOWS NOWS NOWS admin_url "GET" None admin_header admin_header
    (get_req "/admin/users" admin_header) (get_req "/admin/users" admin_header) empty alice_signs);
    try reflexivity; try lia; done.
Defined.

Definition basic : StorageTier := {| ti_id := "basic"; ti_rank := 1; ti_storageBytes := 10; ti_comingSoon := false |}.
Definition pro : StorageTier := {| ti_id := "pro"; ti_rank := 2; ti_storageBytes := 100; ti_comingSoon := false |}.

(** The page offers a downgrade it calls unavailable. A customer with a
    live plan above the first tier opens the page, connects and accepts the
    terms: the first tier is chosen, its card says it cannot be bought, and
    the button that buys it is enabled. *)
Theorem downgrade_offered :
  let p := fold_left pricing_step
    [TiersLoaded [basic; pro]; SignupsLoaded true; Connected;
     AccountLoaded {| ca_planExpiresAt := Some 2000; ca_usedStorage := 50 |}; PlanLoaded (Some pro); AcceptTerms true]
    pricing_start in
  chosen p = Some basic /\ blockedDowngrade 1000 p = true /\ buyEnabled p = true.
Proof. vm_compute. done. Qed.
End ConsoleExamples.
