(* ===== verification/ConsoleDashboard.v ===== *)
(** * The account page of the console (packages/console/src/pages/Dashboard.tsx)

    A refresh asks for the account and for the first page of blobs, two requests
    that are waited for together; the page asks once for the subscription, the
    invoices and the notifications; deleting a blob takes it off the list and
    refreshes. A call is under way until the server has handled it, and its
    answer is on the way until it is delivered. A call may fail, a deletion also
    after it took effect. The page is shown for one signer only, and leaves with
    it. Dates are instants in milliseconds, amounts of storage integers.

    [dashboard_settles]: with calls and answers in their order, what the page
    lists in the end is what the server has, up to deletions that took effect
    though they were reported as failed, or an error was recorded. *)

From Stdlib Require Import QArith Qround.
From S2P Require Import Prelude Js.
#[local] Open Scope Z_scope.

(** ** What is shown *)

Inductive Countdown := NoPlan | PlanExpired (at_ : Z) | TimeLeft (days hours : Z) (until : Z).

Definition countdown (now : Z) (target : option Z) : Countdown :=
  match target with
  | None => NoPlan
  | Some t =>
      let diff := t - now in
      if diff <=? 0 then PlanExpired t else TimeLeft (diff / 86400000) (diff mod 86400000 / 3600000) t
  end.

(** The days and hours are those that are left, to the hour. *)
Lemma countdown_exact now t days hours until :
  countdown now (Some t) = TimeLeft days hours until ->
  until = t /\ 0 <= days /\ 0 <= hours < 24 /\ days * 86400000 + hours * 3600000 <= t - now < days * 86400000 + (hours + 1) * 3600000.
Proof.
  unfold countdown. case_match eqn:E; [done|]. zbool. intros [= <- <- <-].
  pose proof (Z.div_mod (t - now) 86400000). pose proof (Z.mod_pos_bound (t - now) 86400000).
  pose proof (Z.div_mod ((t - now) mod 86400000) 3600000). pose proof (Z.mod_pos_bound ((t - now) mod 86400000) 3600000).
  pose proof (Z.div_pos (t - now) 86400000). lia.
Qed.

Record DashAccount := {
  da_status : string;
  da_planExpiresAt : option Z;
  da_storageBytes : option Z;
  da_usedStorage : Z;
  da_canRead : bool;
  da_canUpload : bool;
  da_purgeAt : option Z
}.

(** [Math.round(x * 100)] of a double *)
Definition percent_of (q : Q) : Z :=
  match double_pos (Qnum q * 100) (QDen q) with Fin r => Qfloor (r + (1 # 2)) | _ => 0 end.
Definition usedPercent (a : DashAccount) : Z :=
  match da_storageBytes a with
  | Some allowance =>
      if allowance =? 0 then 0
      else match double_pos (da_usedStorage a) allowance with Fin q => percent_of q | _ => 0 end
  | None => 0
  end.
Definition bar_width (a : DashAccount) : Z := Z.min 100 (usedPercent a).
Definition overQuota (a : DashAccount) : bool :=
  match da_storageBytes a with Some allowance => allowance <? da_usedStorage a | None => false end.
Definition hasPlan (now : Z) (a : DashAccount) : bool :=
  match da_planExpiresAt a with Some t => now <? t | None => false end.

Inductive Banner :=
| BannerUnpaid
| BannerOverQuota (used : Z) (allowance : option Z)
| BannerStatus (status : string) (canRead canUpload : bool).
Definition banner (a : DashAccount) : option (Banner * option Z) :=
  if String.eqb (da_status a) "ACTIVE" then None
  else Some (if String.eqb (da_status a) "UNPAID" then BannerUnpaid
             else if overQuota a then BannerOverQuota (da_usedStorage a) (da_storageBytes a)
             else BannerStatus (da_status a) (da_canRead a) (da_canUpload a),
             da_purgeAt a).

(** ** The page *)

Inductive Tab := TabBlobs | TabBilling | TabNotifs.

(** A refresh under way: its number stands for the promise, with the answers of
    the two calls it waits for as far as they are there. *)
Record Refresh := { rf_id : nat; rf_account : option DashAccount; rf_items : option (list string) }.

Record DashPage := {
  dp_account : option DashAccount;
  dp_subscription : option string;
  dp_blobs : list string;            (* the hashes *)
  dp_invoices : list string;
  dp_notifications : list string;
  dp_tab : Tab;
  dp_error : option string;
  dp_loading : bool;
  dp_toast : option string;
  dp_refreshes : list Refresh;
  dp_next : nat                      (* the number of the next refresh *)
}.

Inductive dash_call :=
| AskStorage (refresh : nat)
| AskBlobs (refresh : nat)
| AskSubscription
| AskInvoices
| AskNotifications
| AskDelete (hash : string).
Inductive dash_answer :=
| GotStorage (refresh : nat) (account : DashAccount)
| GotBlobs (refresh : nat) (items : list string)
| GotSubscription (plan : option string)
| GotInvoices (l : list string)
| GotNotifications (l : list string)
| GotDeleted (hash : string)
| GotError (call : dash_call) (message : string).

Definition dash_start : DashPage :=
  {| dp_account := None; dp_subscription := None; dp_blobs := []; dp_invoices := []; dp_notifications := [];
     dp_tab := TabBlobs; dp_error := None; dp_loading := true; dp_toast := None; dp_refreshes := []; dp_next := 0 |}.

Definition dash_status (error : option string) (loading : bool) (toast : option string) (p : DashPage) : DashPage :=
  {| dp_account := dp_account p; dp_subscription := dp_subscription p; dp_blobs := dp_blobs p;
     dp_invoices := dp_invoices p; dp_notifications := dp_notifications p; dp_tab := dp_tab p;
     dp_error := error; dp_loading := loading; dp_toast := toast; dp_refreshes := dp_refreshes p; dp_next := dp_next p |}.
Definition dash_lists (account : option DashAccount) (plan : option string) (blobs invoices notifications : list string)
    (p : DashPage) : DashPage :=
  {| dp_account := account; dp_subscription := plan; dp_blobs := blobs; dp_invoices := invoices;
     dp_notifications := notifications; dp_tab := dp_tab p; dp_error := dp_error p; dp_loading := dp_loading p;
     dp_toast := dp_toast p; dp_refreshes := dp_refreshes p; dp_next := dp_next p |}.
Definition dash_tab (t : Tab) (p : DashPage) : DashPage :=
  {| dp_account := dp_account p; dp_subscription := dp_subscription p; dp_blobs := dp_blobs p;
     dp_invoices := dp_invoices p; dp_notifications := dp_notifications p; dp_tab := t; dp_error := dp_error p;
     dp_loading := dp_loading p; dp_toast := dp_toast p; dp_refreshes := dp_refreshes p; dp_next := dp_next p |}.
Definition dash_waiting (l : list Refresh) (next : nat) (p : DashPage) : DashPage :=
  {| dp_account := dp_account p; dp_subscription := dp_subscription p; dp_blobs := dp_blobs p;
     dp_invoices := dp_invoices p; dp_notifications := dp_notifications p; dp_tab := dp_tab p; dp_error := dp_error p;
     dp_loading := dp_loading p; dp_toast := dp_toast p; dp_refreshes := l; dp_next := next |}.

Definition not_hash (hash x : string) : bool := negb (String.eqb x hash).

(** The first half of [refresh], up to [Promise.all]. *)
Definition dash_refresh (p : DashPage) : DashPage * list dash_call :=
  (dash_waiting (dp_refreshes p ++ [{| rf_id := dp_next p; rf_account := None; rf_items := None |}]) (S (dp_next p))
     (dash_status None true (dp_toast p) p),
   [AskStorage (dp_next p); AskBlobs (dp_next p)]).
(** The effect of the signer. *)
Definition dash_mount (p : DashPage) : DashPage * list dash_call :=
  let (p, calls) := dash_refresh p in (p, calls ++ [AskSubscription; AskInvoices; AskNotifications]).

Definition not_refresh (n : nat) (r : Refresh) : bool := negb (rf_id r =? n)%nat.
Definition find_refresh (n : nat) (l : list Refresh) : option Refresh := find_first (fun r => rf_id r =? n)%nat l.
Definition drop_refresh (n : nat) (p : DashPage) : DashPage :=
  dash_waiting (List.filter (not_refresh n) (dp_refreshes p)) (dp_next p) p.

(** One of the two calls of a refresh is answered: with both answers there the
    refresh goes on; one that has failed before is gone. *)
Definition refresh_answer (n : nat) (f : Refresh -> Refresh) (p : DashPage) : DashPage :=
  match find_refresh n (dp_refreshes p) with
  | None => p
  | Some r =>
      match rf_account (f r), rf_items (f r) with
      | Some account, Some items =>
          let p := drop_refresh n p in
          dash_status (dp_error p) false (dp_toast p)
            (dash_lists (Some account) (dp_subscription p) items (dp_invoices p) (dp_notifications p) p)
      | _, _ => dash_waiting (map (fun r => if (rf_id r =? n)%nat then f r else r) (dp_refreshes p)) (dp_next p) p
      end
  end.
(** The first failure ends it: [catch] and [finally]. *)
Definition refresh_error (n : nat) (message : string) (p : DashPage) : DashPage :=
  match find_refresh n (dp_refreshes p) with
  | None => p
  | Some _ => let p := drop_refresh n p in dash_status (Some message) false (dp_toast p) p
  end.

Definition give_account (a : DashAccount) (r : Refresh) : Refresh :=
  {| rf_id := rf_id r; rf_account := Some a; rf_items := rf_items r |}.
Definition give_items (l : list string) (r : Refresh) : Refresh :=
  {| rf_id := rf_id r; rf_account := rf_account r; rf_items := Some l |}.

(** The blob is taken off the list and the success shown. *)
Definition blob_removed (hash : string) (p : DashPage) : DashPage :=
  dash_status (dp_error p) (dp_loading p) (Some "Blob deleted — allowance freed up")
    (dash_lists (dp_account p) (dp_subscription p) (List.filter (not_hash hash) (dp_blobs p)) (dp_invoices p)
       (dp_notifications p) p).

(** An answer arrives. *)
Definition dash_deliver (r : dash_answer) (p : DashPage) : DashPage * list dash_call :=
  match r with
  | GotStorage n account => (refresh_answer n (give_account account) p, [])
  | GotBlobs n items => (refresh_answer n (give_items items) p, [])
  | GotSubscription plan => (dash_lists (dp_account p) plan (dp_blobs p) (dp_invoices p) (dp_notifications p) p, [])
  | GotInvoices l => (dash_lists (dp_account p) (dp_subscription p) (dp_blobs p) l (dp_notifications p) p, [])
  | GotNotifications l => (dash_lists (dp_account p) (dp_subscription p) (dp_blobs p) (dp_invoices p) l p, [])
  | GotDeleted hash => dash_refresh (blob_removed hash p)
  | GotError (AskStorage n) message | GotError (AskBlobs n) message => (refresh_error n message p, [])
  | GotError (AskDelete _) message => (dash_status (dp_error p) (dp_loading p) (Some message) p, [])
  | GotError _ _ => (p, [])
  end.

(** The error on the page: it has a place only while there is no account. *)
Definition shown_error (p : DashPage) : option string :=
  match dp_account p with Some _ => None | None => if dp_loading p then None else dp_error p end.

(** ** The page and the server *)

Record Dash := {
  db_page : DashPage;
  db_blobs : list string;            (* what the server has of this account *)
  db_calls : list dash_call;
  db_answers : list dash_answer;
  db_lost : list string              (* deletions that took effect and were reported as failed *)
}.

(** What becomes of a call: it is answered, it fails without effect, or it fails
    and has had its effect. A list of blobs is its first page. *)
Inductive dash_outcome := Answered | Refused (message : string) | Lost (message : string).
Record ServerSays := { sv_outcome : dash_outcome; sv_account : DashAccount; sv_plan : option string; sv_list : list string }.
Definition BLOBS_PAGE : nat := 25.
Definition dash_effect (c : dash_call) (blobs : list string) : list string :=
  match c with AskDelete hash => List.filter (not_hash hash) blobs | _ => blobs end.
Definition dash_reply (says : ServerSays) (c : dash_call) (blobs : list string) : dash_answer :=
  match c with
  | AskStorage n => GotStorage n (sv_account says)
  | AskBlobs n => GotBlobs n (take BLOBS_PAGE blobs)
  | AskSubscription => GotSubscription (sv_plan says)
  | AskInvoices => GotInvoices (sv_list says)
  | AskNotifications => GotNotifications (sv_list says)
  | AskDelete hash => GotDeleted hash
  end.
(** The answer, what the server has then, and the deletion that was lost. *)
Definition dash_handle (says : ServerSays) (c : dash_call) (blobs : list string) : dash_answer * list string * list string :=
  match sv_outcome says with
  | Answered => (dash_reply says c blobs, dash_effect c blobs, [])
  | Refused message => (GotError c message, blobs, [])
  | Lost message => (GotError c message, dash_effect c blobs, match c with AskDelete hash => [hash] | _ => [] end)
  end.

Inductive dash_event :=
| ClickRefresh
| ClickDelete (hash : string)
| ClickTab (t : Tab)
| Handle (k : nat) (says : ServerSays)     (* the server gets to the k-th call *)
| Deliver (k : nat).                       (* the k-th answer arrives *)

Definition with_page (r : DashPage * list dash_call) (d : Dash) : Dash :=
  {| db_page := fst r; db_blobs := db_blobs d; db_calls := db_calls d ++ snd r; db_answers := db_answers d;
     db_lost := db_lost d |}.

Definition dash_step (d : Dash) (e : dash_event) : Dash :=
  match e with
  | ClickRefresh => with_page (dash_refresh (db_page d)) d
  | ClickDelete hash => with_page (db_page d, [AskDelete hash]) d
  | ClickTab t => with_page (dash_tab t (db_page d), []) d
  | Handle k says =>
      match db_calls d !! k with
      | None => d
      | Some c =>
          let '(r, blobs, lost) := dash_handle says c (db_blobs d) in
          {| db_page := db_page d; db_blobs := blobs; db_calls := delete k (db_calls d); db_answers := db_answers d ++ [r];
             db_lost := db_lost d ++ lost |}
      end
  | Deliver k =>
      match db_answers d !! k with
      | None => d
      | Some r => with_page (dash_deliver r (db_page d))
                    {| db_page := db_page d; db_blobs := db_blobs d; db_calls := db_calls d;
                       db_answers := delete k (db_answers d); db_lost := db_lost d |}
      end
  end.
Definition dash_run (evs : list dash_event) (d : Dash) : Dash := fold_left dash_step evs d.
Definition dash_open (blobs : list string) : Dash :=
  with_page (dash_mount dash_start)
    {| db_page := dash_start; db_blobs := blobs; db_calls := []; db_answers := []; db_lost := [] |}.

(** ** What it shows in the end *)

(** The two halves of a refresh, as calls and as answers. *)
Inductive half := HalfStorage (n : nat) | HalfBlobs (n : nat).
Definition call_half (c : dash_call) : option half :=
  match c with AskStorage n => Some (HalfStorage n) | AskBlobs n => Some (HalfBlobs n) | _ => None end.
Definition answer_half (r : dash_answer) : option half :=
  match r with
  | GotStorage n _ => Some (HalfStorage n)
  | GotBlobs n _ => Some (HalfBlobs n)
  | GotError c _ => call_half c
  | _ => None
  end.
(** What a refresh still waits for, while the account comes first. *)
Definition due (r : Refresh) : list half :=
  match rf_account r with None => [HalfStorage (rf_id r); HalfBlobs (rf_id r)] | Some _ => [HalfBlobs (rf_id r)] end.

(** [l] is what is under way of the refreshes on the page, in their order; the
    second half of one that has failed may be in front. *)
Record waiting (l : list half) (p : DashPage) : Prop := {
  wt_due : exists dead, l = dead ++ (dp_refreshes p ≫= due) /\
    (dead = [] \/ exists n, dead = [HalfBlobs n] /\ n ∉ rf_id <$> dp_refreshes p /\ (n < dp_next p)%nat);
  wt_open : Forall (fun r => rf_items r = None) (dp_refreshes p);
  wt_ids : NoDup (rf_id <$> dp_refreshes p);
  wt_next : Forall (fun n => n < dp_next p)%nat (rf_id <$> dp_refreshes p)
}.

Definition errored (p : DashPage) : Prop := dp_error p <> None /\ dp_loading p = false.
Definition is_deleted (r : dash_answer) : Prop := match r with GotDeleted _ => True | _ => False end.
#[local] Instance is_deleted_dec r : Decision (is_deleted r).
Proof. destruct r; apply _. Defined.

Lemma waiting_same l p p' :
  dp_refreshes p' = dp_refreshes p -> dp_next p' = dp_next p -> waiting l p -> waiting l p'.
Proof. intros Hr Hn [Hd Ho Hi Hx]. split; rewrite ?Hr, ?Hn; done. Qed.

Lemma waiting_refresh l p :
  waiting l p -> waiting (l ++ [HalfStorage (dp_next p); HalfBlobs (dp_next p)]) (dash_refresh p).1.
Proof.
  intros [(dead & -> & Hd) Ho Hi Hx]. split; cbn.
  - exists dead. rewrite bind_app, app_assoc. split; [done|].
    destruct Hd as [->|(n & -> & Hn & Hlt)]; [by left|right]. exists n. split_and!; [done| |lia].
    rewrite fmap_app. intros [?|E%list_elem_of_singleton]%elem_of_app; [done|]. cbn in E. lia.
  - apply Forall_app. by rewrite Forall_singleton.
  - rewrite fmap_app. apply NoDup_app. split_and!; [done| |apply NoDup_singleton].
    intros n Hn ->%list_elem_of_singleton. rewrite Forall_forall in Hx. apply Hx in Hn. cbn in Hn. lia.
  - rewrite fmap_app. apply Forall_app. split; [|apply Forall_singleton; cbn; lia].
    eapply Forall_impl; [exact Hx|]. cbn. lia.
Qed.

(** *** The refresh in front *)

Lemma find_refresh_none n l : n ∉ rf_id <$> l -> find_refresh n l = None.
Proof.
  unfold find_refresh. induction l as [|r l IH]; [done|]. cbn. intros [Hn Hl]%not_elem_of_cons.
  rewrite (proj2 (Nat.eqb_neq _ _)) by done. by apply IH.
Qed.
Lemma find_refresh_head r l : find_refresh (rf_id r) (r :: l) = Some r.
Proof. unfold find_refresh. cbn. by rewrite Nat.eqb_refl. Qed.
Lemma drop_absent n l : n ∉ rf_id <$> l -> List.filter (not_refresh n) l = l.
Proof.
  induction l as [|r l IH]; [done|]. cbn. intros [Hn Hl]%not_elem_of_cons. unfold not_refresh at 1.
  rewrite (proj2 (Nat.eqb_neq _ _)) by done. cbn. by rewrite IH.
Qed.
Lemma drop_head r l : rf_id r ∉ rf_id <$> l -> List.filter (not_refresh (rf_id r)) (r :: l) = l.
Proof. intros Hn. cbn. unfold not_refresh at 1. rewrite Nat.eqb_refl. cbn. by apply drop_absent. Qed.
Lemma map_absent n f l : n ∉ rf_id <$> l -> map (fun r => if (rf_id r =? n)%nat then f r else r) l = l.
Proof.
  induction l as [|r l IH]; [done|]. cbn. intros [Hn Hl]%not_elem_of_cons.
  rewrite (proj2 (Nat.eqb_neq _ _)) by done. by rewrite IH.
Qed.

(** An answer about a refresh that is gone changes nothing. *)
Lemma deliver_gone r n p :
  answer_half r = Some n -> (match n with HalfStorage k | HalfBlobs k => k end) ∉ rf_id <$> dp_refreshes p ->
  dash_deliver r p = (p, []).
Proof.
  intros Hh Hn. destruct r as [k a|k l|?|?|?|?|[]]; try done; injection Hh as <-; cbn;
    unfold refresh_answer, refresh_error; by rewrite find_refresh_none.
Qed.

(** The next answer of a refresh: the rest is waited for; and when no refresh is
    left, nothing is, or an error was recorded. *)
Lemma waiting_head l p r h :
  waiting (h :: l) p -> answer_half r = Some h ->
  let p' := (dash_deliver r p).1 in
  waiting l p' /\ (dp_refreshes p = [] \/ dp_refreshes p' <> [] \/ errored p' \/ l = []).
Proof.
  intros [(dead & E & Hd) Ho Hi Hx] Hr. cbv zeta. destruct Hd as [->|(n & -> & Hn & Hlt)].
  2:{ injection E as -> ->. rewrite (deliver_gone r _ p Hr Hn). cbn. split.
      - split; [|done..]. exists []. split; [done|by left].
      - destruct (dp_refreshes p); [by left|by right; left]. }
  destruct (dp_refreshes p) as [|q rest] eqn:Ep; [done|]. cbn in E, Ho, Hi, Hx.
  apply Forall_cons in Ho as [Hq Ho]. apply NoDup_cons in Hi as [Hni Hi]. apply Forall_cons in Hx as [Hqx Hx].
  unfold due in E at 1. destruct (rf_account q) as [a0|] eqn:Ea; injection E as -> ->.
  - assert (forall e m, dp_refreshes (dash_status e false m (drop_refresh (rf_id q) p)) = rest) as Hrest
      by (intros; cbn; rewrite Ep; by apply drop_head).
    destruct r as [k a|k items|?|?|?|?|[]]; try done; injection Hr as ->; cbn [dash_deliver fst];
      unfold refresh_answer, refresh_error; rewrite Ep, find_refresh_head; cbn [give_items rf_account rf_items];
      try rewrite Ea; cbv zeta.
    + split; [split; cbn; rewrite ?Ep, ?drop_head by done; try done; exists []; split; [done|by left]|].
      destruct rest; [by right; right; right|right; left]. cbn. rewrite Ep, drop_head by done. done.
    + split; [split; cbn; rewrite ?Ep, ?drop_head by done; try done; exists []; split; [done|by left]|].
      right; right; left. done.
  - destruct r as [k a|k items|?|?|?|?|[]]; try done; injection Hr as ->; cbn [dash_deliver fst];
      unfold refresh_answer, refresh_error; rewrite Ep, find_refresh_head; cbn [give_account rf_account rf_items];
      try rewrite Hq; cbv zeta.
    + split; [|right; left; cbn; done]. cbn [map]. rewrite Nat.eqb_refl, map_absent by done.
      split; cbn; [exists []; split; [done|by left]|by constructor|by constructor|by constructor].
    + split; [|right; right; left; done]. split; cbn; rewrite ?Ep, ?drop_head by done; try done.
      exists [HalfBlobs (rf_id q)]. split; [done|right]. exists (rf_id q). split_and!; done.
Qed.

(** An answer that belongs to no refresh and is no deletion. *)
Lemma neutral_answer r p :
  answer_half r = None -> ~ is_deleted r ->
  let p' := (dash_deliver r p).1 in
  dp_refreshes p' = dp_refreshes p /\ dp_next p' = dp_next p /\ dp_blobs p' = dp_blobs p /\
  dp_error p' = dp_error p /\ dp_loading p' = dp_loading p.
Proof. destruct r as [| | | | | |[]]; cbn; try done; intros _ Hd; by destruct Hd. Qed.

Lemma errored_deliver r p : ~ is_deleted r -> errored p -> errored (dash_deliver r p).1.
Proof.
  intros Hd [He Hl]. destruct r as [n a|n l|?|?|?|?|[]]; try done; cbn; try (by destruct Hd);
    unfold refresh_answer, refresh_error; repeat case_match; done.
Qed.

(** *** The answers on the way *)

Definition after (q : list dash_answer) (p : DashPage) : DashPage := fold_left (fun p r => (dash_deliver r p).1) q p.

Lemma after_errored q p : Forall (fun r => ~ is_deleted r) q -> errored p -> errored (after q p).
Proof. intros Hq. revert p. induction Hq as [|r q Hr _ IH]; intros p Hp; [done|]. by apply IH, errored_deliver. Qed.

Lemma after_idle q p : Forall (fun r => ~ is_deleted r) q -> dp_refreshes p = [] -> dp_refreshes (after q p) = [].
Proof.
  intros Hq. revert p. induction Hq as [|r q Hr _ IH]; intros p Hp; [done|]. apply IH.
  destruct (answer_half r) as [h|] eqn:Eh; [rewrite (deliver_gone r h) by (rewrite ?Hp; set_solver); done|].
  by destruct (neutral_answer r p Eh Hr) as (-> & _).
Qed.

Lemma answer_kind r : is_deleted r \/ (exists h, answer_half r = Some h) \/ (answer_half r = None /\ ~ is_deleted r).
Proof. destruct (decide (is_deleted r)); [by left|right]. destruct (answer_half r); eauto. Qed.

(** When the last half of the refreshes is answered, the page lists what that
    answer says, or an error was recorded. *)
Lemma after_last q x h p :
  waiting (omap answer_half (q ++ [x])) p -> answer_half x = Some h -> Forall (fun r => ~ is_deleted r) q ->
  dp_refreshes p <> [] \/ errored p ->
  let p' := after (q ++ [x]) p in
  errored p' \/ (dp_loading p' = false /\ exists n items, x = GotBlobs n items /\ dp_blobs p' = items).
Proof.
  intros Hw Hx Hq. revert p Hw. induction Hq as [|r q Hr Hq IH]; intros p Hw Hp; cbv zeta.
  - cbn in Hw |- *. rewrite Hx in Hw. destruct Hp as [Hp|Hp].
    2:{ left. apply errored_deliver; [|done]. intros Hdel. by destruct x. }
    destruct Hw as [(dead & E & Hd) Ho _ _]. destruct (dp_refreshes p) as [|t rest] eqn:Ep; [done|].
    apply Forall_cons in Ho as [Ht _].
    assert (dead = [] /\ rf_account t <> None /\ h = HalfBlobs (rf_id t)) as (-> & Ha & ->).
    { destruct Hd as [->|(n & -> & _)].
      - cbn in E. unfold due in E at 1. destruct (rf_account t); [|done]. by injection E as ->.
      - cbn in E. unfold due in E at 1. by destruct (rf_account t). }
    destruct (rf_account t) as [a|] eqn:Ea; [|done].
    destruct x as [|k items| | | | |[]]; try done; injection Hx as ->; cbn; unfold refresh_answer, refresh_error;
      rewrite Ep, find_refresh_head; cbn; rewrite ?Ea.
    + right. split; [done|]. by eexists _, _.
    + by left.
  - cbn [app after fold_left omap list_omap] in *. destruct (answer_half r) as [g|] eqn:Eg.
    + destruct (waiting_head _ _ r g Hw Eg) as [Hw' Hor]. apply IH; [done|].
      destruct Hp as [Hp|Hp]; [|right; by apply errored_deliver].
      destruct Hor as [?|[?|[?|Hl]]]; [done|by left|by right|]. exfalso. revert Hl. rewrite omap_app. cbn. rewrite Hx.
      by destruct (omap answer_half q).
    + destruct (neutral_answer r p Eg Hr) as (Hr1 & Hn1 & _). apply IH; [by eapply waiting_same|].
      destruct Hp as [Hp|Hp]; [left; by rewrite Hr1|right; by apply errored_deliver].
Qed.

(** *** The invariant *)

(** The list is the first page of [listed], of which the server has since lost
    at most what was deleted without the page being told. *)
Definition up_to_date (d : Dash) (p : DashPage) : Prop :=
  exists listed gone, dp_blobs p = take BLOBS_PAGE listed /\
    db_blobs d = List.filter (fun x => negb (bool_decide (x ∈ gone))) listed /\ Forall (fun x => x ∈ db_lost d) gone.
Definition dash_settled (d : Dash) (p : DashPage) : Prop :=
  dp_loading p = false /\ (dp_error p <> None \/ up_to_date d p).

Record dash_settling (d : Dash) : Prop := {
  ds_waiting : waiting (omap answer_half (db_answers d) ++ omap call_half (db_calls d)) (db_page d);
  ds_list : (dp_refreshes (db_page d) <> [] /\ omap call_half (db_calls d) <> []) \/
            Exists is_deleted (db_answers d) \/ dash_settled d (after (db_answers d) (db_page d))
}.

Lemma settled_same d d' p p' :
  dp_loading p' = dp_loading p -> dp_error p' = dp_error p -> dp_blobs p' = dp_blobs p ->
  db_blobs d' = db_blobs d -> (exists l, db_lost d' = db_lost d ++ l) -> dash_settled d p -> dash_settled d' p'.
Proof.
  intros Hl He Hb Hs [lost Hlo] [H1 H2]. split; [congruence|]. destruct H2 as [H2|(L & g & E1 & E2 & E3)]; [left; congruence|right].
  exists L, g. rewrite Hb, Hs, Hlo. split_and!; [done|done|]. eapply Forall_impl; [exact E3|]. set_solver.
Qed.

Lemma settled_lost d d' p h :
  db_blobs d' = List.filter (not_hash h) (db_blobs d) -> db_lost d' = db_lost d ++ [h] -> dash_settled d p -> dash_settled d' p.
Proof.
  intros Hs Hlo [H1 H2]. split; [done|]. destruct H2 as [H2|(L & g & E1 & E2 & E3)]; [by left|right].
  exists L, (h :: g). rewrite Hs, Hlo, E2. split_and!; [done| |].
  - clear. induction L as [|x L IH]; [done|]. cbn. unfold not_hash in *.
    destruct (decide (x = h)) as [->|Hne].
    + rewrite (bool_decide_eq_true_2 (h ∈ h :: g)) by set_solver. cbn.
      destruct (bool_decide (h ∈ g)); cbn; rewrite ?String.eqb_refl; done.
    + rewrite (bool_decide_ext (x ∈ h :: g) (x ∈ g)) by set_solver.
      destruct (bool_decide (x ∈ g)); cbn; [done|]. rewrite (proj2 (String.eqb_neq _ _) Hne). cbn. by rewrite IH.
  - constructor; [set_solver|]. eapply Forall_impl; [exact E3|]. set_solver.
Qed.

(** What the server's answer has to do with the call. *)
Lemma handle_half says c blobs r b lost : dash_handle says c blobs = (r, b, lost) -> answer_half r = call_half c.
Proof. unfold dash_handle. destruct (sv_outcome says), c; by intros [= <- <- <-]. Qed.
Lemma handle_refresh says c h blobs r b lost :
  dash_handle says c blobs = (r, b, lost) -> call_half c = Some h ->
  b = blobs /\ lost = [] /\ forall n items, r = GotBlobs n items -> items = take BLOBS_PAGE blobs.
Proof.
  unfold dash_handle. destruct (sv_outcome says), c; intros [= <- <- <-] Hc; try done; (split; [done|]); (split; [done|]);
    intros k items Hr; try discriminate Hr; by injection Hr as _ <-.
Qed.
Lemma handle_other says c blobs r b lost :
  dash_handle says c blobs = (r, b, lost) -> call_half c = None -> ~ is_deleted r ->
  b = blobs /\ lost = [] \/ exists h, b = List.filter (not_hash h) blobs /\ lost = [h].
Proof.
  unfold dash_handle. destruct (sv_outcome says), c; intros [= <- <- <-] Hc Hd; try done; cbn in Hd; try tauto; auto.
  right. by eexists.
Qed.

(** A list that is settled stays so when the server gets to a call that is no
    part of a refresh on the page. *)
Lemma settled_other d d' says c r lost p :
  dash_handle says c (db_blobs d) = (r, db_blobs d', lost) -> db_lost d' = db_lost d ++ lost ->
  call_half c = None -> ~ is_deleted r -> dash_settled d p -> dash_settled d' (dash_deliver r p).1.
Proof.
  intros Hh Hlo Hc Hr Hs. pose proof (handle_half _ _ _ _ _ _ Hh) as Eh. rewrite Hc in Eh.
  destruct (neutral_answer r p Eh Hr) as (_ & _ & H1 & H2 & H3).
  destruct (handle_other _ _ _ _ _ _ Hh Hc Hr) as [[Hb ->]|(g & Hb & ->)].
  - eapply settled_same; [exact H3|exact H2|exact H1|exact Hb|by eexists|done].
  - eapply settled_same; [exact H3|exact H2|exact H1|reflexivity|by exists []; rewrite app_nil_r|]. by eapply settled_lost.
Qed.
Lemma settled_gone d d' says c h r lost p :
  dash_handle says c (db_blobs d) = (r, db_blobs d', lost) -> db_lost d' = db_lost d ++ lost ->
  call_half c = Some h -> dp_refreshes p = [] -> dash_settled d p -> dash_settled d' (dash_deliver r p).1.
Proof.
  intros Hh Hlo Hc Hp Hs. pose proof (handle_half _ _ _ _ _ _ Hh) as Eh. rewrite Hc in Eh.
  rewrite (deliver_gone r h) by (rewrite ?Hp; set_solver). destruct (handle_refresh _ _ _ _ _ _ _ Hh Hc) as (Hb & -> & _).
  eapply settled_same; [reflexivity..|exact Hb|by eexists|done].
Qed.

Lemma after_snoc q r p : after (q ++ [r]) p = (dash_deliver r (after q p)).1.
Proof. unfold after. by rewrite fold_left_app. Qed.

Lemma keep_all (l : list string) : List.filter (fun x => negb (bool_decide (x ∈ []))) l = l.
Proof. induction l as [|x l IH]; [done|]. cbn. by rewrite IH. Qed.

(** The server gets to the first call. *)
Lemma settling_handle d says : dash_settling d -> dash_settling (dash_step d (Handle 0 says)).
Proof.
  intros Hd. cbn [dash_step]. destruct (db_calls d) as [|c C] eqn:Ec; [done|]. cbn [lookup list_lookup].
  destruct Hd as [Hw Hd]. rewrite Ec in Hw, Hd. destruct (dash_handle says c (db_blobs d)) as [[r b] lost] eqn:Hh.
  pose proof (handle_half _ _ _ _ _ _ Hh) as Ehalf. set (d' := {| db_page := _ |}). split.
  { cbn. rewrite omap_app, <- app_assoc. cbn in Hw |- *. rewrite Ehalf. by destruct (call_half c). }
  destruct (decide (Exists is_deleted (db_answers d ++ [r]))) as [Hx|Hx]; [by right; left|].
  rewrite Exists_app, Exists_cons, Exists_nil in Hx.
  assert (Forall (fun r => ~ is_deleted r) (db_answers d) /\ ~ is_deleted r) as [Hq Hnr].
  { split; [apply Forall_Exists_neg; tauto|tauto]. }
  change (db_page d') with (db_page d). change (db_answers d') with (db_answers d ++ [r]). change (db_calls d') with C.
  destruct (decide (dp_refreshes (db_page d) = [])) as [Ep|Ep].
  - right; right. destruct Hd as [[? _]|[Hd|Hd]]; [done|tauto|]. rewrite after_snoc. destruct (call_half c) as [h|] eqn:Eh.
    + by eapply settled_gone; [exact Hh|..|by apply after_idle|].
    + by eapply settled_other.
  - destruct (decide (omap call_half C = [])) as [EC|EC]; [|by left]. right; right. destruct (call_half c) as [h|] eqn:Eh.
    + destruct (handle_refresh _ _ _ _ _ _ _ Hh Eh) as (Hb & Hlost & Hitems).
      destruct (after_last (db_answers d) r h (db_page d)) as [[He Hl]|(Hl & n & items & -> & Hbl)]; [|done|done|by left| |].
      * cbn in Hw. rewrite Eh, EC in Hw. rewrite omap_app. cbn. by rewrite Ehalf.
      * split; [done|by left].
      * split; [done|right]. exists (db_blobs d), []. rewrite Hbl, (Hitems n items), keep_all by done.
        split_and!; [done|exact Hb|constructor].
    + cbn in Hd. rewrite Eh in Hd. destruct Hd as [[_ Hd]|[Hd|Hd]]; [done|tauto|]. rewrite after_snoc. by eapply settled_other.
Qed.

(** The page takes the first answer. *)
Lemma settling_deliver d : dash_settling d -> dash_settling (dash_step d (Deliver 0)).
Proof.
  intros Hd. cbn [dash_step]. destruct (db_answers d) as [|r rest] eqn:Ea; [done|]. cbn [lookup list_lookup].
  destruct Hd as [Hw Hd]. rewrite Ea in Hw, Hd. set (d' := with_page _ _). destruct (answer_kind r) as [Hr|[(h & Hh)|[Hh Hr]]].
  - destruct r; try done. split.
    + cbn -[dash_refresh]. rewrite omap_app, app_assoc. apply (waiting_refresh _ (blob_removed hash (db_page d))).
      by apply (waiting_same _ (db_page d)).
    + left. cbn. rewrite omap_app. split; [by destruct (dp_refreshes (db_page d))|by destruct (omap call_half (db_calls d))].
  - assert (~ is_deleted r) as Hr by (intros Hr; by destruct r).
    assert (snd (dash_deliver r (db_page d)) = []) as Hcalls by (by destruct r as [| | | | | |[]]).
    assert (db_calls d' = db_calls d) as Hc by (cbn; by rewrite Hcalls, app_nil_r).
    cbn in Hw. rewrite Hh in Hw. destruct (waiting_head _ _ r h Hw Hh) as [Hw' Hor].
    split; [by rewrite Hc|]. rewrite Hc. cbn [d' with_page db_page db_answers delete list_delete].
    destruct (decide (Exists is_deleted rest)) as [Hx|Hx]; [by right; left|].
    destruct Hd as [[Hp HC]|[Hd|Hd]].
    + destruct Hor as [?|[?|[He|Hl]]]; [done|by left| |].
      * right; right. destruct (after_errored rest (dash_deliver r (db_page d)).1) as [H1 H2]; [apply Forall_Exists_neg; tauto|done|].
        split; [done|by left].
      * by apply app_nil in Hl as [_ ?].
    + apply Exists_cons in Hd. tauto.
    + right; right. eapply settled_same; [..|exact Hd]; try done. by exists []; rewrite app_nil_r.
  - destruct (neutral_answer r (db_page d) Hh Hr) as (H1 & H2 & _).
    assert (snd (dash_deliver r (db_page d)) = []) as Hcalls by (destruct r as [| | | | | |[]]; cbn in Hr; done || tauto).
    assert (db_calls d' = db_calls d) as Hc by (cbn; by rewrite Hcalls, app_nil_r).
    cbn in Hw. rewrite Hh in Hw. split; [rewrite Hc; by eapply waiting_same|]. rewrite Hc.
    destruct Hd as [[Hp HC]|[Hd|Hd]].
    + left. cbn. by rewrite H1.
    + right; left. apply Exists_cons in Hd. tauto.
    + right; right. eapply settled_same; [..|exact Hd]; try done. by exists []; rewrite app_nil_r.
Qed.

(** Changing the tab changes nothing else. *)
Lemma refresh_answer_tab n f t p : refresh_answer n f (dash_tab t p) = dash_tab t (refresh_answer n f p).
Proof.
  unfold refresh_answer. change (dp_refreshes (dash_tab t p)) with (dp_refreshes p).
  destruct (find_refresh n (dp_refreshes p)) as [r|]; [|done]. by destruct (rf_account (f r)), (rf_items (f r)).
Qed.
Lemma refresh_error_tab n m t p : refresh_error n m (dash_tab t p) = dash_tab t (refresh_error n m p).
Proof.
  unfold refresh_error. change (dp_refreshes (dash_tab t p)) with (dp_refreshes p).
  by destruct (find_refresh n (dp_refreshes p)).
Qed.
Lemma after_tab q t : forall p, after q (dash_tab t p) = dash_tab t (after q p).
Proof.
  induction q as [|r q IH]; intros p; [done|]. change (after (r :: q) ?p) with (after q (dash_deliver r p).1).
  rewrite <- IH. f_equal. destruct r as [n a|n l|?|?|?|?|[]]; try done; cbn [dash_deliver fst];
    first [apply refresh_answer_tab | apply refresh_error_tab].
Qed.

(** Calls and answers come in the order in which they were sent. *)
Definition dash_in_order (e : dash_event) : Prop :=
  match e with Handle k _ | Deliver k => k = 0%nat | _ => True end.

Lemma settling_step d e : dash_settling d -> dash_in_order e -> dash_settling (dash_step d e).
Proof.
  intros Hd He. destruct e as [|hash|t|k says|k]; cbn in He; subst; [| | |by apply settling_handle|by apply settling_deliver];
    destruct Hd as [Hw Hd]; (split; cbn; rewrite omap_app).
  - rewrite app_assoc. by apply waiting_refresh.
  - left. split; [by destruct (dp_refreshes (db_page d))|by destruct (omap call_half (db_calls d))].
  - by rewrite app_nil_r.
  - rewrite app_nil_r. by destruct Hd as [Hd|[Hd|Hd]]; auto.
  - rewrite app_nil_r. by eapply waiting_same; [..|exact Hw].
  - rewrite app_nil_r, after_tab. by destruct Hd as [Hd|[Hd|Hd]]; auto.
Qed.

Lemma settling_open blobs : dash_settling (dash_open blobs).
Proof.
  split; [|left; done]. apply (waiting_same _ (dash_refresh dash_start).1); [done..|].
  apply (waiting_refresh [] dash_start). split; try constructor. exists []. split; [done|by left].
Qed.

(** C40: the page ends up with what the server has. Whatever is clicked and
    whichever calls fail, a deletion also after it took effect, when the server
    gets to the calls and the answers arrive in the order in which they were
    sent and none is left, the page has stopped loading and has recorded an
    error or lists the first page of what the server has, except that a blob may
    still be listed whose deletion took effect though the page was told that it
    failed. (Where requests overtake each other this does not hold: a refresh
    that is finished after a later one brings its older list back, and nothing
    compares the two; see stale_refresh.) *)
Theorem dashboard_settles evs blobs :
  Forall dash_in_order evs ->
  let d := dash_run evs (dash_open blobs) in
  db_calls d = [] -> db_answers d = [] ->
  dp_loading (db_page d) = false /\
  (dp_error (db_page d) <> None \/
   exists listed gone, dp_blobs (db_page d) = take BLOBS_PAGE listed /\
     db_blobs d = List.filter (fun x => negb (bool_decide (x ∈ gone))) listed /\ Forall (fun x => x ∈ db_lost d) gone).
Proof.
  intros He d Hc Ha. assert (dash_settling d) as [_ Hd].
  { unfold d, dash_run. pose proof (settling_open blobs) as Ho. revert Ho. clear d Hc Ha. generalize (dash_open blobs).
    induction He as [|e evs He _ IH]; intros d Hd; cbn; [done|]. by apply IH, settling_step. }
  rewrite Hc, Ha in Hd. destruct Hd as [[_ ?]|[Hd|Hd]]; [done|by apply Exists_nil in Hd|exact Hd].
Qed.

Module DashRuns.
Definition account : DashAccount :=
  {| da_status := "ACTIVE"; da_planExpiresAt := Some 100000000; da_storageBytes := Some 3000; da_usedStorage := 2000;
     da_canRead := true; da_canUpload := true; da_purgeAt := None |}.
Definition says (o : dash_outcome) : ServerSays := {| sv_outcome := o; sv_account := account; sv_plan := Some "basic"; sv_list := [] |}.
Definition fine : ServerSays := says Answered.
Definition times (n : nat) (e : dash_event) : list dash_event := replicate n e.

(** The list is asked for, a blob deleted, the list asked for again. *)
Definition deletion : list dash_event :=
  times 5 (Handle 0 fine) ++ times 5 (Deliver 0) ++
  [ClickDelete "b"; Handle 0 fine; Deliver 0; Handle 0 fine; Handle 0 fine; Deliver 0; Deliver 0].
Lemma dashboard_settles_witness :
  let d := dash_run deletion (dash_open ["a"; "b"]) in
  db_blobs d = ["a"] /\ dp_blobs (db_page d) = ["a"] /\ dp_loading (db_page d) = false /\
  exists listed gone, dp_blobs (db_page d) = take BLOBS_PAGE listed /\
    db_blobs d = List.filter (fun x => negb (bool_decide (x ∈ gone))) listed /\ Forall (fun x => x ∈ db_lost d) gone.
Proof.
  destruct (dashboard_settles deletion ["a"; "b"]) as [Hl [He|Hb]]; [repeat constructor|reflexivity|reflexivity| |].
  - contradiction He. reflexivity.
  - split; [reflexivity|]. split; [reflexivity|]. split; [exact Hl|exact Hb].
Defined.

(** A deletion takes effect and its answer is lost: the page reports a failure
    and keeps the blob on its list. *)
Example lost_deletion :
  let d := dash_run (times 5 (Handle 0 fine) ++ times 5 (Deliver 0) ++
                     [ClickDelete "b"; Handle 0 (says (Lost "timeout")); Deliver 0]) (dash_open ["a"; "b"]) in
  db_blobs d = ["a"] /\ dp_blobs (db_page d) = ["a"; "b"] /\ db_lost d = ["b"] /\ dp_toast (db_page d) = Some "timeout" /\
  dp_error (db_page d) = None.
Proof. vm_compute. auto 10. Qed.

(** The two requests of the first refresh are handled apart: its list is taken,
    a blob is deleted and the list asked for again, and then its other answer
    arrives, which brings the deleted blob back. Every answer arrives in the
    order in which it was given, and nothing is reported. *)
Example stale_refresh :
  let d := dash_run ([Handle 1 fine; Deliver 0; ClickDelete "b"; Handle 4 fine; Deliver 0; Handle 4 fine; Handle 4 fine;
                      Deliver 0; Deliver 0] ++ times 4 (Handle 0 fine) ++ times 4 (Deliver 0)) (dash_open ["a"; "b"]) in
  db_calls d = [] /\ db_answers d = [] /\ dp_error (db_page d) = None /\
  db_blobs d = ["a"] /\ dp_blobs (db_page d) = ["a"; "b"].
Proof. vm_compute. auto 10. Qed.

(** Once an account is there, a refresh that fails is not reported. *)
Example silent_failure :
  let d := dash_run (times 5 (Handle 0 fine) ++ times 5 (Deliver 0) ++
                     [ClickRefresh; Handle 0 (says (Refused "down")); Deliver 0]) (dash_open ["a"]) in
  dp_error (db_page d) = Some "down" /\ shown_error (db_page d) = None.
Proof. vm_compute. auto. Qed.

Example what_is_shown :
  usedPercent account = 67 /\ countdown 0 (da_planExpiresAt account) = TimeLeft 1 3 100000000 /\ banner account = None.
Proof. vm_compute. auto. Qed.
End DashRuns.
