(* ===== verification/World.v ===== *)
(** * The proxy's world

    The state a request of the proxy runs against: db-api's tables, the
    contents of the storage nodes, the proxy's own process state, and what the
    network will do to each of the coming remote calls. A handler is a [P]
    computation: it runs at one instant [w_now], keeps the state it reached
    when it throws, and consumes one [fault] per remote call. *)

From S2P Require Import Prelude Js Http Lifecycle Db.

(** What happens to one remote call. *)
Inductive fault :=
| Fine          (** delivered and answered *)
| Unsent        (** it never reached the other side *)
| Lost          (** it was served, but the answer was lost or came too late *)
| Unauthorized  (** refused by the NIP-98 check of the gate *)
| Forbidden     (** refused for want of an enabled service account *).

Record bucket := { bk_count : Z; bk_resetAt : Z }.

Record World := {
  w_now : Z;
  w_db : Db;
  (** contents of each storage node: the hashes it holds, by the node's URL *)
  w_nodes : gmap string (gset string);
  (** [ServerRegistry.byId], in insertion order *)
  w_registry : list (string * string);
  (** the access cache: the cached row and when it was read *)
  w_access : gmap string (option UserJson * Z);
  w_admins : gmap string (bool * Z);
  w_replay : gmap string Z;
  w_uploadLimiter : gmap string bucket;
  w_accountLimiter : gmap string bucket;
  w_adminLimiter : gmap string bucket;
  w_inflight : Z;
  w_faults : list fault
}.

Definition set_db (d : Db) (w : World) : World :=
  {| w_now := w_now w; w_db := d; w_nodes := w_nodes w; w_registry := w_registry w;
     w_access := w_access w; w_admins := w_admins w; w_replay := w_replay w;
     w_uploadLimiter := w_uploadLimiter w; w_accountLimiter := w_accountLimiter w;
     w_adminLimiter := w_adminLimiter w; w_inflight := w_inflight w; w_faults := w_faults w |}.
Definition set_nodes (n : gmap string (gset string)) (w : World) : World :=
  {| w_now := w_now w; w_db := w_db w; w_nodes := n; w_registry := w_registry w;
     w_access := w_access w; w_admins := w_admins w; w_replay := w_replay w;
     w_uploadLimiter := w_uploadLimiter w; w_accountLimiter := w_accountLimiter w;
     w_adminLimiter := w_adminLimiter w; w_inflight := w_inflight w; w_faults := w_faults w |}.
Definition set_registry (r : list (string * string)) (w : World) : World :=
  {| w_now := w_now w; w_db := w_db w; w_nodes := w_nodes w; w_registry := r;
     w_access := w_access w; w_admins := w_admins w; w_replay := w_replay w;
     w_uploadLimiter := w_uploadLimiter w; w_accountLimiter := w_accountLimiter w;
     w_adminLimiter := w_adminLimiter w; w_inflight := w_inflight w; w_faults := w_faults w |}.
Definition set_access (a : gmap string (option UserJson * Z)) (w : World) : World :=
  {| w_now := w_now w; w_db := w_db w; w_nodes := w_nodes w; w_registry := w_registry w;
     w_access := a; w_admins := w_admins w; w_replay := w_replay w;
     w_uploadLimiter := w_uploadLimiter w; w_accountLimiter := w_accountLimiter w;
     w_adminLimiter := w_adminLimiter w; w_inflight := w_inflight w; w_faults := w_faults w |}.
Definition set_admins (a : gmap string (bool * Z)) (w : World) : World :=
  {| w_now := w_now w; w_db := w_db w; w_nodes := w_nodes w; w_registry := w_registry w;
     w_access := w_access w; w_admins := a; w_replay := w_replay w;
     w_uploadLimiter := w_uploadLimiter w; w_accountLimiter := w_accountLimiter w;
     w_adminLimiter := w_adminLimiter w; w_inflight := w_inflight w; w_faults := w_faults w |}.
Definition set_replay (r : gmap string Z) (w : World) : World :=
  {| w_now := w_now w; w_db := w_db w; w_nodes := w_nodes w; w_registry := w_registry w;
     w_access := w_access w; w_admins := w_admins w; w_replay := r;
     w_uploadLimiter := w_uploadLimiter w; w_accountLimiter := w_accountLimiter w;
     w_adminLimiter := w_adminLimiter w; w_inflight := w_inflight w; w_faults := w_faults w |}.
Definition set_uploadLimiter (l : gmap string bucket) (w : World) : World :=
  {| w_now := w_now w; w_db := w_db w; w_nodes := w_nodes w; w_registry := w_registry w;
     w_access := w_access w; w_admins := w_admins w; w_replay := w_replay w;
     w_uploadLimiter := l; w_accountLimiter := w_accountLimiter w;
     w_adminLimiter := w_adminLimiter w; w_inflight := w_inflight w; w_faults := w_faults w |}.
Definition set_accountLimiter (l : gmap string bucket) (w : World) : World :=
  {| w_now := w_now w; w_db := w_db w; w_nodes := w_nodes w; w_registry := w_registry w;
     w_access := w_access w; w_admins := w_admins w; w_replay := w_replay w;
     w_uploadLimiter := w_uploadLimiter w; w_accountLimiter := l;
     w_adminLimiter := w_adminLimiter w; w_inflight := w_inflight w; w_faults := w_faults w |}.
Definition set_adminLimiter (l : gmap string bucket) (w : World) : World :=
  {| w_now := w_now w; w_db := w_db w; w_nodes := w_nodes w; w_registry := w_registry w;
     w_access := w_access w; w_admins := w_admins w; w_replay := w_replay w;
     w_uploadLimiter := w_uploadLimiter w; w_accountLimiter := w_accountLimiter w;
     w_adminLimiter := l; w_inflight := w_inflight w; w_faults := w_faults w |}.
Definition set_inflight (i : Z) (w : World) : World :=
  {| w_now := w_now w; w_db := w_db w; w_nodes := w_nodes w; w_registry := w_registry w;
     w_access := w_access w; w_admins := w_admins w; w_replay := w_replay w;
     w_uploadLimiter := w_uploadLimiter w; w_accountLimiter := w_accountLimiter w;
     w_adminLimiter := w_adminLimiter w; w_inflight := i; w_faults := w_faults w |}.
Definition set_faults (f : list fault) (w : World) : World :=
  {| w_now := w_now w; w_db := w_db w; w_nodes := w_nodes w; w_registry := w_registry w;
     w_access := w_access w; w_admins := w_admins w; w_replay := w_replay w;
     w_uploadLimiter := w_uploadLimiter w; w_accountLimiter := w_accountLimiter w;
     w_adminLimiter := w_adminLimiter w; w_inflight := w_inflight w; w_faults := f |}.

(** ** Computations *)

(** What a handler's body can throw: an [AuthError] or [Nip98Error] with its
    message and status, a [DbApiError] with the reply's status and [error]
    field, or any other error. *)
Inductive perr :=
| EAuth (message : string) (st : Z)
| EDbApi (st : Z) (error : string)
| EOther (message : string).

Definition P (A : Type) : Type := World -> exc perr A * World.

Definition ret {A} (a : A) : P A := fun w => (Ok a, w).
Definition throw {A} (e : perr) : P A := fun w => (Throw e, w).
Definition bind {A B} (m : P A) (k : A -> P B) : P B :=
  fun w => let (r, w') := m w in match r with Ok a => k a w' | Throw e => (Throw e, w') end.
(** [try { m } catch (e) { h }] *)
Definition catch {A} (m : P A) (h : perr -> P A) : P A :=
  fun w => let (r, w') := m w in match r with Ok a => (Ok a, w') | Throw e => h e w' end.
Definition gets {A} (f : World -> A) : P A := fun w => (Ok (f w), w).
Definition modify (f : World -> World) : P unit := fun w => (Ok tt, f w).

Declare Scope proxy_scope.
Delimit Scope proxy_scope with P.
Notation "'do*' x := m 'in' k" := (bind m (fun x => k))
  (at level 10, x pattern, m at level 100, k at level 200) : proxy_scope.

Definition next_fault : P fault := fun w =>
  match w_faults w with
  | [] => (Ok Fine, w)
  | f :: fs => (Ok f, set_faults fs w)
  end.

(** ** DbClient (packages/db-client/src/client.ts) *)

Definition serve_db {A} (f : Db -> reply A * Db) : P (reply A) := fun w =>
  let (r, db') := f (w_db w) in (Ok r, set_db db' w).

(** One request to db-api: [Ok] is the reply that arrived, a throw is [fetch]
    failing. *)
Definition fetch_db {A} (f : Db -> reply A * Db) : P (reply A) := (
  do* flt := next_fault in
  match flt with
  | Fine => serve_db f
  | Unsent => throw (EOther "fetch failed")
  | Lost => do* _ := serve_db f in throw (EOther "fetch failed")
  | Unauthorized => ret (Err 401 "unauthorized")
  | Forbidden => ret (Err 403 "forbidden_service_account")
  end)%P.

Definition is_ok_status (st : Z) : bool := (200 <=? st) && (st <=? 299).

Definition read_only {A} (f : Db -> reply A) (db : Db) : reply A * Db := (f db, db).

(** [get]: 404 is null, any other failure a [DbApiError]. *)
Definition client_get {A} (f : Db -> reply A) : P (option A) := (
  do* r := fetch_db (read_only f) in
  match r with
  | Res st a => if is_ok_status st then ret (Some a) else throw (EDbApi st "")
  | Err st e => if st =? 404 then ret None else throw (EDbApi st e)
  end)%P.

(** [getOk] and [mutate]: every non-2xx is a [DbApiError]. *)
Definition client_ok {A} (f : Db -> reply A * Db) : P A := (
  do* r := fetch_db f in
  match r with
  | Res st a => if is_ok_status st then ret a else throw (EDbApi st "")
  | Err st e => throw (EDbApi st e)
  end)%P.

(** ** Storage nodes *)

Definition node_hashes (url : string) (w : World) : gset string := default ∅ (w_nodes w !! url).
Definition node_holds (url hash : string) (w : World) : Prop := hash ∈ node_hashes url w.

Definition node_add (url hash : string) (w : World) : World :=
  set_nodes (<[url := {[hash]} ∪ node_hashes url w]> (w_nodes w)) w.
Definition node_remove (url hash : string) (w : World) : World :=
  set_nodes (<[url := node_hashes url w ∖ {[hash]}]> (w_nodes w)) w.

(** A request to a node that, when it is served, changes its contents by [f]. *)
Definition node_call (f : World -> World) : P unit := (
  do* flt := next_fault in
  match flt with
  | Fine => modify f
  | Lost => do* _ := modify f in throw (EOther "timeout")
  | _ => throw (EOther "request failed")
  end)%P.

(** ** Lemmas *)

Lemma bind_Ok {A B} (m : P A) (k : A -> P B) w b w' :
  bind m k w = (Ok b, w') -> exists a w1, m w = (Ok a, w1) /\ k a w1 = (Ok b, w').
Proof. unfold bind. destruct (m w) as [[a|e] w1]; naive_solver. Qed.

Lemma bind_eq {A B} (m : P A) (k : A -> P B) w a w1 : m w = (Ok a, w1) -> bind m k w = k a w1.
Proof. unfold bind. by intros ->. Qed.

Lemma bind_throw {A B} (m : P A) (k : A -> P B) w e w1 : m w = (Throw e, w1) -> bind m k w = (Throw e, w1).
Proof. unfold bind. by intros ->. Qed.

(** The world after one remote call used up its fault. *)
Definition pop (w : World) : World := set_faults (tail (w_faults w)) w.

Lemma next_fault_eq w : next_fault w = (Ok (default Fine (head (w_faults w))), pop w).
Proof. unfold next_fault, pop. destruct w as [? ? ? ? ? ? ? ? ? ? ? [|f fs]]; done. Qed.

(** *** Invariants of computations *)

(** [m] keeps the predicate [I], whatever it returns. *)
Definition keeps {A} (I : World -> Prop) (m : P A) : Prop := forall w, I w -> I (m w).2.

Lemma keeps_ret {A} I (a : A) : keeps I (ret a).
Proof. by intros w. Qed.
Lemma keeps_throw {A} I e : keeps I (@throw A e).
Proof. by intros w. Qed.
Lemma keeps_gets {A} I (f : World -> A) : keeps I (gets f).
Proof. by intros w. Qed.
Lemma keeps_bind {A B} I (m : P A) (k : A -> P B) :
  keeps I m -> (forall a, keeps I (k a)) -> keeps I (bind m k).
Proof.
  intros Hm Hk w Hw. unfold bind. specialize (Hm w Hw).
  destruct (m w) as [[a|e] w1]; [by apply Hk | done].
Qed.
Lemma keeps_catch {A} I (m : P A) h :
  keeps I m -> (forall e, keeps I (h e)) -> keeps I (catch m h).
Proof.
  intros Hm Hk w Hw. unfold catch. specialize (Hm w Hw).
  destruct (m w) as [[a|e] w1]; [done | by apply Hk].
Qed.
Lemma keeps_modify I f : (forall w, I w -> I (f w)) -> keeps I (modify f).
Proof. intros Hf w Hw. by apply Hf. Qed.
Lemma keeps_next_fault I : (forall w, I w -> I (pop w)) -> keeps I next_fault.
Proof. intros Hf w Hw. rewrite next_fault_eq. simpl. auto. Qed.

#[export] Hint Resolve keeps_ret keeps_throw keeps_gets keeps_bind keeps_catch keeps_modify
  keeps_next_fault : orch.

Lemma keeps_serve_db {A} I (f : Db -> reply A * Db) :
  (forall w, I w -> I (set_db (f (w_db w)).2 w)) -> keeps I (serve_db f).
Proof. intros Hf w Hw. unfold serve_db. specialize (Hf w Hw). by destruct (f (w_db w)). Qed.

Lemma keeps_fetch_db {A} I (f : Db -> reply A * Db) :
  (forall w, I w -> I (pop w)) -> (forall w, I w -> I (set_db (f (w_db w)).2 w)) ->
  keeps I (fetch_db f).
Proof.
  intros Hs Hf. pose proof (keeps_serve_db I f Hf). unfold fetch_db.
  apply keeps_bind; [by apply keeps_next_fault|]. intros []; auto with orch.
Qed.

Lemma set_db_id w : set_db (w_db w) w = w.
Proof. by destruct w. Qed.

Lemma keeps_client_get {A} I (f : Db -> reply A) :
  (forall w, I w -> I (pop w)) -> keeps I (client_get f).
Proof.
  intros Hs. apply keeps_bind.
  - apply keeps_fetch_db; [done|]. intros w Hw. simpl. by rewrite set_db_id.
  - intros []; case_match; auto with orch.
Qed.

Lemma keeps_client_ok {A} I (f : Db -> reply A * Db) :
  (forall w, I w -> I (pop w)) -> (forall w, I w -> I (set_db (f (w_db w)).2 w)) ->
  keeps I (client_ok f).
Proof.
  intros Hs Hf. apply keeps_bind; [by apply keeps_fetch_db|]. intros []; [case_match|]; auto with orch.
Qed.

Lemma keeps_node_call I f :
  (forall w, I w -> I (pop w)) -> (forall w, I w -> I (f w)) -> keeps I (node_call f).
Proof.
  intros Hs Hf. apply keeps_bind; [by apply keeps_next_fault|]. intros []; auto with orch.
Qed.

(** *** What an answered call did *)

Lemma client_get_inv {A} (f : Db -> reply A) w o w' :
  client_get f w = (o, w') ->
  w' = pop w /\
  match o with
  | Ok (Some a) => exists st, f (w_db w) = Res st a
  | Ok None => exists e, f (w_db w) = Err 404 e
  | Throw _ => True
  end.
Proof.
  unfold client_get, fetch_db, bind. rewrite next_fault_eq.
  destruct (default Fine _); simpl; unfold serve_db, read_only, throw, ret; simpl; rewrite ?set_db_id.
  - destruct (f (w_db w)) as [st a|st e]; simpl; case_match eqn:Es; intros; simplify_eq; eauto.
    zbool. subst. eauto.
  - intros; by simplify_eq.
  - intros; by simplify_eq.
  - intros; by simplify_eq.
  - intros; by simplify_eq.
Qed.

Lemma client_ok_inv {A} (f : Db -> reply A * Db) w a w' :
  client_ok f w = (Ok a, w') ->
  exists st db', f (w_db w) = (Res st a, db') /\ w' = set_db db' (pop w).
Proof.
  unfold client_ok, fetch_db, bind. rewrite next_fault_eq.
  destruct (default Fine _); simpl; unfold serve_db, throw, ret; simpl; try done.
  - destruct (f (w_db w)) as [[st b|st e] db'] eqn:E; simpl; [|done].
    case_match; intros; simplify_eq. eauto.
  - destruct (f (w_db w)). done.
Qed.

(** A call that failed without its answer being lost changed nothing, or db-api
    answered with an error. *)
Lemma client_ok_throw {A} (f : Db -> reply A * Db) w e w' :
  client_ok f w = (Throw e, w') -> head (w_faults w) <> Some Lost ->
  w' = pop w \/
  exists r db', f (w_db w) = (r, db') /\ w' = set_db db' (pop w) /\
    match r with Res st _ => is_ok_status st = false /\ e = EDbApi st "" | Err st err => e = EDbApi st err end.
Proof.
  unfold client_ok, fetch_db, bind. rewrite next_fault_eq. intros Hc Hl.
  destruct (default Fine _) eqn:Ef; simpl in Hc; unfold serve_db, throw, ret in Hc; simpl in Hc.
  - destruct (f (w_db w)) as [[st b|st err] db'] eqn:E; simpl in Hc; right.
    + destruct (is_ok_status st) eqn:Es; simplify_eq. eexists _, _. done.
    + simplify_eq. eexists _, _. done.
  - left. by simplify_eq.
  - destruct (head (w_faults w)); simpl in Ef; congruence.
  - left. by simplify_eq.
  - left. by simplify_eq.
Qed.
