(* ===== verification/RateLimit.v ===== *)
(** * Rate limiting (proxy/blossom/src/rate-limit.ts) *)

From S2P Require Import Prelude World.

Record LimiterOptions := { windowMs : Z; max_hits : Z }.

Definition sweep (now : Z) (buckets : gmap string bucket) : gmap string bucket :=
  filter (fun p : string * bucket => (bk_resetAt p.2 <=? now) = false) buckets.

(** [hit(key)] at time [now]. *)
Definition hit (o : LimiterOptions) (now : Z) (key : string) (buckets : gmap string bucket)
  : bool * gmap string bucket :=
  let fresh :=
    let buckets' := <[key := {| bk_count := 1; bk_resetAt := now + windowMs o |}]> buckets in
    (true, if (10000 <? Z.of_nat (size buckets')) then sweep now buckets' else buckets') in
  match buckets !! key with
  | None => fresh
  | Some b =>
      if bk_resetAt b <=? now then fresh
      else
        let count := bk_count b + 1 in
        (count <=? max_hits o, <[key := {| bk_count := count; bk_resetAt := bk_resetAt b |}]> buckets)
  end.

(** [req.ip ?? req.socket.remoteAddress ?? "unknown"] *)
Definition clientIp (ip remoteAddress : option string) : string :=
  match ip with
  | Some a => a
  | None => match remoteAddress with Some a => a | None => "unknown" end
  end.

Definition RATE_WINDOW_MS : Z := 60000.
Definition upload_limits : LimiterOptions := {| windowMs := RATE_WINDOW_MS; max_hits := 30 |}.
Definition account_limits : LimiterOptions := {| windowMs := RATE_WINDOW_MS; max_hits := 120 |}.
Definition admin_limits : LimiterOptions := {| windowMs := RATE_WINDOW_MS; max_hits := 60 |}.

(** ** How many hits of a key are let through *)

Fixpoint allowed (o : LimiterOptions) (key : string) (hs : list (Z * string)) (buckets : gmap string bucket) : Z :=
  match hs with
  | [] => 0
  | (t, k) :: hs =>
      let (ok, buckets') := hit o t k buckets in
      (if bool_decide (k = key) && ok then 1 else 0) + allowed o key hs buckets'
  end.

Definition hits_of (key : string) (hs : list (Z * string)) : Z :=
  Z.of_nat (length (filter (fun h => h.2 = key) hs)).

Lemma sweep_keeps now key b buckets :
  buckets !! key = Some b -> now < bk_resetAt b -> sweep now buckets !! key = Some b.
Proof.
  intros Hb Ht. unfold sweep. apply map_lookup_filter_Some. split; [done|]. simpl. lia.
Qed.

Lemma hit_other o now k key buckets b :
  k <> key -> buckets !! key = Some b -> now < bk_resetAt b -> (hit o now k buckets).2 !! key = Some b.
Proof.
  intros Hk Hb Ht. assert (forall v, <[k := v]> buckets !! key = Some b) as Hi.
  { intros v. by rewrite lookup_insert_ne. }
  unfold hit. repeat case_match; simpl; auto using sweep_keeps.
Qed.

Lemma allowed_in_window o key hs buckets b :
  buckets !! key = Some b -> Forall (fun h => h.1 < bk_resetAt b) hs ->
  allowed o key hs buckets = Z.max 0 (Z.min (max_hits o - bk_count b) (hits_of key hs)).
Proof.
  intros Hb Hhs. revert buckets b Hb Hhs. induction hs as [|[t k] hs IH]; intros buckets b Hb Hhs.
  - unfold hits_of. simpl. lia.
  - apply Forall_cons in Hhs as [Ht Hhs]. simpl in Ht. simpl. unfold hits_of. rewrite filter_cons. simpl.
    destruct (decide (k = key)) as [->|Hk].
    + unfold hit. rewrite Hb. replace (bk_resetAt b <=? t) with false by lia.
      rewrite bool_decide_eq_true_2 by done.
      erewrite IH; [|apply lookup_insert_eq|done]. simpl. unfold hits_of.
      destruct (bk_count b + 1 <=? max_hits o) eqn:E; simpl; lia.
    + destruct (hit o t k buckets) as [ok buckets'] eqn:Eh.
      rewrite bool_decide_eq_false_2 by done. simpl.
      assert (buckets' !! key = Some b) as Hb'.
      { replace buckets' with (hit o t k buckets).2 by by rewrite Eh. by apply hit_other. }
      rewrite (IH _ b) by done. unfold hits_of. lia.
Qed.

(** ** Properties *)

(** A fixed window lets through exactly its first [max] hits. When a hit
    opens a window for a key, then of all hits of this key in the window,
    however they are mixed with hits of other keys, exactly the first [max] are
    let through. *)
Theorem window_limit o t0 key hs buckets :
  1 <= max_hits o -> 0 < windowMs o ->
  match buckets !! key with None => True | Some b => bk_resetAt b <= t0 end ->
  Forall (fun h => t0 <= h.1 < t0 + windowMs o) hs ->
  allowed o key ((t0, key) :: hs) buckets = Z.min (max_hits o) (1 + hits_of key hs).
Proof.
  intros Hm Hw Hopen Hhs. simpl. rewrite bool_decide_eq_true_2 by done.
  set (b := {| bk_count := 1; bk_resetAt := t0 + windowMs o |}).
  assert (exists buckets', hit o t0 key buckets = (true, buckets') /\ buckets' !! key = Some b) as (bs & -> & Hb).
  { assert (<[key := b]> buckets !! key = Some b) as Hi by apply lookup_insert_eq.
    assert (sweep t0 (<[key := b]> buckets) !! key = Some b) by (apply sweep_keeps; [done|simpl; lia]).
    unfold hit. fold b. destruct (buckets !! key) as [b0|].
    - replace (bk_resetAt b0 <=? t0) with true by lia. eexists. split; [done|]. by case_match.
    - eexists. split; [done|]. by case_match. }
  simpl. rewrite (allowed_in_window o key hs bs b Hb).
  - unfold hits_of. simpl. lia.
  - eapply Forall_impl; [exact Hhs|]. simpl. lia.
Qed.

Module RateLimitExamples.
Lemma window_limit_witness :
  allowed {| windowMs := 60000; max_hits := 2 |} "a"
    [(0, "a"); (10, "b"); (20, "a"); (30, "a"); (40, "a")] ∅ = 2.
Proof.
  rewrite (window_limit {| windowMs := 60000; max_hits := 2 |} 0 "a"
    [(10, "b"); (20, "a"); (30, "a"); (40, "a")] ∅).
  - reflexivity.
  - simpl. lia.
  - simpl. lia.
  - exact I.
  - repeat constructor; simpl; lia.
Defined.
End RateLimitExamples.
