(* ===== verification/Servers.v ===== *)
(** * Storage nodes as the proxy uses them (proxy/blossom/src/servers.ts)

    The registry of active providers, placement, upload to several replicas,
    reading and deleting. *)

From Stdlib Require Import Ascii.
From S2P Require Import Prelude Js Dates Http Lifecycle Db DbApi MeshApi World.

Record ServerCandidate := { sc_id : string; sc_url : string }.

#[export] Instance ServerCandidate_eq_dec : EqDecision ServerCandidate.
Proof. solve_decision. Defined.

Definition TIME_SLOT_MS : Z := 3600000.

(** [RAW_URL] *)
Definition is_raw_url (s : string) : bool := is_url s.

Definition hostForUrl (host : string) : string :=
  if contains ":" host && negb (starts_with "[" host) then "[" +:+ host +:+ "]" else host.

(** ** The registry *)

Definition storage_url (s : StorageProviderJson) : string :=
  "http://" +:+ hostForUrl (default "null" (sj_tunnelIp s)) +:+ ":" +:+
  match sj_blossomPort s with Some p => Z_to_string p | None => "null" end.

(** [refresh()]: a failed read keeps the last good state. *)
Definition refresh (env : StorageEnv) : P unit :=
  catch (do* rows := fun w => client_ok (read_only (getActive env (w_now w))) w in
         modify (set_registry ((fun s => (sj_npub s, storage_url s)) <$> rows)))%P
        (fun _ => ret tt).

Definition candidates (w : World) : list ServerCandidate :=
  (fun p => {| sc_id := p.1; sc_url := p.2 |}) <$> w_registry w.

Definition freshCandidates (env : StorageEnv) : P (list ServerCandidate) := (
  do* empty := gets (fun w => match w_registry w with [] => true | _ => false end) in
  do* _ := if empty : bool then refresh env else ret tt in
  gets candidates)%P.

Definition resolve (id : string) (w : World) : option string :=
  if is_raw_url id then Some id else assoc_str id (w_registry w).

(** ** Placement *)

Definition FNV_OFFSET : Z := 0xcbf29ce484222325.
Definition FNV_PRIME : Z := 0x100000001b3.
Definition MASK64 : Z := 0xffffffffffffffff.

Fixpoint fnv_loop (s : string) (hash : Z) : Z :=
  match s with
  | "" => hash
  | String c s => fnv_loop s (Z.land (Z.lxor hash (code c) * FNV_PRIME) MASK64)
  end.
Definition fnv1a (input : string) : Z := fnv_loop input FNV_OFFSET.

(** The comparison [byId] sorts with. *)
Definition id_le (a b : ServerCandidate) : Prop := String.leb (sc_id a) (sc_id b) = true.
#[export] Instance id_le_dec : RelDecision id_le.
Proof. intros a b. unfold id_le. apply _. Defined.

Definition selectOwner (npub : string) (cands : list ServerCandidate) (now : Z) : option ServerCandidate :=
  match cands with
  | [] => None
  | _ =>
      let sorted := merge_sort id_le cands in
      let timeSlot := now / TIME_SLOT_MS in
      sorted !! Z.to_nat (fnv1a (npub +:+ ":" +:+ Z_to_string timeSlot) mod Z.of_nat (length sorted))
  end.

(** [replicaTarget()] *)
Definition replicaTarget (env : option string) : Z :=
  match num_floor (Number_opt env) with
  | Fin q => match num_int (Fin q) with
             | Some z => if 1 <=? z then z else 2
             | None => 2
             end
  | _ => 2
  end.

(** ** Upload *)

(** [remaining.splice(remaining.indexOf(server), 1)] *)
Fixpoint splice (s : ServerCandidate) (l : list ServerCandidate) : list ServerCandidate :=
  match l with
  | [] => []
  | c :: l => if decide (c = s) then l else c :: splice s l
  end.

Definition put_upload (url hash : string) : P unit := node_call (node_add url hash).

(** The loop; [fuel] is the number of remaining candidates, which every round
    lowers by one. *)
Fixpoint upload_loop (fuel : nat) (npub hash : string) (now replicaCount : Z)
    (remaining : list ServerCandidate) (stored : list string) : P (list string) :=
  match fuel with
  | O => ret stored
  | S fuel =>
      if Z.of_nat (length stored) <? replicaCount then
        match selectOwner npub remaining now with
        | None => ret stored
        | Some server => (
            let remaining := splice server remaining in
            do* ok := catch (do* _ := put_upload (sc_url server) hash in ret true) (fun _ => ret false) in
            upload_loop fuel npub hash now replicaCount remaining
              (if ok : bool then stored ++ [sc_id server] else stored))%P
        end
      else ret stored
  end.

(** [uploadBlob]; the result is the ids of the providers that stored the blob. *)
Definition uploadBlob (env : StorageEnv) (npub hash : string) (replicaCount : Z) : P (list string) := (
  do* remaining := freshCandidates env in
  match remaining with
  | [] => throw (EOther "No storage providers available")
  | _ =>
      do* now := gets w_now in
      do* stored := upload_loop (length remaining) npub hash now replicaCount remaining [] in
      match stored with
      | [] => throw (EOther "Failed to upload blob to any storage provider")
      | _ => ret stored
      end
  end)%P.

(** ** Download and delete *)

(** [GET <server>/<hash>]: succeeds when the node holds the blob. *)
Definition get_from (url hash : string) : P unit := (
  do* flt := next_fault in
  match flt with
  | Fine => do* has := gets (fun w => bool_decide (hash ∈ node_hashes url w)) in
            if has : bool then ret tt else throw (EOther "status code 404")
  | _ => throw (EOther "request failed")
  end)%P.

(** [openBlobStream] (and [downloadBlob]); the result is the server read from. *)
Fixpoint openBlobStream (hash : string) (replicas : list string) : P string :=
  match replicas with
  | [] => throw (EOther "Failed to download blob from all replicas")
  | replica :: replicas => (
      do* server := gets (resolve replica) in
      match truthy server with
      | None => openBlobStream hash replicas
      | Some url => catch (do* _ := get_from url hash in ret url) (fun _ => openBlobStream hash replicas)
      end)%P
  end.

(** [deleteBlob]: a replica that cannot be resolved or reached is skipped. *)
Fixpoint deleteBlob_nodes (hash : string) (replicas : list string) : P unit :=
  match replicas with
  | [] => ret tt
  | replica :: replicas => (
      do* server := gets (resolve replica) in
      do* _ := match truthy server with
               | None => ret tt
               | Some url => catch (node_call (node_remove url hash)) (fun _ => ret tt)
               end in
      deleteBlob_nodes hash replicas)%P
  end.

(** ** Lemmas: the order of ids *)

#[export] Instance id_le_trans : Transitive id_le.
Proof. intros a b c. unfold id_le. apply leb_trans. Qed.
#[export] Instance id_le_total : Total id_le.
Proof. intros a b. unfold id_le. apply String.leb_total. Qed.

(** Sorting by id forgets the order of the roster. *)
Lemma sort_ids_perm l1 l2 :
  NoDup (sc_id <$> l1) -> l1 ≡ₚ l2 -> merge_sort id_le l1 = merge_sort id_le l2.
Proof.
  intros Hnd Hp. apply (StronglySorted_unique_strong id_le).
  - intros x y. rewrite !merge_sort_Permutation, <- Hp. intros Hx Hy H1 H2.
    assert (sc_id x = sc_id y) as He by by apply String.leb_antisym.
    apply list_elem_of_lookup_1 in Hx as [i Hi], Hy as [j Hj].
    assert (i = j) as ->; [|congruence]. eapply (NoDup_lookup _ _ _ _ Hnd); rewrite list_lookup_fmap.
    + by rewrite Hi.
    + rewrite Hj. simpl. by rewrite He.
  - apply (StronglySorted_merge_sort _).
  - apply (StronglySorted_merge_sort _).
  - by rewrite !merge_sort_Permutation.
Qed.

Lemma fnv1a_range s : 0 <= fnv1a s.
Proof.
  unfold fnv1a. assert (forall h, 0 <= h -> 0 <= fnv_loop s h) as Hl; [|by apply Hl].
  induction s as [|c s IH]; intros h Hh; simpl; [done|]. apply IH, Z.land_nonneg. by right.
Qed.

Lemma selectOwner_elem npub cands now :
  cands <> [] -> exists s, selectOwner npub cands now = Some s /\ s ∈ cands.
Proof.
  intros Hne. unfold selectOwner. destruct cands as [|c0 cs]; [done|]. clear Hne.
  set (l := c0 :: cs). 
  assert (length (merge_sort id_le l) = length l) as Hlen.
  { apply Permutation_length, merge_sort_Permutation. }
  destruct (lookup_lt_is_Some_2 (merge_sort id_le l)
    (Z.to_nat (fnv1a (npub +:+ ":" +:+ Z_to_string (now / TIME_SLOT_MS)) mod
      Z.of_nat (length (merge_sort id_le l))))) as [s Hs].
  { rewrite Hlen. pose proof (Z.mod_pos_bound (fnv1a (npub +:+ ":" +:+ Z_to_string (now / TIME_SLOT_MS)))
      (Z.of_nat (length l))) as Hb. specialize (Hb ltac:(simpl; lia)). lia. }
  exists s. split; [done|]. rewrite <- (merge_sort_Permutation id_le l). by eapply list_elem_of_lookup_2.
Qed.

Lemma splice_perm s l : s ∈ l -> l ≡ₚ s :: splice s l.
Proof.
  induction l as [|c l IH]; intros Hs; [by apply elem_of_nil in Hs|]. simpl. case_decide as Hc; [by subst|].
  apply elem_of_cons in Hs as [->|Hs]; [done|]. rewrite (IH Hs) at 1. apply Permutation_swap.
Qed.

(** ** Lemmas: the upload loop *)

Lemma put_upload_Ok url hash w w' :
  put_upload url hash w = (Ok tt, w') -> node_holds url hash w' /\ w_registry w' = w_registry w /\
  (forall u h, node_holds u h w -> node_holds u h w').
Proof.
  unfold put_upload, node_call, bind, next_fault. destruct (w_faults w) as [|[] fs]; try done;
    intros [= <-]; unfold node_holds, node_hashes, node_add; simpl;
    (split; [rewrite lookup_insert_eq; simpl; set_solver|]); (split; [done|]);
    intros u h; rewrite lookup_insert; case_decide as Hu; [subst u| |subst u|]; simpl; set_solver.
Qed.

Lemma put_upload_mono url hash w u h :
  node_holds u h w -> node_holds u h (put_upload url hash w).2.
Proof.
  intros Hu. unfold put_upload, node_call, bind, next_fault.
  assert (forall w, node_holds u h w -> node_holds u h (node_add url hash w)) as Ha.
  { intros w0. unfold node_holds, node_hashes, node_add. simpl. rewrite lookup_insert.
    case_decide; [subst; simpl; set_solver | done]. }
  destruct (w_faults w) as [|[] fs]; simpl; auto; by apply (Ha (set_faults _ w)).
Qed.

Lemma put_upload_registry url hash w : w_registry (put_upload url hash w).2 = w_registry w.
Proof. unfold put_upload, node_call, bind, next_fault. by destruct (w_faults w) as [|[] fs]. Qed.

(** What the loop has achieved: [stored] are distinct providers of the roster,
    not among the remaining ones, and each holds the blob. *)
Record loop_ok (all remaining : list ServerCandidate) (hash : string) (stored : list string) (w : World) : Prop := {
  lo_nodup : NoDup (stored ++ (sc_id <$> remaining));
  lo_sub : forall c, c ∈ remaining -> c ∈ all;
  lo_held : forall id, id ∈ stored -> exists c, c ∈ all /\ sc_id c = id /\ node_holds (sc_url c) hash w
}.

Lemma upload_loop_ok fuel npub hash now count all remaining stored w :
  (length remaining <= fuel)%nat -> loop_ok all remaining hash stored w ->
  exists res w', upload_loop fuel npub hash now count remaining stored w = (Ok res, w') /\
    loop_ok all [] hash res w' /\ Z.of_nat (length res) <= Z.max count (Z.of_nat (length stored)).
Proof.
  revert remaining stored w. induction fuel as [|fuel IH]; intros remaining stored w Hf Hok.
  - destruct remaining; [|simpl in Hf; lia]. simpl. eexists _, _. split; [done|]. split; [done|lia].
  - simpl. destruct (Z.of_nat (length stored) <? count) eqn:Ec.
    2:{ eexists _, _. split; [done|]. split; [|lia]. destruct Hok as [Hn _ Hh].
        constructor; [|set_solver|done]. rewrite app_nil_r. by apply NoDup_app in Hn as [? _]. }
    zbool. destruct remaining as [|c0 cs]; [simpl; eexists _, _; split; [done|]; split; [done|lia]|].
    destruct (selectOwner_elem npub (c0 :: cs) now) as (s & Hs & Hin); [done|]. rewrite Hs.
    pose proof (splice_perm s (c0 :: cs) Hin) as Hp.
    destruct Hok as [Hn Hsub Hh].
    assert (NoDup ((stored ++ [sc_id s]) ++ (sc_id <$> splice s (c0 :: cs)))) as Hn'.
    { rewrite <- app_assoc. simpl. change (sc_id s :: _) with (sc_id <$> (s :: splice s (c0 :: cs))).
      by rewrite <- Hp. }
    assert (length (splice s (c0 :: cs)) <= fuel)%nat as Hf'.
    { apply Permutation_length in Hp. simpl in Hp, Hf |- *. lia. }
    assert (forall c, c ∈ splice s (c0 :: cs) -> c ∈ all) as Hsub'.
    { intros c Hc. apply Hsub. rewrite Hp. set_solver. }
    cbv zeta. unfold bind at 1, catch, bind at 1.
    destruct (put_upload (sc_url s) hash w) as [[[]|e] w1] eqn:Eput; simpl.
    + apply put_upload_Ok in Eput as (Hold & _ & Hmono).
      destruct (IH (splice s (c0 :: cs)) (stored ++ [sc_id s]) w1) as (res & w' & Hr & Hl & Hlen); [done| |].
      { constructor; [done..|]. intros id [Hid| ->%list_elem_of_singleton]%elem_of_app.
        - destruct (Hh id Hid) as (c & ? & ? & ?). exists c. auto.
        - exists s. auto. }
      exists res, w'. split; [done|]. split; [done|]. rewrite length_app in Hlen. simpl in Hlen. lia.
    + assert (forall u h, node_holds u h w -> node_holds u h w1) as Hmono.
      { intros u h Hu. replace w1 with (put_upload (sc_url s) hash w).2 by by rewrite Eput.
        by apply put_upload_mono. }
      destruct (IH (splice s (c0 :: cs)) stored w1) as (res & w' & Hr & Hl & Hlen); [done| |eauto].
      constructor; [|done|].
      * rewrite <- app_assoc in Hn'. simpl in Hn'. apply NoDup_app in Hn' as (? & Hd & Hc).
        apply NoDup_cons in Hc as [_ Hc]. apply NoDup_app. split_and!; [done| |done]. set_solver.
      * intros id Hid. destruct (Hh id Hid) as (c & ? & ? & ?). exists c. auto.
Qed.

Lemma upload_loop_extends fuel npub hash now count remaining stored w res w' :
  upload_loop fuel npub hash now count remaining stored w = (Ok res, w') -> exists tl, res = stored ++ tl.
Proof.
  revert remaining stored w. induction fuel as [|fuel IH]; intros remaining stored w Hl; simpl in Hl.
  - unfold ret in Hl. simplify_eq. exists []. by rewrite app_nil_r.
  - case_match; [|unfold ret in Hl; simplify_eq; exists []; by rewrite app_nil_r].
    destruct (selectOwner npub remaining now) as [s|];
      [|unfold ret in Hl; simplify_eq; exists []; by rewrite app_nil_r].
    apply bind_Ok in Hl as (ok & w1 & _ & Hl). apply IH in Hl as [tl ->].
    destruct ok; [|by exists tl]. exists (sc_id s :: tl). by rewrite <- app_assoc.
Qed.

(** Some of the next [n] remote calls is delivered and answered. *)
Fixpoint some_fine (n : nat) (fs : list fault) : bool :=
  match n, fs with
  | O, _ => false
  | S _, [] => true
  | S n, f :: fs => match f with Fine => true | _ => some_fine n fs end
  end.

Lemma upload_loop_progress fuel npub hash now count remaining w res w' :
  fuel = length remaining -> 1 <= count -> some_fine fuel (w_faults w) = true ->
  upload_loop fuel npub hash now count remaining [] w = (Ok res, w') -> res <> [].
Proof.
  revert remaining w. induction fuel as [|fuel IH]; intros remaining w Hf Hc Hs Hl; [done|].
  simpl in Hl. rewrite (proj2 (Z.ltb_lt (Z.of_nat 0) count)) in Hl by (simpl; lia).
  destruct remaining as [|c0 cs]; [done|].
  destruct (selectOwner_elem npub (c0 :: cs) now) as (s & Hsel & Hin); [done|]. rewrite Hsel in Hl.
  pose proof (Permutation_length (splice_perm s (c0 :: cs) Hin)) as Hlen. simpl in Hlen, Hf.
  unfold bind at 1, catch, put_upload, node_call, bind, next_fault in Hl.
  destruct (w_faults w) as [|f fs] eqn:Ef; simpl in Hl.
  - apply upload_loop_extends in Hl as [tl ->]. done.
  - destruct f; simpl in Hs, Hl.
    + apply upload_loop_extends in Hl as [tl ->]. done.
    + eapply (IH _ _) in Hl; try done. simpl. lia.
    + eapply (IH _ _) in Hl; try done. simpl. lia.
    + eapply (IH _ _) in Hl; try done. simpl. lia.
    + eapply (IH _ _) in Hl; try done. simpl. lia.
Qed.

(** ** Properties *)

(** Placement does not depend on the order in which the roster lists the
    providers, and always picks one of them. *)
Theorem selectOwner_order_independent npub l1 l2 now :
  NoDup (sc_id <$> l1) -> l1 ≡ₚ l2 ->
  selectOwner npub l1 now = selectOwner npub l2 now /\
  (l1 <> [] -> exists s, selectOwner npub l1 now = Some s /\ s ∈ l1).
Proof.
  intros Hnd Hp. split; [|apply selectOwner_elem].
  pose proof (sort_ids_perm l1 l2 Hnd Hp) as Hs. unfold selectOwner.
  destruct l1 as [|a l1], l2 as [|b l2].
  - done.
  - by apply Permutation_nil_cons in Hp.
  - symmetry in Hp. by apply Permutation_nil_cons in Hp.
  - by rewrite Hs.
Qed.

(** Uploading stores the blob on distinct providers. With a roster at
    hand and at least one of the uploads going through, [uploadBlob] succeeds;
    the ids it returns are distinct providers of the roster, at most as many as
    asked for and at least one, and every one of them holds the blob. *)
Theorem uploadBlob_replicas env npub hash count w :
  w_registry w <> [] -> NoDup (w_registry w).*1 -> 1 <= count ->
  some_fine (length (w_registry w)) (w_faults w) = true ->
  exists replicas w', uploadBlob env npub hash count w = (Ok replicas, w') /\
    replicas <> [] /\ NoDup replicas /\ Z.of_nat (length replicas) <= count /\
    forall id, id ∈ replicas -> exists url, (id, url) ∈ w_registry w /\ node_holds url hash w'.
Proof.
  intros Hne Hnd Hc Hs. unfold uploadBlob, freshCandidates.
  set (all := candidates w).
  assert (exists c cs, all = c :: cs) as (c & cs & Hall).
  { unfold all, candidates. destruct (w_registry w) as [|p l]; [done|]. by eexists _, _. }
  assert (length all = length (w_registry w)) as Hlen by apply length_fmap.
  destruct (upload_loop_ok (length all) npub hash (w_now w) count all all [] w) as (res & w' & Hr & Hok & Hcnt);
    [done| |].
  { constructor; [|done|set_solver]. simpl. unfold all, candidates. by rewrite <- list_fmap_compose. }
  assert (res <> []) as Hres.
  { apply (upload_loop_progress (length all) npub hash (w_now w) count all w res w'); try done. by rewrite Hlen. }
  exists res, w'. split.
  - unfold bind, gets. destruct (w_registry w) eqn:Er; [done|]. simpl. rewrite <- Er in *. fold all.
    rewrite Hall. rewrite <- Hall. rewrite Hr. by destruct res.
  - destruct Hok as [Hn _ Hh]. rewrite app_nil_r in Hn. split_and!; try done; [simpl in Hcnt; lia|].
    intros id (s & Hin & <- & Hold)%Hh. apply list_elem_of_fmap in Hin as ([i u] & -> & Hin). eauto.
Qed.

Module ServersExamples.
Definition cand (i : string) : ServerCandidate := {| sc_id := i; sc_url := "http://" +:+ i |}.

Lemma selectOwner_order_independent_witness :
  selectOwner "npub1a" [cand "p"; cand "q"; cand "r"] 1790812800000 =
  selectOwner "npub1a" [cand "r"; cand "p"; cand "q"] 1790812800000.
Proof.
  apply (selectOwner_order_independent "npub1a" [cand "p"; cand "q"; cand "r"] [cand "r"; cand "p"; cand "q"]).
  - refine (bool_decide_unpack _ _). vm_compute. exact I.
  - apply (Permutation_app_comm [cand "p"; cand "q"] [cand "r"]).
Defined.

Definition world0 (db : Db) (reg : list (string * string)) (fs : list fault) : World :=
  {| w_now := 1790812800000; w_db := db; w_nodes := ∅; w_registry := reg; w_access := ∅; w_admins := ∅;
     w_replay := ∅; w_uploadLimiter := ∅; w_accountLimiter := ∅; w_adminLimiter := ∅; w_inflight := 0;
     w_faults := fs |}.

Lemma uploadBlob_replicas_witness :
  exists replicas w', uploadBlob MeshExamples.env "npub1a" "h1" 2
      (world0 MeshExamples.mesh_db [("p", "http://p"); ("q", "http://q"); ("r", "http://r")] [Unsent]) =
        (Ok replicas, w') /\ NoDup replicas.
Proof.
  destruct (uploadBlob_replicas MeshExamples.env "npub1a" "h1" 2
    (world0 MeshExamples.mesh_db [("p", "http://p"); ("q", "http://q"); ("r", "http://r")] [Unsent]))
    as (res & w' & H1 & _ & H2 & _).
  - discriminate.
  - refine (bool_decide_unpack _ _). vm_compute. exact I.
  - lia.
  - reflexivity.
  - exists res, w'. split; [exact H1 | exact H2].
Defined.
End ServersExamples.
