(* ===== verification/Access.v ===== *)
(** * Who may do what in the proxy

    The access cache (proxy/blossom/src/access.ts) and the two NIP-98 gates
    with the admin registry (proxy/blossom/src/admin-auth.ts). *)

From S2P Require Import Prelude Js Dates Http Lifecycle Db DbApi DbFacts Nip98 World.

(** ** The access cache *)

(** [db.getUser(npub)] *)
Definition client_getUser (npub : string) : P (option UserJson) := client_get (getUser npub).

(** The miss path of [get]. *)
Definition cache_read (npub : string) (now : Z) : P (option UserJson) := (
  do* user := client_getUser npub in
  do* _ := modify (fun w => set_access (<[npub := (user, now)]> (w_access w)) w) in
  ret user)%P.

Definition cache_get (ttlMs : Z) (npub : string) : P (option UserJson) := (
  do* now := gets w_now in
  do* found := gets (fun w => w_access w !! npub) in
  match found with
  | Some (user, at_) => if now - at_ <? ttlMs then ret user else cache_read npub now
  | None => cache_read npub now
  end)%P.

Definition cache_invalidate (npub : string) : P unit :=
  modify (fun w => set_access (delete npub (w_access w)) w).

(** [withAccess(user, config)]; an unreadable byte count throws. *)
Definition withAccess `{DateEngine} (config : LifecycleConfig) (user : UserJson) : P AccessState := (
  do* now := gets w_now in
  match deriveAccess (dates_of_json user) now config with
  | Some a => ret a
  | None => throw (EOther "Cannot convert to a BigInt")
  end)%P.

Definition STATUS_ERROR_CODES (s : UserStatus) : string :=
  match s with
  | UNPAID => "unpaid" | ACTIVE => "active" | GRACE => "grace"
  | WRITE_BLOCKED => "write_blocked" | READ_BLOCKED => "read_blocked" | CLOSED => "account_closed"
  end.

(** ** Admins *)

(** The admin registry of formstr-backend, a remote service: [backendAdmin t n]
    is the [admin] field it answers with for [n] at time [t]. *)
Class AdminBackend := { backendAdmin : Z -> string -> jsval }.

Record AdminEnv := { ad_backendUrl : option string; ad_signer : bool }.

Definition ADMIN_TTL : Z := 60000.

Definition is_true (v : jsval) : bool := match v with JBool b => b | _ => false end.

(** [isAdmin(npub)] *)
Definition isAdmin `{AdminBackend} (env : AdminEnv) (npub : string) : P bool := (
  do* now := gets w_now in
  do* cached := gets (fun w => w_admins w !! npub) in
  let ask :=
    if match ad_backendUrl env with Some u => String.eqb u "" | None => true end || negb (ad_signer env)
    then ret false
    else
      do* flt := next_fault in
      match flt with
      | Fine =>
          let admin := is_true (backendAdmin now npub) in
          do* _ := modify (fun w => set_admins (<[npub := (admin, now)]> (w_admins w)) w) in
          ret admin
      | _ => ret false
      end in
  match cached with
  | Some (admin, at_) => if now - at_ <? ADMIN_TTL then ret admin else ask
  | None => ask
  end)%P.

Section Gates.
Context `{Nostr}.

(** [Math.floor(Date.now() / 1000)] *)
Definition seconds (ms : Z) : Z := ms / 1000.

(** [verifyNip98(req)] with the process-local replay cache. *)
Definition verify_request (req : Nip98Request) : P (exc Nip98Error Signer) := fun w =>
  let (r, seen) := verifyNip98 (seconds (w_now w)) {| expectedUrl := None; maxSkewSeconds := None |} req (w_replay w) in
  (Ok r, set_replay seen w).

(** [requireAdmin]: the reply that ends the request, or the admin's npub. *)
Definition requireAdmin `{AdminBackend} (env : AdminEnv) (req : Nip98Request) : P (reply unit + string) := (
  do* r := verify_request req in
  match r with
  | Throw e => ret (inl (Err (ne_status e) (ne_message e)))
  | Ok signer =>
      do* admin := isAdmin env (sg_npub signer) in
      ret (if admin : bool then inr (sg_npub signer) else inl (Err 403 "admin_required"))
  end)%P.

(** [createInternalRoleGate]; a failing lookup is passed to the error handler. *)
Definition internalRoleGate (req : Nip98Request) : P (reply unit + string) := (
  do* r := verify_request req in
  match r with
  | Throw e => ret (inl (Err (ne_status e) "unauthorized"))
  | Ok signer =>
      catch (do* service := client_get (getServiceAccount (sg_npub signer)) in
             ret (match service with
                  | Some a => if aj_enabled a then inr (sg_npub signer)
                              else inl (Err 403 "forbidden_service_account")
                  | None => inl (Err 403 "forbidden_service_account")
                  end))
            (fun _ => ret (inl (Err 500 "internal_error")))
  end)%P.
End Gates.

(** ** Coherence of the caches *)

Section Coherence.
Context `{AdminBackend}.

(** [hist t n] is the row db-api served for [n] at time [t]. *)
Variable hist : Z -> string -> option UserJson.

Record caches_ok (w : World) : Prop := {
  co_access : forall n u t, w_access w !! n = Some (u, t) -> t <= w_now w /\ u = hist t n;
  co_admins : forall n b t, w_admins w !! n = Some (b, t) -> t <= w_now w /\ b = is_true (backendAdmin t n)
}.

Definition row_json (db : Db) (npub : string) : option UserJson :=
  match users db !! npub with Some u => userToJson u | None => None end.

Lemma client_getUser_Ok npub w u w' :
  db_ok (w_db w) -> client_getUser npub w = (Ok u, w') ->
  u = row_json (w_db w) npub /\ w_db w' = w_db w /\ w_now w' = w_now w /\
  w_access w' = w_access w /\ w_admins w' = w_admins w.
Proof.
  intros Hdb. unfold client_getUser, client_get, fetch_db, next_fault, serve_db, read_only, bind.
  assert (getUser npub (w_db w) = match row_json (w_db w) npub with
                                  | Some j => Res 200 j | None => Err 404 "not_found" end) as Hg.
  { unfold getUser, row_json. destruct (users (w_db w) !! npub) as [v|] eqn:Hv; [|done].
    destruct (userToJson_total npub v (blobs (w_db w))) as [j ->]; [by apply do_users | done]. }
  destruct (w_faults w) as [|f fs]; simpl.
  - rewrite Hg. destruct (row_json (w_db w) npub); simpl; unfold ret; intros; simplify_eq; done.
  - destruct f; simpl; try done. rewrite Hg.
    destruct (row_json (w_db w) npub); simpl; unfold ret; intros; simplify_eq; done.
Qed.

Lemma cache_read_ok npub w u w' :
  caches_ok w -> db_ok (w_db w) -> (forall n, hist (w_now w) n = row_json (w_db w) n) ->
  cache_read npub (w_now w) w = (Ok u, w') -> caches_ok w' /\ u = hist (w_now w) npub.
Proof.
  intros [Hac Had] Hdb Hh. unfold cache_read. intros (v & w1 & Hv & Hr)%bind_Ok.
  apply client_getUser_Ok in Hv as (-> & _ & Hn & Ha & Hb); [|done].
  unfold bind, modify, ret in Hr. simplify_eq. split; [|done]. constructor; simpl.
  - intros n x t. rewrite Ha, Hn, lookup_insert. case_decide as Hne; [|apply Hac].
    intros [= <- <-]. subst n. split; [lia | done].
  - rewrite Hb, Hn. exact Had.
Qed.

(** A row the access cache returns is what db-api said less than [ttlMs]
    ago; nothing staler is ever used, and the cache stays coherent. *)
Theorem cache_get_fresh ttlMs npub w u w' :
  0 < ttlMs -> caches_ok w -> db_ok (w_db w) ->
  (forall n, hist (w_now w) n = row_json (w_db w) n) ->
  cache_get ttlMs npub w = (Ok u, w') ->
  caches_ok w' /\ exists t, w_now w - ttlMs < t <= w_now w /\ u = hist t npub.
Proof.
  intros Httl Hok Hdb Hh. unfold cache_get, bind at 1 2, gets.
  assert (cache_read npub (w_now w) w = (Ok u, w') ->
    caches_ok w' /\ exists t, w_now w - ttlMs < t <= w_now w /\ u = hist t npub) as Hread.
  { intros [H1 H2]%cache_read_ok; try done. split; [done|]. exists (w_now w). split; [lia | done]. }
  destruct (w_access w !! npub) as [[v t]|] eqn:Hc; [|done].
  destruct (w_now w - t <? ttlMs) eqn:Ht; [|done]. unfold ret. intros [= -> <-].
  destruct (co_access _ Hok _ _ _ Hc) as [Hle Hv]. split; [done|]. exists t. split; [lia|done].
Qed.

(** Admin rights are granted only on the backend's word, at most a minute
    old: no backend, no signer, a failed request or a negative answer all mean
    no, and a failure is not remembered. *)
Theorem isAdmin_fail_closed env npub w w' :
  caches_ok w -> isAdmin env npub w = (Ok true, w') ->
  caches_ok w' /\ exists t, w_now w - ADMIN_TTL < t <= w_now w /\ backendAdmin t npub = JBool true.
Proof.
  intros Hok. unfold isAdmin, bind at 1 2, gets.
  assert (forall v, is_true v = true -> v = JBool true) as Hv.
  { intros [| |[]| | | |]; done. }
  match goal with |- context [match _ with Some _ => _ | None => ?m end] => set (ask := m) end.
  assert (ask w = (Ok true, w') -> caches_ok w' /\
    exists t, w_now w - ADMIN_TTL < t <= w_now w /\ backendAdmin t npub = JBool true) as Hask.
  { unfold ask. case_match; [done|]. unfold bind, next_fault, modify, ret, ADMIN_TTL.
    destruct (w_faults w) as [|[] fs]; intros; simplify_eq; try done.
    all: split; [|exists (w_now w); split; [lia | by apply Hv]].
    all: destruct Hok as [Hca Hcb]; constructor; simpl; [done|].
    all: intros n b t; rewrite lookup_insert; case_decide as Hn; [|by apply Hcb].
    all: intros [= <- <-]; subst n; split; [lia|done]. }
  destruct (w_admins w !! npub) as [[b t]|] eqn:Hc; [|done].
  destruct (w_now w - t <? ADMIN_TTL) eqn:Ht; [|done]. unfold ret. intros [= -> <-].
  destruct (co_admins _ Hok _ _ _ Hc) as [Hle Hb]. split; [done|]. exists t. split; [lia|]. by apply Hv.
Qed.
End Coherence.

Module AccessExamples.
Import LifecycleExamples DbExamples.

#[export] Instance rootOnly : AdminBackend := {| backendAdmin := fun _ n => JBool (String.eqb n "npub1root") |}.

Definition world1 (fs : list fault) : World :=
  {| w_now := NOW; w_db := two_db; w_nodes := ∅; w_registry := []; w_access := ∅; w_admins := ∅;
     w_replay := ∅; w_uploadLimiter := ∅; w_accountLimiter := ∅; w_adminLimiter := ∅; w_inflight := 0;
     w_faults := fs |}.
Definition hist1 (t : Z) (n : string) : option UserJson := row_json two_db n.

Lemma world1_caches fs : caches_ok hist1 (world1 fs).
Proof. constructor; simpl; intros n b t Hl; by rewrite lookup_empty in Hl. Qed.

Lemma cache_get_fresh_witness :
  exists u w', cache_get 10000 "npub1a" (world1 []) = (Ok u, w') /\ u = row_json two_db "npub1a".
Proof.
  destruct (cache_get 10000 "npub1a" (world1 [])) as [[u|e] w'] eqn:E; [|vm_compute in E; discriminate].
  destruct (cache_get_fresh hist1 10000 "npub1a" (world1 []) u w') as [_ (t & _ & H)].
  - lia.
  - apply world1_caches.
  - apply two_db_ok.
  - reflexivity.
  - exact E.
  - exists u, w'. split; [reflexivity | exact H].
Defined.

Lemma isAdmin_fail_closed_witness :
  exists w', isAdmin {| ad_backendUrl := Some "http://b"; ad_signer := true |} "npub1root" (world1 []) = (Ok true, w') /\
    caches_ok hist1 w'.
Proof.
  destruct (isAdmin {| ad_backendUrl := Some "http://b"; ad_signer := true |} "npub1root" (world1 []))
    as [[[]|e] w'] eqn:E; [|vm_compute in E; discriminate..].
  exists w'. split; [reflexivity|].
  apply (isAdmin_fail_closed hist1 {| ad_backendUrl := Some "http://b"; ad_signer := true |} "npub1root" (world1 [])).
  - apply world1_caches.
  - exact E.
Defined.
End AccessExamples.
