(* ===== verification/Proxy.v ===== *)
(** * The proxy's endpoints (proxy/blossom/src/index.ts) *)

From Stdlib Require Import QArith Ascii.
From S2P Require Import Prelude Js Dates Http Lifecycle Entitlement Db DbApi DbFacts MeshApi Nip98 Bud11 World RateLimit Servers Access.
#[local] Open Scope Z_scope.

Definition MAX_UPLOAD_BYTES : Z := 500 * 1024 * 1024.
Definition UPGRADE_URL : string := "/pricing".

(** What the process is configured with. *)
Record ProxyEnv := {
  pe_lifecycle : LifecycleConfig;
  pe_ttlMs : Z;
  pe_admin : AdminEnv;
  pe_storage : StorageEnv;
  pe_inflight : option string;
  pe_publicBaseUrl : option string
}.

(** What the handlers read of a request. *)
Record Req := {
  rq_ip : option string;
  rq_remoteAddress : option string;
  rq_path : string;
  rq_auth : option string;
  rq_xSha256 : option string;
  rq_xContentLength : option string;
  rq_contentLength : option string;
  rq_contentType : option string;
  rq_bytes : string;
  rq_json : jsval;
  rq_proto : string;
  rq_hostname : option string;
  rq_page : query_value;
  rq_pageSize : query_value;
  rq_search : query_value;
  rq_hash : query_value;
  rq_npub : query_value;
  rq_nip98 : Nip98Request
}.

(** A denial's body. *)
Record AccessDenial := {
  dn_error : string;
  dn_status : UserStatus;
  dn_action : string;
  dn_usedStorage : string;
  dn_storageBytes : option string;
  dn_upgradeUrl : string
}.

Inductive presp (A : Type) :=
| POk (st : Z) (body : A)
| PErr (st : Z) (error : string)
| PDenied (d : AccessDenial).
Arguments POk {A} st body.
Arguments PErr {A} st error.
Arguments PDenied {A} d.

Definition presp_status {A} (r : presp A) : Z :=
  match r with POk st _ => st | PErr st _ => st | PDenied _ => 403 end.

(** ** Helpers *)

Definition MIME_EXTENSIONS : list (string * string) :=
  [("application/pdf", ".pdf"); ("application/json", ".json"); ("application/zip", ".zip");
   ("application/octet-stream", ".bin"); ("image/png", ".png"); ("image/jpeg", ".jpg");
   ("image/gif", ".gif"); ("image/webp", ".webp"); ("image/svg+xml", ".svg"); ("video/mp4", ".mp4");
   ("video/webm", ".webm"); ("audio/mpeg", ".mp3"); ("audio/ogg", ".ogg"); ("text/plain", ".txt")].

(** [type.split(";")[0].trim().toLowerCase()] *)
Definition media_type (type : string) : string :=
  toLowerCase (trim (default "" (head (split_on ";"%char type)))).

Definition extensionForType (type : string) : string :=
  default ".bin" (assoc_str (media_type type) MIME_EXTENSIONS).

(** [express.raw({ type: "application/octet-stream" })] leaves other bodies
    unparsed. *)
Definition raw_body (r : Req) : option string :=
  match rq_contentType r with
  | Some t => if String.eqb (media_type t) "application/octet-stream" then Some (rq_bytes r) else None
  | None => None
  end.

(** [HASH_PATTERN] on a path without its slash. *)
Definition is_alnum (c : Ascii.ascii) : bool := is_digit c || is_lower c || is_upper c.
Definition match_hash (s : string) : option string :=
  let h := String.substring 0 64 s in
  let rest := String.substring 64 (String.length s - 64) s in
  if is_hex64 h then
    match rest with
    | "" => Some h
    | String c ext => if (code c =? 46) && negb (String.eqb ext "") && sall is_alnum ext then Some h else None
    end
  else None.

Definition path_tail (p : string) : string := String.substring 1 (String.length p - 1) p.

Definition sendAccessError {A} (user : UserJson) (access : AccessState) : presp A :=
  let code :=
    if decide (reason access = grace_over_quota) then "quota_exceeded"
    else if canUpload access then "quota_exceeded"
    else match status access with
         | UNPAID => "unpaid" | CLOSED => "account_closed" | GRACE => "grace_expired"
         | WRITE_BLOCKED => "write_blocked" | _ => "read_blocked"
         end in
  let overQuota := bool_decide (reason access = grace_over_quota) || canUpload access in
  PDenied {| dn_error := code; dn_status := status access;
             dn_action := if overQuota then "delete_or_upgrade" else "upgrade";
             dn_usedStorage := uj_usedStorage user; dn_storageBytes := uj_storageBytes user;
             dn_upgradeUrl := UPGRADE_URL |}.

(** [{ ...access, canUpload: false, reason: "grace_over_quota" }] *)
Definition as_over_quota (a : AccessState) : AccessState :=
  {| status := status a; canUpload := false; canRead := canRead a; canDelete := canDelete a;
     graceUntil := graceUntil a; writeBlockedUntil := writeBlockedUntil a;
     readBlockedUntil := readBlockedUntil a; purgeAt := purgeAt a; reason := grace_over_quota |}.

Definition unpaidUser (npub : string) : UserJson :=
  {| uj_npub := npub; uj_planExpiresAt := None; uj_storageBytes := None; uj_usedStorage := "0";
     uj_createdAt := "1970-01-01T00:00:00.000Z" |}.

(** [user.storageBytes !== null && BigInt(used) + BigInt(size) > BigInt(total)];
    [None] when a [BigInt] throws. *)
Definition exceeds (user : UserJson) (size : num) : option bool :=
  match uj_storageBytes user with
  | None => Some false
  | Some total =>
      used ← BigInt_string (uj_usedStorage user);
      z ← num_int size;
      t ← BigInt_string total;
      Some (t <? used + z)
  end.

Definition lift_auth {A} (r : exc AuthError A) : P A :=
  match r with Ok a => ret a | Throw e => throw (EAuth (ae_message e) (ae_status e)) end.
Definition lift_opt {A} (o : option A) : P A :=
  match o with Some a => ret a | None => throw (EOther "Cannot convert to a BigInt") end.

(** [catch (error) { if AuthError sendAuthError else status(500) }] *)
Definition or_500 {A} (message : string) (m : P (presp A)) : P (presp A) :=
  catch m (fun e => match e with
                    | EAuth msg st => ret (PErr st msg)
                    | _ => ret (PErr 500 message)
                    end).

Section Handlers.
Context `{DateEngine} `{Nostr} `{AdminBackend} `{TextSearch}.
Context (env : ProxyEnv).

(** Fresh ids of the rows db-api creates, given those in use. *)
Context (fresh_id : list string -> string).

Definition authorize (r : Req) (action : BlossomAction) (hash : option string) (scope : bool) : P string := (
  do* now := gets w_now in
  lift_auth (verifyAuthToken (seconds now) (rq_auth r) action hash scope))%P.

Definition limit (o : LimiterOptions) (get : World -> gmap string bucket)
    (set : gmap string bucket -> World -> World) (r : Req) : P bool := fun w =>
  let (ok, b) := hit o (w_now w) (clientIp (rq_ip r) (rq_remoteAddress r)) (get w) in (Ok ok, set b w).

Definition loadAccess (npub : string) (fresh : bool) : P (UserJson * AccessState) := (
  do* found := (if fresh then do* _ := cache_invalidate npub in client_getUser npub
                else cache_get (pe_ttlMs env) npub) in
  let user := default (unpaidUser npub) found in
  do* access := withAccess (pe_lifecycle env) user in
  ret (user, access))%P.

Definition loadAccessForDenialCheck (npub : string) (cached : UserJson * AccessState)
  : P (UserJson * AccessState) :=
  if canUpload (snd cached) then ret cached else loadAccess npub true.

(** ** Internal endpoints *)

Definition getCapacityRoute : P (presp CapacityJson) :=
  catch (do* c := fun w => client_ok (read_only (getCapacity (pe_storage env) (w_now w))) w in ret (POk 200 c))%P
        (fun _ => ret (PErr 502 "capacity_unavailable")).

Definition getInternalUser (npub : string) : P (presp UserJson) :=
  catch (do* user := client_getUser npub in
         ret (match user with Some u => POk 200 u | None => PErr 404 "not_found" end))%P
        (fun _ => ret (PErr 502 "db_api_unreachable")).

(** [body ?? {}] *)
Definition or_empty (v : jsval) : jsval := if nullish v then JObj [] else v.

Definition client_assignEntitlement (npub : string) (body : jsval) : P UserJson := fun w =>
  client_ok (postEntitlement (w_now w) npub (or_empty body)) w.

Definition db_error {A} (message : string) (e : perr) : P (presp A) :=
  match e with EDbApi st err => ret (PErr st err) | _ => ret (PErr 502 message) end.

Definition postInternalEntitlement (npub : string) (body : jsval) : P (presp UserJson) :=
  catch (do* user := client_assignEntitlement npub body in
         do* _ := cache_invalidate npub in
         ret (POk 200 user))%P
        (db_error "db api failed").

(** Run an internal handler behind the role gate. *)
Definition internal {A} (r : Req) (m : P (presp A)) : P (presp A) := (
  do* g := internalRoleGate (rq_nip98 r) in
  match g with
  | inl (Res st _) => ret (PErr st "")
  | inl (Err st e) => ret (PErr st e)
  | inr _ => m
  end)%P.

(** ** GET /storage *)

Definition num_sub (a b : num) : num :=
  match a, b with
  | Fin p, Fin q => let r := (p - q)%Q in double_of (Qnum r <? 0) (Z.abs (Qnum r)) (Zpos (Qden r))
  | _, _ => NaN
  end.

Record StorageJson := {
  st_used : num;
  st_total : option num;
  st_available : option num;
  st_user : UserJson;
  st_status : UserStatus;
  st_purgeAt : option string;
  st_canUpload : bool;
  st_canRead : bool
}.

(** [access.purgeAt?.toISOString() ?? null]; an invalid date throws. *)
Definition purge_iso (a : AccessState) : P (option string) :=
  match purgeAt a with
  | None => ret None
  | Some None => throw (EOther "Invalid time value")
  | Some (Some t) => match toISOString t with
                     | Some s => ret (Some s)
                     | None => throw (EOther "Invalid time value")
                     end
  end.

Definition getStorageRoute (r : Req) : P (presp StorageJson) := or_500 "Internal server error" (
  do* ok := limit account_limits w_accountLimiter set_accountLimiter r in
  if negb ok then ret (PErr 429 "rate_limited") else
  do* npub := authorize r Get None false in
  do* cached := loadAccess npub false in
  do* loaded := if bool_decide (status (snd cached) <> ACTIVE) then loadAccess npub true else ret cached in
  let (user, access) := loaded in
  do* purge := purge_iso access in
  let used := Number_string (uj_usedStorage user) in
  let total := Number_string <$> uj_storageBytes user in
  ret (POk 200 {| st_used := used; st_total := total; st_available := (fun t => num_sub t used) <$> total;
                  st_user := user; st_status := status access; st_purgeAt := purge;
                  st_canUpload := canUpload access; st_canRead := canRead access |}))%P.

(** ** HEAD /upload *)

Definition headUpload (r : Req) : P (presp unit) := or_500 "" (
  do* npub := authorize r Upload (rq_xSha256 r) true in
  match truthy (rq_xContentLength r) with
  | None => ret (PErr 411 "X-Content-Length header is required")
  | Some len =>
      let size := Number_string len in
      if negb (is_finite size) || num_lt size 0 then ret (PErr 400 "Invalid X-Content-Length header")
      else if num_gt size MAX_UPLOAD_BYTES then
        ret (PErr 413 "File exceeds the 500 MB per-file upload limit.")
      else
        do* cached := loadAccess npub false in
        do* loaded := loadAccessForDenialCheck npub cached in
        let (user, access) := loaded in
        if negb (canUpload access) then ret (PErr 403 (STATUS_ERROR_CODES (status access))) else
        do* over := lift_opt (exceeds user size) in
        ret (if over : bool then PErr 403 "quota_exceeded" else POk 200 tt)
  end)%P.

(** ** PUT /upload *)

(** [MAX_INFLIGHT_UPLOAD_BYTES] *)
Definition MAX_INFLIGHT : num :=
  let n := Number_opt (pe_inflight env) in
  if num_gt n 0 then n else num_Z (8 * 1024 * 1024 * 1024).

(** [inl] ends the request, [inr length] lets the body be read. *)
Definition uploadGate_body (r : Req) : P (presp unit + Z) := (
  do* ok := limit upload_limits w_uploadLimiter set_uploadLimiter r in
  if negb ok then ret (inl (PErr 429 "rate_limited")) else
  do* npub := authorize r Upload None true in
  match truthy (rq_contentLength r) with
  | None => ret (inl (PErr 411 "Content-Length header is required"))
  | Some len =>
      match num_int (Number_string len) with
      | None => ret (inl (PErr 400 "Request body must contain binary data"))
      | Some length =>
          if length <=? 0 then ret (inl (PErr 400 "Request body must contain binary data"))
          else if MAX_UPLOAD_BYTES <? length then
            ret (inl (PErr 413 "File exceeds the 500 MB per-file upload limit."))
          else
            do* cached := loadAccess npub false in
            do* loaded := loadAccessForDenialCheck npub cached in
            let (user, access) := loaded in
            if negb (canUpload access) then ret (inl (sendAccessError user access)) else
            do* over := lift_opt (exceeds user (num_Z length)) in
            if over : bool then ret (inl (sendAccessError user (as_over_quota access))) else
            do* inflight := gets w_inflight in
            if num_lt MAX_INFLIGHT (inflight + length) then ret (inl (PErr 503 "server_busy"))
            else
              do* _ := modify (fun w => set_inflight (w_inflight w + length) w) in
              ret (inr length)
      end
  end)%P.

Definition uploadGate (r : Req) : P (presp unit + Z) :=
  catch (uploadGate_body r)
        (fun e => match e with
                  | EAuth msg st => ret (inl (PErr st msg))
                  | _ => ret (inl (PErr 500 "Upload failed"))
                  end).

(** [release()], the first time it runs. *)
Definition release (length : Z) : P unit := modify (fun w => set_inflight (w_inflight w - length) w).

Definition client_getBlob (hash : string) : P (option (BlobJson * list string)) := client_get (getBlob hash).

Definition client_createBlob (hash npub : string) (size : Z) (replicas : list string) : P (BlobJson * string) :=
  fun w => client_ok (postBlob (w_now w)
    {| pb_hash := hash; pb_npub := npub; pb_size := JNum (num_Z size); pb_replicas := replicas |}) w.

Record Descriptor := {
  ds_url : string;
  ds_sha256 : string;
  ds_size : Z;
  ds_type : string;
  ds_uploaded : option Z
}.

(** After a failed [createBlob]: the stored bytes are taken off the nodes again
    unless someone else claimed the hash. *)
Definition undo_store (hash : string) (replicas : list string) : P unit := (
  do* claimed := catch (client_getBlob hash) (fun _ => ret None) in
  match claimed with None => deleteBlob_nodes hash replicas | Some _ => ret tt end)%P.

(** Everything after the bytes are where they belong: bill the account. [inl]
    ends the request, [inr] is the row's creation time. *)
Definition claim_blob (hash npub : string) (size : Z) (replicas : list string) (storedNow : bool)
    (user : UserJson) (access : AccessState) : P (presp Descriptor + option string) :=
  catch (do* created := client_createBlob hash npub size replicas in
         do* _ := cache_invalidate npub in
         ret (inr (Some (bj_createdAt (fst created)))))%P
        (fun e =>
           if match e with EDbApi st err => (st =? 409) && String.eqb err "already_exists" | _ => false end then
             (do* refetched := client_getBlob hash in
              ret (inr ((fun b => bj_createdAt (fst b)) <$> refetched)))%P
           else
             (do* _ := if storedNow then undo_store hash replicas else ret tt in
              if match e with EDbApi st err => (st =? 409) && String.eqb err "quota_exceeded" | _ => false end then
                do* _ := cache_invalidate npub in
                ret (inl (sendAccessError user (as_over_quota access)))
              else throw e)%P).

Definition lookup_blob (hash : string) : P (presp Descriptor + option (BlobJson * list string)) :=
  catch (do* b := client_getBlob hash in ret (inr b))%P (fun _ => ret (inl (PErr 502 "Blob lookup failed"))).

Definition describe (r : Req) (hash : string) (size : Z) (alreadyMine : bool) (createdAt : option string)
  : P (presp Descriptor) := (
  do* now := gets w_now in
  let contentType := default "application/octet-stream" (truthy (rq_contentType r)) in
  let baseUrl := match pe_publicBaseUrl env with
                 | Some u => u
                 | None => rq_proto r +:+ "://" +:+ default "undefined" (rq_hostname r)
                 end in
  let uploaded := match truthy createdAt with
                  | Some s => seconds <$> Date_parse s
                  | None => Some (seconds now)
                  end in
  ret (POk (if alreadyMine then 200 else 201)
    {| ds_url := baseUrl +:+ "/" +:+ hash +:+ extensionForType contentType; ds_sha256 := hash;
       ds_size := size; ds_type := contentType; ds_uploaded := uploaded |}))%P.

(** From the lookup of the hash to the reply: same bytes already on the nodes
    are reused and billed on this account's own row, otherwise they are stored
    first. *)
Definition finish_upload (r : Req) (hash npub : string) (size : Z) (user : UserJson) (access : AccessState)
    (existing : option (BlobJson * list string)) : P (presp Descriptor) := (
  let alreadyMine := match existing with Some (_, owners) => bool_decide (npub ∈ owners) | None => false end in
  let createdAt := (fun b => bj_createdAt (fst b)) <$> existing in
  if alreadyMine then describe r hash size true createdAt else
  do* replicas := match existing with
                  | Some (b, _) => ret (bj_replicas b)
                  | None => uploadBlob (pe_storage env) npub hash (replicaTarget (BLOSSOM_REPLICAS (pe_storage env)))
                  end in
  do* claimed := claim_blob hash npub size replicas (bool_decide (existing = None)) user access in
  match claimed with
  | inl resp => ret resp
  | inr createdAt => describe r hash size false createdAt
  end)%P.

Definition admit_upload (r : Req) (hash : string) (size : Z)
  : P (presp Descriptor + (string * UserJson * AccessState)) := (
  do* npub := authorize r Upload (Some hash) true in
  do* cached := loadAccess npub false in
  do* loaded := loadAccessForDenialCheck npub cached in
  let (user, access) := loaded in
  if negb (canUpload access) then ret (inl (sendAccessError user access)) else
  do* over := lift_opt (exceeds user (num_Z size)) in
  ret (if over : bool then inl (sendAccessError user (as_over_quota access)) else inr (npub, user, access)))%P.

(** The handler of [PUT /upload] behind the gate and the body parser. *)
Definition putUpload (r : Req) : P (presp Descriptor) := or_500 "Upload failed" (
  match raw_body r with
  | None | Some "" => ret (PErr 400 "Request body must contain binary data")
  | Some data =>
      let hash := sha256 data in
      let size := Z.of_nat (String.length data) in
      if match truthy (rq_xSha256 r) with Some h => negb (String.eqb (toLowerCase h) hash) | None => false end then
        ret (PErr 409 "X-SHA-256 header does not match the uploaded content")
      else
        do* adm := admit_upload r hash size in
        match adm with
        | inl resp => ret resp
        | inr (npub, user, access) =>
            do* existing := lookup_blob hash in
            match existing with
            | inl resp => ret resp
            | inr existing => finish_upload r hash npub size user access existing
            end
        end
  end)%P.

(** ** GET and HEAD /<sha256> *)

Record BlobHead := { bh_contentLength : string; bh_server : option string }.

Fixpoint mapM_P {A B} (f : A -> P B) (l : list A) : P (list B) :=
  match l with
  | [] => ret []
  | a :: l => (do* b := f a in do* bs := mapM_P f l in ret (b :: bs))%P
  end.

Definition access_of_owner (o : option UserJson) : P (option AccessState) :=
  match o with
  | None => ret None
  | Some u => (do* a := withAccess (pe_lifecycle env) u in ret (Some a))%P
  end.

Definition readable_for (a : option AccessState) : bool :=
  match a with None => true | Some a => canRead a end.

Definition handleGetBlob (r : Req) (includeBody : bool) : P (presp BlobHead) :=
  or_500 (if includeBody then "Download failed" else "") (
  match match_hash (path_tail (rq_path r)) with
  | None => ret (PErr 400 "Invalid sha256 hash")
  | Some hash =>
      do* blob := client_getBlob hash in
      match blob with
      | None => ret (PErr 404 "Blob not found")
      | Some (blob, owners) =>
          do* users := catch (do* us := mapM_P client_getUser owners in ret (Some us)) (fun _ => ret None) in
          match users with
          | None => ret (PErr 500 "Download failed")
          | Some users =>
              do* accesses := mapM_P access_of_owner users in
              if negb (existsb readable_for accesses) then
                match accesses with
                | Some a :: _ => ret (PErr 403 (STATUS_ERROR_CODES (status a)))
                | _ => throw (EOther "Cannot read properties of undefined")
                end
              else if includeBody then
                do* server := openBlobStream hash (bj_replicas blob) in
                ret (POk 200 {| bh_contentLength := bj_size blob; bh_server := Some server |})
              else ret (POk 200 {| bh_contentLength := bj_size blob; bh_server := None |})
          end
      end
  end)%P.

(** ** DELETE /<sha256> *)

(** [db.deleteBlob(hash, { npub })] and [{ all: true }]; the result is
    [remainingOwners]. *)
Definition client_deleteBlob (hash : string) (who : option string) : P Z := (
  do* res := client_ok (deleteBlob hash (who_npub who) (who_all who)) in ret (snd res))%P.

(** Rows first, then the bytes when nobody owns them any more. *)
Definition remove_owner (hash npub : string) (replicas : list string) : P unit := (
  do* remaining := client_deleteBlob hash (Some npub) in
  do* _ := cache_invalidate npub in
  if remaining =? 0 then deleteBlob_nodes hash replicas else ret tt)%P.

Definition deleteRoute (r : Req) : P (presp unit) := or_500 "Delete failed" (
  match match_hash (path_tail (rq_path r)) with
  | None => ret (PErr 400 "Invalid sha256 hash")
  | Some hash =>
      do* npub := authorize r Delete (Some hash) true in
      do* blob := client_getBlob hash in
      match blob with
      | None => ret (PErr 404 "Blob not found")
      | Some (blob, owners) =>
          if bool_decide (npub ∉ owners) then ret (PErr 403 "You do not have access to this blob") else
          do* _ := remove_owner hash npub (bj_replicas blob) in
          ret (POk 200 tt)
      end
  end)%P.

(** ** The account API *)

Record AccountView := { av_user : UserJson; av_status : UserStatus; av_canUpload : bool; av_canRead : bool;
                        av_purgeAt : option string }.

Definition getAccount (r : Req) : P (presp AccountView) := or_500 "Internal server error" (
  do* npub := authorize r Get None false in
  do* found := client_getUser npub in
  let user := default (unpaidUser npub) found in
  do* access := withAccess (pe_lifecycle env) user in
  do* purge := purge_iso access in
  ret (POk 200 {| av_user := user; av_status := status access; av_canUpload := canUpload access;
                  av_canRead := canRead access; av_purgeAt := purge |}))%P.

(** [Number(String(req.query[k] ?? d))]; a repeated parameter is not a number. *)
Definition query_number (q : query_value) (d : string) : num :=
  match q with QAbsent => Number_string d | QStr s => Number_string s | QOther => NaN end.

(** A number interpolated into a query: what is not a digit string is ignored
    by [parsePagination], which [QOther] stands for. *)
Definition number_param (n : num) : query_value :=
  match num_int n with
  | Some z => if (0 <=? z) && (z <? 10 ^ 21) then QStr (Z_to_string z) else QOther
  | None => QOther
  end.
Definition page_params (page pageSize : num) : Pagination :=
  parsePagination (number_param page) (number_param pageSize).

Definition client_listUserBlobs (npub : string) (page pageSize : num) : P (Page BlobJson) :=
  client_ok (read_only (getUserBlobs npub (page_params page pageSize))).

Definition getAccountBlobs (r : Req) : P (presp (Page BlobJson)) := or_500 "Internal server error" (
  do* npub := authorize r List None false in
  do* result := client_listUserBlobs npub (query_number (rq_page r) "1") (query_number (rq_pageSize r) "25") in
  ret (POk 200 result))%P.

Definition getAccountNotifications (r : Req) : P (presp (Page NotificationJson)) := or_500 "Internal server error" (
  do* npub := authorize r List None false in
  do* result := client_ok (read_only (getUserNotifications npub
                  (page_params (query_number (rq_page r) "1") (query_number (rq_pageSize r) "25")))) in
  ret (POk 200 result))%P.

(** ** The admin API *)

(** [if (filters.page) query.set(...)]: zero and NaN are left out. *)
Definition page_filter (n : num) : query_value :=
  match n with
  | NaN => QAbsent
  | _ => if num_eqZ n 0 then QAbsent else number_param n
  end.
Definition filter_params (r : Req) : Pagination :=
  parsePagination (page_filter (query_number (rq_page r) "1")) (page_filter (query_number (rq_pageSize r) "25")).
Definition search_params (r : Req) : Pagination :=
  page_params (query_number (rq_page r) "1") (query_number (rq_pageSize r) "25").

(** Limit, admin check, then the handler. *)
Definition admin {A} (r : Req) (m : string -> P (presp A)) : P (presp A) := (
  do* ok := limit admin_limits w_adminLimiter set_adminLimiter r in
  if negb ok then ret (PErr 429 "rate_limited") else
  do* g := requireAdmin (pe_admin env) (rq_nip98 r) in
  match g with
  | inl (Res st _) => ret (PErr st "")
  | inl (Err st e) => ret (PErr st e)
  | inr npub => m npub
  end)%P.

Definition or_502 {A} (message : string) (m : P (presp A)) : P (presp A) :=
  catch m (fun _ => ret (PErr 502 message)).

Definition getAdminUsers (r : Req) : P (presp (Page UserJson)) := admin r (fun _ => or_502 "db_api_unreachable" (
  do* result := client_ok (read_only (listUsers (rq_search r) (filter_params r))) in ret (POk 200 result))%P).

Definition getAdminBlobs (r : Req) : P (presp (Page BlobJson)) := admin r (fun _ => or_502 "db_api_unreachable" (
  do* result := client_ok (read_only (searchBlobs (rq_hash r) (rq_npub r) QAbsent (search_params r))) in
  ret (POk 200 result))%P).

Definition getAdminStats (r : Req) : P (presp StorageStats) := admin r (fun _ => or_502 "db_api_unreachable" (
  do* result := client_ok (read_only (fun db => Res 200 (getStorageStats db))) in ret (POk 200 result))%P).

Definition getAdminAudit (r : Req) : P (presp (Page ModerationJson)) := admin r (fun _ => or_502 "db_api_unreachable" (
  do* result := client_ok (read_only (getModeration QAbsent QAbsent (search_params r))) in
  ret (POk 200 result))%P).

(** [{ ...req.body, source: "admin" }] *)
Definition as_admin_grant (body : jsval) : jsval :=
  JObj (("source", JStr "admin") :: match body with JObj l => l | _ => [] end).

Definition postAdminEntitlement (r : Req) (npub : string) : P (presp UserJson) := admin r (fun _ =>
  catch (do* user := client_assignEntitlement npub (as_admin_grant (rq_json r)) in
         do* _ := cache_invalidate npub in
         ret (POk 200 user))%P
        (db_error "db api failed")).

Definition client_recordModeration (hash npub adminNpub reason : string) : P ModerationJson := fun w =>
  client_ok (postModeration (w_now w) (fresh_id (m_id <$> moderation (w_db w)))
    {| pm_hash := Some hash; pm_npub := Some npub; pm_adminNpub := Some adminNpub; pm_reason := Some reason |}) w.

(** [db.logNotification]: false when the row already existed. *)
Definition client_logNotification (npub kind : string) (ref : option string) (channel : string) : P bool := fun w =>
  catch (do* _ := client_ok (postNotification (w_now w) (fresh_id (n_id <$> notifications (w_db w)))
                    {| pn_npub := Some npub; pn_kind := Some kind; pn_ref := ref; pn_channel := Some channel |}) in
         ret true)%P
        (fun e => match e with EDbApi st _ => if st =? 409 then ret false else throw e | _ => throw e end) w.

(** The log entries of [notifyModeration]; the sends themselves are best effort
    and change no state here. *)
Definition log_moderation (npub hash : string) : P unit := (
  do* _ := catch (client_logNotification npub "moderation_deleted" (Some hash) "nostr") (fun _ => ret false) in
  do* _ := catch (client_logNotification npub "moderation_deleted" (Some hash) "email") (fun _ => ret false) in
  ret tt)%P.

Fixpoint invalidate_all (owners : list string) : P unit :=
  match owners with
  | [] => ret tt
  | o :: owners => (do* _ := cache_invalidate o in invalidate_all owners)%P
  end.

Definition record_owner (hash adminNpub reason : string) (owner : string) : P ModerationJson := (
  do* action := client_recordModeration hash owner adminNpub reason in
  do* _ := log_moderation owner hash in
  ret action)%P.

(** [DELETE /admin/blobs/:hash] *)
Definition deleteAdminBlob (r : Req) (param : string) : P (presp (option ModerationJson)) :=
  admin r (fun adminNpub => or_502 "moderation_failed" (
    match match_hash param with
    | None => ret (PErr 400 "Invalid sha256 hash")
    | Some hash =>
        let reason := match jget (rq_json r) "reason" with JStr s => trim s | _ => "" end in
        if String.eqb reason "" then ret (PErr 400 "reason_required") else
        do* blob := client_getBlob hash in
        match blob with
        | None => ret (PErr 404 "not_found")
        | Some (blob, owners) =>
            do* _ := client_deleteBlob hash None in
            do* _ := invalidate_all owners in
            do* _ := deleteBlob_nodes hash (bj_replicas blob) in
            do* actions := mapM_P (record_owner hash adminNpub reason) owners in
            ret (POk 200 (head actions))
        end
    end)%P).

(** ** POST /internal/purge/:npub *)

Fixpoint purge_batch (npub : string) (batch : list BlobJson) (purged : Z) : P Z :=
  match batch with
  | [] => ret purged
  | blob :: batch => (
      do* remaining := client_deleteBlob (bj_hash blob) (Some npub) in
      do* _ := if remaining =? 0 then deleteBlob_nodes (bj_hash blob) (bj_replicas blob) else ret tt in
      purge_batch npub batch (purged + 1))%P
  end.

(** The [for (;;)] loop, with fuel; [None] when it runs out. *)
Fixpoint purge_loop (fuel : nat) (npub : string) (purged : Z) : P (option Z) :=
  match fuel with
  | O => ret None
  | S fuel => (
      do* batch := client_listUserBlobs npub (num_Z 1) (num_Z 100) in
      match items batch with
      | [] => ret (Some purged)
      | l => do* purged := purge_batch npub l purged in purge_loop fuel npub purged
      end)%P
  end.

Definition purgeRoute (fuel : nat) (npub : string) : P (presp (option Z)) := or_502 "purge_failed" (
  do* purged := purge_loop fuel npub 0 in
  do* _ := cache_invalidate npub in
  ret (POk 200 purged))%P.
End Handlers.
