(* ===== verification/ProxyFacts.v ===== *)
(** * The proxy keeps rows and bytes together

    The invariant that every blob row's bytes are on all of its replicas, under
    every request of the proxy. *)

From S2P Require Import Prelude Js Dates Http Lifecycle Entitlement Db DbApi DbFacts MeshApi DbSystem Nip98 Bud11 World RateLimit Servers Access Proxy.

(** ** Transactions leave the providers alone *)

Definition frames {A} (m : tx A) : Prop :=
  forall db a db', m db = Ok (a, db') -> storages db' = storages db.

Lemma frames_ret {A} (a : A) : frames (tx_ret a).
Proof. intros db b db' [= _ ->]. done. Qed.
Lemma frames_throw {A} e : frames (@tx_throw A e).
Proof. by intros db b db'. Qed.
Lemma frames_bind {A B} (m : tx A) (k : A -> tx B) :
  frames m -> (forall a, frames (k a)) -> frames (tx_bind m k).
Proof.
  intros Hm Hk db b db' (a & db1 & Ha & Hb)%tx_bind_Ok.
  by rewrite (Hk _ _ _ _ Hb), (Hm _ _ _ Ha).
Qed.
Lemma frames_user_find npub : frames (user_find npub).
Proof. intros db a db' [= _ ->]. done. Qed.
Lemma frames_user_update npub f : frames (user_update npub f).
Proof. by intros db a db' (u & _ & _ & ->)%user_update_Ok. Qed.
Lemma frames_user_upsert npub now : frames (user_upsert npub now).
Proof. intros db a db'. unfold user_upsert. case_match; intros; by simplify_eq. Qed.
Lemma frames_grant_create h npub now : frames (grant_create h npub now).
Proof. intros db a db'. unfold grant_create. case_match; intros; by simplify_eq. Qed.
Lemma frames_lift {A} (r : exc EntitlementError A) : frames (tx_lift r).
Proof. destruct r; simpl; [apply frames_ret | apply frames_throw]. Qed.
Lemma frames_blob_find hash npub : frames (blob_find hash npub).
Proof. intros db a db' [= _ ->]. done. Qed.
Lemma frames_blob_findMany p : frames (blob_findMany p).
Proof. intros db a db' [= _ ->]. done. Qed.
Lemma frames_blob_count hash : frames (blob_count hash).
Proof. intros db a db' [= _ ->]. done. Qed.
Lemma frames_blob_create b : frames (blob_create b).
Proof. by intros db a db' (_ & -> & _)%blob_create_Ok. Qed.
Lemma frames_blob_delete hash npub : frames (blob_delete hash npub).
Proof. by intros db a db' (_ & _ & ->)%blob_delete_Ok. Qed.

Create HintDb frames.
#[local] Hint Resolve frames_ret frames_throw frames_bind frames_user_find frames_user_update
  frames_user_upsert frames_grant_create frames_lift frames_blob_find frames_blob_findMany
  frames_blob_count frames_blob_create frames_blob_delete : frames.

Lemma frames_delete_rows hash rows last : frames (delete_rows hash rows last).
Proof. revert last. induction rows; intros last; simpl; auto 8 with frames. Qed.
#[local] Hint Resolve frames_delete_rows : frames.

Ltac frames_tac :=
  repeat first
    [ solve [auto with frames]
    | apply frames_bind
    | match goal with |- forall a : ?A, frames _ => intros ? end
    | case_match ].

Lemma frames_transaction {A} (m : tx A) db : frames m -> storages (transaction m db).2 = storages db.
Proof. intros Hm. unfold transaction. destruct (m db) as [[a db']|] eqn:E; simpl; [by eapply Hm | done]. Qed.

Lemma postBlob_storages now req db : storages (postBlob now req db).2 = storages db.
Proof.
  unfold postBlob. destruct (BigInt (pb_size req)) as [z|]; [|done].
  pose proof (frames_transaction (postBlob_tx now req z) db) as Hf.
  destruct (transaction _ db). apply Hf. unfold postBlob_tx. frames_tac.
Qed.
Lemma deleteBlob_storages hash qn qa db : storages (deleteBlob hash qn qa db).2 = storages db.
Proof.
  unfold deleteBlob. case_match; [done|].
  match goal with |- context [transaction ?m db] => pose proof (frames_transaction m db) as Hf end.
  destruct (transaction _ db). apply Hf. unfold deleteBlob_tx. frames_tac.
Qed.
Lemma postEntitlement_storages `{DateEngine} now npub body db :
  storages (postEntitlement now npub body db).2 = storages db /\
  blobs (postEntitlement now npub body db).2 = blobs db.
Proof.
  unfold postEntitlement. destruct (parseEntitlementRequest body) as [req|]; [|done].
  pose proof (frames_transaction (entitlement_tx now npub req) db) as Hf.
  destruct (transaction _ db) as [[u|e] db'] eqn:E; simpl in *.
  - split; [apply Hf; unfold entitlement_tx; frames_tac|].
    by apply transaction_Ok, entitlement_tx_Ok in E as (_ & _ & _ & _ & _ & _ & _ & ? & _).
  - by apply transaction_Throw in E as [_ ->].
Qed.

(** ** The invariant *)

(** [addr id] is the address of the provider with npub [id] (a replica may also
    be recorded by its URL). *)
Definition no_rows (hash : string) (w : World) : Prop :=
  forall b, b ∈ blobs (w_db w) -> b_hash b <> hash.

Record placed (addr : string -> string) (w : World) : Prop := {
  pl_now : valid_time (w_now w) = true;
  pl_db : db_ok (w_db w);
  pl_registry : forall id url, (id, url) ∈ w_registry w -> url = addr id;
  pl_providers : forall cut j s, s ∈ all_storages (w_db w) -> is_active cut s = true ->
    storageProviderToJson s = Some j -> storage_url j = addr (sj_npub j);
  pl_replicas : forall b, b ∈ blobs (w_db w) -> b_replicas b <> [];
  pl_rows : forall b r, b ∈ blobs (w_db w) -> r ∈ b_replicas b -> node_holds (addr r) (b_hash b) w
}.

Section Placed.
Context (addr : string -> string).

(** The invariant reads four parts of the world. *)
Lemma placed_ext w w' :
  w_now w' = w_now w -> w_db w' = w_db w -> w_registry w' = w_registry w -> w_nodes w' = w_nodes w ->
  placed addr w -> placed addr w'.
Proof.
  intros Hn Hd Hr Hs [H1 H2 H3 H4 H6 H5]. constructor; rewrite ?Hn, ?Hd, ?Hr; try done.
  intros b r Hb Hin. unfold node_holds, node_hashes. rewrite Hs. by apply H5.
Qed.

Lemma placed_pop w : placed addr w -> placed addr (pop w).
Proof. by apply placed_ext. Qed.
Lemma placed_set_access a w : placed addr w -> placed addr (set_access a w).
Proof. by apply placed_ext. Qed.
#[local] Hint Resolve placed_pop placed_set_access : orch.

(** *** Changing nodes *)

Lemma placed_node_add url hash w : placed addr w -> placed addr (node_add url hash w).
Proof.
  intros [H1 H2 H3 H4 H6 H5]. constructor; try done. simpl. intros b r Hb Hr. specialize (H5 b r Hb Hr).
  unfold node_holds, node_hashes, node_add in *. simpl. rewrite lookup_insert. case_decide; [subst; simpl; set_solver|done].
Qed.

Lemma placed_node_remove url hash w : no_rows hash w -> placed addr w -> placed addr (node_remove url hash w).
Proof.
  intros Hno [H1 H2 H3 H4 H6 H5]. constructor; try done. simpl. intros b r Hb Hr. specialize (H5 b r Hb Hr).
  pose proof (Hno b Hb). unfold node_holds, node_hashes, node_remove in *. simpl. rewrite lookup_insert.
  case_decide; [subst; simpl; set_solver|done].
Qed.

(** A world without rows of [hash]. *)
Definition clear (hash : string) (w : World) : Prop := placed addr w /\ no_rows hash w.

Lemma clear_pop hash w : clear hash w -> clear hash (pop w).
Proof. intros [? ?]. split; [by apply placed_pop | done]. Qed.
Lemma clear_set_access hash a w : clear hash w -> clear hash (set_access a w).
Proof. intros [? ?]. split; [by apply placed_set_access | done]. Qed.
#[local] Hint Resolve clear_pop clear_set_access : orch.

Lemma keeps_deleteBlob_nodes hash reps : keeps (clear hash) (deleteBlob_nodes hash reps).
Proof.
  induction reps as [|r reps IH]; simpl; [auto with orch|].
  apply keeps_bind; [auto with orch|]. intros server. apply keeps_bind; [|done].
  destruct (truthy server) as [url|]; [|auto with orch].
  apply keeps_catch; [|auto with orch]. apply keeps_node_call; [auto with orch|].
  intros w [Hp Hn]. split; [by apply placed_node_remove | done].
Qed.

Lemma keeps_invalidate npub : keeps (placed addr) (cache_invalidate npub).
Proof. apply keeps_modify. auto with orch. Qed.
Lemma keeps_invalidate_clear hash npub : keeps (clear hash) (cache_invalidate npub).
Proof. apply keeps_modify. auto with orch. Qed.
Lemma keeps_invalidate_all hash owners : keeps (clear hash) (invalidate_all owners).
Proof. induction owners; simpl; auto using keeps_bind, keeps_ret, keeps_invalidate_clear. Qed.

(** *** Changing tables *)

(** A db-api operation that keeps the tables consistent, the storages, and adds
    no row is safe. *)
Lemma placed_set_db w db' :
  db_ok db' -> storages db' = storages (w_db w) ->
  (forall b, b ∈ blobs db' -> b ∈ blobs (w_db w)) -> placed addr w -> placed addr (set_db db' w).
Proof.
  intros Hok Hst Hsub [H1 H2 H3 H4 H6 H5]. constructor; simpl; try done.
  - unfold all_storages. rewrite Hst. done.
  - intros b Hb. by apply H6, Hsub.
  - intros b r Hb Hr. by apply (H5 b r (Hsub b Hb) Hr).
Qed.

Lemma keeps_get {A} (f : Db -> reply A) : keeps (placed addr) (client_get f).
Proof. apply keeps_client_get. auto with orch. Qed.
Lemma keeps_get_clear {A} hash (f : Db -> reply A) : keeps (clear hash) (client_get f).
Proof. apply keeps_client_get. auto with orch. Qed.
Lemma keeps_read {A} (f : Db -> reply A) : keeps (placed addr) (client_ok (read_only f)).
Proof. apply keeps_client_ok; [auto with orch|]. intros w Hw. simpl. by rewrite set_db_id. Qed.

(** *** Deleting rows *)

Lemma deleteBlob_rows hash qn qa db b :
  db_ok db -> b ∈ blobs (deleteBlob hash qn qa db).2 -> b ∈ blobs db.
Proof.
  intros Hdb. unfold deleteBlob. case_match; [done|].
  destruct (transaction _ db) as [[[last rem]|e] db'] eqn:E; simpl.
  - apply transaction_Ok, deleteBlob_tx_Ok in E as (_ & -> & _); [|done].
    by intros [_ ?]%list_elem_of_filter.
  - by apply transaction_Throw in E as [_ ->].
Qed.

Lemma placed_delete hash qn qa w :
  placed addr w -> placed addr (set_db (deleteBlob hash qn qa (w_db w)).2 w).
Proof.
  intros Hp. apply placed_set_db; [|apply deleteBlob_storages| |done].
  - apply deleteBlob_db_ok, Hp.
  - intros b. apply deleteBlob_rows, Hp.
Qed.

Lemma keeps_client_deleteBlob hash who : keeps (placed addr) (client_deleteBlob hash who).
Proof.
  apply keeps_bind; [|auto with orch]. apply keeps_client_ok; [auto with orch|].
  intros w. apply placed_delete.
Qed.

(** What an acknowledged deletion means for the rows. *)
Lemma client_deleteBlob_Ok hash who rem w w' :
  placed addr w -> client_deleteBlob hash who w = (Ok rem, w') ->
  placed addr w' /\ (rem = 0 \/ who = None -> no_rows hash w').
Proof.
  intros Hp Hdel. split.
  { replace w' with (client_deleteBlob hash who w).2 by by rewrite Hdel. by apply keeps_client_deleteBlob. }
  unfold client_deleteBlob in Hdel. apply bind_Ok in Hdel as ([last r] & w1 & Hc & Hr).
  unfold ret in Hr. simpl in Hr. simplify_eq. apply client_ok_inv in Hc as (st & db' & Hd & ->).
  destruct (decide (who = Some "")) as [->|Hw]; [done|]. rewrite deleteBlob_who in Hd by done.
  destruct (transaction _ (w_db w)) as [[[l rr]|e] db1] eqn:E; simpl in Hd;
    [|by destruct (bool_decide (prismaErrorCode e = Some "P2025"))].
  simplify_eq. apply transaction_Ok, deleteBlob_tx_Ok in E as (_ & Hb & _ & Hr); [|apply Hp].
  intros Hcase b Hb' Hh. simpl in Hb'. destruct Hcase as [-> | ->].
  - assert (b ∈ filter (fun b => b_hash b = hash) (blobs db')) as Hf by by apply list_elem_of_filter.
    destruct (filter _ (blobs db')); [by apply elem_of_nil in Hf | simpl in Hr; lia].
  - rewrite Hb in Hb'. apply list_elem_of_filter in Hb' as [Hd _].
    unfold delete_where in Hd. rewrite bool_decide_eq_true_2 in Hd by done. done.
Qed.

(** Rows first, then the bytes: safe whatever the network does. *)
Lemma keeps_delete_then {A} hash npub reps (k : Z -> P A) :
  (forall rem, keeps (placed addr) (k rem)) ->
  keeps (placed addr) (bind (client_deleteBlob hash (Some npub)) (fun rem =>
    bind (if rem =? 0 then deleteBlob_nodes hash reps else ret tt) (fun _ => k rem))).
Proof.
  intros Hk w Hp. unfold bind at 1.
  destruct (client_deleteBlob hash (Some npub) w) as [[rem|e] w1] eqn:Ed.
  - destruct (client_deleteBlob_Ok hash (Some npub) rem w w1) as [Hp1 Hno]; [done..|].
    assert (placed addr ((if rem =? 0 then deleteBlob_nodes hash reps else ret tt) w1).2) as Hp2.
    { destruct (rem =? 0) eqn:Er; [|done]. zbool. apply (keeps_deleteBlob_nodes hash reps w1).
      split; [done|]. apply Hno. by left. }
    unfold bind. destruct ((if rem =? 0 then deleteBlob_nodes hash reps else ret tt) w1) as [[u|e] w2];
      [by apply Hk | done].
  - simpl. replace w1 with (client_deleteBlob hash (Some npub) w).2 by by rewrite Ed.
    by apply keeps_client_deleteBlob.
Qed.

Lemma keeps_remove_owner hash npub reps : keeps (placed addr) (remove_owner hash npub reps).
Proof.
  intros w Hp. unfold remove_owner, bind at 1.
  destruct (client_deleteBlob hash (Some npub) w) as [[rem|e] w1] eqn:Ed.
  - destruct (client_deleteBlob_Ok hash (Some npub) rem w w1) as [Hp1 Hno]; [done..|].
    destruct (rem =? 0) eqn:Er.
    + zbool. apply (keeps_bind (clear hash)); [apply keeps_invalidate_clear| |by split; [|apply Hno; left]].
      intros _. apply keeps_deleteBlob_nodes.
    + by apply keeps_bind; [apply keeps_invalidate|auto with orch|].
  - simpl. replace w1 with (client_deleteBlob hash (Some npub) w).2 by by rewrite Ed.
    by apply keeps_client_deleteBlob.
Qed.

(** *** Storing *)

Lemma postBlob_rows now req db b :
  b ∈ blobs (postBlob now req db).2 ->
  b ∈ blobs db \/ b_hash b = pb_hash req /\ b_replicas b = pb_replicas req.
Proof.
  unfold postBlob. destruct (BigInt (pb_size req)) as [z|]; [|auto].
  destruct (transaction _ db) as [[[b0 u]|e] db'] eqn:E; simpl.
  - apply transaction_Ok, postBlob_tx_Ok in E as (u0 & _ & _ & _ & _ & -> & _ & _ & ->). simpl.
    intros [Hb| ->%list_elem_of_singleton]%elem_of_app; auto.
  - apply transaction_Throw in E as [_ ->]. auto.
Qed.

Lemma placed_postBlob req w :
  placed addr w -> pb_replicas req <> [] -> (forall r, r ∈ pb_replicas req -> node_holds (addr r) (pb_hash req) w) ->
  placed addr (set_db (postBlob (w_now w) req (w_db w)).2 w).
Proof.
  intros Hp Hne Hheld. constructor; simpl; try apply Hp.
  - apply postBlob_db_ok; apply Hp.
  - unfold all_storages. rewrite postBlob_storages. apply Hp.
  - intros b [Hb|[_ ->]]%postBlob_rows; [by apply (pl_replicas _ _ Hp) | done].
  - intros b r [Hb|[Hh Hr]]%postBlob_rows Hin; [by apply (pl_rows _ _ Hp b r)|].
    rewrite Hh. apply Hheld. by rewrite <- Hr.
Qed.

(** Every id the upload loop reports holds the blob. *)
Lemma upload_loop_held fuel npub hash now count remaining stored w res w' :
  (forall c, c ∈ remaining -> sc_url c = addr (sc_id c)) ->
  (forall id, id ∈ stored -> node_holds (addr id) hash w) ->
  upload_loop fuel npub hash now count remaining stored w = (Ok res, w') ->
  forall id, id ∈ res -> node_holds (addr id) hash w'.
Proof.
  revert remaining stored w. induction fuel as [|fuel IH]; intros remaining stored w Hc Hs Hl; simpl in Hl.
  - unfold ret in Hl. by simplify_eq.
  - case_match; [|unfold ret in Hl; by simplify_eq].
    destruct (selectOwner npub remaining now) as [s|] eqn:Hsel; [|unfold ret in Hl; by simplify_eq].
    assert (s ∈ remaining) as Hin.
    { destruct remaining as [|c0 cs]; [done|].
      destruct (selectOwner_elem npub (c0 :: cs) now) as (s' & Hs' & Hin); [done|]. congruence. }
    apply bind_Ok in Hl as (ok & w1 & Hput & Hl). eapply IH; [| |exact Hl].
    { intros c Hc'. apply Hc. rewrite (splice_perm s remaining Hin). set_solver. }
    unfold catch, bind in Hput.
    assert (forall u h, node_holds u h w -> node_holds u h (put_upload (sc_url s) hash w).2) as Hmono
      by (intros; by apply put_upload_mono).
    destruct (put_upload (sc_url s) hash w) as [[[]|e] w2] eqn:E; simpl in *; unfold ret in Hput; simplify_eq.
    + apply put_upload_Ok in E as (Hold & _). intros id [Hid| ->%list_elem_of_singleton]%elem_of_app; [auto|].
      by rewrite <- (Hc s Hin).
    + auto.
Qed.

Definition no_lost (w : World) : Prop := Lost ∉ w_faults w.

(** A world in which the upload of [hash] may start. *)
Definition ready (hash : string) (w : World) : Prop := clear hash w /\ no_lost w.

Lemma ready_pop hash w : ready hash w -> ready hash (pop w).
Proof.
  intros [Hc Hl]. split; [by apply clear_pop|]. unfold no_lost, pop in *. simpl.
  destruct (w_faults w); set_solver.
Qed.

Lemma keeps_refresh hash env : keeps (ready hash) (refresh env).
Proof.
  intros w Hw. unfold refresh, catch, bind.
  destruct (client_ok _ w) as [[rows|e] w1] eqn:E.
  - apply client_ok_inv in E as (st & db' & Hg & ->). unfold read_only in Hg. simplify_eq. simpl.
    change (set_db (w_db w) (pop w)) with (set_db (w_db (pop w)) (pop w)). rewrite set_db_id. apply ready_pop in Hw as [[Hp Hn] Hl]. split; [split|done].
    + destruct Hp as [H1 H2 H3 H4 H6 H5]. constructor; simpl; try done.
      intros id url (j & [= -> ->] & Hj)%list_elem_of_fmap.
      unfold getActive, send in H. destruct (cutoff env (w_now w)) as [cut|]; simpl in H; [|done].
      destruct (mapM storageProviderToJson _) as [js|] eqn:Em; [|done]. simplify_eq.
      apply mapM_Some_1 in Em. apply list_elem_of_lookup_1 in Hj as [i Hi].
      destruct (Forall2_lookup_r _ _ _ _ _ Em Hi) as (s & Hs & Hsj).
      apply list_elem_of_lookup_2, list_elem_of_filter in Hs as [Hact Hs]. by eapply H4.
    + done.
  - simpl. replace w1 with (client_ok (read_only (getActive env (w_now w))) w).2 by by rewrite E.
    eapply keeps_client_ok; [apply ready_pop| |exact Hw]. intros w' Hw'. simpl. by rewrite set_db_id.
Qed.

Lemma keeps_put_upload hash url : keeps (ready hash) (put_upload url hash).
Proof.
  apply keeps_node_call; [apply ready_pop|]. intros w [[Hp Hn] Hl].
  split; [split; [by apply placed_node_add | done] | done].
Qed.

Lemma keeps_upload_loop fuel npub hash now count remaining stored :
  keeps (ready hash) (upload_loop fuel npub hash now count remaining stored).
Proof.
  revert remaining stored. induction fuel as [|fuel IH]; intros remaining stored; simpl; [apply keeps_ret|].
  case_match; [|apply keeps_ret]. case_match; [|apply keeps_ret].
  apply keeps_bind; [|auto]. apply keeps_catch; [|auto with orch].
  apply keeps_bind; [apply keeps_put_upload | auto with orch].
Qed.

Lemma uploadBlob_ready env npub hash count w r w' :
  ready hash w -> uploadBlob env npub hash count w = (r, w') ->
  ready hash w' /\ match r with Ok reps => reps <> [] /\ forall id, id ∈ reps -> node_holds (addr id) hash w' | Throw _ => True end.
Proof.
  intros Hw Hup. unfold uploadBlob in Hup.
  assert (forall w1, ready hash w1 -> forall c, c ∈ candidates w1 -> sc_url c = addr (sc_id c)) as Hcand.
  { intros w1 [[Hp _] _] c ([i u] & -> & Hc)%list_elem_of_fmap. simpl. by apply (pl_registry _ _ Hp). }
  assert (keeps (ready hash) (freshCandidates env)) as Hfresh.
  { unfold freshCandidates. apply keeps_bind; [apply keeps_gets|]. intros [].
    - apply keeps_bind; [apply keeps_refresh | auto with orch].
    - auto with orch. }
  specialize (Hfresh w Hw). unfold bind at 1 in Hup.
  destruct (freshCandidates env w) as [[cands|e] w1] eqn:Ef; [|simplify_eq; done]. simpl in Hfresh.
  assert (cands = candidates w1) as ->.
  { unfold freshCandidates in Ef. apply bind_Ok in Ef as (em & w2 & _ & Ef).
    apply bind_Ok in Ef as (u & w3 & _ & Ef). unfold gets in Ef. by simplify_eq. }
  destruct (candidates w1) as [|c cs] eqn:Ec; [unfold throw in Hup; simplify_eq; done|].
  unfold bind, gets in Hup.
  pose proof (keeps_upload_loop (length (c :: cs)) npub hash (w_now w1) count (c :: cs) [] w1 Hfresh) as Hk.
  destruct (upload_loop _ _ _ _ _ _ _ w1) as [[res|e] w2] eqn:El; [|simplify_eq; done]. simpl in Hk.
  assert (forall id, id ∈ res -> node_holds (addr id) hash w2) as Hheld.
  { eapply upload_loop_held; [| |exact El]; [|set_solver]. rewrite <- Ec. by apply Hcand. }
  destruct res; unfold throw, ret in Hup; simplify_eq; done.
Qed.

(** *** Claiming *)

Lemma keeps_undo hash reps : keeps (clear hash) (undo_store hash reps).
Proof.
  apply keeps_bind.
  - apply keeps_catch; [apply keeps_get_clear | auto with orch].
  - intros [|]; [auto with orch | apply keeps_deleteBlob_nodes].
Qed.

Lemma keeps_client_createBlob hash npub size reps w :
  placed addr w -> reps <> [] -> (forall r, r ∈ reps -> node_holds (addr r) hash w) ->
  placed addr (client_createBlob hash npub size reps w).2.
Proof.
  intros Hp Hne Hheld. unfold client_createBlob.
  apply (keeps_client_ok (fun w' => placed addr w' /\ w_now w' = w_now w /\
    forall r, r ∈ reps -> node_holds (addr r) hash w')); [| |done].
  - intros w1 (H1 & H2 & H3). split; [by apply placed_pop | done].
  - intros w1 (H1 & H2 & H3). split; [|done]. rewrite <- H2. by apply placed_postBlob.
Qed.

Lemma postBlob_201_or_same now req db r db' :
  valid_time now = true -> postBlob now req db = (r, db') -> (exists a, r = Res 201 a) \/ db' = db.
Proof.
  unfold postBlob. intros Hn Hp. destruct (BigInt (pb_size req)) as [z|]; [|simplify_eq; auto].
  destruct (transaction _ db) as [[[b u]|err] db1] eqn:E.
  - apply transaction_Ok, postBlob_tx_Ok in E as (u0 & _ & _ & _ & _ & Hb & _).
    destruct (toISOString_valid now Hn) as [iso Hiso]. unfold send, blobToJson in Hp.
    rewrite Hb in Hp. simpl in Hp. rewrite Hiso in Hp. simpl in Hp. simplify_eq. left. by eexists.
  - apply transaction_Throw in E as [_ ->]. simplify_eq. auto.
Qed.

Lemma placed_claim_blob hash npub size reps storedNow user access w :
  placed addr w -> no_lost w -> reps <> [] -> (forall r, r ∈ reps -> node_holds (addr r) hash w) ->
  (storedNow = true -> no_rows hash w) ->
  placed addr (claim_blob hash npub size reps storedNow user access w).2.
Proof.
  intros Hp Hl Hne Hheld Hno. pose proof (keeps_client_createBlob hash npub size reps w Hp Hne Hheld) as Hpc.
  unfold claim_blob, catch, bind at 1.
  destruct (client_createBlob hash npub size reps w) as [[created|e] w1] eqn:Ec; simpl in Hpc.
  - unfold bind, cache_invalidate, modify, ret. simpl. by apply placed_set_access.
  - assert (storedNow = true -> clear hash w1) as Hclear.
    { intros Hs. split; [done|]. unfold client_createBlob in Ec. apply client_ok_throw in Ec.
      - destruct Ec as [->|(r & db' & Hr & -> & Hcase)]; [by apply Hno|].
        intros b Hb. simpl in Hb.
        destruct (postBlob_201_or_same _ _ _ _ _ (pl_now _ _ Hp) Hr) as [[a ->]| ->]; [|by apply Hno].
        by destruct Hcase.
      - unfold no_lost in Hl. destruct (w_faults w); set_solver. }
    destruct (match e with EDbApi st err => _ | _ => _ end).
    { by apply (keeps_bind (placed addr)); [apply keeps_get | auto with orch|]. }
    unfold bind at 1.
    assert (placed addr ((if storedNow then undo_store hash reps else ret tt) w1).2) as Hp2.
    { destruct storedNow; [|done]. apply (keeps_undo hash reps w1). by apply Hclear. }
    destruct ((if storedNow then undo_store hash reps else ret tt) w1) as [[u|e'] w2]; simpl in Hp2; [|done].
    destruct (match e with EDbApi st err => _ | _ => _ end); [|done].
    by apply (keeps_bind (placed addr)); [apply keeps_invalidate | auto with orch|].
Qed.

Lemma keeps_describe `{DateEngine} I env r hash size mine c : keeps I (describe env r hash size mine c).
Proof. apply keeps_bind; auto with orch. Qed.

Lemma placed_finish_upload `{DateEngine} env r hash npub size user access existing w :
  placed addr w -> no_lost w ->
  match existing with
  | None => no_rows hash w
  | Some (b, _) => bj_replicas b <> [] /\ forall rep, rep ∈ bj_replicas b -> node_holds (addr rep) hash w
  end ->
  placed addr (finish_upload env r hash npub size user access existing w).2.
Proof.
  intros Hp Hl Hex. unfold finish_upload.
  destruct (match existing with Some (_, owners) => bool_decide (npub ∈ owners) | None => false end);
    [by apply keeps_describe|].
  assert (forall reps w1 b, placed addr w1 -> no_lost w1 -> (b = true -> no_rows hash w1) -> reps <> [] ->
    (forall rep, rep ∈ reps -> node_holds (addr rep) hash w1) ->
    placed addr (bind (claim_blob hash npub size reps b user access)
      (fun claimed => match claimed with inl resp => ret resp | inr createdAt => describe env r hash size false createdAt end) w1).2) as Hclaim.
  { intros reps w1 b Hp1 Hl1 Hno Hne Hheld. unfold bind.
    pose proof (placed_claim_blob hash npub size reps b user access w1 Hp1 Hl1 Hne Hheld Hno) as Hc.
    destruct (claim_blob _ _ _ _ _ _ _ w1) as [[[resp|c]|e] w2]; done. }
  unfold bind at 1. destruct existing as [[b owners]|].
  - unfold ret at 1. rewrite bool_decide_eq_false_2 by done. by apply Hclaim; try apply Hex.
  - destruct (uploadBlob _ _ _ _ w) as [[reps|e] w1] eqn:Eu.
    + apply uploadBlob_ready in Eu as [[[Hp1 Hn1] Hl1] [Hne Hheld]]; [|done].
      rewrite bool_decide_eq_true_2 by done. by apply Hclaim.
    + apply uploadBlob_ready in Eu as [[[Hp1 _] _] _]; done.
Qed.
End Placed.

(** ** Reading requests keep every invariant that does not look at caches *)

Section Readers.
Context `{DateEngine} `{Nostr}.
Context (I : World -> Prop) (I_pop : forall w, I w -> I (pop w))
  (I_access : forall a w, I w -> I (set_access a w)).

Lemma keeps_getUser npub : keeps I (client_getUser npub).
Proof. by apply keeps_client_get. Qed.
Lemma keeps_getBlob hash : keeps I (client_getBlob hash).
Proof. by apply keeps_client_get. Qed.
Lemma keeps_ok_read {A} (f : Db -> reply A) : keeps I (client_ok (read_only f)).
Proof. apply keeps_client_ok; [done|]. intros w Hw. simpl. by rewrite set_db_id. Qed.
Lemma keeps_cache_invalidate npub : keeps I (cache_invalidate npub).
Proof. apply keeps_modify. auto. Qed.
#[local] Hint Resolve keeps_getUser keeps_getBlob keeps_cache_invalidate : orch.

Lemma keeps_cache_get ttl npub : keeps I (cache_get ttl npub).
Proof.
  assert (forall now, keeps I (cache_read npub now)) as Hread.
  { intros now. apply keeps_bind; [auto with orch|]. intros u. apply keeps_bind; auto with orch. }
  apply keeps_bind; [auto with orch|]. intros now. apply keeps_bind; [auto with orch|].
  intros [[u t]|]; [case_match|]; auto with orch.
Qed.

Lemma keeps_withAccess c u : keeps I (withAccess c u).
Proof. apply keeps_bind; [auto with orch|]. intros now. case_match; auto with orch. Qed.

Lemma keeps_loadAccess env npub fresh : keeps I (loadAccess env npub fresh).
Proof.
  apply keeps_bind.
  - destruct fresh; [apply keeps_bind; auto with orch | apply keeps_cache_get].
  - intros found. apply keeps_bind; [apply keeps_withAccess | auto with orch].
Qed.

Lemma keeps_authorize r a h s : keeps I (authorize r a h s).
Proof.
  apply keeps_bind; [auto with orch|]. intros now. unfold lift_auth. case_match; auto with orch.
Qed.

Lemma keeps_admit_upload env r hash size : keeps I (admit_upload env r hash size).
Proof.
  apply keeps_bind; [apply keeps_authorize|]. intros npub.
  apply keeps_bind; [apply keeps_loadAccess|]. intros cached. apply keeps_bind.
  - unfold loadAccessForDenialCheck. case_match; [auto with orch | apply keeps_loadAccess].
  - intros [user access]. case_match; [auto with orch|]. apply keeps_bind; [|auto with orch].
    unfold lift_opt. case_match; auto with orch.
Qed.

Lemma keeps_lookup_blob hash : keeps I (lookup_blob hash).
Proof. apply keeps_catch; [apply keeps_bind|]; auto with orch. Qed.
End Readers.

(** What a lookup says about the rows. *)
Lemma client_getBlob_Ok hash w o w' :
  client_getBlob hash w = (Ok o, w') ->
  w' = pop w /\
  match o with
  | None => no_rows hash w
  | Some (j, owners) =>
      owners = b_npub <$> rows_of_hash hash (w_db w) /\
      exists b, b ∈ blobs (w_db w) /\ b_hash b = hash /\ blobToJson b = Some j
  end.
Proof.
  intros [-> Ho]%client_get_inv. split; [done|]. unfold getBlob in Ho.
  assert (forall b, b ∈ rows_of_hash hash (w_db w) <-> b ∈ blobs (w_db w) /\ b_hash b = hash) as Hrows.
  { intros b. unfold rows_of_hash. rewrite order_asc_perm, list_elem_of_filter. tauto. }
  destruct o as [[j owners]|].
  - destruct Ho as [st Ho]. destruct (rows_of_hash hash (w_db w)) as [|b rest]; [done|].
    unfold send in Ho. case_match eqn:Ej; [|done]. injection Ho as _ ->.
    apply bind_Some in Ej as (j' & Hj & [= -> <-]). split; [done|].
    exists b. destruct (proj1 (Hrows b) ltac:(set_solver)). done.
  - destruct Ho as [e Ho]. destruct (rows_of_hash hash (w_db w)) as [|b rest] eqn:Er.
    + intros b Hb Hh. apply (not_elem_of_nil b). by apply Hrows.
    + unfold send in Ho. by case_match.
Qed.

Section Requests.
Context `{DateEngine} `{Nostr} `{AdminBackend} `{TextSearch}.
Context (addr : string -> string).

Definition live (w : World) : Prop := placed addr w /\ no_lost w.

Lemma live_pop w : live w -> live (pop w).
Proof.
  intros [Hp Hl]. split; [by apply placed_pop|]. unfold no_lost, pop in *. simpl.
  destruct (w_faults w); set_solver.
Qed.
Lemma live_access a w : live w -> live (set_access a w).
Proof. intros [Hp Hl]. split; [by apply placed_set_access | done]. Qed.

Lemma blobToJson_replicas b j : blobToJson b = Some j -> bj_replicas j = b_replicas b.
Proof. unfold blobToJson. by intros (iso & _ & [= <-])%bind_Some. Qed.

Lemma placed_putUpload env r w : live w -> placed addr (putUpload env r w).2.
Proof.
  intros Hlive. unfold putUpload, or_500, catch.
  match goal with |- context [let (r, w') := ?m w in _] => assert (placed addr (m w).2) as Hm end.
  { destruct (raw_body r) as [[|c data]|]; [apply Hlive| |apply Hlive].
    case_match; [apply Hlive|]. set (hash := sha256 _). set (size := Z.of_nat _).
    unfold bind at 1.
    pose proof (keeps_admit_upload live live_pop live_access env r hash size w Hlive) as Ha.
    destruct (admit_upload env r hash size w) as [[[resp|[[npub user] access]]|e] w1]; simpl in Ha;
      [apply Ha| |apply Ha].
    unfold bind at 1. destruct (lookup_blob hash w1) as [lr w2] eqn:El.
    assert (live w2) as Hl2.
    { replace w2 with (lookup_blob hash w1).2 by by rewrite El. by apply keeps_lookup_blob; [apply live_pop|]. }
    destruct lr as [[resp|existing]|e]; [apply Hl2| |apply Hl2].
    unfold lookup_blob, catch, bind in El.
    destruct (client_getBlob hash w1) as [[o|e] w3] eqn:Eg; simpl in El; unfold ret in El; simplify_eq.
    apply client_getBlob_Ok in Eg as [-> Ho].
    apply placed_finish_upload; [apply Hl2|apply Hl2|].
    destruct existing as [[j owners]|]; [|exact Ho].
    destruct Ho as (_ & b & Hb & Hh & Hj). rewrite (blobToJson_replicas _ _ Hj).
    split; [by apply (pl_replicas _ _ (proj1 Ha))|]. intros rep. rewrite <- Hh. intros Hrep. by apply (pl_rows _ _ (proj1 Ha) b rep). }
  match goal with |- context [let (r, w') := ?m w in _] => destruct (m w) as [[a|e] w'] end; simpl in *; [done|].
  by destruct e.
Qed.

(** *** The other requests *)

Lemma placed_set w' w :
  w_now w' = w_now w -> w_db w' = w_db w -> w_registry w' = w_registry w -> w_nodes w' = w_nodes w ->
  placed addr w -> placed addr w'.
Proof. apply placed_ext. Qed.

Lemma keeps_limit o get set r :
  (forall b w, placed addr w -> placed addr (set b w)) -> keeps (placed addr) (limit o get set r).
Proof. intros Hs w Hw. unfold limit. destruct (hit _ _ _ _). by apply Hs. Qed.

Lemma keeps_verify_request r : keeps (placed addr) (verify_request r).
Proof. intros w Hw. unfold verify_request. destruct (verifyNip98 _ _ _ _). by apply (placed_set _ w). Qed.

Lemma keeps_internal {A} r (m : P (presp A)) : keeps (placed addr) m -> keeps (placed addr) (internal r m).
Proof.
  intros Hm. apply keeps_bind.
  - apply keeps_bind; [apply keeps_verify_request|]. intros [s|e]; [|auto with orch].
    apply keeps_catch; [|auto with orch]. apply keeps_bind; [apply keeps_get | auto with orch].
  - intros [[|]|]; auto with orch.
Qed.

Lemma keeps_admin {A} env r (m : string -> P (presp A)) :
  (forall n, keeps (placed addr) (m n)) -> keeps (placed addr) (admin env r m).
Proof.
  intros Hm. apply keeps_bind; [apply keeps_limit; intros b w; by apply placed_set|].
  intros ok. case_match; [auto with orch|]. apply keeps_bind.
  - apply keeps_bind; [apply keeps_verify_request|]. intros [s|e]; [|auto with orch].
    apply keeps_bind; [|auto with orch]. apply keeps_bind; [auto with orch|]. intros now.
    apply keeps_bind; [auto with orch|]. intros cached.
    assert (keeps (placed addr) (bind next_fault (fun flt => match flt with
      | Fine => bind (modify (fun w => set_admins (<[sg_npub s := (is_true (backendAdmin now (sg_npub s)), now)]> (w_admins w)) w))
                  (fun _ => ret (is_true (backendAdmin now (sg_npub s))))
      | _ => ret false end))) as Hask.
    { apply keeps_bind; [apply keeps_next_fault, placed_pop|]. intros []; auto with orch.
      apply keeps_bind; [|auto with orch]. apply keeps_modify. intros w. by apply placed_set. }
    destruct cached as [[b t]|]; repeat case_match; auto with orch.
  - intros [[|]|]; auto with orch.
Qed.

Lemma keeps_or_502 {A} m (p : P (presp A)) : keeps (placed addr) p -> keeps (placed addr) (or_502 m p).
Proof. intros Hp. apply keeps_catch; auto with orch. Qed.
Lemma keeps_or_500 {A} m (p : P (presp A)) : keeps (placed addr) p -> keeps (placed addr) (or_500 m p).
Proof. intros Hp. apply keeps_catch; [done|]. intros []; auto with orch. Qed.

Lemma keeps_deleteRoute r : keeps (placed addr) (deleteRoute r).
Proof.
  apply keeps_or_500. destruct (match_hash _) as [hash|]; [|auto with orch].
  apply keeps_bind; [apply keeps_authorize|]. intros npub.
  apply keeps_bind; [apply keeps_get|]. intros [[j owners]|]; [|auto with orch].
  case_match; [auto with orch|]. apply keeps_bind; [apply keeps_remove_owner | auto with orch].
Qed.

Lemma keeps_assign npub body : keeps (placed addr) (client_assignEntitlement npub body).
Proof.
  intros w Hw. unfold client_assignEntitlement.
  apply (keeps_client_ok (fun w' => placed addr w' /\ w_now w' = w_now w)); [| |done].
  - intros w1 [H1' H2']. split; [by apply placed_pop | done].
  - intros w1 [Hp Hn]. split; [|done]. rewrite <- Hn.
    destruct (postEntitlement_storages (w_now w1) npub (or_empty body) (w_db w1)) as [Hs Hb].
    apply placed_set_db; [|done| |done].
    + apply postEntitlement_db_ok; apply Hp.
    + by rewrite Hb.
Qed.

Lemma keeps_grant {A} (e : perr -> P (presp A)) npub body (k : UserJson -> P (presp A)) :
  (forall u, keeps (placed addr) (k u)) -> (forall x, keeps (placed addr) (e x)) ->
  keeps (placed addr) (catch (bind (client_assignEntitlement npub body) k) e).
Proof. intros Hk He. apply keeps_catch; [apply keeps_bind; [apply keeps_assign|]|]; done. Qed.

Lemma keeps_db_error {A} m e : keeps (placed addr) (@db_error A m e).
Proof. destruct e; apply keeps_ret. Qed.

(** Writes to the audit tables. *)
Lemma keeps_audit {A} (f : Db -> reply A * Db) :
  (forall db, same_accounts db (f db).2 /\ storages (f db).2 = storages db) ->
  keeps (placed addr) (client_ok f).
Proof.
  intros Hf. apply keeps_client_ok; [apply placed_pop|]. intros w Hp.
  destruct (Hf (w_db w)) as [Hs Hst]. apply placed_set_db; [|done| |done].
  - eapply db_ok_same; [exact Hs|apply Hp].
  - by rewrite (sa_blobs _ _ Hs).
Qed.

Section Ids.
Context (fresh_id : list string -> string).

Lemma keeps_recordModeration hash npub a reason :
  keeps (placed addr) (client_recordModeration fresh_id hash npub a reason).
Proof.
  intros w. apply keeps_audit. intros db. split; [apply postModeration_same|].
  unfold postModeration. by repeat case_match.
Qed.

Lemma keeps_logNotification npub kind ref channel :
  keeps (placed addr) (client_logNotification fresh_id npub kind ref channel).
Proof.
  intros w. unfold client_logNotification. apply keeps_catch.
  - apply keeps_bind; [|auto with orch]. apply keeps_audit. intros db.
    split; [apply postNotification_same|].
    unfold postNotification, transaction, notification_create. by repeat case_match; simplify_eq.
  - intros []; auto with orch. case_match; auto with orch.
Qed.

Lemma keeps_mapM_P {A B} I (f : A -> P B) l : (forall a, keeps I (f a)) -> keeps I (mapM_P f l).
Proof.
  intros Hf. induction l as [|a l IH]; simpl; [auto with orch|].
  apply keeps_bind; [done|]. intros b. apply keeps_bind; auto with orch.
Qed.

Lemma keeps_deleteAdminBlob env r param : keeps (placed addr) (deleteAdminBlob env fresh_id r param).
Proof.
  apply keeps_admin. intros adminNpub. apply keeps_or_502.
  destruct (match_hash param) as [hash|]; [|auto with orch]. cbv zeta.
  match goal with |- context [if String.eqb ?x "" then _ else _] => destruct (String.eqb x "") end;
    [auto with orch|].
  apply keeps_bind; [apply keeps_get|]. intros [[j owners]|]; [|auto with orch].
  intros w Hp. unfold bind at 1. destruct (client_deleteBlob hash None w) as [[rem|e] w1] eqn:Ed.
  - apply (client_deleteBlob_Ok addr) in Ed as [Hp1 Hno]; [|done].
    assert (clear addr hash w1) as Hc by (split; [done|]; apply Hno; by right).
    unfold bind at 1. pose proof (keeps_invalidate_all addr hash owners w1 Hc) as H1'.
    destruct (invalidate_all owners w1) as [[u|e] w2]; simpl in H1'; [|apply H1'].
    unfold bind at 1. pose proof (keeps_deleteBlob_nodes addr hash (bj_replicas j) w2 H1') as H2'.
    destruct (deleteBlob_nodes _ _ w2) as [[u'|e] w3]; simpl in H2'; [|apply H2'].
    revert H2'. intros [Hp3 _]. revert w3 Hp3. apply keeps_bind; [|auto with orch].
    apply keeps_mapM_P. intros owner. apply keeps_bind; [apply keeps_recordModeration|].
    intros action. apply keeps_bind; [|auto with orch].
    apply keeps_bind; [apply keeps_catch; [apply keeps_logNotification | auto with orch]|]. intros _.
    apply keeps_bind; [apply keeps_catch; [apply keeps_logNotification | auto with orch] | auto with orch].
  - simpl. replace w1 with (client_deleteBlob hash None w).2 by by rewrite Ed.
    by apply keeps_client_deleteBlob.
Qed.
End Ids.

Lemma keeps_purge_batch npub batch purged : keeps (placed addr) (purge_batch npub batch purged).
Proof.
  revert purged. induction batch as [|b batch IH]; intros purged; simpl; [auto with orch|].
  by apply (keeps_delete_then addr (bj_hash b) npub (bj_replicas b) (fun _ => purge_batch npub batch (purged + 1))).
Qed.

Lemma keeps_purgeRoute fuel npub : keeps (placed addr) (purgeRoute fuel npub).
Proof.
  apply keeps_or_502. apply keeps_bind; [|intros p; apply keeps_bind; [apply keeps_invalidate | auto with orch]].
  generalize 0. induction fuel as [|fuel IH]; intros purged; cbn [purge_loop]; [auto with orch|].
  apply keeps_bind; [apply keeps_read|]. intros batch. destruct (items batch); [auto with orch|].
  apply keeps_bind; [apply keeps_purge_batch | auto].
Qed.
End Requests.
