(* ===== verification/ProxySystem.v ===== *)
(** * The proxy under any sequence of requests

    Requests served one after the other, each with its own time and its own
    network faults; what a successful upload, download and purge guarantee;
    what a lost answer and a race can break; the in-flight byte budget. *)

From S2P Require Import Prelude Js Dates Http Lifecycle Entitlement Db DbApi DbFacts MeshApi DbSystem Nip98 Bud11 World RateLimit Servers Access Proxy ProxyFacts.

(** ** Requests *)

Inductive proxy_op :=
| RUpload (r : Req)
| RHeadUpload (r : Req)
| RGetBlob (r : Req) (includeBody : bool)
| RDelete (r : Req)
| RStorage (r : Req)
| RAccount (r : Req)
| RAccountBlobs (r : Req)
| RAccountNotifications (r : Req)
| RInternalUser (r : Req) (npub : string)
| RInternalGrant (r : Req) (npub : string)
| RInternalPurge (r : Req) (npub : string) (fuel : nat)
| RCapacity (r : Req)
| RAdminUsers (r : Req)
| RAdminBlobs (r : Req)
| RAdminStats (r : Req)
| RAdminAudit (r : Req)
| RAdminGrant (r : Req) (npub : string)
| RAdminDelete (r : Req) (param : string).

Definition set_time (t : Z) (w : World) : World :=
  {| w_now := t; w_db := w_db w; w_nodes := w_nodes w; w_registry := w_registry w;
     w_access := w_access w; w_admins := w_admins w; w_replay := w_replay w;
     w_uploadLimiter := w_uploadLimiter w; w_accountLimiter := w_accountLimiter w;
     w_adminLimiter := w_adminLimiter w; w_inflight := w_inflight w; w_faults := w_faults w |}.

Section Requests.
Context `{DateEngine} `{Nostr} `{AdminBackend} `{TextSearch}.
Context (env : ProxyEnv) (fresh_id : list string -> string).

(** [PUT /upload] with its gate, and the budget given back at the end. *)
Definition fullUpload (r : Req) : P (presp Descriptor) := (
  do* g := uploadGate env r in
  match g with
  | inl (PErr st e) => ret (PErr st e)
  | inl (PDenied d) => ret (PDenied d)
  | inl (POk st _) => ret (PErr st "")
  | inr length =>
      do* res := putUpload env r in
      do* _ := release length in
      ret res
  end)%P.

Definition serve_op (op : proxy_op) : P unit :=
  match op with
  | RUpload r => (do* _ := fullUpload r in ret tt)%P
  | RHeadUpload r => (do* _ := headUpload env r in ret tt)%P
  | RGetBlob r b => (do* _ := handleGetBlob env r b in ret tt)%P
  | RDelete r => (do* _ := deleteRoute r in ret tt)%P
  | RStorage r => (do* _ := getStorageRoute env r in ret tt)%P
  | RAccount r => (do* _ := getAccount env r in ret tt)%P
  | RAccountBlobs r => (do* _ := getAccountBlobs r in ret tt)%P
  | RAccountNotifications r => (do* _ := getAccountNotifications r in ret tt)%P
  | RInternalUser r npub => (do* _ := internal r (getInternalUser npub) in ret tt)%P
  | RInternalGrant r npub => (do* _ := internal r (postInternalEntitlement npub (rq_json r)) in ret tt)%P
  | RInternalPurge r npub fuel => (do* _ := internal r (purgeRoute fuel npub) in ret tt)%P
  | RCapacity r => (do* _ := internal r (getCapacityRoute env) in ret tt)%P
  | RAdminUsers r => (do* _ := getAdminUsers env r in ret tt)%P
  | RAdminBlobs r => (do* _ := getAdminBlobs env r in ret tt)%P
  | RAdminStats r => (do* _ := getAdminStats env r in ret tt)%P
  | RAdminAudit r => (do* _ := getAdminAudit env r in ret tt)%P
  | RAdminGrant r npub => (do* _ := postAdminEntitlement env r npub in ret tt)%P
  | RAdminDelete r param => (do* _ := deleteAdminBlob env fresh_id r param in ret tt)%P
  end.

Record request := { q_time : Z; q_faults : list fault; q_op : proxy_op }.

Definition run_request (q : request) (w : World) : World :=
  (serve_op (q_op q) (set_faults (q_faults q) (set_time (q_time q) w))).2.

Definition run_requests (qs : list request) (w : World) : World := foldl (fun w q => run_request q w) w qs.

(** Uploads are safe when no answer gets lost; the other requests always. *)
Definition request_ok (q : request) : Prop :=
  valid_time (q_time q) = true /\
  match q_op q with RUpload _ => Lost ∉ q_faults q | _ => True end.

(** ** Every request keeps rows and bytes together *)

Section Keep.
Context (addr : string -> string).

Let I := placed addr.
#[local] Definition I_pop := placed_pop addr.
#[local] Definition I_access := placed_set_access addr.

Lemma keeps_purge_iso J a : keeps J (purge_iso a).
Proof. unfold purge_iso. repeat case_match; auto with orch. Qed.

Lemma keeps_denial_check J npub c :
  (forall w, J w -> J (pop w)) -> (forall a w, J w -> J (set_access a w)) ->
  keeps J (loadAccessForDenialCheck env npub c).
Proof. intros H1' H2'. unfold loadAccessForDenialCheck. case_match; [auto with orch | by apply keeps_loadAccess]. Qed.

Lemma keeps_lift_opt {A} J (o : option A) : keeps J (lift_opt o).
Proof. destruct o; simpl; auto with orch. Qed.

Lemma keeps_uploadGate J r :
  (forall w, J w -> J (pop w)) -> (forall a w, J w -> J (set_access a w)) ->
  (forall b w, J w -> J (set_uploadLimiter b w)) -> (forall i w, J w -> J (set_inflight i w)) ->
  keeps J (uploadGate env r).
Proof.
  intros Hp Ha Hb Hi. apply keeps_catch; [|intros []; auto with orch].
  apply keeps_bind.
  { intros w Hw. unfold limit. destruct (hit _ _ _ _). by apply Hb. }
  intros ok. case_match; [auto with orch|]. apply keeps_bind; [apply keeps_authorize|]. intros npub.
  destruct (truthy _) as [len|]; [|auto with orch]. destruct (num_int _) as [length|]; [|auto with orch].
  case_match; [auto with orch|]. case_match; [auto with orch|].
  apply keeps_bind; [by apply keeps_loadAccess|]. intros cached.
  apply keeps_bind; [by apply keeps_denial_check|]. intros [user access].
  case_match; [auto with orch|]. apply keeps_bind; [apply keeps_lift_opt|]. intros [|]; [auto with orch|].
  apply keeps_bind; [auto with orch|]. intros i. case_match; [auto with orch|].
  apply keeps_bind; auto with orch.
Qed.

Lemma placed_fullUpload r w : live addr w -> I (fullUpload r w).2.
Proof.
  intros Hl. unfold fullUpload, bind at 1.
  assert (live addr (uploadGate env r w).2) as Hg.
  { revert w Hl. apply keeps_uploadGate; [apply live_pop|apply live_access|..];
      intros x w [Hp Hn]; (split; [by apply (placed_ext addr w)|done]). }
  destruct (uploadGate env r w) as [[[[]|length]|e] w1]; simpl in Hg; try apply Hg.
  unfold bind. pose proof (placed_putUpload addr env r w1 Hg) as Hp.
  destruct (putUpload env r w1) as [[res|e] w2]; simpl in *; [|done].
  by apply (placed_ext addr w2).
Qed.

Lemma keeps_openBlobStream J hash reps : (forall w, J w -> J (pop w)) -> keeps J (openBlobStream hash reps).
Proof.
  intros Hp. induction reps as [|rep reps IH]; simpl; [auto with orch|].
  apply keeps_bind; [auto with orch|]. intros server. destruct (truthy server) as [url|]; [|done].
  apply keeps_catch; [|done]. apply keeps_bind; [|auto with orch].
  apply keeps_bind; [by apply keeps_next_fault|]. intros []; auto with orch.
  apply keeps_bind; [auto with orch|]. intros [|]; auto with orch.
Qed.

Lemma keeps_handleGetBlob r b : keeps I (handleGetBlob env r b).
Proof.
  apply keeps_or_500. destruct (match_hash _) as [hash|]; [|auto with orch].
  apply keeps_bind; [apply keeps_get|]. intros [[j owners]|]; [|auto with orch].
  apply keeps_bind.
  { apply keeps_catch; [|auto with orch]. apply keeps_bind; [|auto with orch].
    apply keeps_mapM_P. intros o. apply keeps_get. }
  intros [us|]; [|auto with orch]. apply keeps_bind.
  { apply keeps_mapM_P. intros [u|]; simpl; [|auto with orch].
    apply keeps_bind; [apply keeps_withAccess | auto with orch]. }
  intros accesses. case_match.
  - destruct accesses as [|[a|] l]; auto with orch.
  - case_match; [|auto with orch].
    apply keeps_bind; [apply keeps_openBlobStream, placed_pop | auto with orch].
Qed.

Lemma keeps_headUpload r : keeps I (headUpload env r).
Proof.
  apply keeps_or_500. apply keeps_bind; [apply keeps_authorize|]. intros npub.
  destruct (truthy _) as [len|]; [|auto with orch]. cbv zeta. repeat (case_match; [auto with orch|]).
  apply keeps_bind; [apply keeps_loadAccess; [apply I_pop|apply I_access]|]. intros cached.
  apply keeps_bind; [apply keeps_denial_check; [apply I_pop|apply I_access]|]. intros [user access].
  case_match; [auto with orch|]. apply keeps_bind; [apply keeps_lift_opt | auto with orch].
Qed.

Lemma keeps_getStorageRoute r : keeps I (getStorageRoute env r).
Proof.
  apply keeps_or_500. apply keeps_bind; [apply keeps_limit; intros b w; by apply placed_set|].
  intros ok. case_match; [auto with orch|]. apply keeps_bind; [apply keeps_authorize|]. intros npub.
  apply keeps_bind; [apply keeps_loadAccess; [apply I_pop|apply I_access]|]. intros cached.
  apply keeps_bind.
  { case_match; [apply keeps_loadAccess; [apply I_pop|apply I_access] | auto with orch]. }
  intros [user access]. apply keeps_bind; [apply keeps_purge_iso | auto with orch].
Qed.

Lemma keeps_getAccount r : keeps I (getAccount env r).
Proof.
  apply keeps_or_500. apply keeps_bind; [apply keeps_authorize|]. intros npub.
  apply keeps_bind; [apply keeps_get|]. intros found.
  apply keeps_bind; [apply keeps_withAccess|]. intros access.
  apply keeps_bind; [apply keeps_purge_iso | auto with orch].
Qed.

Lemma keeps_own_page {A} r m (q : string -> Db -> reply A) :
  keeps I (or_500 m (bind (authorize r List None false) (fun npub =>
    bind (client_ok (read_only (q npub))) (fun a => ret (POk 200 a))))).
Proof.
  apply keeps_or_500. apply keeps_bind; [apply keeps_authorize|]. intros npub.
  apply keeps_bind; [apply keeps_read | auto with orch].
Qed.

Lemma keeps_admin_page {A} r m (q : Db -> reply A) :
  keeps I (admin env r (fun _ => or_502 m (bind (client_ok (read_only q)) (fun a => ret (POk 200 a))))).
Proof.
  apply keeps_admin. intros _. apply keeps_or_502. apply keeps_bind; [apply keeps_read | auto with orch].
Qed.

Lemma keeps_granting npub body :
  keeps I (catch (bind (client_assignEntitlement npub body) (fun user =>
    bind (cache_invalidate npub) (fun _ => ret (POk 200 user)))) (db_error "db api failed")).
Proof.
  apply keeps_grant; [|apply keeps_db_error]. intros u.
  apply keeps_bind; [apply keeps_invalidate | auto with orch].
Qed.

Lemma keeps_capacity : keeps I (getCapacityRoute env).
Proof.
  apply keeps_catch; [|auto with orch]. apply keeps_bind; [|auto with orch].
  intros w. apply keeps_read.
Qed.

Lemma keeps_internalUser npub : keeps I (getInternalUser npub).
Proof.
  apply keeps_catch; [|auto with orch]. apply keeps_bind; [apply keeps_get | auto with orch].
Qed.

Lemma keeps_done {A} (m : P A) : keeps I m -> keeps I (bind m (fun _ => ret tt)).
Proof. intros Hm. apply keeps_bind; auto with orch. Qed.

(** The requests that keep the invariant whatever the network does. *)
Lemma keeps_serve_op op : match op with RUpload _ => False | _ => True end -> keeps I (serve_op op).
Proof.
  destruct op; intros Hop; try done; apply keeps_done; unfold I.
  - apply keeps_headUpload.
  - apply keeps_handleGetBlob.
  - apply keeps_deleteRoute.
  - apply keeps_getStorageRoute.
  - apply keeps_getAccount.
  - apply (keeps_own_page r "Internal server error" (fun npub => getUserBlobs npub _)).
  - apply (keeps_own_page r "Internal server error" (fun npub => getUserNotifications npub _)).
  - apply keeps_internal, keeps_internalUser.
  - apply keeps_internal, keeps_granting.
  - apply keeps_internal, keeps_purgeRoute.
  - apply keeps_internal, keeps_capacity.
  - apply keeps_admin_page.
  - apply keeps_admin_page.
  - apply keeps_admin_page.
  - apply keeps_admin_page.
  - apply keeps_admin. intros _. apply keeps_granting.
  - apply keeps_deleteAdminBlob.
Qed.

Lemma placed_start t fs w : valid_time t = true -> I w -> I (set_faults fs (set_time t w)).
Proof. intros Ht [H1' H2' H3' H4' H6' H5']. by constructor. Qed.

Lemma placed_run_request q w : request_ok q -> I w -> I (run_request q w).
Proof.
  intros [Ht Hq] Hw. pose proof (placed_start _ (q_faults q) _ Ht Hw) as Hs. unfold run_request.
  destruct (q_op q) eqn:Eop; try (by apply keeps_serve_op).
  cbn [serve_op]. unfold bind.
  pose proof (placed_fullUpload r _ (conj Hs Hq : live addr _)) as Hf.
  by destruct (fullUpload r _) as [[res|e] w'].
Qed.
End Keep.

(** C3: serving any sequence of requests, the proxy never leaves a blob row
    whose bytes are missing: if every row's bytes are on all of its replicas at
    the start (and the tables are consistent and the registry agrees with the
    provider records), they are after every request, whatever calls fail, time
    out or lose their answer, as long as no answer is lost during an upload. *)
Theorem rows_have_bytes addr qs w :
  placed addr w -> Forall request_ok qs -> placed addr (run_requests qs w).
Proof.
  intros Hw Hqs. revert w Hw. induction Hqs as [|q qs Hq Hqs IH]; intros w Hw; simpl; [done|].
  by apply IH, placed_run_request.
Qed.

(** ** What an acknowledged upload means *)

Lemma postBlob_Res now req db st a db' :
  postBlob now req db = (Res st a, db') -> exists b, b ∈ blobs db' /\ blob_key b = (pb_hash req, pb_npub req).
Proof.
  unfold postBlob. destruct (BigInt (pb_size req)) as [z|]; [|done].
  destruct (transaction _ db) as [[[b u]|e] db1] eqn:E; simpl; [|by repeat case_match].
  apply transaction_Ok, postBlob_tx_Ok in E as (u0 & _ & _ & _ & _ & Hb & _ & _ & Hdb).
  intros Heq. exists b. simplify_eq. simpl. split; [set_solver | done].
Qed.

Lemma postBlob_already now req db db' :
  postBlob now req db = (Err 409 "already_exists", db') ->
  db' = db /\ exists b, b ∈ blobs db /\ blob_key b = (pb_hash req, pb_npub req).
Proof.
  unfold postBlob. destruct (BigInt (pb_size req)) as [z|]; [|done].
  destruct (transaction _ db) as [[[b u]|e] db1] eqn:E; simpl; [unfold send; by case_match|].
  apply transaction_Throw in E as [He ->]. intros Heq. split; [by simplify_eq|].
  destruct (users db !! pb_npub req) as [u|] eqn:Hu.
  - destruct (postBlob_tx_cases now req z db u Hu) as [(b & Hb & Hk & _)|[_ Hrest]].
    { exists b. split; [done|]. unfold has_blob in Hk. by zbool. }
    destruct (over_allowance u z); [|destruct Hrest as [(b & _ & Hrest)|Hrest]]; rewrite Hrest in He; by simplify_eq.
  - exfalso. unfold postBlob_tx, tx_bind, user_find in He. rewrite Hu in He. by injection He as <-.
Qed.

(** A refusal by db-api itself, as the client reports it. *)
Lemma client_ok_refused {A} (f : Db -> reply A * Db) w err w' :
  client_ok f w = (Throw (EDbApi 409 err), w') -> err <> "" ->
  exists db', f (w_db w) = (Err 409 err, db') /\ w' = set_db db' (pop w).
Proof.
  unfold client_ok, fetch_db, bind. rewrite next_fault_eq. intros Hc He.
  destruct (default Fine _); simpl in Hc; unfold serve_db, throw, ret in Hc; simpl in Hc; try done.
  - destruct (f (w_db w)) as [[st b|st err'] db'] eqn:E; simpl in Hc; [case_match|]; simplify_eq. eauto.
  - by destruct (f (w_db w)).
Qed.

Definition has_row (hash npub : string) (w : World) : Prop :=
  exists b, b ∈ blobs (w_db w) /\ blob_key b = (hash, npub).

Lemma claim_blob_row hash npub size reps storedNow user access w c w' :
  claim_blob hash npub size reps storedNow user access w = (Ok (inr c), w') -> has_row hash npub w'.
Proof.
  unfold claim_blob, catch, bind at 1.
  destruct (client_createBlob hash npub size reps w) as [[created|e] w1] eqn:Ec.
  - unfold bind, cache_invalidate, modify, ret. simpl. intros [= _ <-].
    apply client_ok_inv in Ec as (st & db' & Hp & ->). by apply postBlob_Res in Hp.
  - destruct e as [m st|st err|m]; simpl; [|destruct ((st =? 409) && String.eqb err "already_exists") eqn:Ea|].
    2: { apply andb_true_iff in Ea as [Est%Z.eqb_eq Eerr%String.eqb_eq]. subst. apply client_ok_refused in Ec as (db' & [-> Hrow]%postBlob_already & ->); [|done].
         intros (o & w2 & [-> _]%client_getBlob_Ok & Hr)%bind_Ok. unfold ret in Hr. by simplify_eq. }
    all: intros (u & w2 & _ & Hrest)%bind_Ok; try done.
    case_match; [|done]. unfold bind, cache_invalidate, modify, ret in Hrest. by simplify_eq.
Qed.

Lemma claim_blob_refusal hash npub size reps storedNow user access w st d w' :
  claim_blob hash npub size reps storedNow user access w <> (Ok (inl (POk st d)), w').
Proof.
  unfold claim_blob, catch, bind at 1.
  destruct (client_createBlob _ _ _ _ w) as [[created|e] w3]; [done|].
  destruct (match e with EDbApi st err => _ | _ => _ end).
  { by intros (o & w4 & _ & Hr)%bind_Ok. }
  intros (u & w4 & _ & Hr)%bind_Ok. case_match; [|done]. unfold sendAccessError in Hr.
  by apply bind_Ok in Hr as (u' & w5 & _ & Hr).
Qed.

Lemma describe_Ok r hash size mine c w st d w' :
  describe env r hash size mine c w = (Ok (POk st d), w') ->
  w' = w /\ st = (if mine then 200 else 201) /\ ds_sha256 d = hash /\ ds_size d = size.
Proof. unfold describe, bind, gets, ret. intros. by simplify_eq. Qed.

(** Whatever the lookup said before, a 201 leaves this owner with a row. *)
Lemma finish_upload_Ok r hash npub size user access existing w st d w' :
  finish_upload env r hash npub size user access existing w = (Ok (POk st d), w') ->
  ds_sha256 d = hash /\ ds_size d = size /\
  (st = 200 /\ w' = w /\ (exists b owners, existing = Some (b, owners) /\ npub ∈ owners) \/
   st = 201 /\ has_row hash npub w').
Proof.
  unfold finish_upload.
  destruct (match existing with Some (_, owners) => bool_decide (npub ∈ owners) | None => false end) eqn:Em.
  - intros (-> & -> & ? & ?)%describe_Ok. split_and!; [done..|]. left. split_and!; [done..|].
    destruct existing as [[b owners]|]; [|done]. apply bool_decide_eq_true in Em. eauto.
  - intros (reps & w1 & _ & Hrest)%bind_Ok. apply bind_Ok in Hrest as ([resp|c] & w2 & Hc & Hrest).
    + unfold ret in Hrest. simplify_eq. exfalso. by eapply claim_blob_refusal.
    + apply describe_Ok in Hrest as (-> & -> & ? & ?). split_and!; [done..|]. right. split; [done|].
      by eapply claim_blob_row.
Qed.

Lemma lookup_blob_inr hash w o w' :
  lookup_blob hash w = (Ok (inr o), w') -> client_getBlob hash w = (Ok o, w').
Proof.
  unfold lookup_blob, catch, bind, ret. destruct (client_getBlob hash w) as [[o'|e] w1]; naive_solver.
Qed.

Lemma admit_upload_inr r hash size w npub user access w' :
  admit_upload env r hash size w = (Ok (inr (npub, user, access)), w') ->
  verifyAuthToken (seconds (w_now w)) (rq_auth r) Upload (Some hash) true = Ok npub /\ canUpload access = true.
Proof.
  intros (n & w1 & Ha & Hr)%bind_Ok.
  assert (verifyAuthToken (seconds (w_now w)) (rq_auth r) Upload (Some hash) true = Ok n) as Hv.
  { unfold authorize, bind, gets, lift_auth in Ha.
    destruct (verifyAuthToken _ _ _ _ _) as [n'|e]; unfold ret, throw in Ha; by simplify_eq. }
  apply bind_Ok in Hr as (cached & w2 & _ & Hr). apply bind_Ok in Hr as ([u a] & w3 & _ & Hr).
  destruct (canUpload a) eqn:Ec; simpl in Hr; [|by unfold ret in Hr; simplify_eq].
  apply bind_Ok in Hr as ([|] & w4 & _ & Hr); unfold ret in Hr; by simplify_eq.
Qed.

(** The successful path of the handler. *)
Lemma putUpload_Ok r w st d w' :
  putUpload env r w = (Ok (POk st d), w') ->
  exists data npub user access existing w1 w2,
    raw_body r = Some data /\ data <> "" /\
    admit_upload env r (sha256 data) (Z.of_nat (String.length data)) w = (Ok (inr (npub, user, access)), w1) /\
    client_getBlob (sha256 data) w1 = (Ok existing, w2) /\
    finish_upload env r (sha256 data) npub (Z.of_nat (String.length data)) user access existing w2 =
      (Ok (POk st d), w').
Proof.
  unfold putUpload, or_500, catch.
  match goal with |- context [let (r, w') := ?m w in _] => destruct (m w) as [[a|e] w1] eqn:E end;
    [|destruct e; unfold ret; naive_solver].
  intros [= -> ->]. destruct (raw_body r) as [[|ch data]|]; [by unfold ret in E; simplify_eq| |by unfold ret in E; simplify_eq].
  case_match; [by unfold ret in E; simplify_eq|].
  apply bind_Ok in E as ([resp|[[npub user] access]] & w2 & Ha & E).
  { exfalso. unfold ret in E. simplify_eq. apply bind_Ok in Ha as (n & ? & _ & Ha).
    apply bind_Ok in Ha as (? & ? & _ & Ha). apply bind_Ok in Ha as ([u a] & ? & _ & Ha).
    destruct (canUpload a); simpl in Ha; [apply bind_Ok in Ha as ([|] & ? & _ & Ha)|];
      unfold ret, sendAccessError in Ha; by simplify_eq. }
  apply bind_Ok in E as ([resp|existing] & w3 & Hl & E).
  { exfalso. unfold ret in E. simplify_eq. revert Hl. unfold lookup_blob, catch, bind, ret.
    destruct (client_getBlob _ w2) as [[o|e] w4]; naive_solver. }
  apply lookup_blob_inr in Hl. by eexists _, _, _, _, _, _, _.
Qed.

(** C4: when [PUT /upload] answers 200 or 201, the descriptor names the sha256
    and the length of the bytes received, the caller's signed token allowed the
    upload of exactly that hash, and the signer now owns a row for it. When,
    besides, every row recorded before the request had its replicas on nodes
    that the registry resolves and that hold its bytes, and no call of the
    request takes effect with its answer lost, that row names at least one
    replica and every replica it names holds the bytes. (Without that condition
    the last part fails: a row already left without bytes by a lost answer is
    acknowledged as it is, since an owner's second upload only reads the row.) *)
Theorem upload_acknowledged addr r w st d w' :
  putUpload env r w = (Ok (POk st d), w') ->
  exists data npub b, raw_body r = Some data /\ data <> "" /\
    ds_sha256 d = sha256 data /\ ds_size d = Z.of_nat (String.length data) /\
    verifyAuthToken (seconds (w_now w)) (rq_auth r) Upload (Some (sha256 data)) true = Ok npub /\
    b ∈ blobs (w_db w') /\ blob_key b = (sha256 data, npub) /\
    (live addr w -> b_replicas b <> [] /\
       forall rep, rep ∈ b_replicas b -> node_holds (addr rep) (sha256 data) w').
Proof.
  intros Hup. pose proof (placed_putUpload addr env r w) as Hp. rewrite Hup in Hp. simpl in Hp.
  apply putUpload_Ok in Hup as (data & npub & user & access & existing & w1 & w2 & Hraw & Hne & Ha & Hg & Hf).
  apply admit_upload_inr in Ha as [Hv _]. apply finish_upload_Ok in Hf as (Hsha & Hsz & Hrow).
  assert (has_row (sha256 data) npub w') as (b & Hb & Hk).
  { destruct Hrow as [(_ & -> & j & owners & -> & Hin)|[_ Hrow]]; [|done].
    apply client_getBlob_Ok in Hg as (-> & -> & _). apply list_elem_of_fmap in Hin as (b & -> & Hb).
    unfold rows_of_hash in Hb. rewrite order_asc_perm, list_elem_of_filter in Hb.
    exists b. destruct Hb as [<- Hb]. done. }
  exists data, npub, b. split_and!; try done. intros Hlive. specialize (Hp Hlive).
  split; [by apply (pl_replicas _ _ Hp)|].
  intros rep Hrep. injection Hk as <- _. by apply (pl_rows _ _ Hp).
Qed.
End Requests.
