(* ===== verification/ProxyOutcomes.v ===== *)
(** * What the proxy's requests achieve

    With every remote call answered: who may read a blob and from where it is
    served, and that a purge removes exactly one account's rows. Then what can
    go wrong: a lost answer during an upload, an upload that races a deletion,
    and the extension of an uploaded blob's URL. Last, the budget of upload
    bytes held in memory. *)

From S2P Require Import Prelude Js Dates Http Lifecycle Entitlement Db DbApi DbFacts MeshApi DbSystem Nip98 Bud11 World RateLimit Servers Access Proxy ProxyFacts ProxySystem.

(** ** Calls that are answered *)

Definition calm (w : World) : Prop := w_faults w = [].

Lemma calm_pop w : calm w -> pop w = w.
Proof. unfold calm, pop. intros Hc. rewrite Hc. simpl. rewrite <- Hc. by destruct w. Qed.

Lemma calm_get {A} (f : Db -> reply A) w :
  calm w ->
  client_get f w = (match f (w_db w) with
                    | Res st a => if is_ok_status st then Ok (Some a) else Throw (EDbApi st "")
                    | Err st e => if st =? 404 then Ok None else Throw (EDbApi st e)
                    end, w).
Proof.
  intros Hc. unfold client_get, fetch_db, bind. rewrite next_fault_eq, calm_pop by done. rewrite Hc. simpl.
  unfold serve_db, read_only. rewrite set_db_id. destruct (f (w_db w)); by case_match.
Qed.

Lemma calm_ok {A} (f : Db -> reply A * Db) w :
  calm w ->
  client_ok f w = (match (f (w_db w)).1 with
                   | Res st a => if is_ok_status st then Ok a else Throw (EDbApi st "")
                   | Err st e => Throw (EDbApi st e)
                   end, set_db (f (w_db w)).2 w).
Proof.
  intros Hc. unfold client_ok, fetch_db, bind. rewrite next_fault_eq, calm_pop by done. rewrite Hc. simpl.
  unfold serve_db. destruct (f (w_db w)) as [[st a|st e] db']; simpl; by repeat case_match.
Qed.

Section Outcomes.
Context `{DateEngine} `{Nostr}.
Context (env : ProxyEnv).

(** ** Reading a blob *)

(** What an account's row says it may do now. *)
Definition row_access (u : User) (now : Z) : AccessState :=
  accessOf (u_planExpiresAt u) (u_storageBytes u) (u_usedStorage u) now (pe_lifecycle env).

Definition readable_by (hash : string) (w : World) : Prop :=
  exists b u, b ∈ blobs (w_db w) /\ b_hash b = hash /\ users (w_db w) !! b_npub b = Some u /\
    canRead (row_access u (w_now w)) = true.

Lemma mapM_P_pure {A B} (f : A -> P B) (g : A -> B) l w :
  (forall a, a ∈ l -> f a w = (Ok (g a), w)) -> mapM_P f l w = (Ok (g <$> l), w).
Proof.
  induction l as [|a l IH]; intros Hf; simpl; [done|].
  rewrite (bind_eq _ _ _ (g a) w) by (apply Hf; set_solver).
  rewrite (bind_eq _ _ _ (g <$> l) w) by (apply IH; set_solver). done.
Qed.

Lemma calm_getUser npub w :
  calm w -> db_ok (w_db w) -> client_getUser npub w = (Ok (row_json (w_db w) npub), w).
Proof.
  intros Hc Hdb. unfold client_getUser. rewrite calm_get by done. unfold getUser, row_json.
  destruct (users (w_db w) !! npub) as [u|] eqn:Hu; [|done].
  destruct (userToJson_total npub u (blobs (w_db w))) as [j Hj]; [by apply do_users|]. by rewrite Hj.
Qed.

Definition access_in (w : World) (npub : string) : option AccessState :=
  (fun u => row_access u (w_now w)) <$> users (w_db w) !! npub.

Lemma calm_access_of_owner npub w :
  db_ok (w_db w) -> access_of_owner env (row_json (w_db w) npub) w = (Ok (access_in w npub), w).
Proof.
  intros Hdb. unfold row_json, access_in. destruct (users (w_db w) !! npub) as [u|] eqn:Hu; [|done].
  destruct (userToJson_total npub u (blobs (w_db w))) as [j Hj]; [by apply do_users|]. rewrite Hj. simpl.
  unfold bind, withAccess, bind, gets. by rewrite (userToJson_access u j).
Qed.

Lemma calm_getBlob hash w :
  calm w -> db_ok (w_db w) ->
  no_rows hash w /\ client_getBlob hash w = (Ok None, w) \/
  exists b j, b ∈ blobs (w_db w) /\ b_hash b = hash /\ blobToJson b = Some j /\
    client_getBlob hash w = (Ok (Some (j, b_npub <$> rows_of_hash hash (w_db w))), w).
Proof.
  intros Hc Hdb. unfold client_getBlob. rewrite calm_get by done. unfold getBlob.
  assert (forall b, b ∈ rows_of_hash hash (w_db w) <-> b ∈ blobs (w_db w) /\ b_hash b = hash) as Hrows.
  { intros b. unfold rows_of_hash. rewrite order_asc_perm, list_elem_of_filter. tauto. }
  destruct (rows_of_hash hash (w_db w)) as [|b rest].
  - left. split; [|done]. intros b Hb Hh. apply (not_elem_of_nil b). by apply Hrows.
  - right. destruct (proj1 (Hrows b)) as [Hb Hh]; [set_solver|].
    destruct (toISOString_valid (b_createdAt b)) as [iso Hiso]; [by apply (do_blobs _ Hdb)|].
    eexists b, _. split; [done|]. split; [done|]. unfold blobToJson. rewrite Hiso. done.
Qed.

Lemma readable_rows hash w :
  db_ok (w_db w) ->
  existsb readable_for (access_in w <$> (b_npub <$> rows_of_hash hash (w_db w))) = true <-> readable_by hash w.
Proof.
  intros Hdb. rewrite <- list_fmap_compose, existsb_exists. unfold readable_by. split.
  - intros (a & Ha%list_elem_of_In & Hr). apply list_elem_of_fmap in Ha as (b & -> & Hb).
    unfold rows_of_hash in Hb. rewrite order_asc_perm, list_elem_of_filter in Hb. destruct Hb as [Hh Hb].
    destruct (do_owner _ Hdb b Hb) as [u Hu]. exists b, u. simpl in Hr. unfold access_in in Hr. rewrite Hu in Hr. done.
  - intros (b & u & Hb & Hh & Hu & Hr). exists (access_in w (b_npub b)). split.
    + apply list_elem_of_In, list_elem_of_fmap. exists b. split; [done|].
      unfold rows_of_hash. rewrite order_asc_perm, list_elem_of_filter. done.
    + unfold access_in. by rewrite Hu.
Qed.

(** The replica an answer can be read from. *)
Definition serving (hash : string) (w : World) (rep : string) : Prop :=
  exists url, truthy (resolve rep w) = Some url /\ node_holds url hash w.

Lemma calm_open_step hash rep reps w :
  calm w ->
  openBlobStream hash (rep :: reps) w =
    match truthy (resolve rep w) with
    | Some url => if bool_decide (hash ∈ node_hashes url w) then (Ok url, w) else openBlobStream hash reps w
    | None => openBlobStream hash reps w
    end.
Proof.
  intros Hc. simpl. unfold bind at 1, gets at 1. destruct (truthy (resolve rep w)) as [url|]; [|done].
  unfold catch, bind at 1, get_from, bind at 1. rewrite next_fault_eq, calm_pop by done. rewrite Hc. simpl.
  unfold bind, gets, throw, ret. by case_bool_decide.
Qed.

Lemma calm_open hash reps w :
  calm w ->
  (exists url, openBlobStream hash reps w = (Ok url, w) /\ node_holds url hash w) \/
  (exists e, openBlobStream hash reps w = (Throw e, w)) /\ (forall rep, rep ∈ reps -> ~ serving hash w rep).
Proof.
  intros Hc. induction reps as [|rep reps IH].
  { right. split; [by eexists | set_solver]. }
  rewrite calm_open_step by done.
  destruct (truthy (resolve rep w)) as [url|] eqn:Er; [case_bool_decide as Hin; [by left; exists url|]|].
  all: destruct IH as [IH|[He Hno]]; [by left|]; right; (split; [done|]).
  all: intros rep' [->|Hr]%elem_of_cons; [|by apply Hno]; intros (url' & Hu & Hh); congruence.
Qed.

(** The three cases of a lookup by path. *)
Lemma calm_handleGetBlob r body hash w :
  calm w -> db_ok (w_db w) -> match_hash (path_tail (rq_path r)) = Some hash ->
  no_rows hash w /\ handleGetBlob env r body w = (Ok (PErr 404 "Blob not found"), w) \/
  (~ no_rows hash w /\ ~ readable_by hash w /\ exists e, handleGetBlob env r body w = (Ok (PErr 403 e), w)) \/
  readable_by hash w /\ exists b j, b ∈ blobs (w_db w) /\ b_hash b = hash /\ blobToJson b = Some j /\
    handleGetBlob env r body w =
      if body then
        or_500 "Download failed" (bind (openBlobStream hash (bj_replicas j)) (fun server =>
          ret (POk 200 {| bh_contentLength := bj_size j; bh_server := Some server |}))) w
      else (Ok (POk 200 {| bh_contentLength := bj_size j; bh_server := None |}), w).
Proof.
  intros Hc Hdb Hm. unfold handleGetBlob. rewrite Hm.
  destruct (calm_getBlob hash w Hc Hdb) as [[Hno Hg]|(b & j & Hb & Hh & Hj & Hg)].
  { left. split; [done|]. unfold or_500, catch. by rewrite (bind_eq _ _ _ _ _ Hg). }
  right. assert (~ no_rows hash w) as Hrows by (intros Hno; by apply (Hno b)).
  assert (forall T (k : option (list (option UserJson)) -> P T),
    bind (catch (bind (mapM_P client_getUser (b_npub <$> rows_of_hash hash (w_db w))) (fun us => ret (Some us)))
      (fun _ => ret None)) k w = k (Some (row_json (w_db w) <$> (b_npub <$> rows_of_hash hash (w_db w)))) w) as Hus.
  { intros T k. apply bind_eq. unfold catch. erewrite bind_eq; [done|].
    apply mapM_P_pure. intros n _. by apply calm_getUser. }
  pose proof (readable_rows hash w Hdb) as Hread.
  set (accs := access_in w <$> (b_npub <$> rows_of_hash hash (w_db w))) in Hread.
  assert (mapM_P (access_of_owner env) (row_json (w_db w) <$> (b_npub <$> rows_of_hash hash (w_db w))) w =
    (Ok accs, w)) as Haccs.
  { unfold accs. generalize (b_npub <$> rows_of_hash hash (w_db w)). intros l.
    induction l as [|n l IHl]; simpl; [done|].
    rewrite (bind_eq _ _ _ _ _ (calm_access_of_owner n w Hdb)). by rewrite (bind_eq _ _ _ _ _ IHl). }
  destruct (existsb readable_for accs) eqn:Ex.
  - right. split; [by apply Hread|]. exists b, j. split_and!; [done..|].
    destruct body; unfold or_500, catch; rewrite (bind_eq _ _ _ _ _ Hg), Hus, (bind_eq _ _ _ _ _ Haccs), Ex; done.
  - left. split; [done|]. split; [by rewrite <- Hread|].
    assert (exists a l, accs = Some a :: l) as (a & l & Ha).
    { destruct accs as [|[a|] l] eqn:Ea; [|by eexists _, _|done]. exfalso. apply Hrows.
      intros b' Hb' Hh'. unfold accs in Ea. apply fmap_nil_inv, fmap_nil_inv in Ea.
      apply (not_elem_of_nil b'). rewrite <- Ea. unfold rows_of_hash.
      by rewrite order_asc_perm, list_elem_of_filter. }
    exists (STATUS_ERROR_CODES (status a)). unfold or_500, catch.
    rewrite (bind_eq _ _ _ _ _ Hg), Hus, (bind_eq _ _ _ _ _ Haccs), Ex. by rewrite Ha.
Qed.

(** A blob is visible exactly while one of its owners may read. With db-api
    answering, [HEAD /<sha256>] is 404 when nobody owns the hash, 200 when some
    owner's row, at this moment, has read access (active, in grace or write
    blocked), and 403 otherwise. *)
Theorem head_visibility r hash w :
  calm w -> db_ok (w_db w) -> match_hash (path_tail (rq_path r)) = Some hash ->
  exists resp, handleGetBlob env r false w = (Ok resp, w) /\
    (presp_status resp = 404 <-> no_rows hash w) /\
    (presp_status resp = 200 <-> readable_by hash w) /\
    (presp_status resp = 403 <-> ~ no_rows hash w /\ ~ readable_by hash w).
Proof.
  intros Hc Hdb Hm. assert (readable_by hash w -> ~ no_rows hash w) as Hex.
  { intros (b & u & Hb & Hh & _) Hno. by apply (Hno b). }
  destruct (calm_handleGetBlob r false hash w Hc Hdb Hm) as [[Hno ->]|[(Hrows & Hnr & e & ->)|(Hr & b & j & _ & _ & _ & ->)]];
    eexists; (split; [reflexivity|]); simpl; naive_solver lia.
Qed.

(** C17: while every call to the store service, the registry and the nodes is
    answered, and the store's rows are well formed, a download is answered from
    a node that holds the bytes, and only while the blob is visible; and when,
    besides, every row of the hash has a replica that the registry resolves (or
    that is recorded by URL) to a node with the bytes, a visible blob is
    served. (A call that fails may turn the answer into an error: nothing is
    said of it here.) *)
Theorem download_served r hash w :
  calm w -> db_ok (w_db w) -> match_hash (path_tail (rq_path r)) = Some hash ->
  exists resp, handleGetBlob env r true w = (Ok resp, w) /\
    (forall st h, resp = POk st h -> readable_by hash w /\
       exists url, bh_server h = Some url /\ node_holds url hash w) /\
    ((forall b, b ∈ blobs (w_db w) -> b_hash b = hash -> exists rep, rep ∈ b_replicas b /\ serving hash w rep) ->
     readable_by hash w -> presp_status resp = 200).
Proof.
  intros Hc Hdb Hm.
  destruct (calm_handleGetBlob r true hash w Hc Hdb Hm) as [[Hno ->]|[(Hrows & Hnr & e & ->)|(Hr & b & j & Hb & Hh & Hj & ->)]].
  - eexists. split; [done|]. split; [done|]. intros _ (b & u & Hb & Hh & _). by destruct (Hno b).
  - eexists. split; [done|]. split; [done|]. done.
  - destruct (calm_open hash (bj_replicas j) w Hc) as [(url & Ho & Hn)|[(e & Ho) Hnone]]; unfold or_500, catch.
    + rewrite (bind_eq _ _ _ _ _ Ho). eexists. split; [done|]. split; [|done].
      intros st h [= <- <-]. split; [done|]. by exists url.
    + rewrite (bind_throw _ _ _ _ _ Ho).
      assert (forall rep, rep ∈ b_replicas b -> ~ serving hash w rep) as Hb'
        by by rewrite <- (blobToJson_replicas _ _ Hj).
      destruct e; eexists; (split; [done|]); (split; [done|]); intros Hall;
        destruct (Hall b Hb Hh) as (rep & Hrep & Hs); by destruct (Hb' rep).
Qed.

(** ** Purging an account *)

(** [w] is [w0] with [k] of the account's rows gone. *)
Record purging (npub : string) (w0 w : World) (k : nat) : Prop := {
  pg_calm : calm w;
  pg_db : db_ok (w_db w);
  pg_sizes : Forall (fun b => 0 <= b_size b) (blobs (w_db w));
  pg_rows : filter (fun b => b_npub b <> npub) (blobs (w_db w)) =
            filter (fun b => b_npub b <> npub) (blobs (w_db w0));
  pg_users : forall n, n <> npub -> users (w_db w) !! n = users (w_db w0) !! n;
  pg_count : (length (owned npub (blobs (w_db w))) + k = length (owned npub (blobs (w_db w0))))%nat
}.

Lemma delete_where_own hash npub b :
  delete_where hash (Some npub) false b = true <-> b_hash b = hash /\ b_npub b = npub.
Proof. unfold delete_where. simpl. rewrite andb_true_iff, !bool_decide_eq_true. tauto. Qed.

Lemma owned_delete_length npub l b :
  NoDup (blob_key <$> l) -> b ∈ owned npub l ->
  S (length (owned npub (filter (fun b' => delete_where (b_hash b) (Some npub) false b' = false) l))) =
  length (owned npub l).
Proof.
  intros Hnd Hb. apply list_elem_of_filter in Hb as Hb'. destruct Hb' as [Hn _].
  rewrite <- (Permutation_length (filter_app_complement (fun b' => blob_key b' = blob_key b) (owned npub l))).
  rewrite length_app, (filter_key_unique blob_key) by (done || by apply NoDup_fmap_filter). simpl. f_equal. f_equal.
  unfold owned. rewrite !list_filter_filter. apply list_filter_iff. intros b'.
  rewrite <- not_true_iff_false, delete_where_own. unfold blob_key. rewrite Hn, pair_equal_spec. tauto.
Qed.

Lemma deleteBlob_nodes_Ok hash reps w :
  exists w', deleteBlob_nodes hash reps w = (Ok tt, w') /\ w_db w' = w_db w /\ (calm w -> calm w').
Proof.
  revert w. induction reps as [|rep reps IH]; intros w; simpl; [by exists w|].
  unfold bind at 1, gets at 1. destruct (truthy (resolve rep w)) as [url|]; [|by apply IH].
  unfold bind, catch, node_call, bind, modify, throw, ret. rewrite next_fault_eq. simpl.
  assert (calm w -> calm (pop w)) as Hpop by (intros Hc; by rewrite calm_pop).
  destruct (default Fine _); simpl;
    first [destruct (IH (node_remove url hash (pop w))) as (w' & -> & Hdb & Hcalm)
          | destruct (IH (pop w)) as (w' & -> & Hdb & Hcalm)]; exists w'; simpl in *; auto.
Qed.

Lemma purge_step npub w0 w k b :
  npub <> "" -> purging npub w0 w k -> b ∈ owned npub (blobs (w_db w)) ->
  exists rem w', client_deleteBlob (b_hash b) (Some npub) w = (Ok rem, w') /\ purging npub w0 w' (S k) /\
    forall b', b' ∈ owned npub (blobs (w_db w)) -> b_hash b' <> b_hash b -> b' ∈ owned npub (blobs (w_db w')).
Proof.
  intros Hne [Hc Hdb Hsz Hrows Hus Hcnt] Hb. apply list_elem_of_filter in Hb as Hb'. destruct Hb' as [Hn Hin].
  destruct (deleteBlob_tx_progress (b_hash b) (Some npub) false (w_db w)) as (last & rem & db' & Htx); [done..| |].
  { exists b. split; [done|]. by apply delete_where_own. }
  exists rem, (set_db db' w). unfold client_deleteBlob.
  assert (client_ok (deleteBlob (b_hash b) (who_npub (Some npub)) (who_all (Some npub))) w =
    (Ok (last, rem), set_db db' w)) as Hcl.
  { rewrite calm_ok, deleteBlob_who by (done || congruence). unfold transaction. simpl. by rewrite Htx. }
  rewrite (bind_eq _ _ _ _ _ Hcl). split; [done|].
  pose proof (deleteBlob_tx_Ok _ _ _ _ _ _ _ Hdb Htx) as (Hok & Hbl & _).
  split; [constructor; simpl; try done|].
  - rewrite Hbl, Forall_forall in *. intros x [_ Hx]%list_elem_of_filter. auto.
  - rewrite <- Hrows, Hbl, list_filter_filter. apply list_filter_iff. intros x.
    rewrite <- not_true_iff_false, delete_where_own. naive_solver.
  - intros n Hn'. rewrite <- Hus by done. eapply deleteBlob_tx_users; [done|exact Htx|].
    intros x _ [_ Hx]%delete_where_own. congruence.
  - rewrite Hbl, Nat.add_succ_r, <- Nat.add_succ_l, owned_delete_length; [done|apply Hdb|done].
  - simpl. intros b' [Hn' Hb']%list_elem_of_filter Hh. rewrite Hbl. apply list_elem_of_filter. split; [done|].
    apply list_elem_of_filter. split; [|done]. rewrite <- not_true_iff_false, delete_where_own. naive_solver.
Qed.

Lemma purging_db npub w0 w w' k : purging npub w0 w k -> w_db w' = w_db w -> calm w' -> purging npub w0 w' k.
Proof. intros [Hc Hdb Hsz Hrows Hus Hcnt] Heq Hc'. by constructor; rewrite ?Heq. Qed.

Lemma purge_batch_calm npub w0 rows js w k p :
  npub <> "" -> purging npub w0 w k -> mapM blobToJson rows = Some js -> NoDup (b_hash <$> rows) ->
  (forall b, b ∈ rows -> b ∈ owned npub (blobs (w_db w))) ->
  exists w', purge_batch npub js p w = (Ok (p + Z.of_nat (length rows)), w') /\
    purging npub w0 w' (k + length rows).
Proof.
  intros Hne. revert js w k p. induction rows as [|b rows IH]; intros js w k p Hp Hjs Hnd Hin.
  - injection Hjs as <-. exists w. cbn [length purge_batch Z.of_nat]. by rewrite Z.add_0_r, Nat.add_0_r.
  - simpl in Hjs. apply bind_Some in Hjs as (j & Hj & (js' & Hjs' & [= <-])%bind_Some).
    rewrite fmap_cons, NoDup_cons in Hnd. destruct Hnd as [Hb Hnd].
    assert (bj_hash j = b_hash b) as Hh by (unfold blobToJson in Hj; by apply bind_Some in Hj as (? & _ & [= <-])).
    destruct (purge_step npub w0 w k b Hne Hp) as (rem & w1 & Hdel & Hp1 & Hrest); [apply Hin; set_solver|].
    cbn [purge_batch]. rewrite Hh, (bind_eq _ _ _ _ _ Hdel).
    assert (exists w2, (if rem =? 0 then deleteBlob_nodes (b_hash b) (bj_replicas j) else ret tt) w1 = (Ok tt, w2) /\
      w_db w2 = w_db w1 /\ calm w2) as (w2 & Hn & Hdb2 & Hc2).
    { destruct (rem =? 0); [|exists w1; split_and!; [done..|apply Hp1]].
      destruct (deleteBlob_nodes_Ok (b_hash b) (bj_replicas j) w1) as (w2 & ? & ? & Hc). exists w2.
      split_and!; [done..|]. apply Hc, Hp1. }
    rewrite (bind_eq _ _ _ _ _ Hn).
    destruct (IH js' w2 (S k) (p + 1)) as (w' & Hbatch & Hp'); [by eapply purging_db|done|done| |].
    { intros b' Hb'. rewrite Hdb2. apply Hrest; [apply Hin; set_solver|].
      intros Heq. apply Hb. rewrite <- Heq. by apply list_elem_of_fmap_2. }
    exists w'. rewrite Hbatch. cbn [length]. split; [do 2 f_equal; lia|]. by rewrite Nat.add_succ_r.
Qed.

Lemma blobToJson_total l : (forall b, b ∈ l -> valid_time (b_createdAt b) = true) -> is_Some (mapM blobToJson l).
Proof.
  intros Hl. apply mapM_is_Some, Forall_forall. intros b Hb.
  destruct (toISOString_valid _ (Hl b Hb)) as [iso Hiso]. unfold blobToJson. simpl. rewrite Hiso. by eexists.
Qed.

(** The first page of an account's blobs. *)
Lemma calm_first_page npub w :
  calm w -> db_ok (w_db w) ->
  exists rows js pg, client_listUserBlobs npub (num_Z 1) (num_Z 100) w = (Ok pg, w) /\ items pg = js /\
    mapM blobToJson rows = Some js /\ NoDup (b_hash <$> rows) /\
    (forall b, b ∈ rows -> b ∈ owned npub (blobs (w_db w))) /\
    (rows = [] -> owned npub (blobs (w_db w)) = []).
Proof.
  intros Hc Hdb. set (all := order_desc b_createdAt (owned npub (blobs (w_db w)))).
  assert (all ≡ₚ owned npub (blobs (w_db w))) as Hperm by apply order_desc_perm.
  assert (forall b, b ∈ take 100 all -> b ∈ owned npub (blobs (w_db w))) as Hin.
  { intros b Hb. rewrite <- Hperm. rewrite <- (take_drop 100 all). apply elem_of_app. by left. }
  destruct (blobToJson_total (take 100 all)) as [js Hjs].
  { intros b [_ Hb]%Hin%list_elem_of_filter. by apply (do_blobs _ Hdb). }
  exists (take 100 all), js, (paginated js (Z.of_nat (length all)) (page_params (num_Z 1) (num_Z 100))).
  split_and!; try done.
  - unfold client_listUserBlobs. rewrite calm_ok by done. unfold read_only, getUserBlobs, page_reply. simpl.
    fold all. change (slice (page_params (num_Z 1) (num_Z 100)) all) with (take 100 all). rewrite Hjs. simpl.
    by rewrite set_db_id.
  - apply (NoDup_fmap_1 (fun h => (h, npub))). rewrite <- list_fmap_compose.
    assert (NoDup (blob_key <$> all)) as Hnd by (rewrite Hperm; apply NoDup_fmap_filter, Hdb).
    rewrite <- (take_drop 100 all), fmap_app, NoDup_app in Hnd. destruct Hnd as [Hnd _].
    erewrite list_fmap_ext; [exact Hnd|]. intros i b Hb. simpl. unfold blob_key. f_equal.
    apply list_elem_of_lookup_2, Hin, list_elem_of_filter in Hb as [? _]. done.
  - intros Ht. apply Permutation_nil_r. rewrite <- Hperm. by destruct all.
Qed.

Lemma purge_loop_calm fuel npub w0 w k p :
  npub <> "" -> purging npub w0 w k -> (length (owned npub (blobs (w_db w))) < fuel)%nat ->
  exists w', purge_loop fuel npub p w =
      (Ok (Some (p + Z.of_nat (length (owned npub (blobs (w_db w)))))), w') /\
    purging npub w0 w' (k + length (owned npub (blobs (w_db w)))).
Proof.
  intros Hne. revert w k p. induction fuel as [|fuel IH]; intros w k p Hp Hf; [lia|].
  destruct (calm_first_page npub w (pg_calm _ _ _ _ Hp) (pg_db _ _ _ _ Hp))
    as (rows & js & pg & Hl & Hit & Hjs & Hnd & Hin & Hnil).
  cbn [purge_loop]. rewrite (bind_eq _ _ _ _ _ Hl), Hit. destruct rows as [|b rows].
  - simpl in Hjs. rewrite Hnil by done. injection Hjs as <-. exists w. cbn [length Z.of_nat]. by rewrite Z.add_0_r, Nat.add_0_r.
  - pose proof Hjs as Hjs'. simpl in Hjs'. apply bind_Some in Hjs' as (j & _ & (js' & _ & [= Heq])%bind_Some).
    destruct (purge_batch_calm npub w0 (b :: rows) js w k p Hne Hp Hjs Hnd Hin) as (w1 & Hb & Hp1).
    rewrite <- Heq in Hb |- *. rewrite (bind_eq _ _ _ _ _ Hb).
    pose proof (pg_count _ _ _ _ Hp) as Hc0. pose proof (pg_count _ _ _ _ Hp1) as Hc1.
    cbn [length] in *.
    destruct (IH w1 (k + S (length rows))%nat (p + Z.of_nat (S (length rows)))) as (w' & Hloop & Hp'); [done|lia|].
    exists w'. rewrite Hloop. split; [do 3 f_equal; lia|].
    replace (k + length (owned npub (blobs (w_db w))))%nat
      with (k + S (length rows) + length (owned npub (blobs (w_db w1))))%nat by lia. done.
Qed.

(** C18: with every call answered, a purge of an account finishes after at most
    one pass per row and one more, reports the number of its rows, leaves the
    account without a row and with nothing used, and touches neither the rows
    nor the account of anyone else. *)
Theorem purge_complete fuel npub w :
  calm w -> db_ok (w_db w) -> Forall (fun b => 0 <= b_size b) (blobs (w_db w)) -> npub <> "" ->
  (length (owned npub (blobs (w_db w))) < fuel)%nat ->
  exists w', purgeRoute fuel npub w = (Ok (POk 200 (Some (Z.of_nat (length (owned npub (blobs (w_db w))))))), w') /\
    blobs (w_db w') = filter (fun b => b_npub b <> npub) (blobs (w_db w)) /\
    (forall u, users (w_db w') !! npub = Some u -> u_usedStorage u = 0) /\
    (forall n, n <> npub -> users (w_db w') !! n = users (w_db w) !! n).
Proof.
  intros Hc Hdb Hsz Hne Hf.
  destruct (purge_loop_calm fuel npub w w 0 0) as (w1 & Hl & [Hc1 Hdb1 _ Hrows Hus Hcnt]); [done|by constructor|done|].
  assert (owned npub (blobs (w_db w1)) = []) as Hnone by (apply nil_length_inv; lia).
  exists (set_access (delete npub (w_access w1)) w1). split_and!.
  - unfold purgeRoute, or_502, catch. rewrite (bind_eq _ _ _ _ _ Hl). done.
  - simpl. rewrite <- Hrows. symmetry. apply filter_all. intros b Hb Hn.
    apply (not_elem_of_nil b). rewrite <- Hnone. by apply list_elem_of_filter.
  - simpl. intros u Hu. rewrite (uo_used _ _ _ (do_users _ Hdb1 _ _ Hu)). unfold used_by. by rewrite Hnone.
  - done.
Qed.

(** ** The budget of upload bytes in memory *)

(** [let released = false] and its [release], for one accepted upload. *)
Record InflightUpload := { up_length : Z; up_released : bool }.

(** A ["close"] or ["finish"] event of the [i]th accepted upload's response. *)
Definition response_event (i : nat) (s : World * list InflightUpload) : World * list InflightUpload :=
  match s.2 !! i with
  | Some u =>
      if up_released u then s
      else ((release (up_length u) s.1).2, <[i := {| up_length := up_length u; up_released := true |}]> s.2)
  | None => s
  end.

(** What can happen to the budget: an upload passes the gate or is refused, a
    response ends (in either way, or in both), anything else goes on. *)
Inductive budget_step : World * list InflightUpload -> World * list InflightUpload -> Prop :=
| step_accept r w w' ups length :
    uploadGate env r w = (Ok (inr length), w') ->
    budget_step (w, ups) (w', ups ++ [{| up_length := length; up_released := false |}])
| step_refuse r w w' ups resp :
    uploadGate env r w = (Ok (inl resp), w') -> budget_step (w, ups) (w', ups)
| step_event i s : budget_step s (response_event i s)
| step_other w w' ups : w_inflight w' = w_inflight w -> budget_step (w, ups) (w', ups).

Definition held (ups : list InflightUpload) : Z := sumZ (fun u => if up_released u then 0 else up_length u) ups.

Record budget_ok (s : World * list InflightUpload) : Prop := {
  bo_sum : w_inflight s.1 = held s.2;
  bo_max : num_lt (MAX_INFLIGHT env) (w_inflight s.1) = false;
  bo_each : Forall (fun u => 0 < up_length u <= MAX_UPLOAD_BYTES) s.2
}.

(** A computation that leaves the budget at [i], unless it takes a length that
    fits. *)
Definition takes (i : Z) (m : P (presp unit + Z)) : Prop := forall w, w_inflight w = i ->
  match m w with
  | (Ok (inr length), w') => 0 < length <= MAX_UPLOAD_BYTES /\
      num_lt (MAX_INFLIGHT env) (i + length) = false /\ w_inflight w' = i + length
  | (_, w') => w_inflight w' = i
  end.

Lemma takes_inl i g : takes i (ret (inl g)).
Proof. by intros w. Qed.
Lemma takes_bind {A} i (m : P A) k :
  keeps (fun w => w_inflight w = i) m -> (forall a, takes i (k a)) -> takes i (bind m k).
Proof.
  intros Hm Hk w Hw. specialize (Hm w Hw). unfold bind. destruct (m w) as [[a|e] w1]; [by apply Hk | done].
Qed.

Lemma takes_uploadGate i r : takes i (uploadGate env r).
Proof.
  assert (takes i (uploadGate_body env r)) as Hbody.
  { set (I := fun w : World => w_inflight w = i).
    assert (forall npub fresh, keeps I (loadAccess env npub fresh)) as Hload by (intros; by apply keeps_loadAccess).
    apply takes_bind.
    { intros w Hw. unfold limit. by destruct (hit _ _ _ _). }
    intros ok. case_match; [apply takes_inl|]. apply takes_bind; [apply keeps_authorize|]. intros npub.
    destruct (truthy _) as [len|]; [|apply takes_inl]. destruct (num_int _) as [length|]; [|apply takes_inl].
    destruct (length <=? 0) eqn:E1; [apply takes_inl|].
    destruct (MAX_UPLOAD_BYTES <? length) eqn:E2; [apply takes_inl|].
    apply takes_bind; [apply Hload|]. intros cached.
    apply takes_bind; [by apply keeps_denial_check|]. intros [user access].
    case_match; [apply takes_inl|]. apply takes_bind; [apply keeps_lift_opt|]. intros [|]; [apply takes_inl|].
    intros w Hw. unfold bind, gets. destruct (num_lt _ _) eqn:E3; [exact Hw|]. rewrite Hw in E3.
    unfold modify, ret. simpl. rewrite Hw. split; [lia|]. done. }
  intros w Hw. specialize (Hbody w Hw). unfold uploadGate, catch.
  destruct (uploadGate_body env r w) as [[[g|len]|e] w1]; [done..|]. by destruct e.
Qed.

Lemma num_lt_mono n a b : b <= a -> num_lt n a = false -> num_lt n b = false.
Proof.
  destruct n as [| | |q]; simpl; [done..|]. rewrite !Z.ltb_ge. intros Hba Ha. etrans; [|exact Ha].
  by apply Z.mul_le_mono_nonneg_r.
Qed.

Lemma held_app l1 l2 : held (l1 ++ l2) = held l1 + held l2.
Proof. unfold held. by autorewrite with orch. Qed.

Lemma held_release ups i u :
  ups !! i = Some u -> up_released u = false ->
  held (<[i := {| up_length := up_length u; up_released := true |}]> ups) = held ups - up_length u.
Proof.
  intros Hi Hr. rewrite <- (take_drop_middle ups i u Hi) at 2.
  rewrite insert_take_drop by (by eapply lookup_lt_Some). rewrite !held_app.
  change (?x :: ?l) with ([x] ++ l). rewrite !held_app. unfold held at 2 5. simpl. rewrite Hr. lia.
Qed.

Lemma budget_step_ok s s' : budget_step s s' -> budget_ok s -> budget_ok s'.
Proof.
  intros Hstep [Hsum Hmax Heach].
  destruct Hstep as [r w w' ups length Hg|r w w' ups resp Hg|i s|w w' ups Hw]; simpl in *.
  - pose proof (takes_uploadGate _ r w eq_refl) as Ht. rewrite Hg in Ht. destruct Ht as (Hl & Hm & Hw).
    constructor; simpl; rewrite ?Hw; [|done|by apply Forall_app_2; [|constructor]].
    rewrite held_app, Hsum. unfold held. simpl. lia.
  - pose proof (takes_uploadGate _ r w eq_refl) as Ht. rewrite Hg in Ht.
    by constructor; simpl; rewrite ?Ht.
  - unfold response_event. destruct (s.2 !! i) as [u|] eqn:Hi; [|done].
    destruct (up_released u) eqn:Hr; [done|]. pose proof (Forall_lookup_1 _ _ _ _ Heach Hi) as Hu.
    constructor; simpl.
    + rewrite (held_release _ _ u) by done. by rewrite Hsum.
    + eapply num_lt_mono; [|exact Hmax]. unfold release, modify. simpl in *. lia.
    + by apply Forall_insert.
  - by constructor; simpl; rewrite ?Hw.
Qed.

(** C16: the memory budget of uploads is exact and never overrun. Whatever
    uploads are accepted or refused and however often their responses close or
    finish, the counter is the sum of the lengths of the accepted uploads not
    yet released (each released once), it is never negative, and it never goes
    past the configured maximum. *)
Theorem inflight_budget w w' ups :
  w_inflight w = 0 -> rtc budget_step (w, []) (w', ups) ->
  w_inflight w' = held ups /\ 0 <= w_inflight w' /\ num_lt (MAX_INFLIGHT env) (w_inflight w') = false.
Proof.
  intros Hw Hr. assert (budget_ok (w', ups)) as [Hsum Hmax Heach].
  { assert (budget_ok (w, [])) as Hok.
    { constructor; simpl; [done| |constructor]. rewrite Hw. unfold MAX_INFLIGHT.
      destruct (num_gt _ 0) eqn:E; [|done]. destruct (Number_opt _); [done..|]. simpl in *. lia. }
    revert Hok. induction Hr as [|s1 s2 s3 Hs _ IH]; [done|]. intros Hok. by apply IH, (budget_step_ok s1). }
  simpl in *. split; [done|]. split; [|done]. rewrite Hsum. apply sumZ_nonneg. rewrite Forall_forall in *.
  intros u Hu. specialize (Heach u Hu). case_match; lia.
Qed.

(** ** The URL of an uploaded blob *)

Definition base_url (r : Req) : string :=
  match pe_publicBaseUrl env with Some u => u | None => rq_proto r +:+ "://" +:+ default "undefined" (rq_hostname r) end.

Lemma raw_body_extension r data :
  raw_body r = Some data -> extensionForType (default "application/octet-stream" (truthy (rq_contentType r))) = ".bin".
Proof.
  unfold raw_body. destruct (rq_contentType r) as [t|]; [|done].
  destruct (String.eqb (media_type t) "application/octet-stream") eqn:E; [|done]. intros _.
  apply String.eqb_eq in E. unfold extensionForType. simpl.
  destruct (String.eqb t "") eqn:Et; simpl; [done|]. by rewrite E.
Qed.

Lemma finish_upload_url r hash npub size user access existing w st d w' :
  finish_upload env r hash npub size user access existing w = (Ok (POk st d), w') ->
  ds_url d = base_url r +:+ "/" +:+ hash +:+
             extensionForType (default "application/octet-stream" (truthy (rq_contentType r))).
Proof.
  intros Hf. assert (exists mine c w1, describe env r hash size mine c w1 = (Ok (POk st d), w')) as (mine & c & w1 & Hd).
  { unfold finish_upload in Hf. destruct (match existing with Some (_, _) => _ | None => _ end); [by eexists _, _, _|].
    apply bind_Ok in Hf as (reps & w1 & _ & Hf). apply bind_Ok in Hf as ([resp|c] & w2 & Hc & Hf); [|by eexists _, _, _].
    unfold ret in Hf. simplify_eq. exfalso. by eapply claim_blob_refusal. }
  unfold describe, bind, gets, ret in Hd. by simplify_eq.
Qed.

(** The URL of an accepted upload always ends in .bin. The body parser
    only reads bodies declared as application/octet-stream, so the table of
    extensions for other media types is never used on this path. *)
Theorem upload_url_bin r w st d w' :
  putUpload env r w = (Ok (POk st d), w') -> ds_url d = base_url r +:+ "/" +:+ ds_sha256 d +:+ ".bin".
Proof.
  intros (data & npub & user & access & existing & w1 & w2 & Hraw & _ & _ & _ & Hf)%putUpload_Ok.
  pose proof (finish_upload_url _ _ _ _ _ _ _ _ _ _ _ Hf) as ->.
  apply finish_upload_Ok in Hf as [-> _]. by rewrite (raw_body_extension _ _ Hraw).
Qed.
End Outcomes.
