(* ===== verification/ProxyExamples.v ===== *)
(** * The proxy on concrete worlds

    Witnesses of the proxy's theorems, and two runs that show where rows and
    bytes come apart: an upload whose acknowledgement is lost, and an upload
    that races a deletion. *)

From S2P Require Import Prelude Js Dates Http Lifecycle Entitlement Db DbApi DbFacts MeshApi DbSystem Nip98 Bud11 World RateLimit Servers Access Proxy ProxyFacts ProxySystem ProxyOutcomes.
Import LifecycleExamples EntitlementExamples DbExamples AccessExamples.

(** Cryptography reduced to two tokens: everything hashes to [hash64]. *)
Definition token (who action : string) : Event :=
  {| ev_id := who; ev_pubkey := who; ev_created_at := num_Z 1790812795; ev_kind := num_Z 24242;
     ev_tags := [["t"; action]; ["expiration"; "1790812900"]; ["x"; hash64]]; ev_content := "";
     ev_sig := "" |}.

#[local] Instance twoTokens : Nostr := {|
  secretKey := string;
  decodeEvent := fun s => if String.eqb s "a-upload" then Some (token "a" "upload")
                          else if String.eqb s "b-delete" then Some (token "b" "delete") else None;
  encodeEvent := fun e => ev_id e;
  verifyEvent := fun _ => true;
  finalizeEvent := fun t sk =>
    {| ev_id := ""; ev_pubkey := sk; ev_created_at := num_Z (tm_created_at t); ev_kind := num_Z (tm_kind t);
       ev_tags := tm_tags t; ev_content := tm_content t; ev_sig := "" |};
  getPublicKey := fun sk => sk;
  npubEncode := fun pk => "npub1" +:+ pk;
  nsecDecode := fun s => Some s;
  keyFromHex := fun s => s;
  sha256 := fun _ => hash64;
  stringify := fun _ => ""
|}.
#[local] Instance exactSearch : TextSearch := {| matches_insensitive := String.eqb |}.

Definition penv : ProxyEnv :=
  {| pe_lifecycle := DEFAULT_LIFECYCLE_CONFIG; pe_ttlMs := 10000;
     pe_admin := {| ad_backendUrl := None; ad_signer := false |}; pe_storage := MeshExamples.env;
     pe_inflight := None; pe_publicBaseUrl := Some "https://cdn" |}.

Definition nip0 : Nip98Request :=
  {| rq_authorization := None; rq_method := "PUT"; rq_originalUrl := "/"; rq_protocol := "http";
     rq_host := None; rq_body := NoBody |}.
Definition request_for (path auth : string) : Req :=
  {| rq_ip := Some "1.2.3.4"; rq_remoteAddress := None; rq_path := path; rq_auth := Some ("Nostr " +:+ auth);
     rq_xSha256 := None; rq_xContentLength := None; rq_contentLength := Some "3";
     rq_contentType := Some "application/octet-stream"; rq_bytes := "abc"; rq_json := JUndefined;
     rq_proto := "https"; rq_hostname := Some "proxy"; rq_page := QAbsent; rq_pageSize := QAbsent;
     rq_search := QAbsent; rq_hash := QAbsent; rq_npub := QAbsent; rq_nip98 := nip0 |}.
Definition upload_a : Req := request_for "/upload" "a-upload".
Definition delete_b : Req := request_for ("/" +:+ hash64) "b-delete".

(** One node, which [addr] gives for every provider. *)
Definition node1 : string := "http://10.0.0.1:3000".
Definition addr1 (_ : string) : string := node1.
Definition world_of (db : Db) (hashes : gset string) (fs : list fault) : World :=
  {| w_now := NOW; w_db := db; w_nodes := {[node1 := hashes]}; w_registry := [("npub1s", node1)];
     w_access := ∅; w_admins := ∅; w_replay := ∅; w_uploadLimiter := ∅; w_accountLimiter := ∅;
     w_adminLimiter := ∅; w_inflight := 0; w_faults := fs |}.
Definition world2 (fs : list fault) : World := world_of two_db {["h1"; "h2"]} fs.

(** [hash64] owned by b alone. *)
Definition shared_db : Db :=
  {| users := <["npub1a" := paid "npub1a" 0]> {["npub1b" := paid "npub1b" 3]};
     blobs := [row hash64 "npub1b" 3]; grants := ∅; accounts := ∅; notifications := []; moderation := [];
     members := ∅; storages := ∅ |}.
Definition world3 (fs : list fault) : World := world_of shared_db {[hash64]} fs.

Lemma shared_db_ok : db_ok shared_db.
Proof.
  constructor.
  - intros n u Hu. unfold shared_db in Hu. cbn [users] in Hu.
    rewrite lookup_insert, lookup_singleton in Hu. repeat case_decide; simplify_eq;
    (constructor; [reflexivity | reflexivity | by split | done |]; split; [reflexivity|];
     intros t [= <-]; reflexivity).
  - refine (bool_decide_unpack _ _). vm_compute. exact I.
  - intros b ->%list_elem_of_singleton. by eexists.
  - intros b ->%list_elem_of_singleton. done.
  - intros h g Hg. cbn [grants shared_db] in Hg. by apply lookup_empty_Some in Hg.
Qed.

Lemma world_of_placed db hashes fs :
  db_ok db -> storages db = ∅ -> (forall b, b ∈ blobs db -> b_replicas b = ["npub1s"] /\ b_hash b ∈ hashes) ->
  placed addr1 (world_of db hashes fs).
Proof.
  intros Hdb Hst Hb. constructor; simpl; try done.
  - intros id url [= -> ->]%list_elem_of_singleton. done.
  - intros cut j s Hs. unfold all_storages in Hs. rewrite Hst, map_to_list_empty in Hs. by apply elem_of_nil in Hs.
  - intros b Hin. by rewrite (proj1 (Hb b Hin)).
  - intros b r Hin _. unfold node_holds, node_hashes, addr1. simpl. rewrite lookup_singleton_eq. by apply Hb.
Qed.

Lemma world2_placed fs : placed addr1 (world2 fs).
Proof.
  apply world_of_placed; [apply two_db_ok|done|]. intros b Hb.
  repeat (apply elem_of_cons in Hb as [->|Hb]; [split; [done|set_solver]|]). by apply elem_of_nil in Hb.
Qed.
Lemma world3_placed fs : placed addr1 (world3 fs).
Proof.
  apply world_of_placed; [apply shared_db_ok|done|]. intros b ->%list_elem_of_singleton. split; [done|set_solver].
Qed.

(** ** Witnesses *)

Definition requests2 : list request :=
  [{| q_time := NOW; q_faults := [Fine; Unsent]; q_op := RUpload upload_a |};
   {| q_time := NOW + 5; q_faults := []; q_op := RUpload upload_a |};
   {| q_time := NOW + 9; q_faults := [Lost; Lost]; q_op := RDelete delete_b |}].

Lemma rows_have_bytes_witness : placed addr1 (run_requests penv (fun _ => "id") requests2 (world3 [])).
Proof.
  apply (rows_have_bytes penv (fun _ => "id") addr1 requests2 (world3 [])).
  - apply world3_placed.
  - repeat constructor; simpl; intros Hin; repeat (apply elem_of_cons in Hin as [Hin|Hin]; [discriminate Hin|]);
      by apply elem_of_nil in Hin.
Defined.

Definition descriptor3 : Descriptor :=
  {| ds_url := "https://cdn/" +:+ hash64 +:+ ".bin"; ds_sha256 := hash64; ds_size := 3;
     ds_type := "application/octet-stream"; ds_uploaded := Some (NOW / 1000) |}.

Lemma upload_a_answer : (putUpload penv upload_a (world3 [])).1 = Ok (POk 201 descriptor3).
Proof. vm_compute. reflexivity. Qed.

Lemma no_faults_lost w : w_faults w = [] -> no_lost w.
Proof. unfold no_lost. intros ->. apply not_elem_of_nil. Qed.

Lemma upload_acknowledged_witness :
  exists w', putUpload penv upload_a (world3 []) = (Ok (POk 201 descriptor3), w') /\
    exists b, b ∈ blobs (w_db w') /\ b_hash b = hash64 /\ b_replicas b <> [].
Proof.
  destruct (putUpload penv upload_a (world3 [])) as [res w'] eqn:E.
  pose proof upload_a_answer as Ha. rewrite E in Ha. simpl in Ha. subst res.
  exists w'. split; [reflexivity|].
  destruct (upload_acknowledged penv addr1 upload_a (world3 []) 201 descriptor3 w' E)
    as (data & npub & b & _ & _ & _ & _ & _ & Hb & Hk & Hp).
  destruct Hp as [Hne _]; [split; [apply world3_placed | by apply no_faults_lost]|].
  exists b. split; [exact Hb|]. split; [injection Hk; auto | exact Hne].
Defined.

Lemma upload_url_bin_witness :
  exists w', putUpload penv upload_a (world3 []) = (Ok (POk 201 descriptor3), w') /\
    ds_url descriptor3 = "https://cdn/" +:+ hash64 +:+ ".bin".
Proof.
  destruct (putUpload penv upload_a (world3 [])) as [res w'] eqn:E.
  pose proof upload_a_answer as Ha. rewrite E in Ha. simpl in Ha. subst res.
  exists w'. split; [reflexivity|]. exact (upload_url_bin penv upload_a (world3 []) 201 descriptor3 w' E).
Defined.

Lemma delete_b_hash : match_hash (path_tail (rq_path delete_b)) = Some hash64.
Proof. vm_compute. reflexivity. Qed.

Lemma head_visibility_witness :
  exists resp, handleGetBlob penv delete_b false (world3 []) = (Ok resp, world3 []) /\ presp_status resp = 200.
Proof.
  destruct (head_visibility penv delete_b hash64 (world3 [])) as (resp & H1 & _ & H2 & _).
  - reflexivity.
  - apply shared_db_ok.
  - apply delete_b_hash.
  - exists resp. split; [exact H1|]. apply H2. exists (row hash64 "npub1b" 3), (paid "npub1b" 3).
    split; [apply list_elem_of_singleton; reflexivity|]. split; [reflexivity|]. split; reflexivity.
Defined.

Lemma download_served_witness :
  exists resp, handleGetBlob penv delete_b true (world3 []) = (Ok resp, world3 []) /\ presp_status resp = 200.
Proof.
  destruct (download_served penv delete_b hash64 (world3 [])) as (resp & H1 & _ & H2).
  - reflexivity.
  - apply shared_db_ok.
  - apply delete_b_hash.
  - exists resp. split; [exact H1|]. apply H2.
    + intros b ->%list_elem_of_singleton _. exists "npub1s". split; [apply list_elem_of_singleton; reflexivity|].
      exists node1. split; [reflexivity|]. unfold node_holds. vm_compute. reflexivity.
    + exists (row hash64 "npub1b" 3), (paid "npub1b" 3).
      split; [apply list_elem_of_singleton; reflexivity|]. split; [reflexivity|]. split; reflexivity.
Defined.

Lemma purge_complete_witness :
  exists w', purgeRoute 3 "npub1a" (world2 []) = (Ok (POk 200 (Some 2)), w') /\
    blobs (w_db w') = [row "h1" "npub1b" 400].
Proof.
  destruct (purge_complete 3 "npub1a" (world2 [])) as (w' & H1 & H2 & _).
  - reflexivity.
  - apply two_db_ok.
  - apply two_db_sizes.
  - discriminate.
  - vm_compute. lia.
  - exists w'. split; [exact H1 | exact H2].
Defined.

(** Two uploads accepted; the first response closes and finishes. *)
Lemma inflight_budget_witness :
  exists w' ups, rtc (budget_step penv) (world3 [], []) (w', ups) /\ w_inflight w' = 3 /\ w_inflight w' = held ups.
Proof.
  destruct (uploadGate penv upload_a (world3 [])) as [r1 w1] eqn:E1.
  assert (r1 = Ok (inr 3)) as -> by (vm_compute in E1; congruence).
  destruct (uploadGate penv upload_a w1) as [r2 w2] eqn:E2.
  assert (r2 = Ok (inr 3) /\ w_inflight w2 = 6) as [-> Hw2].
  { clear -E1 E2. vm_compute in E1. injection E1 as <-. vm_compute in E2. injection E2 as <- <-. auto. }
  set (u := {| up_length := 3; up_released := false |}).
  assert (rtc (budget_step penv) (world3 [], []) (response_event 0 (response_event 0 (w2, [u; u])))) as Hr.
  { eapply rtc_l; [exact (step_accept penv upload_a _ _ [] 3 E1)|].
    eapply rtc_l; [exact (step_accept penv upload_a _ _ [u] 3 E2)|].
    eapply rtc_l; [apply (step_event penv 0)|]. eapply rtc_l; [apply (step_event penv 0)|]. apply rtc_refl. }
  eexists _, _. split; [exact Hr|]. split; [simpl; rewrite Hw2; reflexivity|].
  apply (inflight_budget penv (world3 []) _ _ eq_refl Hr).
Defined.

(** ** Where rows and bytes can come apart *)

(** One paid account without blobs. *)
Definition single_db : Db :=
  {| users := {["npub1a" := paid "npub1a" 0]}; blobs := []; grants := ∅; accounts := ∅;
     notifications := []; moderation := []; members := ∅; storages := ∅ |}.

Lemma single_db_ok : db_ok single_db.
Proof.
  constructor.
  - intros n u Hu. unfold single_db in Hu. cbn [users] in Hu. rewrite lookup_singleton in Hu.
    case_decide; simplify_eq.
    constructor; [reflexivity | reflexivity | by split | done |]; split; [reflexivity|].
    intros t [= <-]; reflexivity.
  - apply NoDup_nil_2.
  - intros b Hb. by apply elem_of_nil in Hb.
  - intros b Hb. by apply elem_of_nil in Hb.
  - intros h g Hg. cbn [grants single_db] in Hg. by apply lookup_empty_Some in Hg.
Qed.

(** The no-lost-answers condition on uploads is needed. When the answer to
    [POST /blobs] is lost after db-api committed the row, and the lookup that
    asks whether anyone owns the hash then fails, the failed lookup is read as
    nobody and the bytes are deleted under the row: the caller gets a 500, owns
    a row and is billed for a blob that no node has. *)
Theorem lost_answer_dangles :
  exists w q, placed addr1 w /\ q_faults q = [Fine; Fine; Fine; Lost; Unsent] /\
    (exists w', fullUpload penv upload_a (set_faults (q_faults q) w) = (Ok (PErr 500 "Upload failed"), w')) /\
    q_op q = RUpload upload_a /\ q_time q = w_now w /\
    has_row hash64 "npub1a" (run_request penv (fun _ => "id") q w) /\
    ~ node_holds node1 hash64 (run_request penv (fun _ => "id") q w) /\
    ~ placed addr1 (run_request penv (fun _ => "id") q w).
Proof.
  set (w := world_of single_db ∅ []).
  set (q := {| q_time := NOW; q_faults := [Fine; Fine; Fine; Lost; Unsent]; q_op := RUpload upload_a |}).
  assert (has_row hash64 "npub1a" (run_request penv (fun _ => "id") q w)) as Hrow.
  { eexists. split; [vm_compute; apply list_elem_of_here | vm_compute; reflexivity]. }
  assert (~ node_holds node1 hash64 (run_request penv (fun _ => "id") q w)) as Hnode.
  { unfold node_holds. refine (bool_decide_unpack _ _). vm_compute. exact I. }
  exists w, q. split; [|split; [reflexivity|split; [|split; [reflexivity|split; [reflexivity|split; [exact Hrow|split; [exact Hnode|]]]]]]].
  - apply world_of_placed; [apply single_db_ok|done|by intros b Hb%elem_of_nil].
  - eexists. vm_compute. reflexivity.
  - intros Hp. destruct Hrow as (b & Hb & [= Hh _]). apply Hnode. rewrite <- Hh.
    pose proof (pl_replicas _ _ Hp b Hb) as Hne. destruct (b_replicas b) as [|rep reps] eqn:Er; [done|].
    apply (pl_rows _ _ Hp b rep Hb). rewrite Er. apply list_elem_of_here.
Qed.

(** An upload and a deletion of the same bytes can race. One owner's
    deletion that runs between another account's lookup of the hash and the
    recording of its row removes the last row and with it the bytes; the upload
    then reuses the replicas it looked up, answers 201, and its row points at a
    node without the blob. *)
Theorem upload_delete_race :
  exists w existing w1 w2 w3 user access,
    placed addr1 w /\ calm w /\
    client_getBlob hash64 w = (Ok existing, w1) /\
    deleteRoute delete_b w1 = (Ok (POk 200 tt), w2) /\
    finish_upload penv upload_a hash64 "npub1a" 3 user access existing w2 = (Ok (POk 201 descriptor3), w3) /\
    has_row hash64 "npub1a" w3 /\ ~ node_holds node1 hash64 w3.
Proof.
  set (user := unpaidUser "npub1a"). set (access := accessOf None None 0 NOW DEFAULT_LIFECYCLE_CONFIG).
  set (existing := match (client_getBlob hash64 (world3 [])).1 with Ok e => e | Throw _ => None end).
  set (w2 := (deleteRoute delete_b (world3 [])).2).
  set (w3 := (finish_upload penv upload_a hash64 "npub1a" 3 user access existing w2).2).
  exists (world3 []), existing, (world3 []), w2, w3, user, access. split_and!.
  - apply world3_placed.
  - reflexivity.
  - vm_compute. reflexivity.
  - vm_compute. reflexivity.
  - vm_compute. reflexivity.
  - eexists. split; [vm_compute; apply list_elem_of_here | vm_compute; reflexivity].
  - unfold node_holds. refine (bool_decide_unpack _ _). vm_compute. exact I.
Qed.
