(* ===== verification/Format.v ===== *)
(** * Byte counts as operators read and type them (admin-app/src/lib/storageFormat.ts)

    Decimal gigabytes in text form, computed with big integers. *)

From Stdlib Require Import Ascii.
From S2P Require Import Prelude Js.
#[local] Open Scope Z_scope.

Definition BYTES_PER_GB : Z := 1000000000.

(** [bytes(value)]: the string of digits the service sends, [None] for null and
    for any other text. *)
Definition bytes (value : option string) : option Z :=
  match value with
  | Some v => if all_digits v then BigInt_string v else None
  | None => None
  end.

Definition sumBytes (values : list (option string)) : Z :=
  fold_left (fun sum value => sum + default 0 (bytes value)) values 0.

(** A value as a string or null, or as a big integer. *)
Inductive amount := Text (v : option string) | Big (z : Z).
Definition amount_of (a : amount) : option Z := match a with Text v => bytes v | Big z => Some z end.

(** [/] and [%] of big integers truncate. *)
Definition formatBytesGb (value : amount) : string :=
  match amount_of value with
  | None => "-"
  | Some n =>
      let tenth := Z.quot (Z.rem n BYTES_PER_GB) 100000000 in
      Z_to_string (Z.quot n BYTES_PER_GB) +:+ (if tenth =? 0 then "" else "." +:+ Z_to_string tenth) +:+ " GB"
  end.

Fixpoint zeros (n : nat) : string := match n with O => "" | S n => String "0" (zeros n) end.
Definition padStart (n : nat) (s : string) : string := zeros (n - String.length s) +:+ s.
Definition padEnd (n : nat) (s : string) : string := s +:+ zeros (n - String.length s).
Definition is_zero (c : ascii) : bool := Ascii.eqb c "0".

Definition bytesToGbInput (value : option string) : string :=
  match bytes value with
  | None => ""
  | Some n =>
      let whole := Z.quot n BYTES_PER_GB in
      let fraction := strip_right is_zero (padStart 9 (Z_to_string (Z.rem n BYTES_PER_GB))) in
      if String.eqb fraction "" then Z_to_string whole else Z_to_string whole +:+ "." +:+ fraction
  end.

(** The pattern of an amount: digits, and up to nine more after a dot. *)
Definition match_gb (s : string) : option (string * string) :=
  let (whole, rest) := span is_digit s in
  if String.eqb whole "" then None else
  match rest with
  | "" => Some (whole, "")
  | String c fraction =>
      if Ascii.eqb c "." && all_digits fraction && (String.length fraction <=? 9)%nat then Some (whole, fraction) else None
  end.

Definition gbToBytes (value : string) : option string :=
  match match_gb (trim value) with
  | None => None
  | Some (whole, fraction) =>
      let result := dec_value whole * BYTES_PER_GB + dec_value (padEnd 9 fraction) in
      if 0 <? result then Some (Z_to_string result) else None
  end.

Definition percent (part total : amount) : Z :=
  match amount_of part, amount_of total with
  | Some n, Some d => if d =? 0 then 0 else if Z.quot (n * 100) d >? 100 then 100 else Z.quot (n * 100) d
  | _, _ => 0
  end.

(** [relativeTime] at [now] (milliseconds); [time] is what [Date.parse] gave. *)
Definition relativeTime (now : Z) (value : option string) (time : option Z) : string :=
  match value with
  | None => "never"
  | Some v =>
      if String.eqb v "" then "never" else
      match time with
      | None => v
      | Some t =>
          let seconds := Z.max 0 ((now - t) / 1000) in
          if seconds <? 60 then Z_to_string seconds +:+ "s ago"
          else if seconds <? 3600 then Z_to_string (seconds / 60) +:+ "m ago"
          else if seconds <? 86400 then Z_to_string (seconds / 3600) +:+ "h ago"
          else Z_to_string (seconds / 86400) +:+ "d ago"
      end
  end.

(** ** Facts *)

Lemma bytes_show n : 0 <= n -> bytes (Some (Z_to_string n)) = Some n.
Proof. intros Hn. unfold bytes. rewrite all_digits_Z by done. apply BigInt_Z_to_string. Qed.

Lemma length_zeros n : String.length (zeros n) = n.
Proof. induction n; simpl; auto. Qed.

Lemma dec_acc_app a b x : dec_acc (a +:+ b) x = dec_acc b (dec_acc a x).
Proof. revert x. induction a as [|c a IH]; intros x; [done|]. apply IH. Qed.

Lemma dec_acc_zeros n : dec_acc (zeros n) 0 = 0.
Proof. induction n; simpl; auto. Qed.

Lemma dec_padStart n s : dec_value (padStart n s) = dec_value s.
Proof. unfold dec_value, padStart. by rewrite dec_acc_app, dec_acc_zeros. Qed.

Lemma length_padStart n s : (String.length s <= n)%nat -> String.length (padStart n s) = n.
Proof. intros Hs. unfold padStart. rewrite sapp_length, length_zeros. lia. Qed.

Lemma padEnd_nil n : padEnd n "" = zeros n.
Proof. unfold padEnd. by rewrite Nat.sub_0_r. Qed.

Lemma padEnd_cons n c s : padEnd (S n) (String c s) = String c (padEnd n s).
Proof. reflexivity. Qed.

Lemma padEnd_strip s : padEnd (String.length s) (strip_right is_zero s) = s.
Proof.
  induction s as [|c s IH]; [done|]. cbn [strip_right String.length].
  destruct (strip_right is_zero s) as [|d t].
  - rewrite padEnd_nil in IH. destruct (is_zero c) eqn:Ec.
    + apply Ascii.eqb_eq in Ec as ->. rewrite padEnd_nil. cbn [zeros]. by rewrite IH.
    + by rewrite padEnd_cons, padEnd_nil, IH.
  - by rewrite padEnd_cons, IH.
Qed.

Lemma length_show_digits fuel n acc k :
  0 <= n < 10 ^ Z.of_nat (S k) ->
  (String.length (show_digits fuel n acc) <= S k + String.length acc)%nat.
Proof.
  revert n acc k. induction fuel as [|f IH]; intros n acc k Hn; cbn [show_digits]; [lia|].
  destruct (n / 10 =? 0) eqn:E; zbool; cbn [String.length]; [lia|]. destruct k as [|k]; [cbn in Hn; dlia|].
  assert (0 <= n / 10 < 10 ^ Z.of_nat (S k)) as Hq.
  { rewrite (Nat2Z.inj_succ (S k)), Z.pow_succ_r in Hn by lia. split; [apply Z.div_pos; lia|]. apply Z.div_lt_upper_bound; lia. }
  specialize (IH (n / 10) (String (digit_char (n mod 10)) acc) k Hq). cbn [String.length] in IH. lia.
Qed.

Lemma length_Z_to_string n k : 0 <= n < 10 ^ Z.of_nat (S k) -> (String.length (Z_to_string n) <= S k)%nat.
Proof.
  intros Hn. unfold Z_to_string, show_nonneg. replace (n <? 0) with false by lia.
  pose proof (length_show_digits (S (Z.to_nat (Z.log2 n))) n "" k Hn) as Hl. cbn [String.length] in Hl. lia.
Qed.

(** ** Typing back what is shown *)

Lemma sall_zeros n : sall is_digit (zeros n) = true.
Proof. by induction n. Qed.

Lemma sall_strip p q s : sall p s = true -> sall p (strip_right q s) = true.
Proof.
  induction s as [|c s IH]; [done|]. cbn. intros [Hc Hs]%andb_true_iff. specialize (IH Hs).
  destruct (strip_right q s); [destruct (q c)|]; cbn in *; by rewrite ?Hc, ?IH.
Qed.

Lemma length_strip q s : (String.length (strip_right q s) <= String.length s)%nat.
Proof.
  induction s as [|c s IH]; [done|]. cbn. destruct (strip_right q s); [destruct (q c)|]; cbn in *; lia.
Qed.

Lemma span_digits w rest :
  sall is_digit w = true -> match rest with "" => True | String c _ => is_digit c = false end ->
  span is_digit (w +:+ rest) = (w, rest).
Proof.
  induction w as [|c w IH]; intros Hw Hr.
  - change ("" +:+ rest) with rest. destruct rest as [|c rest]; [done|]. cbn. by rewrite Hr.
  - rewrite sapp_cons. cbn in Hw |- *. apply andb_true_iff in Hw as [Hc Hw]. by rewrite Hc, IH.
Qed.

Lemma fraction_facts r :
  0 <= r < BYTES_PER_GB ->
  let f := strip_right is_zero (padStart 9 (Z_to_string r)) in
  sall is_digit f = true /\ (String.length f <= 9)%nat /\ dec_value (padEnd 9 f) = r.
Proof.
  intros Hr f. assert (String.length (padStart 9 (Z_to_string r)) = 9%nat) as Hl.
  { apply length_padStart, (length_Z_to_string r 8). exact Hr. }
  pose proof (all_digits_Z r ltac:(lia)) as [_ Hd]%andb_true_iff.
  split_and!.
  - apply sall_strip. unfold padStart. by rewrite sall_app, sall_zeros.
  - rewrite <- Hl. apply length_strip.
  - unfold f. rewrite <- Hl at 1. rewrite padEnd_strip, dec_padStart.
    unfold Z_to_string. replace (r <? 0) with false by lia. apply dec_value_show. lia.
Qed.

Lemma dec_value_Z n : 0 <= n -> dec_value (Z_to_string n) = n.
Proof. intros Hn. unfold Z_to_string. replace (n <? 0) with false by lia. by apply dec_value_show. Qed.

(** An amount the operator is shown for editing is typed back exactly: for
    every positive byte count the text of [bytesToGbInput] is read by
    [gbToBytes] as that count, to the byte. *)
Theorem gb_roundtrip n : 0 < n -> gbToBytes (bytesToGbInput (Some (Z_to_string n))) = Some (Z_to_string n).
Proof.
  intros Hn. unfold bytesToGbInput. rewrite bytes_show by lia.
  assert (0 <= Z.rem n BYTES_PER_GB < BYTES_PER_GB) as Hr by (unfold BYTES_PER_GB; apply Z.rem_bound_pos; lia).
  assert (0 <= Z.quot n BYTES_PER_GB) as Hq by (unfold BYTES_PER_GB; apply Z.quot_pos; lia).
  destruct (fraction_facts _ Hr) as (Hd & Hl & Hv). set (f := strip_right _ _) in *.
  pose proof (all_digits_Z _ Hq) as Hw. pose proof Hw as [Hw0 Hwd]%andb_true_iff.
  pose proof (Z.quot_rem' n BYTES_PER_GB) as Hqr.
  unfold gbToBytes. destruct (String.eqb_spec f "") as [Hf|Hf].
  - rewrite trim_no_space by (by apply all_digits_no_space). unfold match_gb.
    pose proof (span_digits _ "" Hwd I) as Hsp. rewrite sapp_nil_r in Hsp. rewrite Hsp.
    apply negb_true_iff in Hw0. rewrite Hw0. rewrite Hf in Hv. rewrite dec_value_Z, Hv by done.
    replace (_ * _ + _) with n by lia. by replace (0 <? n) with true by lia.
  - assert (all_digits f = true) as Hdf.
    { unfold all_digits. rewrite Hd, andb_true_r. by apply negb_true_iff, String.eqb_neq. }
    rewrite trim_no_space.
    2:{ unfold no_space. rewrite !sall_app. cbn [sall]. apply all_digits_no_space in Hw, Hdf. unfold no_space in *.
        change ("." +:+ f) with (String "." f). cbn [sall]. by rewrite Hw, Hdf. }
    unfold match_gb. rewrite span_digits by done. apply negb_true_iff in Hw0. rewrite Hw0.
    change ("." +:+ f) with (String "." f). cbn iota beta. rewrite Hdf. rewrite (proj2 (Nat.leb_le _ _) Hl).
    cbn. rewrite dec_value_Z, Hv by done. replace (_ * _ + _) with n by lia. by replace (0 <? n) with true by lia.
Qed.

Lemma gb_roundtrip_witness : gbToBytes (bytesToGbInput (Some (Z_to_string 1500000001))) = Some "1500000001".
Proof. apply (gb_roundtrip 1500000001). lia. Defined.

(** The bar of a usage display is between 0 and 100, whatever the services report. *)
Lemma percent_range part total :
  (forall z, amount_of part = Some z -> 0 <= z) -> (forall z, amount_of total = Some z -> 0 <= z) ->
  0 <= percent part total <= 100.
Proof.
  intros Hp Ht. unfold percent. destruct (amount_of part) as [n|]; [|lia]. destruct (amount_of total) as [d|]; [|lia].
  specialize (Hp _ eq_refl). specialize (Ht _ eq_refl). destruct (Z.eqb_spec d 0); [lia|].
  pose proof (Z.quot_pos (n * 100) d ltac:(lia) ltac:(lia)). destruct (Z.quot (n * 100) d >? 100) eqn:E; [lia|]. lia.
Qed.

Example shown : bytesToGbInput (Some "1500000000") = "1.5" /\ formatBytesGb (Big 1999999999) = "1.9 GB" /\
  gbToBytes " 0.000000001 " = Some "1" /\ gbToBytes "1.0000000001" = None /\ gbToBytes "0" = None.
Proof. vm_compute. done. Qed.
