(* ===== verification/Operator.v ===== *)
(** * The operator's client (admin-app/src/hooks/useSession.ts, platform/worker.ts, platform/web.ts)

    The page keeps what it shows of a host in a hook; the key lives in a worker.
    The hook's handlers run up to an [await] and go on when the worker's answer
    arrives, so calls of several handlers interleave. A handler between two
    awaits is a function of the hook's state; [await] has one constructor per
    place where the code waits. Messages in each direction arrive in order; a
    request of the worker to the host may be overtaken by others.

    The Rust library behind the worker is the class [AdminCore]. The worker has
    finished loading it; the listener that locks it while the page goes away is
    left out, as are the timers of the notices. *)

From S2P Require Import Prelude Js.
#[local] Open Scope Z_scope.

(** ** platform/types.ts *)

Inductive Role := RoleAdmin | RoleClient | RoleNone.
Inductive MemberRole := MemberAdmin | MemberClient.
Inductive MemberStatus := MemberActive | MemberRevoked.
Inductive HostLifecycle := Linked | Removed.
Inductive StorageLiveness := LivePending | LiveActive | LiveUnreachable.

Record UnlockInput := { ui_hostUrl : string; ui_ncryptsec : string; ui_passphrase : string }.
Record UnlockResult := { ur_hostUrl : string; ur_npub : string }.
Record GeneratedKey := { gk_ncryptsec : string; gk_npub : string }.

Record Peer := { pe_npub : string; pe_tunnelIp : option string; pe_connected : bool; pe_lastSeen : option string }.
Record HostStatus := { hs_connectedCount : Z; hs_peers : list Peer }.
Record Me := { me_npub : string; me_role : Role; me_memberSince : option string }.

Record RosterMembers := { rm_authorized : Z; rm_admins : Z; rm_clients : Z; rm_revoked : Z }.
Record RosterStorages := {
  rs_total : Z; rs_active : Z; rs_pending : Z; rs_unreachable : Z;
  rs_reportedTotalBytes : string; rs_reportedFreeBytes : string
}.
Record Roster := {
  ro_members : RosterMembers; ro_storages : RosterStorages;
  ro_replicaCountRequired : Z; ro_replicaShortfall : bool
}.

Record HostMember := {
  hm_npub : string; hm_role : MemberRole; hm_status : MemberStatus; hm_storageCount : Z;
  hm_createdAt : string; hm_updatedAt : string; hm_addedByNpub : option string
}.

Record HostStorage := {
  ho_npub : string; ho_ownerNpub : string; ho_tunnelIp : option string; ho_blossomPort : option Z;
  ho_declaredCapacityBytes : option string; ho_reportedTotalBytes : option string;
  ho_reportedFreeBytes : option string; ho_lifecycle : HostLifecycle; ho_liveness : StorageLiveness;
  ho_lastPingAt : option string; ho_createdAt : string
}.

Inductive BusyKind :=
| BusyUnlock | BusyRefresh | BusyInvite | BusyMemberAuthorize | BusyMemberRevoke
| BusyStorageLink | BusyStorageCapacity | BusyStorageRemove | BusyProfile.

(** ** platform/protocol.ts: what the page asks the worker *)

(** Requests that go to the host, signed with the key. *)
Inductive HostRequest :=
| AskStatus | AskMe | AskRoster | AskMembers | AskStorages | GenerateInvite
| AuthorizeMember (npub : string) (role : MemberRole)
| RevokeMember (npub : string)
| LinkStorage (npub : string)
| SetStorageCapacity (npub declaredCapacityBytes : string)
| RemoveStorage (npub : string).

(** Requests the library answers by itself. *)
Inductive CoreRequest :=
| NormalizeHostUrl (url : string)
| CanonicalNpub (npub : string)
| GenerateHostKey (passphrase : string)
| ImportNsec (nsec passphrase : string).

Inductive WorkerRequest :=
| ToCore (q : CoreRequest)
| UnlockHost (input : UnlockInput)
| LockHost
| ToHost (q : HostRequest).

Inductive Value :=
| VText (s : string) | VKey (k : GeneratedKey) | VUnlocked (r : UnlockResult) | VNothing
| VStatus (s : HostStatus) | VMe (m : Me) | VRoster (r : Roster)
| VMembers (l : list HostMember) | VStorages (l : list HostStorage).

(** What the worker uses of [admin_wasm], and the host it talks to: [fetch] is
    the answer to a signed request, [None] when there is none; the number stands
    for everything else it depends on. *)
Class AdminCore := {
  Session : Type;
  SignedRequest : Type;
  openSession : UnlockInput -> exc string Session;
  unlockResult : Session -> UnlockResult;
  signRequest : Session -> HostRequest -> exc string SignedRequest;
  core_answer : CoreRequest -> exc string Value;
  fetch : SignedRequest -> Z -> option (Z * string);
  transportError : string;
  statusResponse : Z -> string -> exc string HostStatus;
  meResponse : Z -> string -> exc string Me;
  rosterResponse : Z -> string -> exc string Roster;
  membersResponse : Z -> string -> exc string (list HostMember);
  storagesResponse : Z -> string -> exc string (list HostStorage);
  inviteResponse : Z -> string -> exc string string;
  mutationResponse : Z -> string -> exc string unit
}.

Section Client.
Context `{AdminCore}.

(** ** platform/worker.ts *)

Definition exc_map {A B} (f : A -> B) (r : exc string A) : exc string B :=
  match r with Ok a => Ok (f a) | Throw e => Throw e end.

(** The second half of a case of [handle]: the answer of the host, parsed. *)
Definition host_response (q : HostRequest) (code : Z) (body : string) : exc string Value :=
  match q with
  | AskStatus => exc_map VStatus (statusResponse code body)
  | AskMe => exc_map VMe (meResponse code body)
  | AskRoster => exc_map VRoster (rosterResponse code body)
  | AskMembers => exc_map VMembers (membersResponse code body)
  | AskStorages => exc_map VStorages (storagesResponse code body)
  | GenerateInvite => exc_map VText (inviteResponse code body)
  | AuthorizeMember _ _ | RevokeMember _ | LinkStorage _ | SetStorageCapacity _ _ | RemoveStorage _ =>
      exc_map (fun _ => VNothing) (mutationResponse code body)
  end.

(** [send] and the parsing behind it, when the answer is there. *)
Definition send_signed (q : HostRequest) (r : SignedRequest) (n : Z) : exc string Value :=
  match fetch r n with
  | None => Throw transportError
  | Some (code, body) => host_response q code body
  end.

(** What [handle] does with a message at once: answer it, or send a request
    signed with the key of that moment. *)
Inductive handled :=
| Answered (r : exc string Value)
| Sent (s : Session) (r : SignedRequest) (q : HostRequest).

Definition worker_handle (session : option Session) (m : WorkerRequest) : option Session * handled :=
  match m with
  | ToCore q => (session, Answered (core_answer q))
  | UnlockHost input =>
      match openSession input with
      | Throw e => (session, Answered (Throw e))
      | Ok opened => (Some opened, Answered (Ok (VUnlocked (unlockResult opened))))
      end
  | LockHost => (None, Answered (Ok VNothing))
  | ToHost q =>
      match session with
      | None => (session, Answered (Throw "Host is locked. Unlock it to continue"))
      | Some s =>
          match signRequest s q with
          | Throw e => (session, Answered (Throw e))
          | Ok r => (session, Sent s r q)
          end
      end
  end.

(** ** hooks/useSession.ts *)

Record Notice := { no_error : bool; no_message : string }.

Record Hook := {
  hk_unlocked : bool;
  hk_me : option Me;
  hk_status : option HostStatus;
  hk_roster : option Roster;
  hk_members : list HostMember;
  hk_storages : list HostStorage;
  hk_busy : option BusyKind;
  hk_notice : option Notice;
  hk_mounted : bool;
  hk_generation : Z
}.

Definition messageOf (e : string) : string :=
  if String.eqb e "" then "The operation could not be completed" else e.

Definition set_data (me : option Me) (st : option HostStatus) (ro : option Roster) (ms : list HostMember)
    (ss : list HostStorage) (h : Hook) : Hook :=
  {| hk_unlocked := hk_unlocked h; hk_me := me; hk_status := st; hk_roster := ro; hk_members := ms;
     hk_storages := ss; hk_busy := hk_busy h; hk_notice := hk_notice h; hk_mounted := hk_mounted h;
     hk_generation := hk_generation h |}.
Definition setMe (m : Me) (h : Hook) : Hook :=
  set_data (Some m) (hk_status h) (hk_roster h) (hk_members h) (hk_storages h) h.
(** The four setters behind [me]. *)
Definition set_lists (st : option HostStatus) (ro : option Roster) (ms : list HostMember) (ss : list HostStorage)
    (h : Hook) : Hook := set_data (hk_me h) st ro ms ss h.
Definition clearData (h : Hook) : Hook := set_data None None None [] [] h.

Definition set_session (unlocked : bool) (generation : Z) (h : Hook) : Hook :=
  {| hk_unlocked := unlocked; hk_me := hk_me h; hk_status := hk_status h; hk_roster := hk_roster h;
     hk_members := hk_members h; hk_storages := hk_storages h; hk_busy := hk_busy h; hk_notice := hk_notice h;
     hk_mounted := hk_mounted h; hk_generation := generation |}.
Definition set_page (busy : option BusyKind) (notice : option Notice) (mounted : bool) (h : Hook) : Hook :=
  {| hk_unlocked := hk_unlocked h; hk_me := hk_me h; hk_status := hk_status h; hk_roster := hk_roster h;
     hk_members := hk_members h; hk_storages := hk_storages h; hk_busy := busy; hk_notice := notice;
     hk_mounted := mounted; hk_generation := hk_generation h |}.
Definition setBusy (b : option BusyKind) (h : Hook) : Hook := set_page b (hk_notice h) (hk_mounted h) h.
Definition toast (n : option Notice) (h : Hook) : Hook := set_page (hk_busy h) n (hk_mounted h) h.
Definition toast_error (e : string) : Hook -> Hook := toast (Some {| no_error := true; no_message := messageOf e |}).

(** [mounted.current && generation.current === started] *)
Definition current (started : Z) (h : Hook) : bool := hk_mounted h && (hk_generation h =? started).
Definition if_current (started : Z) (f : Hook -> Hook) (h : Hook) : Hook := if current started h then f h else h.

(** Who waits for a [refresh], and the places where the code waits. *)
Inductive caller := Top | InUnlock (npub : string) | InMutate (started : Z).
Inductive await :=
| AwaitCore
| AwaitLock
| AwaitMe (silent : bool) (started : Z) (c : caller)
| AwaitStorages (silent : bool) (started : Z) (c : caller)
| AwaitAll (silent : bool) (started : Z) (c : caller)
| AwaitUnlock
| AwaitOperation (started : Z) (success : string)
| AwaitInvite (started : Z).

(** What a call of the hook returns in the end. *)
Inductive returned :=
| RUndefined | RNpub (npub : option string) | RDone (b : bool) | RInvite (invite : option string)
| RValue (v : Value) | RRejected (e : string).

Inductive next := Returns (r : returned) | Awaits (calls : list WorkerRequest) (a : await).

(** The tail of whoever awaited the refresh, [finally] blocks included. *)
Definition refreshed (c : caller) (h : Hook) : Hook * next :=
  match c with
  | Top => (h, Returns RUndefined)
  | InUnlock npub => (if hk_mounted h then setBusy None h else h, Returns (RNpub (Some npub)))
  | InMutate started => (if_current started (setBusy None) h, Returns (RDone true))
  end.

(** The [finally] of refresh. *)
Definition end_refresh (silent : bool) (started : Z) (c : caller) (h : Hook) : Hook * next :=
  refreshed c (if silent then h else if_current started (setBusy None) h).

(** [catch] and [finally] of refresh. *)
Definition fail_refresh (silent : bool) (started : Z) (c : caller) (e : string) (h : Hook) : Hook * next :=
  end_refresh silent started c (if_current started (toast_error e) h).

Definition session_refresh (silent : bool) (c : caller) (h : Hook) : Hook * next :=
  (if silent then h else setBusy (Some BusyRefresh) h,
   Awaits [ToHost AskMe] (AwaitMe silent (hk_generation h) c)).

Definition session_lock (h : Hook) : Hook * next :=
  (set_session (hk_unlocked h) (hk_generation h + 1) h, Awaits [LockHost] AwaitLock).

Definition session_unlock (input : UnlockInput) (kind : BusyKind) (h : Hook) : Hook * next :=
  (toast None (setBusy (Some kind) h), Awaits [UnlockHost input] AwaitUnlock).

Definition mutate (kind : BusyKind) (operation : HostRequest) (success : string) (h : Hook) : Hook * next :=
  (setBusy (Some kind) h, Awaits [ToHost operation] (AwaitOperation (hk_generation h) success)).

Definition createInvite (h : Hook) : Hook * next :=
  (setBusy (Some BusyInvite) h, Awaits [ToHost GenerateInvite] (AwaitInvite (hk_generation h))).

(** The calls the page makes. *)
Inductive operation :=
| OpCore (q : CoreRequest)
| OpLock
| OpRefresh (silent : bool)
| OpUnlock (input : UnlockInput) (kind : BusyKind)
| OpInvite
| OpAuthorize (npub : string) (role : MemberRole)
| OpRevoke (npub : string)
| OpLink (npub : string)
| OpCapacity (npub bytes : string)
| OpRemove (npub : string).

Definition perform (o : operation) (h : Hook) : Hook * next :=
  match o with
  | OpCore q => (h, Awaits [ToCore q] AwaitCore)
  | OpLock => session_lock h
  | OpRefresh silent => session_refresh silent Top h
  | OpUnlock input kind => session_unlock input kind h
  | OpInvite => createInvite h
  | OpAuthorize npub role => mutate BusyMemberAuthorize (AuthorizeMember npub role)
      match role with MemberAdmin => "Admin authorized" | MemberClient => "Client authorized" end h
  | OpRevoke npub => mutate BusyMemberRevoke (RevokeMember npub)
      "Member revoked and their storage removed from the mesh" h
  | OpLink npub => mutate BusyStorageLink (LinkStorage npub) "Storage linked to your roster" h
  | OpCapacity npub bytes => mutate BusyStorageCapacity (SetStorageCapacity npub bytes) "Declared capacity updated" h
  | OpRemove npub => mutate BusyStorageRemove (RemoveStorage npub) "Storage removed from the mesh" h
  end.

(** An answer of another kind than the one asked for. *)
Definition unexpected : string := "unexpected answer".

(** From an [await] to the next, with the answers to the calls waited for. *)
Definition resume (a : await) (r : exc string (list Value)) (h : Hook) : Hook * next :=
  match a, r with
  | AwaitCore, Ok [v] => (h, Returns (RValue v))
  | AwaitCore, Ok _ => (h, Returns (RRejected unexpected))
  | AwaitCore, Throw e => (h, Returns (RRejected e))
  | AwaitLock, _ => (clearData (setBusy None (set_session false (hk_generation h) h)),
                     Returns (match r with Ok _ => RUndefined | Throw e => RRejected e end))
  | AwaitMe silent started c, Ok [VMe nextMe] =>
      if negb (current started h) then end_refresh silent started c h else
      let h := setMe nextMe h in
      match me_role nextMe with
      | RoleNone => end_refresh silent started c (set_lists None None [] [] h)
      | RoleClient => (h, Awaits [ToHost AskStorages] (AwaitStorages silent started c))
      | RoleAdmin => (h, Awaits [ToHost AskStatus; ToHost AskRoster; ToHost AskMembers; ToHost AskStorages]
                           (AwaitAll silent started c))
      end
  | AwaitStorages silent started c, Ok [VStorages nextStorages] =>
      end_refresh silent started c (if_current started (set_lists None None [] nextStorages) h)
  | AwaitAll silent started c, Ok [VStatus nextStatus; VRoster nextRoster; VMembers nextMembers; VStorages nextStorages] =>
      end_refresh silent started c
        (if_current started (set_lists (Some nextStatus) (Some nextRoster) nextMembers nextStorages) h)
  | AwaitMe silent started c, Throw e | AwaitStorages silent started c, Throw e | AwaitAll silent started c, Throw e =>
      fail_refresh silent started c e h
  | AwaitMe silent started c, Ok _ | AwaitStorages silent started c, Ok _ | AwaitAll silent started c, Ok _ =>
      fail_refresh silent started c unexpected h
  | AwaitUnlock, Ok [VUnlocked result] =>
      let h := set_session true (hk_generation h + 1) (clearData h) in
      session_refresh true (InUnlock (ur_npub result)) h
  | AwaitUnlock, Ok _ | AwaitUnlock, Throw _ =>
      let h := toast_error (match r with Throw e => e | Ok _ => unexpected end) h in
      (if hk_mounted h then setBusy None h else h, Returns (RNpub None))
  | AwaitOperation started success, Ok _ =>
      if negb (current started h) then (h, Returns (RDone false)) else
      session_refresh true (InMutate started) (toast (Some {| no_error := false; no_message := success |}) h)
  | AwaitOperation started success, Throw e =>
      (if_current started (fun h => setBusy None (toast_error e h)) h, Returns (RDone false))
  | AwaitInvite started, Ok [VText invite] => (if_current started (setBusy None) h, Returns (RInvite (Some invite)))
  | AwaitInvite started, Ok _ | AwaitInvite started, Throw _ =>
      (if_current started (fun h => setBusy None
         (toast_error (match r with Throw e => e | Ok _ => unexpected end) h)) h, Returns (RInvite None))
  end.

(** ** The page and its worker *)

(** A call the page waits for: its number, what was asked, the answer so far
    ([Promise.all] waits for several). *)
Record Call := { cl_id : Z; cl_request : WorkerRequest; cl_answer : option Value }.
Record Wait := { wt_calls : list Call; wt_await : await }.

(** A message of the worker. [rp_request] and [rp_session] are not part of it:
    they say what it answers and under which key, for the theorems. *)
Record Response := {
  rp_id : Z; rp_result : exc string Value; rp_request : WorkerRequest; rp_session : option Session
}.

(** A request of the worker that is under way. *)
Record Flight := { fl_id : Z; fl_session : Session; fl_signed : SignedRequest; fl_query : HostRequest }.

Record Client := {
  ad_hook : Hook;
  ad_nextId : Z;
  ad_waits : list Wait;
  ad_inbox : list (Z * WorkerRequest);
  ad_session : option Session;
  ad_flights : list Flight;
  ad_outbox : list Response;
  ad_returned : list returned
}.

(** [rpc] for each of the calls of an await, in their order. *)
Fixpoint number_calls (id : Z) (calls : list WorkerRequest) : list Call :=
  match calls with
  | [] => []
  | q :: calls => {| cl_id := id + 1; cl_request := q; cl_answer := None |} :: number_calls (id + 1) calls
  end.

Definition continue (r : Hook * next) (y : Client) : Client :=
  match snd r with
  | Returns x =>
      {| ad_hook := fst r; ad_nextId := ad_nextId y; ad_waits := ad_waits y; ad_inbox := ad_inbox y;
         ad_session := ad_session y; ad_flights := ad_flights y; ad_outbox := ad_outbox y;
         ad_returned := ad_returned y ++ [x] |}
  | Awaits calls a =>
      let numbered := number_calls (ad_nextId y) calls in
      {| ad_hook := fst r; ad_nextId := ad_nextId y + Z.of_nat (length calls);
         ad_waits := ad_waits y ++ [{| wt_calls := numbered; wt_await := a |}];
         ad_inbox := ad_inbox y ++ map (fun c => (cl_id c, cl_request c)) numbered;
         ad_session := ad_session y; ad_flights := ad_flights y; ad_outbox := ad_outbox y;
         ad_returned := ad_returned y |}
  end.

Definition set_main (waits : list Wait) (outbox : list Response) (y : Client) : Client :=
  {| ad_hook := ad_hook y; ad_nextId := ad_nextId y; ad_waits := waits; ad_inbox := ad_inbox y;
     ad_session := ad_session y; ad_flights := ad_flights y; ad_outbox := outbox; ad_returned := ad_returned y |}.
Definition set_worker (inbox : list (Z * WorkerRequest)) (session : option Session) (flights : list Flight)
    (outbox : list Response) (y : Client) : Client :=
  {| ad_hook := ad_hook y; ad_nextId := ad_nextId y; ad_waits := ad_waits y; ad_inbox := inbox;
     ad_session := session; ad_flights := flights; ad_outbox := outbox; ad_returned := ad_returned y |}.

Definition is_open (c : Call) : bool := match cl_answer c with None => true | Some _ => false end.
Definition waits_for (id : Z) (w : Wait) : bool := existsb (fun c => (cl_id c =? id) && is_open c) (wt_calls w).

(** Take the wait of a call out of the list. *)
Fixpoint take_wait (id : Z) (l : list Wait) : option (Wait * list Wait) :=
  match l with
  | [] => None
  | w :: l => if waits_for id w then Some (w, l)
              else match take_wait id l with Some (x, l') => Some (x, w :: l') | None => None end
  end.

(** A promise is settled once. *)
Definition answer_call (id : Z) (v : Value) (c : Call) : Call :=
  if (cl_id c =? id) && is_open c then {| cl_id := cl_id c; cl_request := cl_request c; cl_answer := Some v |} else c.

(** The message listener of [start]: the call resolves or rejects, and who
    waited for the last answer or the first error goes on. *)
Definition settle (id : Z) (r : exc string Value) (y : Client) : Client :=
  match take_wait id (ad_waits y) with
  | None => y
  | Some (w, others) =>
      match r with
      | Throw e => continue (resume (wt_await w) (Throw e) (ad_hook y)) (set_main others (ad_outbox y) y)
      | Ok v =>
          let calls := map (answer_call id v) (wt_calls w) in
          match mapM cl_answer calls with
          | Some values => continue (resume (wt_await w) (Ok values) (ad_hook y)) (set_main others (ad_outbox y) y)
          | None => set_main (others ++ [{| wt_calls := calls; wt_await := wt_await w |}]) (ad_outbox y) y
          end
      end
  end.

(** The calls nobody has answered, in the order they were made. *)
Definition unanswered (y : Client) : list Z :=
  flat_map (fun w => map cl_id (List.filter is_open (wt_calls w))) (ad_waits y).

Inductive client_event :=
| Perform (o : operation)       (* the page calls the hook *)
| Handles                       (* the worker takes a message *)
| Fetched (i : nat) (n : Z)     (* the host answers a request under way *)
| Delivers                      (* the page takes a message *)
| Unmounts
| Crashes.                      (* the worker's error event *)

Definition client_step (e : client_event) (y : Client) : Client :=
  match e with
  | Perform o => continue (perform o (ad_hook y)) y
  | Handles =>
      match ad_inbox y with
      | [] => y
      | (id, q) :: inbox =>
          match worker_handle (ad_session y) q with
          | (s, Answered r) => set_worker inbox s (ad_flights y)
              (ad_outbox y ++ [{| rp_id := id; rp_result := r; rp_request := q; rp_session := s |}]) y
          | (s, Sent key signed query) => set_worker inbox s
              (ad_flights y ++ [{| fl_id := id; fl_session := key; fl_signed := signed; fl_query := query |}]) (ad_outbox y) y
          end
      end
  | Fetched i n =>
      match ad_flights y !! i with
      | None => y
      | Some f => set_worker (ad_inbox y) (ad_session y) (delete i (ad_flights y))
          (ad_outbox y ++ [{| rp_id := fl_id f; rp_result := send_signed (fl_query f) (fl_signed f) n;
                              rp_request := ToHost (fl_query f); rp_session := Some (fl_session f) |}]) y
      end
  | Delivers =>
      match ad_outbox y with
      | [] => y
      | m :: outbox => settle (rp_id m) (rp_result m) (set_main (ad_waits y) outbox y)
      end
  | Unmounts =>
      {| ad_hook := set_page (hk_busy (ad_hook y)) (hk_notice (ad_hook y)) false (ad_hook y); ad_nextId := ad_nextId y;
         ad_waits := ad_waits y; ad_inbox := ad_inbox y; ad_session := ad_session y; ad_flights := ad_flights y;
         ad_outbox := ad_outbox y; ad_returned := ad_returned y |}
  | Crashes => fold_left (fun y id => settle id (Throw "The crypto worker stopped unexpectedly") y) (unanswered y) y
  end.

Definition client_run (evs : list client_event) (y : Client) : Client := fold_left (fun y e => client_step e y) evs y.

Definition client_start : Client :=
  {| ad_hook := {| hk_unlocked := false; hk_me := None; hk_status := None; hk_roster := None; hk_members := [];
                   hk_storages := []; hk_busy := None; hk_notice := None; hk_mounted := true; hk_generation := 0 |};
     ad_nextId := 0; ad_waits := []; ad_inbox := []; ad_session := None; ad_flights := []; ad_outbox := [];
     ad_returned := [] |}.
End Client.
