(* ===== verification/OperatorFacts.v ===== *)
(** * What the operator's client shows

    Answers of a host can arrive after the operator has locked it or unlocked
    another. [pipe_ok] describes the messages under way between page and worker;
    [client_isolated] says that what the hook keeps is never one host's data
    shown as another's, and nothing once it is locked; [late_invite] that the
    invite, which the hook only passes on, is not so guarded. *)

From S2P Require Import Prelude Js Operator.
#[local] Open Scope Z_scope.

Section Facts.
Context `{AdminCore}.

(** [v] is a host's answer to a request signed with the key of [s]. *)
Definition answered_to (s : Session) (v : Value) : Prop :=
  exists q r n, signRequest s q = Ok r /\ send_signed q r n = Ok v.
Definition by_key (cur : option Session) (v : Value) : Prop := exists s, cur = Some s /\ answered_to s v.

(** What the hook keeps of a host comes from the host of [cur]; with no host,
    nothing is kept. The invite is not kept by the hook: [createInvite] hands it
    to the page, which shows it in a dialog. *)
Record shows (cur : option Session) (h : Hook) : Prop := {
  shows_me : forall x, hk_me h = Some x -> by_key cur (VMe x);
  shows_status : forall x, hk_status h = Some x -> by_key cur (VStatus x);
  shows_roster : forall x, hk_roster h = Some x -> by_key cur (VRoster x);
  shows_members : hk_members h <> [] -> by_key cur (VMembers (hk_members h));
  shows_storages : hk_storages h <> [] -> by_key cur (VStorages (hk_storages h));
  shows_locked : hk_unlocked h = false -> cur = None
}.

(** ** Messages *)

Definition is_lock (m : Response) : bool := match rp_request m with LockHost => true | _ => false end.
Definition is_unlock (m : Response) : bool :=
  match rp_request m, rp_result m with UnlockHost _, Ok _ => true | _, _ => false end.

(** The host whose data the page may show once it has taken the message. *)
Definition shift (cur : option Session) (m : Response) : option Session :=
  if is_lock m then None else if is_unlock m then rp_session m else cur.
Definition final (cur : option Session) (out : list Response) : option Session := fold_left shift out cur.

Definition has_unlock (out : list Response) : Prop := exists m, m ∈ out /\ is_unlock m = true.
Definition no_lock (out : list Response) : Prop := forall m, m ∈ out -> is_lock m = false.

Lemma final_app cur a b : final cur (a ++ b) = final (final cur a) b.
Proof. apply fold_left_app. Qed.

Lemma shift_other cur m : is_lock m = false -> is_unlock m = false -> shift cur m = cur.
Proof. intros Hl Hu. unfold shift. by rewrite Hl, Hu. Qed.

(** ** Waiting places *)

(** The calls made at an await. *)
Definition await_calls (a : await) (l : list WorkerRequest) : Prop :=
  match a with
  | AwaitCore => exists q, l = [ToCore q]
  | AwaitLock => l = [LockHost]
  | AwaitMe _ _ _ => l = [ToHost AskMe]
  | AwaitStorages _ _ _ => l = [ToHost AskStorages]
  | AwaitAll _ _ _ => l = [ToHost AskStatus; ToHost AskRoster; ToHost AskMembers; ToHost AskStorages]
  | AwaitUnlock => exists i, l = [UnlockHost i]
  | AwaitOperation _ _ => exists q, l = [ToHost q]
  | AwaitInvite _ => l = [ToHost GenerateInvite]
  end.

(** The generation a refresh belongs to; only a refresh writes data. *)
Definition refresh_of (a : await) : option Z :=
  match a with AwaitMe _ st _ | AwaitStorages _ st _ | AwaitAll _ st _ => Some st | _ => None end.
Definition fresh (g : Z) (w : Wait) : Prop := refresh_of (wt_await w) = Some g.
Definition started_by (g : Z) (a : await) : Prop := forall st, refresh_of a = Some st -> st <= g.

Definition call_ok (cur : option Session) (fl : list Flight) (out : list Response) (c : Call) : Prop :=
  match cl_answer c with
  | Some v => by_key cur v /\ no_lock out
  | None =>
      (forall pre m post, out = pre ++ m :: post -> rp_id m = cl_id c ->
         no_lock post /\ (has_unlock pre \/ forall v, rp_result m = Ok v -> by_key (final cur pre) v)) /\
      (forall f, f ∈ fl -> fl_id f = cl_id c -> has_unlock out \/ final cur out = Some (fl_session f))
  end.

(** Whoever sent an unlocking or locking message waits for its answer. *)
Definition control (waits : list Wait) (id : Z) (q : WorkerRequest) : Prop :=
  let w a := {| wt_calls := [{| cl_id := id; cl_request := q; cl_answer := None |}]; wt_await := a |} in
  match q with
  | LockHost => w AwaitLock ∈ waits
  | UnlockHost _ => w AwaitUnlock ∈ waits
  | _ => True
  end.

(** The calls a wait belongs to and the messages that carry them agree. *)
Record call_linked (nid : Z) (inbox : list (Z * WorkerRequest)) (fl : list Flight) (out : list Response) (c : Call) : Prop := {
  cl_bound : cl_id c <= nid;
  cl_inbox : forall q, (cl_id c, q) ∈ inbox -> q = cl_request c;
  cl_flight : forall f, f ∈ fl -> fl_id f = cl_id c -> cl_request c = ToHost (fl_query f);
  cl_out : forall m, m ∈ out -> rp_id m = cl_id c -> rp_request m = cl_request c;
  cl_past : forall v a q, cl_answer c = Some v -> (a, q) ∈ inbox -> cl_id c < a
}.

Record pipe_ok (cur : option Session) (g nid : Z) (waits : list Wait) (inbox : list (Z * WorkerRequest))
    (key : option Session) (fl : list Flight) (out : list Response) : Prop := {
  pi_nodup : NoDup (map fl_id fl ++ map rp_id out);
  pi_sorted : StronglySorted Z.lt inbox.*1;
  pi_before : forall a q, (a, q) ∈ inbox -> (forall f, f ∈ fl -> fl_id f < a) /\ (forall m, m ∈ out -> rp_id m < a);
  pi_bound : (forall a q, (a, q) ∈ inbox -> a <= nid) /\ (forall f, f ∈ fl -> fl_id f <= nid) /\
             (forall m, m ∈ out -> rp_id m <= nid);
  pi_wait : forall w, w ∈ waits -> await_calls (wt_await w) (map cl_request (wt_calls w)) /\ started_by g (wt_await w);
  pi_linked : forall w c, w ∈ waits -> c ∈ wt_calls w -> call_linked nid inbox fl out c;
  pi_control : (forall id q, (id, q) ∈ inbox -> control waits id q) /\
               (forall m, m ∈ out -> control waits (rp_id m) (rp_request m));
  pi_unlock : forall m, m ∈ out -> is_unlock m = true -> exists r, rp_result m = Ok (VUnlocked r);
  pi_signed : forall f, f ∈ fl -> signRequest (fl_session f) (fl_query f) = Ok (fl_signed f);
  pi_key : key = None \/ key = final cur out;
  pi_calls : forall w c, w ∈ waits -> fresh g w -> c ∈ wt_calls w -> call_ok cur fl out c;
  pi_ahead : forall l w c, (l, LockHost) ∈ inbox -> w ∈ waits -> fresh g w -> c ∈ wt_calls w -> l < cl_id c
}.

Definition page_ok (cur : option Session) (y : Client) : Prop :=
  shows cur (ad_hook y) /\
  pipe_ok cur (hk_generation (ad_hook y)) (ad_nextId y) (ad_waits y) (ad_inbox y) (ad_session y) (ad_flights y)
    (ad_outbox y).

(** ** Calls are numbered upwards *)

Lemma number_calls_spec l : forall id,
  map cl_request (number_calls id l) = l /\
  StronglySorted Z.lt (map cl_id (number_calls id l)) /\
  forall c, c ∈ number_calls id l -> id < cl_id c <= id + Z.of_nat (length l) /\ cl_answer c = None.
Proof.
  induction l as [|q l IH]; intros id; cbn.
  - split_and!; [done|constructor|]. intros c Hc. by apply not_elem_of_nil in Hc.
  - destruct (IH (id + 1)) as (Hm & Hs & Hc). split_and!.
    + by rewrite Hm.
    + constructor; [done|]. apply List.Forall_forall. intros x [c [<- Hin]]%in_map_iff.
      apply list_elem_of_In, Hc in Hin as [? _]. lia.
    + intros c [->|Hin]%elem_of_cons; cbn; [split; [lia|done]|]. apply Hc in Hin as [? ?]. split; [lia|done].
Qed.

Definition posted (l : list Call) : list (Z * WorkerRequest) := map (fun c => (cl_id c, cl_request c)) l.

Lemma posted_ids l : (posted l).*1 = map cl_id l.
Proof. unfold posted. induction l as [|c l IH]; [done|]. cbn. by rewrite IH. Qed.

Lemma elem_posted id q l : (id, q) ∈ posted l -> exists c, c ∈ l /\ cl_id c = id /\ cl_request c = q.
Proof.
  unfold posted. rewrite list_elem_of_In, in_map_iff. intros (c & [= <- <-] & Hin). exists c.
  by rewrite list_elem_of_In.
Qed.

Lemma control_mono waits waits' id q : (forall w, w ∈ waits -> w ∈ waits') -> control waits id q -> control waits' id q.
Proof. intros Hs. unfold control. destruct q; auto. Qed.

(** The requests of an await, spelled out. *)
Ltac calls_of Ha Hc :=
  match type of Ha with
  | await_calls ?a ?l => destruct a; cbn in Ha;
      lazymatch type of Ha with ex _ => destruct Ha as [? ->] | _ => subst l end; cbn in Hc;
      repeat (apply elem_of_cons in Hc as [->|Hc]); try (by apply not_elem_of_nil in Hc)
  end.

Lemma control_posted a l nid c (waits : list Wait) : await_calls a l -> c ∈ number_calls nid l ->
  control (waits ++ [{| wt_calls := number_calls nid l; wt_await := a |}]) (cl_id c) (cl_request c).
Proof. intros Ha Hc. calls_of Ha Hc; cbn; auto; apply elem_of_app; right; by apply list_elem_of_singleton. Qed.

Lemma lock_posted a l nid id : await_calls a l -> (id, LockHost) ∈ posted (number_calls nid l) -> a = AwaitLock.
Proof. intros Ha (c & Hc & _ & Hq)%elem_posted. calls_of Ha Hc; done. Qed.

Lemma StronglySorted_app_lt (a b : list Z) :
  StronglySorted Z.lt a -> StronglySorted Z.lt b -> (forall x y, x ∈ a -> y ∈ b -> x < y) -> StronglySorted Z.lt (a ++ b).
Proof.
  induction a as [|x a IH]; intros Ha Hb Hab; [done|]. apply StronglySorted_inv in Ha as [Ha Hx]. cbn. constructor.
  - apply IH; [done..|]. intros; apply Hab; [by right|done].
  - apply List.Forall_app. split; [done|]. apply List.Forall_forall. intros y Hy. apply Hab; [by left|by apply list_elem_of_In].
Qed.

Lemma sorted_calls_unique (l : list Call) c c' :
  StronglySorted Z.lt (map cl_id l) -> c ∈ l -> c' ∈ l -> cl_id c = cl_id c' -> c = c'.
Proof.
  induction l as [|x l IH]; intros Hs Hin Hin' Hid; [by apply not_elem_of_nil in Hin|].
  cbn in Hs. apply StronglySorted_inv in Hs as [Hs Hx]. rewrite List.Forall_forall in Hx.
  assert (forall d, d ∈ l -> cl_id x < cl_id d) as Hlt by (intros d Hd; by apply Hx, in_map, list_elem_of_In).
  apply elem_of_cons in Hin as [->|Hin], Hin' as [->|Hin']; auto; exfalso.
  - specialize (Hlt _ Hin'). lia.
  - specialize (Hlt _ Hin). lia.
Qed.

Lemma posted_new nid l id q : (id, q) ∈ posted (number_calls nid l) ->
  nid < id <= nid + Z.of_nat (length l).
Proof. intros (c & Hc & <- & _)%elem_posted. by apply number_calls_spec in Hc as [? _]. Qed.

(** The calls of a handler that goes to wait are ahead of everything else. *)
Lemma posted_linked nid l inbox fl out c :
  (forall a q, (a, q) ∈ inbox -> a <= nid) -> (forall f, f ∈ fl -> fl_id f <= nid) -> (forall m, m ∈ out -> rp_id m <= nid) ->
  c ∈ number_calls nid l ->
  call_linked (nid + Z.of_nat (length l)) (inbox ++ posted (number_calls nid l)) fl out c /\
  forall cur, call_ok cur fl out c.
Proof.
  intros Hi Hf Ho Hc. destruct (number_calls_spec l nid) as (_ & Hs & Hspec). destruct (Hspec c Hc) as [Hb Hn].
  split; [constructor|].
  - lia.
  - intros q [Hq%Hi|(c' & Hc' & Hid & <-)%elem_posted]%elem_of_app; [lia|]. f_equal.
    by apply (sorted_calls_unique (number_calls nid l)).
  - intros f Hfin E. apply Hf in Hfin. lia.
  - intros m Hm E. apply Ho in Hm. lia.
  - congruence.
  - intros cur. unfold call_ok. rewrite Hn. split.
    + intros pre m post -> E. assert (rp_id m <= nid) by (apply Ho; set_solver). lia.
    + intros f Hfin E. apply Hf in Hfin. lia.
Qed.

(** A handler that goes to wait. *)
Lemma pipe_post cur g nid waits inbox key fl out a l :
  pipe_ok cur g nid waits inbox key fl out -> await_calls a l -> started_by g a ->
  (a = AwaitLock -> forall w, w ∈ waits -> ~ fresh g w) ->
  pipe_ok cur g (nid + Z.of_nat (length l)) (waits ++ [{| wt_calls := number_calls nid l; wt_await := a |}])
    (inbox ++ posted (number_calls nid l)) key fl out.
Proof.
  intros [Hnd Hso Hbe (Hbi & Hbf & Hbo) Hw Hli [Hc1 Hc2] Hun Hsi Hk Hca Hah] Ha Hst Hlock.
  destruct (number_calls_spec l nid) as (Hm & Hs & Hc).
  assert (Hnew := posted_linked nid l inbox fl out).
  constructor; try done.
  - rewrite fmap_app. apply StronglySorted_app_lt; [done|by rewrite posted_ids|].
    intros x z [[? ?] [-> Hx%Hbi]]%list_elem_of_fmap [[? ?] [-> Hz%posted_new]]%list_elem_of_fmap. cbn. lia.
  - intros x q [Hx|Hx%posted_new]%elem_of_app; [by eapply Hbe|]. split; [intros f Hf%Hbf|intros m Ho%Hbo]; lia.
  - split_and!; [|intros f Hf%Hbf; lia|intros m Ho%Hbo; lia].
    intros x q [Hx%Hbi|Hx%posted_new]%elem_of_app; lia.
  - intros w [Hin| ->%list_elem_of_singleton]%elem_of_app; [by apply Hw|]. cbn. by rewrite Hm.
  - intros w c [Hin| ->%list_elem_of_singleton]%elem_of_app Hcw; [|by apply Hnew].
    destruct (Hli w c Hin Hcw) as [Hb Hi Hf Ho Hp]. constructor; auto; [lia|..].
    + intros q [Hq|Hq%posted_new]%elem_of_app; [by apply Hi|lia].
    + intros v x q Hv [Hx|Hx%posted_new]%elem_of_app; [by eapply Hp|lia].
  - split; [intros id q [Hin|(c & Hin & <- & <-)%elem_posted]%elem_of_app; [|by apply control_posted]|intros m Hin];
      (eapply control_mono; [|auto]; intros; apply elem_of_app; by left).
  - intros w c [Hin| ->%list_elem_of_singleton]%elem_of_app Hf Hcw; [by eapply Hca|]. by apply Hnew.
  - intros x w c [Hx|Hx]%elem_of_app [Hw'| ->%list_elem_of_singleton]%elem_of_app Hf Hcw.
    + by eapply Hah.
    + cbn in Hcw. apply Hbi in Hx. apply Hc in Hcw as [? _]. lia.
    + pose proof (lock_posted _ _ _ _ Ha Hx) as ->. by destruct (Hlock eq_refl w Hw').
    + by pose proof (lock_posted _ _ _ _ Ha Hx) as ->.
Qed.

(** ** The worker's steps *)

Lemma app_snoc_cons {A} (l pre post : list A) (x y : A) : l ++ [x] = pre ++ y :: post ->
  (post = [] /\ x = y /\ l = pre) \/ exists post', post = post' ++ [x] /\ l = pre ++ y :: post'.
Proof.
  destruct post as [|z post] using rev_ind; intros E.
  - apply app_inj_tail in E as [-> ->]. by left.
  - rewrite app_comm_cons, app_assoc in E. apply app_inj_tail in E as [-> ->]. right. by exists post.
Qed.

(** The worker posts a message. *)
Lemma call_ok_snoc cur fl fl' out m c :
  call_ok cur fl out c -> (forall f, f ∈ fl' -> f ∈ fl) ->
  (is_lock m = true -> cl_answer c = None /\ (forall m', m' ∈ out -> rp_id m' <> cl_id c) /\
                       (forall f, f ∈ fl' -> fl_id f <> cl_id c)) ->
  (cl_answer c = None -> rp_id m = cl_id c ->
     has_unlock out \/ forall v, rp_result m = Ok v -> by_key (final cur out) v) ->
  call_ok cur fl' (out ++ [m]) c.
Proof.
  intros Hc Hsub Hl Hm. unfold call_ok in *. destruct (cl_answer c) as [v|] eqn:Ev.
  - destruct Hc as [Hb Hn]. split; [done|]. intros x [Hx| ->%list_elem_of_singleton]%elem_of_app; [by apply Hn|].
    apply not_true_is_false. intros [? _]%Hl. congruence.
  - destruct Hc as [Ho Hf]. split.
    + intros pre m' post [(-> & <- & <-)|(post' & -> & E)]%app_snoc_cons Hid.
      * split; [intros x Hx; by apply not_elem_of_nil in Hx|]. by apply Hm.
      * destruct (Ho _ _ _ E Hid) as [Hn ?]. split; [|done].
        intros x [Hx| ->%list_elem_of_singleton]%elem_of_app; [by apply Hn|].
        apply not_true_is_false. intros (_ & Hd & _)%Hl. apply (Hd m'); [rewrite E; set_solver|done].
    + intros f Hin Hid. rewrite final_app. cbn. unfold shift. destruct (is_lock m) eqn:El.
      { destruct (Hl eq_refl) as (_ & _ & Hd). by destruct (Hd f Hin). }
      destruct (is_unlock m) eqn:Eu; [left; exists m; set_solver|].
      destruct (Hf f (Hsub f Hin) Hid) as [(x & Hx & Hu)|?]; [left; exists x; set_solver|by right].
Qed.

Lemma fresh_to_host cur g nid waits inbox key fl out w c :
  pipe_ok cur g nid waits inbox key fl out -> w ∈ waits -> fresh g w -> c ∈ wt_calls w ->
  exists q, cl_request c = ToHost q.
Proof.
  intros Hp Hw Hf Hc. destruct (pi_wait _ _ _ _ _ _ _ _ Hp w Hw) as [Ha _]. unfold fresh in Hf.
  assert (cl_request c ∈ map cl_request (wt_calls w)) as Hin by by apply list_elem_of_In, in_map, list_elem_of_In.
  destruct (wt_await w); try done; cbn in Ha; rewrite Ha in Hin;
    repeat (apply elem_of_cons in Hin as [->|Hin]; [by eexists|]); by apply not_elem_of_nil in Hin.
Qed.

Lemma pipe_answer cur g nid waits inbox key key' fl out id q r s :
  pipe_ok cur g nid waits ((id, q) :: inbox) key fl out ->
  let m := {| rp_id := id; rp_result := r; rp_request := q; rp_session := s |} in
  (key' = None \/ key' = shift (final cur out) m) ->
  (is_unlock m = true -> exists u, r = Ok (VUnlocked u)) ->
  (forall h v, q = ToHost h -> r <> Ok v) ->
  pipe_ok cur g nid waits inbox key' fl (out ++ [m]).
Proof.
  intros Hp m Hkey Hu Hr. pose proof (fun w c => fresh_to_host _ _ _ _ _ _ _ _ w c Hp) as Hhost.
  destruct Hp as [Hnd Hso Hbe (Hbi & Hbf & Hbo) Hw Hli [Hc1 Hc2] Hun Hsi Hk Hca Hah].
  assert (Hhd : (id, q) ∈ (id, q) :: inbox) by by left.
  assert (Htl : forall x, x ∈ inbox -> x ∈ (id, q) :: inbox) by by right.
  destruct (Hbe _ _ Hhd) as [Hf0 Hm0]. cbn in Hso. apply StronglySorted_inv in Hso as [Hso Hlt].
  rewrite List.Forall_forall in Hlt.
  assert (Hin0 : forall a z, (a, z) ∈ inbox -> id < a).
  { intros a z Hin. apply Hlt, list_elem_of_In, list_elem_of_fmap. by exists (a, z). }
  constructor; try done.
  - rewrite map_app, app_assoc. apply NoDup_app. split_and!; [done| |apply NoDup_singleton].
    intros x [Hx|Hx]%elem_of_app ->%list_elem_of_singleton.
    + apply list_elem_of_In, in_map_iff in Hx as (f & E & Hf). apply list_elem_of_In, Hf0 in Hf. cbn in E. lia.
    + apply list_elem_of_In, in_map_iff in Hx as (f & E & Hf). apply list_elem_of_In, Hm0 in Hf. cbn in E. lia.
  - intros a z Hin. destruct (Hbe a z) as [Hf Hm]; [auto|]. split; [done|].
    intros x [Hx| ->%list_elem_of_singleton]%elem_of_app; [by apply Hm|]. by eapply Hin0.
  - split_and!; [by eauto|done|]. intros x [Hx| ->%list_elem_of_singleton]%elem_of_app; [by apply Hbo|]. by eapply Hbi.
  - intros w c Hw' Hc'. destruct (Hli w c Hw' Hc') as [Hb Hi Hf Ho Hpa]. constructor; eauto.
    intros x [Hx| ->%list_elem_of_singleton]%elem_of_app E; [by apply Ho|]. cbn in *. subst id. by apply Hi.
  - split; [by auto|]. intros x [Hx| ->%list_elem_of_singleton]%elem_of_app; [by apply Hc2|]. by apply (Hc1 id q).
  - intros x [Hx| ->%list_elem_of_singleton]%elem_of_app; [by apply Hun|exact Hu].
  - by rewrite final_app.
  - intros w c Hw' Hfr Hcw. apply (call_ok_snoc _ fl); [by eapply Hca|done| |].
    + intros Hl. assert (q = LockHost) as -> by (unfold is_lock in Hl; cbn in Hl; by destruct q).
      assert (id < cl_id c) by by eapply Hah. split_and!.
      * destruct (cl_answer c) as [v|] eqn:Ev; [|done]. pose proof (cl_past _ _ _ _ _ (Hli w c Hw' Hcw) v id LockHost Ev Hhd). lia.
      * intros x Hx%Hm0. lia.
      * intros f Hx%Hf0. lia.
    + intros _ E. right. intros v Hv. cbn in E, Hv. destruct (Hhost w c Hw' Hfr Hcw) as [h Eh].
      destruct (Hr h v); [|done]. rewrite <- Eh. apply (cl_inbox _ _ _ _ _ (Hli w c Hw' Hcw)). by rewrite <- E.
  - intros l w c Hl. apply Hah. auto.
Qed.

(** The worker sends a signed request. *)
Lemma pipe_send cur g nid waits inbox fl out id q s signed :
  pipe_ok cur g nid waits ((id, ToHost q) :: inbox) (Some s) fl out -> signRequest s q = Ok signed ->
  pipe_ok cur g nid waits inbox (Some s)
    (fl ++ [{| fl_id := id; fl_session := s; fl_signed := signed; fl_query := q |}]) out.
Proof.
  intros [Hnd Hso Hbe (Hbi & Hbf & Hbo) Hw Hli [Hc1 Hc2] Hun Hsi Hk Hca Hah] Hsig.
  assert (Hhd : (id, ToHost q) ∈ (id, ToHost q) :: inbox) by by left.
  assert (Htl : forall x, x ∈ inbox -> x ∈ (id, ToHost q) :: inbox) by by right.
  destruct (Hbe _ _ Hhd) as [Hf0 Hm0]. cbn in Hso. apply StronglySorted_inv in Hso as [Hso Hlt].
  rewrite List.Forall_forall in Hlt. constructor; try done.
  - rewrite map_app, <- app_assoc. apply NoDup_app in Hnd as (Hn1 & Hn2 & Hn3).
    apply NoDup_app. split_and!; [done| |apply NoDup_cons; split; [|done]]; cbn.
    + intros x Hx [->|Hy]%elem_of_cons; [|by eapply Hn2].
      apply list_elem_of_In, in_map_iff in Hx as (f & E & Hf). apply list_elem_of_In, Hf0 in Hf. lia.
    + intros (f & E & Hf)%list_elem_of_In%in_map_iff. apply list_elem_of_In, Hm0 in Hf. lia.
  - intros a z Hin. destruct (Hbe a z) as [Hf Hm]; [auto|]. split; [|done].
    intros x [Hx| ->%list_elem_of_singleton]%elem_of_app; [by apply Hf|].
    apply Hlt, list_elem_of_In, list_elem_of_fmap. by exists (a, z).
  - split_and!; [by eauto| |done]. intros x [Hx| ->%list_elem_of_singleton]%elem_of_app; [by apply Hbf|]. by eapply Hbi.
  - intros w c Hw' Hc'. destruct (Hli w c Hw' Hc') as [Hb Hi Hf Ho Hpa]. constructor; eauto.
    intros x [Hx| ->%list_elem_of_singleton]%elem_of_app E; [by apply Hf|]. cbn in *. subst id. symmetry. by apply Hi.
  - by auto.
  - intros f [Hx| ->%list_elem_of_singleton]%elem_of_app; [by apply Hsi|done].
  - intros w c Hw' Hfr Hcw. pose proof (Hca w c Hw' Hfr Hcw) as Hok. unfold call_ok in *.
    destruct (cl_answer c); [done|]. destruct Hok as [Ho Hf]. split; [done|].
    intros f [Hx| ->%list_elem_of_singleton]%elem_of_app E; [by apply Hf|]. right. cbn. by destruct Hk.
  - intros l w c Hl. apply Hah. auto.
Qed.

(** The host answers a request under way. *)
Lemma pipe_fetched cur g nid waits inbox key fl out i f n :
  pipe_ok cur g nid waits inbox key fl out -> fl !! i = Some f ->
  pipe_ok cur g nid waits inbox key (delete i fl)
    (out ++ [{| rp_id := fl_id f; rp_result := send_signed (fl_query f) (fl_signed f) n;
                rp_request := ToHost (fl_query f); rp_session := Some (fl_session f) |}]).
Proof.
  intros [Hnd Hso Hbe (Hbi & Hbf & Hbo) Hw Hli [Hc1 Hc2] Hun Hsi Hk Hca Hah] Hi. set (m := {| rp_id := _ |}).
  assert (Hfin : f ∈ fl) by by eapply list_elem_of_lookup_2.
  assert (Hperm : fl ≡ₚ f :: delete i fl) by by apply delete_Permutation.
  assert (Hdel : forall x, x ∈ delete i fl -> x ∈ fl) by (intros x Hx; rewrite Hperm; by right).
  constructor; try done.
  - rewrite map_app, app_assoc. cbn. rewrite <- Permutation_cons_append.
    assert (fl_id f :: map fl_id (delete i fl) ++ map rp_id out ≡ₚ map fl_id fl ++ map rp_id out) as ->; [|done].
    rewrite app_comm_cons. apply Permutation_app_tail. change (fl_id f :: map fl_id (delete i fl)) with (map fl_id (f :: delete i fl)).
    symmetry. by apply Permutation_map.
  - intros a z Hin. destruct (Hbe a z Hin) as [Hf Hm]. split; [by auto|].
    intros x [Hx| ->%list_elem_of_singleton]%elem_of_app; [by apply Hm|by apply Hf].
  - split_and!; [done|by auto|]. intros x [Hx| ->%list_elem_of_singleton]%elem_of_app; [by apply Hbo|by apply Hbf].
  - intros w c Hw' Hc'. destruct (Hli w c Hw' Hc') as [Hb Hi' Hf Ho Hpa]. constructor; eauto.
    intros x [Hx| ->%list_elem_of_singleton]%elem_of_app E; [by apply Ho|]. symmetry. by apply Hf.
  - split; [done|]. by intros x [Hx| ->%list_elem_of_singleton]%elem_of_app; [apply Hc2|].
  - intros x [Hx| ->%list_elem_of_singleton]%elem_of_app; [by apply Hun|done].
  - intros x Hx. auto.
  - rewrite final_app. exact Hk.
  - intros w c Hw' Hfr Hcw. pose proof (Hca w c Hw' Hfr Hcw) as Hok.
    apply (call_ok_snoc _ fl); [done..| |].
    { intros Hl. done. }
    intros Hn E. unfold call_ok in Hok. rewrite Hn in Hok. destruct Hok as [_ Hf]. destruct (Hf f Hfin E) as [?|Hs]; [by left|].
    right. intros v Hv. exists (fl_session f). split; [done|]. exists (fl_query f), (fl_signed f), n. split; [by apply Hsi|done].
Qed.

(** ** The page takes a message *)

Lemma call_ok_deliver cur fl out m c :
  is_unlock m = false -> call_ok cur fl (m :: out) c -> call_ok (shift cur m) fl out c.
Proof.
  intros Hu Hc. unfold call_ok in *. destruct (cl_answer c) as [v|].
  - destruct Hc as [Hb Hn]. rewrite shift_other; [|apply Hn; by left|done]. split; [done|]. intros x Hx. apply Hn. by right.
  - assert (Hh : forall l, has_unlock (m :: l) -> has_unlock l).
    { intros l (x & [->|Hx]%elem_of_cons & Hux); [congruence|]. by exists x. }
    destruct Hc as [Ho Hf]. split.
    + intros pre m' post -> Hid. destruct (Ho (m :: pre) m' post eq_refl Hid) as [Hn [?%Hh|Hb]]; auto.
    + intros f Hin Hid. destruct (Hf f Hin Hid) as [?%Hh|Hb]; auto.
Qed.

Lemma pipe_take cur g g' nid waits waits' inbox key fl m out :
  pipe_ok cur g nid waits inbox key fl (m :: out) ->
  (forall w, w ∈ waits' -> w ∈ waits) ->
  (forall w, w ∈ waits -> waits_for (rp_id m) w = false -> w ∈ waits') ->
  g <= g' -> (is_unlock m = true -> g < g') ->
  pipe_ok (shift cur m) g' nid waits' inbox key fl out.
Proof.
  intros [Hnd Hso Hbe (Hbi & Hbf & Hbo) Hw Hli [Hc1 Hc2] Hun Hsi Hk Hca Hah] Hsub Hkeep Hg Hu.
  assert (Htl : forall x, x ∈ out -> x ∈ m :: out) by by right.
  assert (Hold : forall w, w ∈ waits' -> fresh g' w -> fresh g w /\ is_unlock m = false).
  { intros w Hin Hf. destruct (Hw w (Hsub w Hin)) as [_ Hst]. specialize (Hst _ Hf). assert (g' = g) as -> by lia.
    split; [done|]. apply not_true_is_false. intros ?%Hu. lia. }
  apply NoDup_app in Hnd as (Hn1 & Hn2 & [Hn3 Hn4]%NoDup_cons).
  assert (Hctl : forall id q, id <> rp_id m -> control waits id q -> control waits' id q).
  { intros id q Hne. unfold control. destruct q; auto; intros Hin; apply Hkeep; auto; cbn;
      replace (id =? rp_id m) with false by lia; done. }
  constructor; try done.
  - apply NoDup_app. split_and!; [done| |done]. intros x Hx Hy. apply (Hn2 x Hx). by right.
  - intros a z Hin. destruct (Hbe a z Hin) as [Hf Hm]. by auto.
  - by auto.
  - intros w Hin. destruct (Hw w (Hsub w Hin)) as [Ha Hst]. split; [done|]. intros st E. specialize (Hst st E). lia.
  - intros w c Hin Hcw. destruct (Hli w c (Hsub w Hin) Hcw) as [Hb Hi Hf Ho Hpa]. constructor; eauto.
  - split.
    + intros id q Hin. apply Hctl; [|by auto]. destruct (Hbe _ _ Hin) as [_ Hm]. specialize (Hm m). intros ->.
      assert (rp_id m < rp_id m); [apply Hm; by left|lia].
    + intros x Hx. apply Hctl; [|by auto]. intros E. apply Hn3. rewrite <- E. by apply list_elem_of_In, in_map, list_elem_of_In.
  - intros x Hx. auto.
  - intros w c Hin Hf Hcw. destruct (Hold w Hin Hf) as [Hf' Hu']. apply call_ok_deliver; [done|]. eauto.
  - intros l w c Hl Hin Hf Hcw. destruct (Hold w Hin Hf) as [Hf' _]. eapply Hah; eauto.
Qed.

(** A wait whose answers are not all there goes back. *)
Lemma pipe_add_wait cur g nid waits inbox key fl out w :
  pipe_ok cur g nid waits inbox key fl out ->
  await_calls (wt_await w) (map cl_request (wt_calls w)) -> started_by g (wt_await w) ->
  (forall c, c ∈ wt_calls w -> call_linked nid inbox fl out c) ->
  (fresh g w -> forall c, c ∈ wt_calls w -> call_ok cur fl out c /\ forall l, (l, LockHost) ∈ inbox -> l < cl_id c) ->
  pipe_ok cur g nid (waits ++ [w]) inbox key fl out.
Proof.
  intros [Hnd Hso Hbe Hbo Hw Hli [Hc1 Hc2] Hun Hsi Hk Hca Hah] Ha Hst Hl Hok. constructor; try done.
  - intros x [Hx| ->%list_elem_of_singleton]%elem_of_app; auto.
  - intros x c [Hx| ->%list_elem_of_singleton]%elem_of_app Hc; eauto.
  - split; [intros id q Hin|intros m Hin]; (eapply control_mono; [|auto]; intros; apply elem_of_app; by left).
  - intros x c [Hx| ->%list_elem_of_singleton]%elem_of_app Hf Hc; [eauto|]. by apply Hok.
  - intros l x c Hin [Hx| ->%list_elem_of_singleton]%elem_of_app Hf Hc; [eauto|]. by apply Hok.
Qed.

Lemma take_wait_Some id l : forall w l', take_wait id l = Some (w, l') ->
  w ∈ l /\ waits_for id w = true /\ (forall x, x ∈ l' -> x ∈ l) /\ (forall x, x ∈ l -> waits_for id x = false -> x ∈ l').
Proof.
  induction l as [|x l IH]; intros w l'; cbn; [done|]. destruct (waits_for id x) eqn:Ex.
  - intros [= <- <-]. split_and!; [by left|done|by right|]. intros y [->|Hy]%elem_of_cons Hf; [congruence|done].
  - destruct (take_wait id l) as [[y l1]|]; [|done]. intros [= <- <-]. destruct (IH y l1 eq_refl) as (Hin & Hf & Hs & Hk).
    split_and!; [by right|done|..]; intros z [->|Hz]%elem_of_cons; try by left.
    + right. by apply Hs.
    + intros Hfz. right. by apply Hk.
Qed.

Lemma take_wait_None id l : take_wait id l = None -> forall w, w ∈ l -> waits_for id w = false.
Proof.
  induction l as [|x l IH]; cbn; intros Ht w; [intros Hin; by apply not_elem_of_nil in Hin|].
  destruct (waits_for id x) eqn:Ex; [done|]. destruct (take_wait id l) as [[? ?]|]; [done|].
  intros [->|Hw]%elem_of_cons; auto.
Qed.

Lemma waits_for_call id w : waits_for id w = true -> exists c, c ∈ wt_calls w /\ cl_id c = id /\ cl_answer c = None.
Proof.
  unfold waits_for. rewrite existsb_exists. intros (c & Hin & [Hid Ha]%andb_true_iff). exists c. rewrite list_elem_of_In.
  split_and!; [done|lia|]. unfold is_open in Ha. by destruct (cl_answer c).
Qed.

(** ** The hook's steps *)

Definition next_ok (g : Z) (n : next) : Prop :=
  match n with Returns _ => True | Awaits l a => await_calls a l /\ started_by g a /\ a <> AwaitLock end.

(** Neither what is shown nor the generation depends on notices and spinners. *)
Definition same_data (h h' : Hook) : Prop :=
  hk_unlocked h' = hk_unlocked h /\ hk_me h' = hk_me h /\ hk_status h' = hk_status h /\ hk_roster h' = hk_roster h /\
  hk_members h' = hk_members h /\ hk_storages h' = hk_storages h /\ hk_generation h' = hk_generation h.

Lemma same_data_trans h1 h2 h3 : same_data h1 h2 -> same_data h2 h3 -> same_data h1 h3.
Proof. unfold same_data. intros (?&?&?&?&?&?&?) (?&?&?&?&?&?&?). split_and!; congruence. Qed.

Lemma same_data_page b n mo h : same_data h (set_page b n mo h).
Proof. done. Qed.

Lemma same_data_if st f h : (forall h, same_data h (f h)) -> same_data h (if_current st f h).
Proof. intros Hf. unfold if_current. by destruct (current st h). Qed.

Lemma shows_same cur h h' : same_data h h' -> shows cur h -> shows cur h'.
Proof.
  intros (E1 & E2 & E3 & E4 & E5 & E6 & _) [H1 H2 H3 H4 H5 H6].
  constructor; rewrite ?E1, ?E2, ?E3, ?E4, ?E5, ?E6; done.
Qed.

Lemma end_refresh_same silent st c h : same_data h (end_refresh silent st c h).1 /\ next_ok (hk_generation h) (end_refresh silent st c h).2.
Proof.
  unfold end_refresh. set (h1 := if silent then h else _).
  assert (same_data h h1) as H1 by (unfold h1; destruct silent; [done|by apply same_data_if]).
  destruct c as [|npub|started]; cbn; (split; [|done]); [done| |].
  - eapply same_data_trans; [done|]. by destruct (hk_mounted h1).
  - eapply same_data_trans; [done|]. by apply same_data_if.
Qed.

Lemma current_gen st h : current st h = true -> hk_generation h = st.
Proof. unfold current. intros [_ ?]%andb_true_iff. lia. Qed.

(** A refresh that is still current stores what its host answered. *)
Lemma shows_lists cur st ro ms ss h :
  shows cur h -> (forall x, st = Some x -> by_key cur (VStatus x)) -> (forall x, ro = Some x -> by_key cur (VRoster x)) ->
  (ms <> [] -> by_key cur (VMembers ms)) -> (ss <> [] -> by_key cur (VStorages ss)) ->
  shows cur (set_lists st ro ms ss h).
Proof. intros [H1 _ _ _ _ H6] H2 H3 H4 H5. by constructor. Qed.

Lemma shows_setMe cur m h : shows cur h -> by_key cur (VMe m) -> shows cur (setMe m h).
Proof. intros [_ H2 H3 H4 H5 H6] H1. constructor; cbn; try done. by intros x [= <-]. Qed.

Lemma shows_cleared cur h : (hk_unlocked h = false -> cur = None) -> shows cur (clearData h).
Proof. intros Hu. by constructor. Qed.

(** What the hook does at an await that neither locks nor unlocks. *)
Definition step_ok (cur : option Session) (h : Hook) (r : Hook * next) : Prop :=
  shows cur r.1 /\ hk_generation r.1 = hk_generation h /\ next_ok (hk_generation h) r.2.

Lemma step_end cur h h' silent st c :
  shows cur h' -> hk_generation h' = hk_generation h -> step_ok cur h (end_refresh silent st c h').
Proof.
  intros Hs Hg. destruct (end_refresh_same silent st c h') as [Hd Hn]. split_and!.
  - by eapply shows_same.
  - destruct Hd as (_ & _ & _ & _ & _ & _ & ->). done.
  - by rewrite <- Hg.
Qed.

Lemma step_fail cur h silent st c e : shows cur h -> step_ok cur h (fail_refresh silent st c e h).
Proof.
  intros Hs. assert (same_data h (if_current st (toast_error e) h)) as Hd by by apply same_data_if.
  apply step_end; [by eapply shows_same|]. by destruct Hd as (_ & _ & _ & _ & _ & _ & ->).
Qed.

Lemma step_same cur h h' n : same_data h h' -> shows cur h -> next_ok (hk_generation h) n -> step_ok cur h (h', n).
Proof. intros Hd Hs Hn. split_and!; [by eapply shows_same| |done]. cbn. by destruct Hd as (_ & _ & _ & _ & _ & _ & ->). Qed.

(** A refresh goes on: the answers to the calls of a current one are its host's. *)
Lemma resume_refresh cur a r h st :
  shows cur h -> refresh_of a = Some st ->
  (forall vs, r = Ok vs -> st = hk_generation h -> Forall (by_key cur) vs) ->
  step_ok cur h (resume a r h).
Proof.
  intros Hs Ha Hb.
  assert (Hcur : forall vs, current st h = true -> r = Ok vs -> Forall (by_key cur) vs).
  { intros vs Hc ->. apply Hb; [done|]. by rewrite (current_gen st h). }
  destruct a as [| |silent st' c|silent st' c|silent st' c| | |]; try done; injection Ha as ->; cbn [resume];
    (destruct r as [vs|e]; [|by apply step_fail]).
  - destruct vs as [|v [|? ?]]; try (by apply step_fail); [destruct v as [| | | | |m| | |]|destruct v]; try (by apply step_fail).
    destruct (current st h) eqn:Ec; [|by apply step_end].
    pose proof (Hcur _ eq_refl eq_refl) as Hm. apply List.Forall_cons_iff in Hm as [Hm _].
    assert (shows cur (setMe m h)) by by apply shows_setMe. cbn [negb].
    assert (started_by (hk_generation h) (AwaitStorages silent st c)) as Hsb.
    { intros x [= <-]. rewrite (current_gen st h Ec). lia. }
    destruct (me_role m); [by split_and!..|]. apply step_end; [|done]. by apply shows_lists.
  - destruct vs as [|v [|? ?]]; try (by apply step_fail); [|destruct v; by apply step_fail].
    destruct v as [| | | | | | | |ss]; try (by apply step_fail).
    unfold if_current. destruct (current st h) eqn:Ec; apply step_end; try done.
    pose proof (Hcur _ eq_refl eq_refl) as Hm. apply List.Forall_cons_iff in Hm as [Hm _]. by apply shows_lists.
  - destruct vs as [|[] [|[] [|[] [|[] [|? ?]]]]]; try (by apply step_fail).
    unfold if_current. destruct (current st h) eqn:Ec; apply step_end; try done.
    pose proof (Hcur _ eq_refl eq_refl) as Hm. rewrite !List.Forall_cons_iff in Hm. destruct Hm as (? & ? & ? & ? & _).
    apply shows_lists; try done; by intros ? [= <-].
Qed.

Lemma resume_ok cur a r h :
  shows cur h -> a <> AwaitLock -> (a = AwaitUnlock -> forall u, r <> Ok [VUnlocked u]) ->
  (forall vs, r = Ok vs -> refresh_of a = Some (hk_generation h) -> Forall (by_key cur) vs) ->
  step_ok cur h (resume a r h).
Proof.
  intros Hs Hl Hu Hb. destruct (refresh_of a) as [st|] eqn:Ea.
  { apply (resume_refresh _ _ _ _ st); [done..|]. intros vs Hr ->. by apply Hb. }
  assert (Hif : forall st f, (forall h, same_data h (f h)) -> same_data h (if_current st f h)) by (intros; by apply same_data_if).
  destruct a as [| | | | | |st success|st]; try done; cbn [resume].
  - destruct r as [[|v [|? ?]]|e]; by apply step_same.
  - assert (forall e n, next_ok (hk_generation h) n ->
      step_ok cur h (let h := toast_error e h in (if hk_mounted h then setBusy None h else h, n))) as Hm.
    { intros e n Hn. apply step_same; [cbn; by destruct (hk_mounted h)|done..]. }
    destruct r as [vs|e]; [|by apply Hm].
    destruct vs as [|v [|? ?]]; [by apply Hm| |destruct v; by apply Hm].
    destruct v; try (by apply Hm). by destruct (Hu eq_refl r).
  - destruct r as [vs|e]; [|by apply step_same; [apply Hif|..]].
    destruct (current st h) eqn:Ec; cbn [negb]; [|by apply step_same]. apply step_same; [done..|].
    cbn. split_and!; [done| |done]. intros x [= <-]. lia.
  - destruct r as [[|v [|? ?]]|e]; try destruct v; (apply step_same; [by apply Hif|done..]).
Qed.

(** ** The whole client *)

Lemma continue_ok cur y h n :
  shows cur h -> next_ok (hk_generation h) n ->
  pipe_ok cur (hk_generation h) (ad_nextId y) (ad_waits y) (ad_inbox y) (ad_session y) (ad_flights y) (ad_outbox y) ->
  page_ok cur (continue (h, n) y).
Proof.
  intros Hs Hn Hp. destruct n as [r|l a]; [by split|]. destruct Hn as (Ha & Hst & Hl). split; [done|].
  unfold continue. cbn. apply pipe_post; try done.
Qed.

(** A message finds the wait that sent its request. *)
Lemma taken_call cur g nid waits inbox key fl out m w others :
  pipe_ok cur g nid waits inbox key fl out -> m ∈ out -> take_wait (rp_id m) waits = Some (w, others) ->
  exists c, c ∈ wt_calls w /\ cl_id c = rp_id m /\ cl_answer c = None /\ cl_request c = rp_request m.
Proof.
  intros Hp Hm (Hw & Hf & _)%take_wait_Some. destruct (waits_for_call _ _ Hf) as (c & Hc & Hid & Hn).
  exists c. split_and!; try done. symmetry. by apply (cl_out _ _ _ _ _ (pi_linked _ _ _ _ _ _ _ _ Hp w c Hw Hc)).
Qed.

Lemma control_taken waits id q : control waits id q ->
  match q with LockHost | UnlockHost _ => exists w, w ∈ waits /\ waits_for id w = true | _ => True end.
Proof.
  unfold control. destruct q; try done; intros Hin; (eexists; split; [exact Hin|]); cbn; by rewrite Z.eqb_refl.
Qed.

(** A current refresh that one more answer has reached. *)
Lemma answered_calls_ok cur g nid waits inbox key fl m out w v :
  pipe_ok cur g nid waits inbox key fl (m :: out) -> w ∈ waits -> fresh g w -> rp_result m = Ok v ->
  is_lock m = false -> is_unlock m = false ->
  forall c, c ∈ map (answer_call (rp_id m) v) (wt_calls w) -> call_ok cur fl out c.
Proof.
  intros Hp Hw Hf Hr El Eu c (c0 & <- & Hin)%list_elem_of_In%in_map_iff. apply list_elem_of_In in Hin.
  pose proof (pi_calls _ _ _ _ _ _ _ _ Hp w c0 Hw Hf Hin) as Hok.
  unfold answer_call. destruct ((cl_id c0 =? rp_id m) && is_open c0) eqn:E.
  - apply andb_true_iff in E as [Hid Ho]. unfold call_ok in *. cbn. unfold is_open in Ho. destruct (cl_answer c0); [done|].
    destruct Hok as [Hok _]. destruct (Hok [] m out eq_refl ltac:(lia)) as [Hn [(x & Hx & _)|Hb]]; [by apply not_elem_of_nil in Hx|].
    split; [by apply Hb|done].
  - rewrite <- (shift_other cur m) by done. by apply call_ok_deliver.
Qed.

Lemma answer_calls_request id v l : map cl_request (map (answer_call id v) l) = map cl_request l.
Proof. rewrite map_map. apply map_ext. intros c. unfold answer_call. by destruct (_ && _). Qed.

Lemma answer_call_linked cur g nid waits inbox key fl m out w v :
  pipe_ok cur g nid waits inbox key fl (m :: out) -> w ∈ waits ->
  forall c, c ∈ map (answer_call (rp_id m) v) (wt_calls w) -> call_linked nid inbox fl out c.
Proof.
  intros Hp Hw c (c0 & <- & Hin)%list_elem_of_In%in_map_iff. apply list_elem_of_In in Hin.
  destruct (pi_linked _ _ _ _ _ _ _ _ Hp w c0 Hw Hin) as [Hb Hi Hf Ho Hpa].
  assert (forall x, x ∈ out -> rp_id x = cl_id c0 -> rp_request x = cl_request c0) by (intros; apply Ho; [by right|done]).
  unfold answer_call. destruct ((cl_id c0 =? rp_id m) && is_open c0) eqn:E; [|by constructor].
  constructor; cbn; try done. intros v' a q _ Hin'. destruct (pi_before _ _ _ _ _ _ _ _ Hp a q Hin') as [_ Hm].
  apply andb_true_iff in E as [Hid _]. specialize (Hm m). assert (rp_id m < a); [apply Hm; by left|lia].
Qed.

Lemma answered_values cur fl out (l : list Call) vs :
  (forall c, c ∈ l -> call_ok cur fl out c) -> mapM cl_answer l = Some vs -> Forall (by_key cur) vs.
Proof.
  intros Hc Hm. apply mapM_Some in Hm. induction Hm as [|c v l vs Hv _ IH]; constructor.
  - pose proof (Hc c ltac:(by left)) as Hok. unfold call_ok in Hok. rewrite Hv in Hok. by destruct Hok.
  - apply IH. intros; apply Hc. by right.
Qed.

(** Only [lock] and [unlock] wait for the answers that change the host. *)
Lemma await_of_request w c : await_calls (wt_await w) (map cl_request (wt_calls w)) -> c ∈ wt_calls w ->
  match cl_request c with
  | LockHost => wt_await w = AwaitLock /\ wt_calls w = [c]
  | UnlockHost _ => wt_await w = AwaitUnlock /\ wt_calls w = [c]
  | _ => wt_await w <> AwaitLock /\ wt_await w <> AwaitUnlock
  end.
Proof.
  intros Ha Hc. destruct (wt_await w); cbn in Ha;
    (lazymatch type of Ha with ex _ => destruct Ha as [? Ha] | _ => idtac end);
    destruct (wt_calls w) as [|c1 [|c2 [|c3 [|c4 [|? ?]]]]]; try done; injection Ha; intros;
    repeat (apply elem_of_cons in Hc as [->|Hc]); try (by apply not_elem_of_nil in Hc);
    repeat match goal with E : cl_request _ = _ |- _ => rewrite E; clear E end; done.
Qed.

(** The page takes a message that neither locks nor unlocks. *)
Lemma deliver_other cur y m out w others :
  page_ok cur y -> ad_outbox y = m :: out -> take_wait (rp_id m) (ad_waits y) = Some (w, others) ->
  is_lock m = false -> is_unlock m = false ->
  page_ok cur (settle (rp_id m) (rp_result m) (set_main (ad_waits y) out y)).
Proof.
  intros [Hs Hp] Eo Ht El Eu. rewrite Eo in Hp. unfold settle. cbn. rewrite Ht.
  destruct (taken_call _ _ _ _ _ _ _ _ m _ _ Hp ltac:(by left) Ht) as (c & Hc & Hid & Hn & Hq).
  destruct (take_wait_Some _ _ _ _ Ht) as (Hw & _ & Hsub & Hkeep).
  destruct (pi_wait _ _ _ _ _ _ _ _ Hp w Hw) as [Ha Hst].
  pose proof (await_of_request w c Ha Hc) as Hreq. rewrite Hq in Hreq.
  pose proof El as El'. pose proof Eu as Eu'. unfold is_lock, is_unlock in El', Eu'.
  assert (Hnl : wt_await w <> AwaitLock) by (destruct (rp_request m); try done; destruct Hreq; congruence).
  assert (Hpipe : pipe_ok cur (hk_generation (ad_hook y)) (ad_nextId y) others (ad_inbox y) (ad_session y) (ad_flights y) out).
  { rewrite <- (shift_other cur m) by done. eapply pipe_take; try done. congruence. }
  destruct (rp_result m) as [v|e] eqn:Er.
  - assert (Hnu : wt_await w <> AwaitUnlock) by (destruct (rp_request m); try done; destruct Hreq; congruence).
    pose proof (fun Hf => answered_calls_ok _ _ _ _ _ _ _ _ _ w v Hp Hw Hf Er El Eu) as Hok.
    destruct (mapM cl_answer _) as [vs|] eqn:Em.
    + assert (step_ok cur (ad_hook y) (resume (wt_await w) (Ok vs) (ad_hook y))) as (Hs' & Hg & Hnx).
      { apply resume_ok; try done. intros vs' [= <-] Hf. by eapply answered_values; [apply Hok|]. }
      destruct (resume _ _ _) as [h n]. cbn in *. rewrite <- Hg in Hnx, Hpipe. by apply continue_ok.
    + split; [done|]. cbn. apply pipe_add_wait; cbn; try done.
      * by rewrite answer_calls_request.
      * by eapply answer_call_linked.
      * intros Hf c' Hc'. split; [by apply Hok|]. intros l Hl.
        apply list_elem_of_In, in_map_iff in Hc' as (c0 & <- & Hc0). apply list_elem_of_In in Hc0.
        pose proof (pi_ahead _ _ _ _ _ _ _ _ Hp l w c0 Hl Hw Hf Hc0). unfold answer_call. by destruct (_ && _).
  - assert (step_ok cur (ad_hook y) (resume (wt_await w) (Throw e) (ad_hook y))) as (Hs' & Hg & Hnx) by by apply resume_ok.
    destruct (resume _ _ _) as [h n]. cbn in *. rewrite <- Hg in Hnx, Hpipe. by apply continue_ok.
Qed.

(** A message nobody waits for any more. *)
Lemma deliver_none cur y m out :
  page_ok cur y -> ad_outbox y = m :: out -> take_wait (rp_id m) (ad_waits y) = None ->
  page_ok (shift cur m) (set_main (ad_waits y) out y).
Proof.
  intros [Hs Hp] Eo Ht. rewrite Eo in Hp. pose proof (take_wait_None _ _ Ht) as Hnone.
  pose proof (control_taken _ _ _ (proj2 (pi_control _ _ _ _ _ _ _ _ Hp) m ltac:(by left))) as Hctl.
  assert (is_lock m = false /\ is_unlock m = false) as [El Eu].
  { unfold is_lock, is_unlock. destruct (rp_request m); try done; destruct Hctl as (x & Hx & Hf); by rewrite Hnone in Hf. }
  split; [by rewrite shift_other|]. cbn. eapply pipe_take; try done. congruence.
Qed.

Lemma deliver_lock cur y m out w others :
  page_ok cur y -> ad_outbox y = m :: out -> take_wait (rp_id m) (ad_waits y) = Some (w, others) ->
  is_lock m = true -> page_ok None (settle (rp_id m) (rp_result m) (set_main (ad_waits y) out y)).
Proof.
  intros [Hs Hp] Eo Ht El. rewrite Eo in Hp.
  destruct (taken_call _ _ _ _ _ _ _ _ m _ _ Hp ltac:(by left) Ht) as (c & Hc & Hid & Hn & Hq).
  destruct (take_wait_Some _ _ _ _ Ht) as (Hw & _ & Hsub & Hkeep).
  destruct (pi_wait _ _ _ _ _ _ _ _ Hp w Hw) as [Ha _]. pose proof (await_of_request w c Ha Hc) as Hreq. rewrite Hq in Hreq.
  assert (is_unlock m = false) as Eu by (unfold is_lock, is_unlock in *; by destruct (rp_request m)).
  assert (Hpipe : pipe_ok (shift cur m) (hk_generation (ad_hook y)) (ad_nextId y) others (ad_inbox y) (ad_session y) (ad_flights y) out).
  { eapply pipe_take; try done. congruence. }
  unfold shift in Hpipe. rewrite El in Hpipe. unfold is_lock in El. destruct (rp_request m); try done.
  destruct Hreq as [Haw Hcalls]. unfold settle. cbn. rewrite Ht, Haw, Hcalls. cbn -[continue]. unfold answer_call, is_open.
  rewrite Hid, Z.eqb_refl, Hn. cbn -[continue]. destruct (rp_result m); apply continue_ok; try done; by apply shows_cleared.
Qed.

Lemma deliver_unlock cur y m out w others :
  page_ok cur y -> ad_outbox y = m :: out -> take_wait (rp_id m) (ad_waits y) = Some (w, others) ->
  is_unlock m = true -> page_ok (shift cur m) (settle (rp_id m) (rp_result m) (set_main (ad_waits y) out y)).
Proof.
  intros [Hs Hp] Eo Ht Eu. rewrite Eo in Hp.
  destruct (taken_call _ _ _ _ _ _ _ _ m _ _ Hp ltac:(by left) Ht) as (c & Hc & Hid & Hn & Hq).
  destruct (take_wait_Some _ _ _ _ Ht) as (Hw & _ & Hsub & Hkeep).
  destruct (pi_wait _ _ _ _ _ _ _ _ Hp w Hw) as [Ha _]. pose proof (await_of_request w c Ha Hc) as Hreq. rewrite Hq in Hreq.
  destruct (pi_unlock _ _ _ _ _ _ _ _ Hp m ltac:(by left) Eu) as [u Hr].
  assert (Hpipe : pipe_ok (shift cur m) (hk_generation (ad_hook y) + 1) (ad_nextId y) others (ad_inbox y) (ad_session y) (ad_flights y) out).
  { eapply pipe_take; try done; lia. }
  unfold is_unlock in Eu. destruct (rp_request m); try done.
  destruct Hreq as [Haw Hcalls]. unfold settle. cbn. rewrite Ht, Haw, Hcalls, Hr. cbn -[continue]. unfold answer_call, is_open.
  rewrite Hid, Z.eqb_refl, Hn. cbn -[continue]. apply continue_ok; [by apply (shows_cleared _ (set_session true _ _))| |done].
  cbn. split_and!; [done| |done]. intros st [= <-]. lia.
Qed.

(** The page takes a message. *)
Lemma deliver_ok cur y m out :
  page_ok cur y -> ad_outbox y = m :: out ->
  page_ok (shift cur m) (settle (rp_id m) (rp_result m) (set_main (ad_waits y) out y)).
Proof.
  intros Hok Eo. destruct (take_wait (rp_id m) (ad_waits y)) as [[w others]|] eqn:Ht.
  - destruct (is_lock m) eqn:El; [unfold shift; rewrite El; by eapply deliver_lock|].
    destruct (is_unlock m) eqn:Eu; [by eapply deliver_unlock|].
    rewrite shift_other by done. by eapply deliver_other.
  - unfold settle. cbn. rewrite Ht. by apply deliver_none.
Qed.

Lemma perform_ok cur o h : o <> OpLock -> shows cur h -> step_ok cur h (perform o h).
Proof.
  intros Ho Hs. destruct o as [q| |silent|input kind| |npub role|npub|npub|npub bytes|npub]; try done;
    (apply step_same; [try done| done|cbn; split_and!; [eauto|intros st [=]|done]]).
  - by destruct silent.
  - subst. lia.
Qed.

Lemma lock_ok_step cur y : page_ok cur y -> page_ok cur (continue (session_lock (ad_hook y)) y).
Proof.
  intros [[H1 H2 H3 H4 H5 H6] Hp]. split; [by constructor|]. cbn.
  apply (pipe_post _ _ _ _ _ _ _ _ AwaitLock [LockHost]); [|done|done|].
  - destruct Hp as [Hnd Hso Hbe Hbo Hw Hli Hc Hun Hsi Hk Hca Hah]. constructor; try done.
    + intros w Hin. destruct (Hw w Hin) as [Ha Hst]. split; [done|]. intros st E. specialize (Hst st E). lia.
    + intros w c Hin Hf. destruct (Hw w Hin) as [_ Hst]. specialize (Hst _ Hf). lia.
    + intros l w c Hl Hin Hf. destruct (Hw w Hin) as [_ Hst]. specialize (Hst _ Hf). lia.
  - intros _ w Hin Hf. destruct (pi_wait _ _ _ _ _ _ _ _ Hp w Hin) as [_ Hst]. specialize (Hst _ Hf). lia.
Qed.

Lemma handles_ok cur y : page_ok cur y -> page_ok cur (client_step Handles y).
Proof.
  intros [Hs Hp]. cbn. destruct (ad_inbox y) as [|[id q] inbox] eqn:Ei; [by rewrite <- Ei in Hp|].
  pose proof (pi_key _ _ _ _ _ _ _ _ Hp) as Hk.
  destruct (worker_handle (ad_session y) q) as [s [r|key signed query]] eqn:Eh; (split; [done|]); cbn.
  - eapply pipe_answer; [exact Hp|..]; destruct q as [cq|input| |hq]; cbn in Eh |- *; try done;
      repeat case_match; simplify_eq; try done; auto; try naive_solver.
  - destruct q as [cq|input| |hq]; cbn in Eh; try done; repeat case_match; simplify_eq. by apply pipe_send.
Qed.

Lemma client_step_ok cur e y : e <> Crashes -> page_ok cur y -> exists cur', page_ok cur' (client_step e y).
Proof.
  intros He Hok. destruct e as [o| |i n| | |]; try done.
  - exists cur. assert (o = OpLock \/ o <> OpLock) as [->|Ho] by (destruct o; auto); [by apply lock_ok_step|]. destruct Hok as [Hs Hp].
    destruct (perform_ok cur o (ad_hook y) Ho Hs) as (Hs' & Hg & Hn). cbn. destruct (perform o (ad_hook y)) as [h n]. cbn in *.
    apply continue_ok; by rewrite ?Hg.
  - exists cur. by apply handles_ok.
  - exists cur. cbn. destruct (ad_flights y !! i) eqn:Ei; [|done]. destruct Hok as [Hs Hp]. split; [done|]. cbn. by apply pipe_fetched.
  - cbn. destruct (ad_outbox y) as [|m out] eqn:Eo; [by exists cur|]. eexists. by apply deliver_ok.
  - exists cur. destruct Hok as [Hs Hp]. split; [|done]. eapply shows_same; [|exact Hs]. done.
Qed.

Lemma client_start_ok : page_ok None client_start.
Proof.
  split; [by constructor|]. constructor; cbn; try done; try (intros; exfalso; by eapply not_elem_of_nil); try constructor;
    try (by split_and!; intros; exfalso; eapply not_elem_of_nil); auto; intros; exfalso; by eapply not_elem_of_nil.
Qed.

(** C35: the session hook keeps one host's data at a time. Whatever the operator
    clicks and in whatever order the answers arrive, while the worker does not
    fail, what the hook shows (the operator's own entry, the status, the roster,
    the members and the storages) came from one host, in answer to requests
    signed with one key; with the page locked none of it is there. When no
    locking or unlocking is under way, that key is the one the worker holds, if
    it holds any. The invite is not part of this: createInvite returns the
    host's answer without looking at the generation, so one that arrives after
    the host was locked or replaced is still shown (late_invite). *)
Theorem client_isolated evs :
  Forall (fun e => e <> Crashes) evs ->
  let y := client_run evs client_start in
  exists cur, shows cur (ad_hook y) /\
    ((forall m, m ∈ ad_outbox y -> is_lock m = false /\ is_unlock m = false) ->
     ad_session y = None \/ ad_session y = cur).
Proof.
  intros He. cbn zeta. enough (exists cur, page_ok cur (client_run evs client_start)) as (cur & Hs & Hp).
  { exists cur. split; [done|]. intros Hq. destruct (pi_key _ _ _ _ _ _ _ _ Hp) as [?|Hk]; [by left|]. right. rewrite Hk.
    clear - Hq. revert Hq. generalize (ad_outbox (client_run evs client_start)) as out.
    induction out as [|m out IH]; intros Hq; [done|]. cbn. destruct (Hq m ltac:(by left)).
    rewrite shift_other by done. apply IH. intros; apply Hq; by right. }
  unfold client_run. pose proof client_start_ok as Hok. revert Hok.
  generalize (None : option Session) as cur, client_start as y.
  induction He as [|e evs He _ IH]; intros cur y Hok; [by exists cur|]. cbn.
  destruct (client_step_ok cur e y He Hok) as [cur' Hok']. by eapply IH.
Qed.
End Facts.

(** ** Runs *)

Module OperatorRuns.

(** Two hosts that answer with the name of the key that signed. *)
#[export] Instance toyCore : AdminCore := {|
  Session := string;
  SignedRequest := string;
  openSession i := if String.eqb (ui_passphrase i) "pw" then Ok (ui_ncryptsec i) else Throw "Wrong passphrase";
  unlockResult s := {| ur_hostUrl := "https://" +:+ s; ur_npub := s |};
  signRequest s q := Ok s;
  core_answer q := Ok (VText "");
  fetch r n := Some (200, r);
  transportError := "The host could not be reached";
  statusResponse c b := Ok {| hs_connectedCount := 0; hs_peers := [] |};
  meResponse c b := Ok {| me_npub := b; me_role := RoleClient; me_memberSince := None |};
  rosterResponse c b := Throw "";
  membersResponse c b := Ok [];
  storagesResponse c b := Ok [{| ho_npub := "node"; ho_ownerNpub := b; ho_tunnelIp := None; ho_blossomPort := None;
    ho_declaredCapacityBytes := None; ho_reportedTotalBytes := None; ho_reportedFreeBytes := None; ho_lifecycle := Linked;
    ho_liveness := LiveActive; ho_lastPingAt := None; ho_createdAt := "" |}];
  inviteResponse c b := Ok b;
  mutationResponse c b := Ok tt
|}.

Definition unlock_as (who : string) : client_event :=
  Perform (OpUnlock {| ui_hostUrl := "https://" +:+ who; ui_ncryptsec := who; ui_passphrase := "pw" |} BusyUnlock).

(** A round trip of one request to the host. *)
Definition trip : list client_event := [Handles; Fetched 0 0; Delivers].
Definition unlocked_as (who : string) : list client_event := [unlock_as who; Handles; Delivers] ++ trip ++ trip.

Definition on_page (y : Client) : bool * option string * list string :=
  (hk_unlocked (ad_hook y), me_npub <$> hk_me (ad_hook y), map ho_ownerNpub (hk_storages (ad_hook y))).

(** The host is changed while a list of the first one is under way; it arrives
    late and is dropped. *)
Definition switching : list client_event :=
  [unlock_as "alice"; Handles; Delivers] ++ trip ++ [unlock_as "bob"; Handles; Handles; Delivers; Fetched 0 0; Delivers].

Lemma client_isolated_witness :
  on_page (client_run switching client_start) = (true, None, []) /\
  on_page (client_run (switching ++ trip ++ trip) client_start) = (true, Some "bob", ["bob"]) /\
  exists cur, shows cur (ad_hook (client_run (switching ++ trip ++ trip) client_start)).
Proof.
  split; [vm_compute; reflexivity|]. split; [vm_compute; reflexivity|].
  destruct (client_isolated (switching ++ trip ++ trip)) as (cur & Hs & _); [|by exists cur].
  repeat constructor; discriminate.
Defined.

(** The worker has to live: when it reports a failure after it has opened
    another host, the page takes the unlocking for failed, stays with the first
    host and mixes the two. *)
Example crash_mixes_hosts :
  on_page (client_run (unlocked_as "alice" ++ [unlock_as "bob"; Handles; Crashes; Perform (OpRefresh false); Delivers] ++ trip)
    client_start) = (true, Some "bob", ["alice"]).
Proof. vm_compute. reflexivity. Qed.

(** An invite asked for before the page is locked, or before another host is
    unlocked, is returned to the page after it. *)
Theorem late_invite :
  let asked := unlocked_as "alice" ++ [Perform OpInvite; Handles] in
  let y1 := client_run (asked ++ [Perform OpLock; Handles; Delivers; Fetched 0 0; Delivers]) client_start in
  let y2 := client_run (asked ++ [unlock_as "bob"; Handles; Delivers; Fetched 0 0; Delivers]) client_start in
  on_page y1 = (false, None, []) /\ last (ad_returned y1) = Some (RInvite (Some "alice")) /\
  ad_session y2 = Some "bob" /\ last (ad_returned y2) = Some (RInvite (Some "alice")).
Proof. vm_compute. auto. Qed.

(** Locking while a refresh is under way leaves nothing on the page. *)
Example lock_empties :
  on_page (client_run (unlocked_as "alice" ++ [Perform (OpRefresh false); Handles; Perform OpLock; Handles; Delivers; Fetched 0 0; Delivers])
    client_start) = (false, None, []).
Proof. vm_compute. reflexivity. Qed.

(** A wrong passphrase leaves the host that is open as it was. *)
Example failed_unlock_keeps :
  on_page (client_run (unlocked_as "alice" ++ [Perform (OpUnlock {| ui_hostUrl := ""; ui_ncryptsec := "bob"; ui_passphrase := "" |} BusyUnlock);
    Handles; Delivers; Perform (OpRefresh false)] ++ trip ++ trip) client_start) = (true, Some "alice", ["alice"]).
Proof. vm_compute. reflexivity. Qed.
End OperatorRuns.
