(* ===== verification/Profiles.v ===== *)
(** * The operator's host profiles (admin-app/src/hooks/useProfiles.ts)

    Profiles live in the browser's [localStorage] as JSON; the hook keeps a copy
    and the chosen one. [profiles_reload] says that what is on the page is what a
    reload would show. [JSON] is the class [JsonText]. *)

From Stdlib Require Import Ascii.
From S2P Require Import Prelude Js.
#[local] Open Scope Z_scope.

Record LocalStorage := { ls_profiles : option string; ls_selected : option string }.
Record ProfilesHook := { ph_profiles : list jsval; ph_selected : option string }.

Definition is_string (v : jsval) : bool := match v with JStr _ => true | _ => false end.
Definition isProfile (v : jsval) : bool :=
  is_string (jget v "id") && is_string (jget v "name") && is_string (jget v "url") &&
  match jget v "ncryptsec" with JStr s => starts_with "ncryptsec1" s | _ => false end.

(** [profile.id === id]; [null] is no id. *)
Definition profile_has_id (id : option string) (p : jsval) : bool :=
  match jget p "id", id with JStr s, Some id => String.eqb s id | _, _ => false end.

(** The id of the first profile. *)
Definition first_id (l : list jsval) : option string :=
  match l with p :: _ => match jget p "id" with JStr s => Some s | _ => None end | [] => None end.

(** [{...base, [k]: v}] *)
Fixpoint set_key {A} (k : string) (v : A) (l : list (string * A)) : list (string * A) :=
  match l with
  | [] => [(k, v)]
  | (k', v') :: l => if String.eqb k k' then (k, v) :: l else (k', v') :: set_key k v l
  end.
(** [{...base, ...fields}] for fields that are strings. *)
Definition spread (base : jsval) (fields : list (string * string)) : jsval :=
  match base with
  | JObj l => JObj (fold_left (fun l kv => set_key (fst kv) (JStr (snd kv)) l) fields l)
  | _ => base
  end.

(** The fields of a profile but its id; an update gives some of them. *)
Record ProfileFields := {
  pf_name : option string; pf_url : option string; pf_ncryptsec : option string; pf_npub : option string
}.
Definition named_field (k : string) (v : option string) : list (string * string) :=
  match v with Some s => [(k, s)] | None => [] end.
Definition fields_of (f : ProfileFields) : list (string * string) :=
  named_field "name" (pf_name f) ++ named_field "url" (pf_url f) ++ named_field "ncryptsec" (pf_ncryptsec f) ++ named_field "npub" (pf_npub f).

Section Hook.
Context `{JsonText}.

Definition loadProfiles (ls : LocalStorage) : list jsval :=
  match json_parse (default "[]" (ls_profiles ls)) with
  | Some (JArr l) => List.filter isProfile l
  | _ => []
  end.

Definition persist (profiles : list jsval) (selectedId : option string) : LocalStorage :=
  {| ls_profiles := Some (json_stringify (JArr profiles));
     ls_selected := match selectedId with Some s => if String.eqb s "" then None else Some s | None => None end |}.

(** The first rendering. *)
Definition useProfiles (ls : LocalStorage) : ProfilesHook :=
  let initial := loadProfiles ls in
  {| ph_profiles := initial;
     ph_selected := if existsb (profile_has_id (ls_selected ls)) initial then ls_selected ls else first_id initial |}.

Definition commit (next : list jsval) (nextSelected : option string) : LocalStorage * ProfilesHook :=
  (persist next nextSelected, {| ph_profiles := next; ph_selected := nextSelected |}).

Definition add_profile (uuid : string) (profile : ProfileFields) (ls : LocalStorage) : LocalStorage * ProfilesHook :=
  let created := spread (JObj []) (fields_of profile ++ [("id", uuid)]) in
  commit (loadProfiles ls ++ [created]) (Some uuid).

Definition update_profile (id : string) (changes : ProfileFields) (ls : LocalStorage) : LocalStorage * ProfilesHook :=
  let next := map (fun p => if profile_has_id (Some id) p then spread p (fields_of changes) else p) (loadProfiles ls) in
  commit next (ls_selected ls).

Definition remove_profile (id : string) (ls : LocalStorage) : LocalStorage * ProfilesHook :=
  let next := List.filter (fun p => negb (profile_has_id (Some id) p)) (loadProfiles ls) in
  let nextSelected :=
    match ls_selected ls with
    | Some stored => if String.eqb stored id then first_id next else Some stored
    | None => None
    end in
  commit next nextSelected.

Definition select_profile (id : string) (ls : LocalStorage) (h : ProfilesHook) : LocalStorage * ProfilesHook :=
  let next := loadProfiles ls in
  if existsb (profile_has_id (Some id)) next then commit next (Some id) else (ls, h).

(** The profile the page works with. *)
Definition selected_profile (h : ProfilesHook) : option jsval := find_first (profile_has_id (ph_selected h)) (ph_profiles h).

Inductive profile_op :=
| AddProfile (uuid : string) (profile : ProfileFields)
| UpdateProfile (id : string) (changes : ProfileFields)
| DeleteProfile (id : string)
| SelectProfile (id : string).

Definition profile_step (o : profile_op) (y : LocalStorage * ProfilesHook) : LocalStorage * ProfilesHook :=
  match o with
  | AddProfile uuid profile => add_profile uuid profile (fst y)
  | UpdateProfile id changes => update_profile id changes (fst y)
  | DeleteProfile id => remove_profile id (fst y)
  | SelectProfile id => select_profile id (fst y) (snd y)
  end.
Definition profile_run (ops : list profile_op) (y : LocalStorage * ProfilesHook) : LocalStorage * ProfilesHook :=
  fold_left (fun y o => profile_step o y) ops y.
End Hook.

(** ** What is stored is what is shown *)

Definition str_obj (l : list (string * string)) : jsval := JObj (map (fun kv => (fst kv, JStr (snd kv))) l).

(** A record as the program makes it, with fields that are strings; and one that
    is a profile with an id. *)
Definition plain_record (p : jsval) : Prop := exists l, NoDup l.*1 /\ p = str_obj l.
Definition plain_profile (p : jsval) : Prop :=
  isProfile p = true /\ (exists s, jget p "id" = JStr s /\ s <> "") /\ plain_record p.

(** What the hook relies on: a list of records survives being written and read. *)
Class JsonTextLaws `{JsonText} := {
  parse_stringify : forall l, Forall plain_record l -> json_parse (json_stringify (JArr l)) = Some (JArr l);
  parse_empty : json_parse "[]" = Some (JArr [])
}.

Section Facts.
Context `{JsonTextLaws}.

Definition selection_ok (l : list jsval) (sel : option string) : Prop :=
  match sel with Some s => s <> "" /\ existsb (profile_has_id (Some s)) l = true | None => l = [] end.
Definition stored_ok (ls : LocalStorage) : Prop :=
  Forall plain_profile (loadProfiles ls) /\ selection_ok (loadProfiles ls) (ls_selected ls).

(** New profiles have an id and an encrypted key; an update keeps the key
    encrypted. *)
Definition profile_op_ok (o : profile_op) : Prop :=
  match o with
  | AddProfile uuid f => uuid <> "" /\ is_Some (pf_name f) /\ is_Some (pf_url f) /\
      exists s, pf_ncryptsec f = Some s /\ starts_with "ncryptsec1" s = true
  | UpdateProfile _ f => forall s, pf_ncryptsec f = Some s -> starts_with "ncryptsec1" s = true
  | _ => True
  end.

Lemma filter_profiles l : Forall plain_profile l -> List.filter isProfile l = l.
Proof. induction 1 as [|p l [Hp _] _ IH]; [done|]. cbn. by rewrite Hp, IH. Qed.

Lemma plain_profile_record p : plain_profile p -> plain_record p.
Proof. by intros (_ & _ & Hp). Qed.

(** A reload shows those of the committed records that are profiles. *)
Lemma commit_loads l sel : Forall plain_record l -> loadProfiles (commit l sel).1 = List.filter isProfile l.
Proof. intros Hl. unfold loadProfiles. cbn. by rewrite parse_stringify. Qed.

(** What was committed is what a reload shows. *)
Lemma commit_reload l sel : Forall plain_profile l -> selection_ok l sel ->
  stored_ok (commit l sel).1 /\ useProfiles (commit l sel).1 = (commit l sel).2.
Proof.
  intros Hl Hs. assert (loadProfiles (commit l sel).1 = l) as El.
  { rewrite commit_loads; [by apply filter_profiles|]. eapply Forall_impl; [exact Hl|]. apply plain_profile_record. }
  assert (ls_selected (commit l sel).1 = sel) as Es.
  { cbn. destruct sel as [s|]; [|done]. destruct Hs as [Hne _]. by destruct (String.eqb_spec s ""). }
  split; [by unfold stored_ok; rewrite El, Es|].
  unfold useProfiles. rewrite El, Es. cbn. destruct sel as [s|]; cbn in Hs; [by destruct Hs as [_ ->]|]. by subst l.
Qed.

Lemma assoc_set_key k k' v l : assoc k (set_key k' v l) = if String.eqb k k' then v else assoc k l.
Proof.
  induction l as [|[k1 v1] l IH]; cbn; [done|].
  destruct (String.eqb_spec k' k1) as [->|Hne]; cbn.
  - by destruct (String.eqb k k1).
  - rewrite IH. destruct (String.eqb_spec k k1) as [->|]; [|done]. by destruct (String.eqb_spec k1 k'); [congruence|].
Qed.

Lemma set_key_keys {A} k (v : A) l : NoDup l.*1 -> NoDup (set_key k v l).*1 /\ forall x, x ∈ (set_key k v l).*1 <-> x = k \/ x ∈ l.*1.
Proof.
  induction l as [|[k1 v1] l IH]; cbn; [intros _; split; [apply NoDup_singleton|set_solver]|].
  intros [Hni Hnd]%NoDup_cons. destruct (String.eqb_spec k k1) as [->|Hne]; cbn.
  - split; [by apply NoDup_cons|set_solver].
  - destruct (IH Hnd) as [Hn Hk]. split.
    + apply NoDup_cons. split; [|done]. rewrite Hk. by intros [->|?].
    + intros x. rewrite !elem_of_cons, Hk. tauto.
Qed.

Lemma set_key_map k s l : set_key k (JStr s) (map (fun kv => (fst kv, JStr (snd kv))) l) =
  map (fun kv => (fst kv, JStr (snd kv))) (set_key k s l).
Proof. induction l as [|[k1 v1] l IH]; cbn; [done|]. destruct (String.eqb k k1); cbn; [done|by rewrite IH]. Qed.

Lemma spread_plain fields : forall l, NoDup l.*1 -> exists l', NoDup l'.*1 /\ spread (str_obj l) fields = str_obj l'.
Proof.
  induction fields as [|[k s] fields IH]; intros l Hl; [by exists l|].
  destruct (IH (set_key k s l)) as (l' & Hn & E); [by apply set_key_keys|]. exists l'. split; [done|].
  unfold spread, str_obj in *. cbn. by rewrite set_key_map.
Qed.

Lemma jget_spread fields k : forall base, (exists l, base = JObj l) ->
  jget (spread base fields) k = match assoc_str k (rev fields) with Some s => JStr s | None => jget base k end.
Proof.
  induction fields as [|[k1 s1] fields IH] using rev_ind; intros base [l ->]; [done|].
  unfold spread. rewrite fold_left_app, rev_unit. cbn. rewrite assoc_set_key.
  destruct (String.eqb k k1); [done|]. specialize (IH (JObj l) (ex_intro _ l eq_refl)). by unfold spread in IH.
Qed.

(** The fields an operation writes leave the id alone and keep the profile one. *)
Lemma assoc_field k k' v l : assoc_str k (l ++ named_field k' v) = match assoc_str k l with
  | Some s => Some s | None => if String.eqb k k' then v else None end.
Proof.
  induction l as [|[k1 s1] l IH]; cbn; [|by destruct (String.eqb k k1)].
  destruct v; cbn; by destruct (String.eqb k k').
Qed.

Lemma rev_field k v : rev (named_field k v) = named_field k v.
Proof. by destruct v. Qed.

Lemma assoc_fields k f : assoc_str k (rev (fields_of f)) =
  if String.eqb k "npub" then pf_npub f else if String.eqb k "ncryptsec" then pf_ncryptsec f
  else if String.eqb k "url" then pf_url f else if String.eqb k "name" then pf_name f else None.
Proof.
  unfold fields_of. rewrite !rev_app_distr, !rev_field, !assoc_field.
  rewrite <- (app_nil_l (named_field "npub" _)), assoc_field. cbn.
  destruct (String.eqb_spec k "npub") as [->|]; [by destruct (pf_npub f)|].
  destruct (String.eqb_spec k "ncryptsec") as [->|]; [by destruct (pf_ncryptsec f)|].
  destruct (String.eqb_spec k "url") as [->|]; [by destruct (pf_url f)|].
  by destruct (String.eqb k "name").
Qed.

(** Fields that are written keep a profile one, as long as its key stays
    encrypted. *)
Lemma spread_isProfile p f : plain_record p -> isProfile p = true ->
  (forall s, pf_ncryptsec f = Some s -> starts_with "ncryptsec1" s = true) ->
  isProfile (spread p (fields_of f)) = true.
Proof.
  intros (l & Hl & ->) Hp Hk.
  assert (Hg : forall k, jget (spread (str_obj l) (fields_of f)) k =
    match assoc_str k (rev (fields_of f)) with Some s => JStr s | None => jget (str_obj l) k end)
    by (intros; apply jget_spread; by eexists).
  unfold isProfile in *. rewrite !Hg, !assoc_fields. cbn.
  apply andb_true_iff in Hp as [[[Hi Hn]%andb_true_iff Hu]%andb_true_iff Hc].
  rewrite andb_true_iff. split; [apply andb_true_iff; split; [apply andb_true_iff; split; [done|]|]|].
  - by destruct (pf_name f).
  - by destruct (pf_url f).
  - destruct (pf_ncryptsec f) eqn:Ek; [by apply Hk|done].
Qed.
Lemma spread_record p fields : plain_record p -> plain_record (spread p fields).
Proof. intros (l & Hl & ->). destruct (spread_plain fields l Hl) as (l' & Hn & ->). by exists l'. Qed.

Lemma spread_profile p f : plain_profile p -> (forall s, pf_ncryptsec f = Some s -> starts_with "ncryptsec1" s = true) ->
  plain_profile (spread p (fields_of f)) /\ jget (spread p (fields_of f)) "id" = jget p "id".
Proof.
  intros (Hp & (s & Hid & Hs) & Hr) Hk.
  assert (jget (spread p (fields_of f)) "id" = JStr s) as Hid'.
  { destruct Hr as (l & _ & ->). rewrite jget_spread by by eexists. rewrite assoc_fields. exact Hid. }
  split; [|congruence]. split_and!; [by apply spread_isProfile|by exists s|by apply spread_record].
Qed.

(** The record of a new profile. *)
Lemma jget_created uuid f k :
  jget (spread (JObj []) (fields_of f ++ [("id", uuid)])) k =
    if String.eqb k "id" then JStr uuid else match assoc_str k (rev (fields_of f)) with Some s => JStr s | None => JUndefined end.
Proof. rewrite jget_spread by by eexists. rewrite rev_unit. cbn. by destruct (String.eqb k "id"). Qed.
Lemma created_record uuid f : plain_record (spread (JObj []) (fields_of f ++ [("id", uuid)])).
Proof. apply (spread_record (str_obj [])). exists []. split; [constructor|done]. Qed.

Lemma created_profile uuid f : profile_op_ok (AddProfile uuid f) ->
  plain_profile (spread (JObj []) (fields_of f ++ [("id", uuid)])) /\
  jget (spread (JObj []) (fields_of f ++ [("id", uuid)])) "id" = JStr uuid.
Proof.
  intros (Hu & [n Hn] & [u Hurl] & c & Hc & Hp).
  split; [|by rewrite jget_created]. split_and!; [|by exists uuid; rewrite jget_created|apply created_record].
  unfold isProfile. rewrite !jget_created, !assoc_fields. cbn. by rewrite Hn, Hurl, Hc.
Qed.

Lemma profile_has_id_spec id p : profile_has_id (Some id) p = true <-> jget p "id" = JStr id.
Proof.
  unfold profile_has_id. destruct (jget p "id") as [| | | |s| |]; split; try done.
  - by intros ->%String.eqb_eq.
  - intros [= ->]. apply String.eqb_refl.
Qed.

Lemma first_id_ok l : Forall plain_profile l -> selection_ok l (first_id l).
Proof.
  intros [|p l' (_ & (s & Hid & Hs) & _) _]; [done|]. cbn [first_id]. rewrite Hid. split; [done|]. cbn [existsb]. apply orb_true_iff. left. by apply profile_has_id_spec.
Qed.

Lemma add_ok uuid f ls : stored_ok ls -> profile_op_ok (AddProfile uuid f) ->
  let r := add_profile uuid f ls in stored_ok r.1 /\ useProfiles r.1 = r.2.
Proof.
  intros [Hl _] Ho. destruct (created_profile uuid f Ho) as [Hp Hid]. apply commit_reload.
  - apply Forall_app. split; [done|]. by apply Forall_singleton.
  - split; [by destruct Ho|]. rewrite existsb_app. apply orb_true_iff. right. cbn [existsb]. apply orb_true_iff. left. by apply profile_has_id_spec.
Qed.

Lemma update_ok id f ls : stored_ok ls -> profile_op_ok (UpdateProfile id f) ->
  let r := update_profile id f ls in stored_ok r.1 /\ useProfiles r.1 = r.2.
Proof.
  intros [Hl Hs] Ho. cbn in Ho. apply commit_reload.
  - apply Forall_fmap. eapply Forall_impl; [exact Hl|]. intros p Hp. cbn. destruct (profile_has_id _ p); [|done]. by apply spread_profile.
  - destruct (ls_selected ls) as [sel|]; cbn in *; [|by rewrite Hs]. destruct Hs as [Hne Hex]. split; [done|].
    rewrite existsb_exists in *. destruct Hex as (p & Hin & Hp). 
    exists (if profile_has_id (Some id) p then spread p (fields_of f) else p). split; [by apply (in_map (fun p => if profile_has_id (Some id) p then spread p (fields_of f) else p))|].
    destruct (profile_has_id (Some id) p); [|done]. rewrite List.Forall_forall in Hl.
    apply profile_has_id_spec. destruct (spread_profile p f (Hl p Hin) Ho) as [_ ->]. by apply profile_has_id_spec.
Qed.

Lemma remove_ok id ls : stored_ok ls -> let r := remove_profile id ls in stored_ok r.1 /\ useProfiles r.1 = r.2.
Proof.
  intros [Hl Hs]. cbn zeta. unfold remove_profile. set (l := List.filter _ _).
  assert (Forall plain_profile l) as Hf by (apply List.Forall_forall; intros p [Hin _]%filter_In; by eapply List.Forall_forall).
  apply commit_reload; [done|]. destruct (ls_selected ls) as [s|]; cbn in Hs; [|by unfold l; rewrite Hs].
  destruct (String.eqb_spec s id) as [->|Hne]; [by apply first_id_ok|]. destruct Hs as [Hs Hex]. split; [done|].
  rewrite existsb_exists in *. destruct Hex as (p & Hin & Hp). exists p. split; [|done]. apply filter_In. split; [done|].
  apply negb_true_iff, not_true_is_false. intros Hi%profile_has_id_spec. apply profile_has_id_spec in Hp. congruence.
Qed.

Lemma select_ok id ls : stored_ok ls ->
  let r := select_profile id ls (useProfiles ls) in stored_ok r.1 /\ useProfiles r.1 = r.2.
Proof.
  intros Hst. cbn zeta. unfold select_profile. destruct (existsb _ _) eqn:Ex; [|done]. destruct Hst as [Hl Hs].
  apply commit_reload; [done|]. split; [|done].
  apply existsb_exists in Ex as (p & Hin & Hid%profile_has_id_spec). rewrite List.Forall_forall in Hl.
  destruct (Hl p Hin) as (_ & (s & Hs' & Hne) & _). congruence.
Qed.

(** A reload changes nothing. From a consistent store, whatever profiles the
    operator adds, edits, deletes and selects, the store stays consistent (every
    profile is readable and its key encrypted, the selection is one of them) and
    the page shows exactly the profiles and the selection it would show after a
    reload. *)
Theorem profiles_reload ops ls :
  stored_ok ls -> Forall profile_op_ok ops ->
  let y := profile_run ops (ls, useProfiles ls) in
  stored_ok y.1 /\ y.2 = useProfiles y.1.
Proof.
  intros Hs Ho. cbn zeta. assert (stored_ok (ls, useProfiles ls).1 /\ (ls, useProfiles ls).2 = useProfiles (ls, useProfiles ls).1) as Hy by done.
  revert Hy. generalize (ls, useProfiles ls) as y. clear Hs ls. induction Ho as [|o ops Ho _ IH]; intros y Hy; [done|].
  cbn. apply IH. destruct y as [ls h]. cbn in Hy. destruct Hy as [Hs ->]. destruct o as [uuid f|id f|id|id]; cbn [profile_step fst snd].
  - by destruct (add_ok uuid f ls Hs Ho).
  - by destruct (update_ok id f ls Hs Ho).
  - by destruct (remove_ok id ls Hs).
  - by destruct (select_ok id ls Hs).
Qed.
End Facts.

(** ** Runs *)

Module ProfileRuns.

(** A text for lists of objects of strings: the bits of their code number. *)
Definition strings_of (p : jsval) : option (list (string * string)) :=
  match p with
  | JObj l => mapM (fun kv => match snd kv with JStr s => Some (fst kv, s) | _ => None end) l
  | _ => None
  end.
Fixpoint bits (n : positive) : string :=
  match n with xH => "" | xO n => String "0" (bits n) | xI n => String "1" (bits n) end.
Fixpoint of_bits (s : string) : positive :=
  match s with "" => xH | String c s => if Ascii.eqb c "1" then xI (of_bits s) else xO (of_bits s) end.
Lemma of_bits_bits n : of_bits (bits n) = n.
Proof. induction n as [n IH|n IH|]; cbn; by rewrite ?IH. Qed.

#[export] Instance codedJson : JsonText := {|
  json_parse s := if String.eqb s "[]" then Some (JArr []) else
    (fun l => JArr (map str_obj l)) <$> (decode (of_bits s) : option (list (list (string * string))));
  json_stringify v := match v with
    | JArr l => match mapM strings_of l with Some ls => bits (encode ls) | None => "?" end
    | _ => "?"
    end
|}.

Lemma strings_of_obj l : strings_of (str_obj l) = Some l.
Proof.
  unfold strings_of, str_obj. induction l as [|[k s] l IH]; [done|]. cbn in *. by rewrite IH.
Qed.

#[export] Instance codedJson_laws : JsonTextLaws.
Proof.
  constructor; [|done]. intros l Hl.
  assert (exists ls, l = map str_obj ls /\ mapM strings_of l = Some ls) as (ls & -> & Hm).
  { induction Hl as [|p l (fs & _ & ->) _ (ls & -> & IH)]; [by exists []|].
    exists (fs :: ls). split; [done|]. apply mapM_Some. constructor; [apply strings_of_obj|by apply mapM_Some]. }
  unfold json_parse, json_stringify, codedJson. rewrite Hm.
  destruct (String.eqb_spec (bits (encode ls)) "[]") as [Hs|_]; [by destruct (encode ls)|].
  by rewrite of_bits_bits, (countable.decode_encode ls).
Qed.

Definition host (name key : string) : ProfileFields :=
  {| pf_name := Some name; pf_url := Some ("https://" +:+ name); pf_ncryptsec := Some ("ncryptsec1" +:+ key); pf_npub := None |}.
Definition named (npub : string) : ProfileFields :=
  {| pf_name := None; pf_url := None; pf_ncryptsec := None; pf_npub := Some npub |}.

Definition session : list profile_op :=
  [AddProfile "1" (host "alice" "a"); AddProfile "2" (host "bob" "b"); SelectProfile "1"; UpdateProfile "1" (named "npub1a");
   DeleteProfile "1"].
Definition no_storage : LocalStorage := {| ls_profiles := None; ls_selected := None |}.

Lemma profiles_reload_witness :
  let y := profile_run session (no_storage, useProfiles no_storage) in
  map (fun p => jget p "name") (ph_profiles (snd y)) = [JStr "bob"] /\ ph_selected (snd y) = Some "2" /\
  stored_ok (fst y) /\ snd y = useProfiles (fst y).
Proof.
  split; [vm_compute; reflexivity|]. split; [vm_compute; reflexivity|].
  apply (profiles_reload session no_storage).
  - split; [constructor|reflexivity].
  - repeat constructor; try discriminate; try (eexists; split; reflexivity); by intros s [=].
Defined.

(** Without a stored selection the page works with the first profile; editing
    it leaves the page without one. *)
Example update_deselects :
  let ls := {| ls_profiles := ls_profiles (fst (add_profile "1" (host "alice" "a") no_storage)); ls_selected := None |} in
  ph_selected (useProfiles ls) = Some "1" /\ ph_selected (snd (update_profile "1" (named "npub1a") ls)) = None.
Proof. vm_compute. auto. Qed.
End ProfileRuns.
