(* ===== verification/AdminApp.v ===== *)
(** * The operator's page (admin-app/src/App.tsx, components/ProfileDialog.tsx)

    The form in which a profile is entered, and the handlers that connect it,
    the stored profiles of [Profiles] and the session of [Operator]. A handler
    runs up to an [await]; [flow] has one constructor per place where one waits
    for a call of the session or of the library, and what that call returned is
    the input of the next step. Whether the session is busy, which disables the
    buttons of the form, is part of the event, and so is the random id of a new
    profile. *)

From S2P Require Import Prelude Js Operator Profiles.
#[local] Open Scope Z_scope.

(** ** components/ProfileDialog.tsx *)

Inductive ProfileMode := ModeNcryptsec | ModeNsec | ModeCreate.

Inductive ProfileSubmission :=
| SubmitNcryptsec (name url ncryptsec passphrase : string)
| SubmitNsec (name url nsec passphrase : string)
| SubmitCreate (name url passphrase : string).

Definition sub_name (s : ProfileSubmission) : string :=
  match s with SubmitNcryptsec n _ _ _ | SubmitNsec n _ _ _ | SubmitCreate n _ _ => n end.
Definition sub_url (s : ProfileSubmission) : string :=
  match s with SubmitNcryptsec _ u _ _ | SubmitNsec _ u _ _ | SubmitCreate _ u _ => u end.
Definition sub_passphrase (s : ProfileSubmission) : string :=
  match s with SubmitNcryptsec _ _ _ p | SubmitNsec _ _ _ p | SubmitCreate _ _ p => p end.

Definition DEFAULT_HOST : string := "https://storage.stg.formstr.app".

Record ProfileForm := {
  fm_mode : ProfileMode; fm_name : string; fm_url : string;
  fm_ncryptsec : string; fm_nsec : string; fm_passphrase : string; fm_confirmation : string
}.

Definition new_form (profiles : list jsval) : ProfileForm :=
  {| fm_mode := ModeNcryptsec; fm_name := match profiles with [] => "Staging" | _ => "" end; fm_url := DEFAULT_HOST;
     fm_ncryptsec := ""; fm_nsec := ""; fm_passphrase := ""; fm_confirmation := "" |}.

Definition needsConfirmation (m : ProfileMode) : bool :=
  match m with ModeNsec | ModeCreate => true | ModeNcryptsec => false end.

(** The four setters that drop the secrets. *)
Definition clear_secrets (m : ProfileMode) (f : ProfileForm) : ProfileForm :=
  {| fm_mode := m; fm_name := fm_name f; fm_url := fm_url f;
     fm_ncryptsec := ""; fm_nsec := ""; fm_passphrase := ""; fm_confirmation := "" |}.

(** [required] and [minLength] of the fields that are shown. *)
Definition long_enough (s : string) : bool := (8 <=? String.length s)%nat.
Definition form_valid (f : ProfileForm) : bool :=
  let given s := negb (String.eqb s "") in
  given (fm_name f) && given (fm_url f) &&
  match fm_mode f with
  | ModeNcryptsec => given (fm_ncryptsec f) && given (fm_passphrase f)
  | ModeNsec => given (fm_nsec f) && long_enough (fm_passphrase f) && long_enough (fm_confirmation f)
  | ModeCreate => long_enough (fm_passphrase f) && long_enough (fm_confirmation f)
  end.

Definition form_submission (f : ProfileForm) : ProfileSubmission :=
  let name := trim (fm_name f) in
  match fm_mode f with
  | ModeNcryptsec => SubmitNcryptsec name (fm_url f) (trim (fm_ncryptsec f)) (fm_passphrase f)
  | ModeNsec => SubmitNsec name (fm_url f) (trim (fm_nsec f)) (fm_passphrase f)
  | ModeCreate => SubmitCreate name (fm_url f) (fm_passphrase f)
  end.

(** [submit]: what is handed over, or the message of the refusal. *)
Definition submit (f : ProfileForm) : exc string ProfileSubmission * ProfileForm :=
  if needsConfirmation (fm_mode f) && negb (String.eqb (fm_passphrase f) (fm_confirmation f))
  then (Throw "Passphrase confirmation does not match", f)
  else (Ok (form_submission f), clear_secrets (fm_mode f) f).

(** ** App.tsx *)

Inductive SecretKind := SecretInvite | SecretBackup.
Inductive DialogState :=
| NoDialog
| ProfilesDialog
| SecretDialog (kind : SecretKind) (secret : string) (npub : option string).
Inductive View := ViewAdmin | ViewStorage.

Inductive flow :=
| SaveUrl (s : ProfileSubmission)
| SaveKey (s : ProfileSubmission) (url : string)
| SaveUnlock (s : ProfileSubmission) (url ncryptsec : string) (generated : option GeneratedKey)
| UnlockSelected (id : string)
| LockPage
| SwitchProfile (id : string)
| DeleteSelected (id : string)
| CreateInvite.

Record App := {
  ap_storage : LocalStorage;
  ap_profiles : ProfilesHook;
  ap_dialog : DialogState;
  ap_form : ProfileForm;               (* of the profile dialog, while it is open *)
  ap_view : View;
  ap_notice : option Notice;
  ap_waits : list (operation * flow)   (* the calls under way and who waits *)
}.

Definition set_app (profiles : LocalStorage * ProfilesHook) (d : DialogState) (form : ProfileForm) (v : View)
    (n : option Notice) (a : App) : App :=
  {| ap_storage := fst profiles; ap_profiles := snd profiles; ap_dialog := d; ap_form := form; ap_view := v;
     ap_notice := n; ap_waits := ap_waits a |}.

(** A dialog that opens has a fresh form. *)
Definition setDialog (d : DialogState) (a : App) : App :=
  set_app (ap_storage a, ap_profiles a) d
    (match ap_dialog a, d with
     | ProfilesDialog, _ => ap_form a
     | _, ProfilesDialog => new_form (ph_profiles (ap_profiles a))
     | _, _ => ap_form a
     end) (ap_view a) (ap_notice a) a.
Definition set_form (f : ProfileForm) (a : App) : App :=
  set_app (ap_storage a, ap_profiles a) (ap_dialog a) f (ap_view a) (ap_notice a) a.
Definition setView (v : View) (a : App) : App :=
  set_app (ap_storage a, ap_profiles a) (ap_dialog a) (ap_form a) v (ap_notice a) a.
Definition show_notice (error : bool) (message : string) (a : App) : App :=
  set_app (ap_storage a, ap_profiles a) (ap_dialog a) (ap_form a) (ap_view a)
    (Some {| no_error := error; no_message := message |}) a.
(** The profiles after one of their operations; the effect resets the view when
    another profile is selected. *)
Definition selected_id (h : ProfilesHook) : option jsval := (fun p => jget p "id") <$> selected_profile h.
Definition same_id (x y : option jsval) : bool :=
  match x, y with
  | Some (JStr s), Some (JStr t) => String.eqb s t
  | None, None => true
  | _, _ => false
  end.
Definition set_profiles (y : LocalStorage * ProfilesHook) (a : App) : App :=
  set_app y (ap_dialog a) (ap_form a)
    (if same_id (selected_id (snd y)) (selected_id (ap_profiles a)) then ap_view a else ViewAdmin) (ap_notice a) a.
Definition awaiting (o : operation) (f : flow) (a : App) : App :=
  {| ap_storage := ap_storage a; ap_profiles := ap_profiles a; ap_dialog := ap_dialog a; ap_form := ap_form a;
     ap_view := ap_view a; ap_notice := ap_notice a; ap_waits := ap_waits a ++ [(o, f)] |}.

(** What the operator does. *)
Inductive action :=
| ActUnlock (passphrase : string)
| ActLock
| ActEdit (name url ncryptsec nsec passphrase confirmation : string)
| ActMode (m : ProfileMode)
| ActSubmit
| ActSelect (id : string)
| ActBackup (p : jsval)
| ActDelete (p : jsval) (confirmed : bool)
| ActOpenProfiles
| ActClose
| ActCloseSecret
| ActInvite
| ActView (v : View)
| ActCopied (ok : bool).

Definition key_of_profile (p : jsval) (k : string) : string := match jget p k with JStr s => s | _ => "" end.
Definition no_profiles (a : App) : bool := match ph_profiles (ap_profiles a) with [] => true | _ => false end.
(** A text, unless it is missing or empty. *)
Definition nonblank (o : option string) : option string := match o with Some "" => None | _ => o end.

Section Page.
Context `{JsonText}.

Definition unlockSelected (passphrase : string) (a : App) : App :=
  match selected_profile (ap_profiles a) with
  | None => a
  | Some p =>
      awaiting (OpUnlock {| ui_hostUrl := key_of_profile p "url"; ui_ncryptsec := key_of_profile p "ncryptsec";
                            ui_passphrase := passphrase |} BusyUnlock) (UnlockSelected (key_of_profile p "id")) a
  end.

Definition saveProfile (s : ProfileSubmission) (a : App) : App :=
  awaiting (OpCore (NormalizeHostUrl (sub_url s))) (SaveUrl s) a.

Definition deleteProfile (p : jsval) (a : App) : App :=
  let id := key_of_profile p "id" in
  if same_id (Some (JStr id)) (selected_id (ap_profiles a)) then awaiting OpLock (DeleteSelected id) a
  else set_profiles (remove_profile id (ap_storage a)) a.

(** What happened, for the theorems: submissions and answered calls. *)
Inductive entry := Submitted (s : ProfileSubmission) | Done (o : operation) (r : returned).

Definition act (busy : option BusyKind) (x : action) (a : App) : App * list entry :=
  let idle := match busy with None => true | Some _ => false end in
  let in_form := match ap_dialog a with ProfilesDialog => idle | _ => false end in
  let f := ap_form a in
  match x with
  | ActUnlock passphrase => (if idle then unlockSelected passphrase a else a, [])
  | ActLock => (awaiting OpLock LockPage a, [])
  | ActEdit name url ncryptsec nsec passphrase confirmation =>
      (set_form {| fm_mode := fm_mode f; fm_name := name; fm_url := url; fm_ncryptsec := ncryptsec; fm_nsec := nsec;
                   fm_passphrase := passphrase; fm_confirmation := confirmation |} a, [])
  | ActMode m => (if in_form then set_form (clear_secrets m f) a else a, [])
  | ActSubmit =>
      if in_form && form_valid f then
        match submit f with
        | (Throw e, f) => (show_notice true e (set_form f a), [])
        | (Ok s, f) => (saveProfile s (set_form f a), [Submitted s])
        end
      else (a, [])
  | ActSelect id => (if in_form then awaiting OpLock (SwitchProfile id) a else a, [])
  | ActBackup p =>
      (if in_form then setDialog (SecretDialog SecretBackup (key_of_profile p "ncryptsec") (nonblank (Some (key_of_profile p "npub")))) a
       else a, [])
  | ActDelete p confirmed => (if in_form && confirmed then deleteProfile p a else a, [])
  | ActOpenProfiles => (setDialog ProfilesDialog a, [])
  | ActClose => (if no_profiles a then a else setDialog NoDialog a, [])
  | ActCloseSecret => (setDialog (if no_profiles a then ProfilesDialog else NoDialog) a, [])
  | ActInvite => (awaiting OpInvite CreateInvite a, [])
  | ActView v => (setView v a, [])
  | ActCopied ok => (if ok then show_notice false "Copied to clipboard" a
                     else show_notice true "Clipboard access was unavailable" a, [])
  end.

(** The call of the library that makes the key of a submission. *)
Definition key_call (s : ProfileSubmission) : option operation :=
  match s with
  | SubmitNcryptsec _ _ _ _ => None
  | SubmitNsec _ _ nsec passphrase => Some (OpCore (ImportNsec nsec passphrase))
  | SubmitCreate _ _ passphrase => Some (OpCore (GenerateHostKey passphrase))
  end.
Definition save_unlock (s : ProfileSubmission) (url ncryptsec : string) (generated : option GeneratedKey) (a : App) : App :=
  awaiting (OpUnlock {| ui_hostUrl := url; ui_ncryptsec := ncryptsec; ui_passphrase := sub_passphrase s |} BusyProfile)
    (SaveUnlock s url ncryptsec generated) a.

(** From an [await] to the next. *)
Definition app_resume (uuid : string) (fl : flow) (r : returned) (a : App) : App :=
  match fl, r with
  | SaveUrl s, RValue (VText url) =>
      match s, key_call s with
      | _, Some o => awaiting o (SaveKey s url) a
      | SubmitNcryptsec _ _ ncryptsec _, None => save_unlock s url ncryptsec None a
      | _, None => a
      end
  | SaveKey s url, RValue (VKey g) => save_unlock s url (gk_ncryptsec g) (Some g) a
  | SaveUrl _, RRejected e | SaveKey _ _, RRejected e | SaveUnlock _ _ _ _, RRejected e => show_notice true (messageOf e) a
  | SaveUnlock s url ncryptsec generated, RNpub npub =>
      match nonblank npub with
      | None => a
      | Some npub =>
          let a := set_profiles (add_profile uuid {| pf_name := Some (sub_name s); pf_url := Some url;
                                                     pf_ncryptsec := Some ncryptsec; pf_npub := Some npub |} (ap_storage a)) a in
          match generated with
          | Some g => setDialog (SecretDialog SecretBackup (gk_ncryptsec g) (Some npub)) a
          | None => show_notice false ("Profile " +:+ sub_name s +:+ " imported and unlocked") (setDialog NoDialog a)
          end
      end
  | UnlockSelected id, RNpub npub =>
      match nonblank npub with
      | None => a
      | Some npub => set_profiles (update_profile id {| pf_name := None; pf_url := None; pf_ncryptsec := None;
                                                        pf_npub := Some npub |} (ap_storage a)) a
      end
  | LockPage, RUndefined => setDialog NoDialog (setView ViewAdmin a)
  | SwitchProfile id, RUndefined => setDialog NoDialog (set_profiles (select_profile id (ap_storage a) (ap_profiles a)) a)
  | DeleteSelected id, RUndefined => set_profiles (remove_profile id (ap_storage a)) a
  | CreateInvite, RInvite invite =>
      match nonblank invite with Some secret => setDialog (SecretDialog SecretInvite secret None) a | None => a end
  | _, _ => a
  end.

Inductive app_event :=
| Act (busy : option BusyKind) (x : action)
| Answer (k : nat) (uuid : string) (r : returned).     (* to the k-th call under way *)

Definition drop_wait (k : nat) (a : App) : App :=
  {| ap_storage := ap_storage a; ap_profiles := ap_profiles a; ap_dialog := ap_dialog a; ap_form := ap_form a;
     ap_view := ap_view a; ap_notice := ap_notice a; ap_waits := delete k (ap_waits a) |}.

Definition app_step (e : app_event) (a : App) : App * list entry :=
  match e with
  | Act busy x => act busy x a
  | Answer k uuid r =>
      match ap_waits a !! k with
      | Some (o, fl) => (app_resume uuid fl r (drop_wait k a), [Done o r])
      | None => (a, [])
      end
  end.

Fixpoint app_run (evs : list app_event) (a : App) : App * list entry :=
  match evs with
  | [] => (a, [])
  | e :: evs => let (a, h) := app_step e a in let (a, h') := app_run evs a in (a, h ++ h')
  end.

Definition app_start (ls : LocalStorage) : App :=
  let hook := useProfiles ls in
  {| ap_storage := ls; ap_profiles := hook;
     ap_dialog := match ph_profiles hook with [] => ProfilesDialog | _ => NoDialog end;
     ap_form := new_form (ph_profiles hook); ap_view := ViewAdmin; ap_notice := None; ap_waits := [] |}.
End Page.
