(* ===== verification/AdminAppFacts.v ===== *)
(** * What the operator's page keeps

    [app_inv] holds in every run of the page: every profile on it was opened with
    the library before it was kept, and a reload shows those of them that pass
    the check for profiles. [app_stored] holds while the keys are in their usual
    spelling: the store is consistent and the page shows it. *)

From S2P Require Import Prelude Js Operator Profiles AdminApp.
#[local] Open Scope Z_scope.

(** ** The form *)

(** Handing a profile over, or changing the way of entering it, leaves no
    secret in the form. *)
Definition no_secrets (f : ProfileForm) : Prop :=
  fm_ncryptsec f = "" /\ fm_nsec f = "" /\ fm_passphrase f = "" /\ fm_confirmation f = "".
Lemma submit_clears f s f' : submit f = (Ok s, f') -> no_secrets f'.
Proof. unfold submit. case_match; [done|]. intros [= _ <-]. done. Qed.

(** ** Where a profile comes from *)

(** The url was normalized by the library; the key was entered encrypted, or
    made by the library under the same passphrase; the two were unlocked. *)
Definition normalized_url (h : list entry) (url : string) : Prop :=
  exists typed, Done (OpCore (NormalizeHostUrl typed)) (RValue (VText url)) ∈ h.
Definition encrypted (h : list entry) (ncryptsec passphrase : string) : Prop :=
  (exists name url, Submitted (SubmitNcryptsec name url ncryptsec passphrase) ∈ h) \/
  (exists s o g, Submitted s ∈ h /\ key_call s = Some o /\ sub_passphrase s = passphrase /\
     Done o (RValue (VKey g)) ∈ h /\ gk_ncryptsec g = ncryptsec).
Definition opened_with (h : list entry) (url ncryptsec npub : string) : Prop :=
  exists passphrase,
    Done (OpUnlock {| ui_hostUrl := url; ui_ncryptsec := ncryptsec; ui_passphrase := passphrase |} BusyProfile)
         (RNpub (Some npub)) ∈ h /\
    normalized_url h url /\ encrypted h ncryptsec passphrase.

Definition same_credential (p q : jsval) : Prop :=
  jget p "url" = jget q "url" /\ jget p "ncryptsec" = jget q "ncryptsec".
Definition vouched (init : list jsval) (h : list entry) (p : jsval) : Prop :=
  (exists q, q ∈ init /\ same_credential p q) \/
  (exists url ncryptsec npub, jget p "url" = JStr url /\ jget p "ncryptsec" = JStr ncryptsec /\ opened_with h url ncryptsec npub).

(** What a call under way is about. *)
Definition wait_ok (h : list entry) (w : operation * flow) : Prop :=
  match snd w with
  | SaveUrl s => fst w = OpCore (NormalizeHostUrl (sub_url s)) /\ Submitted s ∈ h
  | SaveKey s url => key_call s = Some (fst w) /\ Submitted s ∈ h /\ normalized_url h url
  | SaveUnlock s url ncryptsec _ =>
      fst w = OpUnlock {| ui_hostUrl := url; ui_ncryptsec := ncryptsec; ui_passphrase := sub_passphrase s |} BusyProfile /\
      normalized_url h url /\ encrypted h ncryptsec (sub_passphrase s)
  | _ => True
  end.

Lemma normalized_app h h' url : normalized_url h url -> normalized_url (h ++ h') url.
Proof. intros [t Ht]. exists t. set_solver. Qed.
Lemma encrypted_app h h' k p : encrypted h k p -> encrypted (h ++ h') k p.
Proof. unfold encrypted. set_solver. Qed.
Lemma vouched_app init h h' p : vouched init h p -> vouched init (h ++ h') p.
Proof.
  intros [Hq|(u & k & n & Hu & Hk & x & Hx & Hn & He)]; [by left|right].
  exists u, k, n. split_and!; [done..|]. exists x. split; [set_solver|]. auto using normalized_app, encrypted_app.
Qed.
Lemma wait_ok_app h h' w : wait_ok h w -> wait_ok (h ++ h') w.
Proof.
  destruct w as [o []]; unfold wait_ok; cbn; try done; [set_solver| |].
  - intros (? & ? & ?). split_and!; [done|set_solver|by apply normalized_app].
  - intros (? & ? & ?). eauto using normalized_app, encrypted_app.
Qed.

(** A shown profile that a reload would not show has a key in an unusual
    spelling. *)
Definition spelled (p : jsval) : Prop :=
  isProfile p = true \/ exists k, jget p "ncryptsec" = JStr k /\ starts_with "ncryptsec1" k = false.

Section Facts.
Context `{JsonTextLaws}.
Variable init : list jsval.

Record app_inv (h : list entry) (a : App) : Prop := {
  iv_records : Forall plain_record (ph_profiles (ap_profiles a));
  iv_reload : loadProfiles (ap_storage a) = List.filter isProfile (ph_profiles (ap_profiles a));
  iv_waits : Forall (wait_ok h) (ap_waits a);
  iv_vouched : Forall (vouched init h) (ph_profiles (ap_profiles a));
  iv_spelled : Forall spelled (ph_profiles (ap_profiles a))
}.

(** What the invariant reads of the page. *)
Lemma app_inv_same h a a' :
  ap_storage a' = ap_storage a -> ap_profiles a' = ap_profiles a -> ap_waits a' = ap_waits a -> app_inv h a -> app_inv h a'.
Proof. intros Hs Hp Hw []. split; rewrite ?Hs, ?Hp, ?Hw; done. Qed.
Lemma app_inv_app h h' a : app_inv h a -> app_inv (h ++ h') a.
Proof.
  intros [Hr Hl Hw Hv Hs]. split; [done|done|eapply Forall_impl; [exact Hw|]; intros; by apply wait_ok_app| |done].
  eapply Forall_impl; [exact Hv|]. intros; by apply vouched_app.
Qed.
Lemma app_inv_wait h a o f : app_inv h a -> wait_ok h (o, f) -> app_inv h (awaiting o f a).
Proof. intros [] Hw. split; try done. cbn. apply Forall_app. by rewrite Forall_singleton. Qed.
Lemma app_inv_dialog h a d : app_inv h a -> app_inv h (setDialog d a).
Proof. by apply app_inv_same. Qed.
Lemma app_inv_notice h a e m : app_inv h a -> app_inv h (show_notice e m a).
Proof. by apply app_inv_same. Qed.
Lemma app_inv_form h a f : app_inv h a -> app_inv h (set_form f a).
Proof. by apply app_inv_same. Qed.
Lemma app_inv_view h a v : app_inv h a -> app_inv h (setView v a).
Proof. by apply app_inv_same. Qed.

(** A list of profiles that is committed. *)
Lemma app_inv_commit h a l sel :
  app_inv h a -> Forall (fun p => plain_record p /\ vouched init h p /\ spelled p) l ->
  app_inv h (set_profiles (commit l sel) a).
Proof.
  intros [_ _ Hw _ _] Hl. apply Forall_and in Hl as [Hr [Hv Hs]%Forall_and].
  split; try done. by apply commit_loads.
Qed.

(** The profiles an operation starts from. *)
Lemma app_inv_loaded h a : app_inv h a ->
  Forall (fun p => isProfile p = true /\ plain_record p /\ vouched init h p) (loadProfiles (ap_storage a)).
Proof.
  intros [Hr -> _ Hv _]. rewrite !Forall_forall in *. intros p [Hin Hp]%list_elem_of_In%filter_In.
  apply list_elem_of_In in Hin. auto.
Qed.

(** *** The operations of the profiles *)

Lemma vouched_same h p q : same_credential p q -> vouched init h q -> vouched init h p.
Proof.
  intros [Hu Hk] [(r & Hr & Hu' & Hk')|(u & k & n & Hu' & Hk' & Ho)].
  - left. exists r. split; [done|]. split; congruence.
  - right. exists u, k, n. split_and!; [congruence..|done].
Qed.

Lemma spread_npub p npub :
  plain_record p ->
  same_credential (spread p (fields_of {| pf_name := None; pf_url := None; pf_ncryptsec := None; pf_npub := npub |})) p.
Proof.
  intros (l & _ & ->). split; rewrite jget_spread by (by eexists); by rewrite assoc_fields.
Qed.

Lemma inv_remove h a id : app_inv h a -> app_inv h (set_profiles (remove_profile id (ap_storage a)) a).
Proof.
  intros Hi. apply app_inv_commit; [done|]. pose proof (app_inv_loaded h a Hi) as Hl. rewrite Forall_forall in *.
  intros p [Hin _]%list_elem_of_In%filter_In. apply list_elem_of_In in Hin. destruct (Hl p Hin) as (? & ? & ?).
  split_and!; [done..|by left].
Qed.
Lemma inv_select h a id :
  app_inv h a -> app_inv h (set_profiles (select_profile id (ap_storage a) (ap_profiles a)) a).
Proof.
  intros Hi. unfold select_profile. case_match; [|by apply (app_inv_same h a)].
  apply app_inv_commit; [done|]. eapply Forall_impl; [by apply app_inv_loaded|]. intros p (? & ? & ?).
  split_and!; [done..|by left].
Qed.
Lemma inv_update h a id npub :
  app_inv h a ->
  app_inv h (set_profiles (update_profile id {| pf_name := None; pf_url := None; pf_ncryptsec := None; pf_npub := npub |}
                             (ap_storage a)) a).
Proof.
  intros Hi. apply app_inv_commit; [done|]. apply Forall_fmap. eapply Forall_impl; [by apply app_inv_loaded|].
  intros p (Hp & Hr & Hv). cbn -[fields_of]. case_match; [|by split_and!; [..|left]].
  split_and!; [by apply spread_record|by eapply vouched_same; [apply spread_npub|]|left; by apply spread_isProfile].
Qed.
Lemma inv_add h a uuid name url ncryptsec npub :
  app_inv h a -> opened_with h url ncryptsec npub ->
  app_inv h (set_profiles (add_profile uuid {| pf_name := Some name; pf_url := Some url; pf_ncryptsec := Some ncryptsec;
                                               pf_npub := Some npub |} (ap_storage a)) a).
Proof.
  intros Hi Ho. apply app_inv_commit; [done|]. apply Forall_app. split.
  { eapply Forall_impl; [by apply app_inv_loaded|]. intros p (? & ? & ?). split_and!; [done..|by left]. }
  apply Forall_singleton. split_and!; [apply created_record|right|].
  - exists url, ncryptsec, npub. rewrite !jget_created, !assoc_fields. done.
  - unfold spelled, isProfile. rewrite !jget_created, !assoc_fields. cbn.
    destruct (starts_with "ncryptsec1" ncryptsec) eqn:Ek; [by left|right]. by exists ncryptsec.
Qed.
End Facts.
Create HintDb app.
#[export] Hint Resolve app_inv_wait app_inv_dialog app_inv_notice app_inv_form app_inv_view : app.
#[export] Hint Resolve inv_remove inv_select inv_update inv_add : app.

(** ** Every run *)

(** Every key that was opened is in its usual spelling, and ids are not empty.
    The library opens other spellings too: bech32 may be written in capitals. *)
Definition keys_encrypted (h : list entry) : Prop :=
  forall input kind npub, Done (OpUnlock input kind) (RNpub (Some npub)) ∈ h ->
    starts_with "ncryptsec1" (ui_ncryptsec input) = true.
Definition entry_encrypted (e : entry) : bool :=
  match e with
  | Done (OpUnlock input _) (RNpub (Some _)) => starts_with "ncryptsec1" (ui_ncryptsec input)
  | _ => true
  end.
Lemma keys_encrypted_check h : forallb entry_encrypted h = true -> keys_encrypted h.
Proof. rewrite forallb_forall. intros Hh i k n Hin%list_elem_of_In. exact (Hh _ Hin). Qed.
Definition event_ok (e : app_event) : Prop :=
  match e with Act _ _ => True | Answer _ uuid _ => uuid <> "" end.

Section Runs.
Context `{JsonTextLaws}.
Variable init : list jsval.

Lemma act_inv h a busy x :
  app_inv init h a -> app_inv init (h ++ (act busy x a).2) (act busy x a).1.
Proof.
  intros Hi. destruct x; cbn [act]; unfold deleteProfile, unlockSelected.
  5:{ case_match; cbn; [|by rewrite app_nil_r]. destruct (submit _) as [[s|e] f]; cbn.
      - apply app_inv_wait; [by apply app_inv_form, app_inv_app|]. split; [done|set_solver].
      - rewrite app_nil_r. auto with app. }
  all: cbn [fst snd]; rewrite app_nil_r; repeat case_match; auto with app;
    try (apply app_inv_wait; [done|exact I]).
Qed.

Lemma app_inv_drop h a k : app_inv init h a -> app_inv init h (drop_wait k a).
Proof. intros []. split; try done. cbn. by apply Forall_delete. Qed.

(** The step of a flow whose call has been answered. *)
Lemma resume_inv h a uuid o fl r :
  app_inv init h a -> wait_ok h (o, fl) -> Done o r ∈ h -> app_inv init h (app_resume uuid fl r a).
Proof.
  intros Hi Hw Hd. destruct fl as [s|s url|s url ncryptsec generated|id| |id|id|]; unfold wait_ok in Hw; cbn in Hw.
  - destruct Hw as [-> Hs]. destruct r as [| | | |[url| | | | | | | |]|e]; cbn; auto with app.
    assert (normalized_url h url) as Hn by (by eexists).
    destruct s; cbn; apply app_inv_wait; try done. cbn. split_and!; [done|done|]. left. by do 2 eexists.
  - destruct Hw as (Ho & Hs & Hn). destruct r as [| | | |[|g| | | | | | |]|e]; cbn; auto with app.
    apply app_inv_wait; [done|]. cbn. split_and!; [done|done|]. right. by exists s, o, g.
  - destruct Hw as (-> & Hn & He). destruct r as [|[npub|]| | | |e]; cbn; auto with app.
    destruct npub as [|c t] eqn:En; cbn [nonblank]; [done|]. rewrite <- En in *.
    assert (opened_with h url ncryptsec npub) as Hop by (by exists (sub_passphrase s)).
    cbv zeta. destruct generated; auto with app.
  - destruct r as [|npub| | | |]; cbn; auto with app. destruct (nonblank npub); auto with app.
  - destruct r; cbn; auto with app.
  - destruct r; cbn; auto with app.
  - destruct r; cbn; auto with app.
  - destruct r as [| | |invite| |]; cbn; auto with app. destruct (nonblank invite); auto with app.
Qed.

Lemma app_step_inv h a e : app_inv init h a -> app_inv init (h ++ (app_step e a).2) (app_step e a).1.
Proof.
  intros Hi. destruct e as [busy x|k uuid r]; [by apply act_inv|]. cbn [app_step] in *.
  destruct (ap_waits a !! k) as [[o fl]|] eqn:E; cbn [fst snd] in *; [|by rewrite app_nil_r].
  apply (resume_inv _ _ _ o); [by apply app_inv_drop, app_inv_app| |set_solver].
  apply wait_ok_app. destruct Hi as [_ _ Hw _ _]. by eapply Forall_lookup.
Qed.

Lemma app_run_inv evs : forall h a,
  app_inv init h a -> app_inv init (h ++ (app_run evs a).2) (app_run evs a).1.
Proof.
  induction evs as [|e evs IH]; intros h a Hi; cbn [app_run] in *; [by rewrite app_nil_r|].
  pose proof (app_step_inv h a e Hi) as Hs.
  destruct (app_step e a) as [a1 h1]. specialize (IH (h ++ h1) a1 Hs).
  destruct (app_run evs a1) as [a2 h2]. cbn [fst snd] in *. by rewrite <- app_assoc in IH.
Qed.

(** *** With keys in their usual spelling the page is what the store says *)

Definition app_stored (a : App) : Prop := stored_ok (ap_storage a) /\ ap_profiles a = useProfiles (ap_storage a).

Lemma stored_same a a' : ap_storage a' = ap_storage a -> ap_profiles a' = ap_profiles a -> app_stored a -> app_stored a'.
Proof. unfold app_stored. by intros -> ->. Qed.
Lemma stored_profiles a y : stored_ok y.1 /\ useProfiles y.1 = y.2 -> app_stored (set_profiles y a).
Proof. intros [Hs Hu]. by split. Qed.
Lemma stored_remove a id : app_stored a -> app_stored (set_profiles (remove_profile id (ap_storage a)) a).
Proof. intros [Hs _]. by apply stored_profiles, remove_ok. Qed.
Lemma stored_select a id : app_stored a -> app_stored (set_profiles (select_profile id (ap_storage a) (ap_profiles a)) a).
Proof. intros [Hs Hu]. rewrite Hu. by apply stored_profiles, select_ok. Qed.

Lemma act_stored a busy x : app_stored a -> app_stored (act busy x a).1.
Proof.
  intros Hi. destruct x; cbn [act]; unfold deleteProfile, unlockSelected, saveProfile;
    repeat (case_match; cbn [fst]); try done; try (by eapply stored_same; [..|exact Hi]); by apply stored_remove.
Qed.

Lemma resume_stored h a uuid o fl r :
  app_stored a -> wait_ok h (o, fl) -> Done o r ∈ h -> keys_encrypted h -> uuid <> "" ->
  app_stored (app_resume uuid fl r a).
Proof.
  intros Hi Hw Hd Hk Hu. destruct fl as [s|s url|s url ncryptsec generated|id| |id|id|]; unfold wait_ok in Hw; cbn in Hw.
  3:{ destruct Hw as (-> & _). destruct r as [|[npub|]| | | |e]; cbn; try done.
      destruct npub as [|c t] eqn:En; cbn [nonblank]; [done|]. rewrite <- En in *. cbv zeta.
      set (f := {| pf_name := _ |}). assert (app_stored (set_profiles (add_profile uuid f (ap_storage a)) a)) as Ha.
      { apply stored_profiles, add_ok; [by destruct Hi|]. apply Hk in Hd. split_and!; cbn; eauto. }
      destruct generated; exact Ha. }
  all: destruct r as [|npub| | | |]; cbn; repeat case_match; try done;
    try (by eapply stored_same; [..|exact Hi]).
  - destruct Hi as [Hs _]. by apply stored_profiles, update_ok.
  - eapply stored_same; [done..|]. by apply stored_select.
  - by apply stored_remove.
Qed.

Lemma app_run_stored evs : forall h a,
  app_inv init h a -> app_stored a -> Forall event_ok evs -> keys_encrypted (h ++ (app_run evs a).2) ->
  app_stored (app_run evs a).1.
Proof.
  induction evs as [|e evs IH]; intros h a Hi Hst He Hk; cbn [app_run] in *; [done|].
  apply Forall_cons in He as [He Hes]. pose proof (app_step_inv h a e Hi) as Hs.
  assert (keys_encrypted (h ++ (app_step e a).2) -> app_stored (app_step e a).1) as Hst'.
  { intros Hk'. destruct e as [busy x|k uuid r]; [by apply act_stored|]. cbn [app_step] in *.
    destruct (ap_waits a !! k) as [[o fl]|] eqn:E; cbn [fst snd] in *; [|done].
    apply (resume_stored (h ++ [Done o r]) _ _ o); [by eapply stored_same; [..|exact Hst]| |set_solver|exact Hk'|done].
    apply wait_ok_app. destruct Hi as [_ _ Hw _ _]. by eapply Forall_lookup. }
  destruct (app_step e a) as [a1 h1]. specialize (IH (h ++ h1) a1 Hs).
  destruct (app_run evs a1) as [a2 h2]. cbn [fst snd] in *. rewrite <- app_assoc in IH. apply IH; [|done|done].
  apply Hst'. intros i k n Hin. apply (Hk i k n). set_solver.
Qed.

Lemma start_inv ls : init = loadProfiles ls -> stored_ok ls -> app_inv init [] (app_start ls).
Proof.
  intros -> [Hl _]. split; cbn [app_start ap_profiles ap_storage ap_waits useProfiles ph_profiles].
  - eapply Forall_impl; [exact Hl|]. apply plain_profile_record.
  - symmetry. by apply filter_profiles.
  - constructor.
  - apply Forall_forall. intros p Hp. left. by exists p.
  - eapply Forall_impl; [exact Hl|]. intros p [Hp _]. by left.
Qed.
End Runs.

Section Theorems.
Context `{JsonTextLaws}.

(** C39: the page keeps no credential it has not opened. In every run of the
    page from a consistent store, with its handlers interleaved at will, a
    profile on the page is either an old one, with its address and key
    unchanged, or its address was normalized and its key opened by the library,
    the key having been entered encrypted or made by the library from what was
    entered, under the passphrase it was opened with. A reload shows exactly
    those profiles of the page that pass the check for profiles, and one that
    does not pass it has a key that does not begin with ncryptsec1: the library
    opens a key spelled in capitals, the page saves and shows it, and a reload
    loses it (capitals_lost). When every key opened in the run begins with
    ncryptsec1 and the new ids are not empty, the store stays consistent and the
    page shows what a reload would show, its selection included. *)
Theorem profiles_vouched evs ls :
  stored_ok ls ->
  let (a, h) := app_run evs (app_start ls) in
  (forall p, p ∈ ph_profiles (ap_profiles a) -> vouched (loadProfiles ls) h p) /\
  loadProfiles (ap_storage a) = List.filter isProfile (ph_profiles (ap_profiles a)) /\
  (forall p, p ∈ ph_profiles (ap_profiles a) -> isProfile p = false ->
     exists k, jget p "ncryptsec" = JStr k /\ starts_with "ncryptsec1" k = false) /\
  (Forall event_ok evs -> keys_encrypted h ->
     stored_ok (ap_storage a) /\ ap_profiles a = useProfiles (ap_storage a)).
Proof.
  intros Hs. pose proof (start_inv _ ls eq_refl Hs) as Hin.
  pose proof (app_run_inv (loadProfiles ls) evs [] (app_start ls) Hin) as Hi.
  pose proof (app_run_stored (loadProfiles ls) evs [] (app_start ls) Hin (conj Hs eq_refl)) as Hst. cbn [app] in Hi, Hst.
  destruct (app_run evs (app_start ls)) as [a h]. cbn [fst snd] in *. destruct Hi as [_ Hr _ Hv Hsp].
  rewrite Forall_forall in Hv, Hsp. split_and!; [done|done| |exact Hst].
  intros p [Hp|Hk]%Hsp Hn; [congruence|done].
Qed.
End Theorems.

Module PageRuns.
Export ProfileRuns.

Definition new_key : GeneratedKey := {| gk_ncryptsec := "ncryptsec1n"; gk_npub := "n" |}.

(** A key is made, opened and kept; then a second profile is imported while the
    first one's session is still there, and the first is selected again. *)
Definition page_visit : list app_event :=
  [Act None (ActMode ModeCreate);
   Act None (ActEdit "N" "n/" "" "" "passphrase" "passphrase");
   Act None ActSubmit;
   Answer 0 "1" (RValue (VText "h://n"));
   Answer 0 "1" (RValue (VKey new_key));
   Answer 0 "1" (RNpub (Some "n"));
   Act None ActCloseSecret;
   Act None ActOpenProfiles;
   Act None (ActEdit "O" "h://o" " ncryptsec1o " "" "pw" "");
   Act None ActSubmit;
   Answer 0 "2" (RValue (VText "h://o"));
   Answer 0 "2" (RNpub (Some "o"));
   Act None ActOpenProfiles;
   Act None (ActSelect "1");
   Answer 0 "3" RUndefined].

Definition page_final : App * list entry := app_run page_visit (app_start no_storage).

Lemma profiles_vouched_witness :
  map (fun p => jget p "ncryptsec") (ph_profiles (ap_profiles (fst page_final))) = [JStr "ncryptsec1n"; JStr "ncryptsec1o"] /\
  ph_selected (ap_profiles (fst page_final)) = Some "1" /\ ap_dialog (fst page_final) = NoDialog /\
  (forall p, p ∈ ph_profiles (ap_profiles (fst page_final)) -> vouched [] (snd page_final) p) /\
  stored_ok (ap_storage (fst page_final)).
Proof.
  split; [vm_compute; reflexivity|]. split; [vm_compute; reflexivity|]. split; [vm_compute; reflexivity|].
  assert (keys_encrypted (app_run page_visit (app_start no_storage)).2) as Hk
    by (apply keys_encrypted_check; vm_compute; reflexivity).
  assert (Forall event_ok page_visit) as He by (repeat constructor; discriminate).
  assert (stored_ok no_storage) as Hs by (split; [constructor|reflexivity]).
  pose proof (profiles_vouched page_visit no_storage Hs) as Hv. unfold page_final. clear Hs. revert Hk Hv.
  destruct (app_run page_visit (app_start no_storage)) as [a h]. intros Hk (Hv & _ & _ & Hst).
  split; [exact Hv|]. apply (Hst He Hk).
Defined.

(** Passphrases that differ are refused and stay in the form; a key the library
    does not open is not kept, and neither is one whose address it refuses. *)
Example refused_submissions :
  let typed p c := [Act None (ActMode ModeCreate); Act None (ActEdit "N" "x" "" "" p c); Act None ActSubmit] in
  let a1 := fst (app_run (typed "passphrase" "passphrasf") (app_start no_storage)) in
  let a2 := fst (app_run (typed "passphrase" "passphrase" ++
              [Answer 0 "1" (RValue (VText "h://x")); Answer 0 "1" (RValue (VKey new_key)); Answer 0 "1" (RNpub None)])
              (app_start no_storage)) in
  let a3 := fst (app_run (typed "passphrase" "passphrase" ++ [Answer 0 "1" (RRejected "")]) (app_start no_storage)) in
  ap_notice a1 = Some {| no_error := true; no_message := "Passphrase confirmation does not match" |} /\
  ap_waits a1 = [] /\ fm_passphrase (ap_form a1) = "passphrase" /\
  ph_profiles (ap_profiles a2) = [] /\ ap_storage a2 = no_storage /\
  ap_notice a3 = Some {| no_error := true; no_message := "The operation could not be completed" |} /\
  fm_passphrase (ap_form a3) = "".
Proof. vm_compute. auto 10. Qed.

(** The page opens the dialog of an invite whenever it arrives, also when the
    page has been locked in the meantime. *)
Example late_invite_shown :
  ap_dialog (fst (app_run [Act None ActInvite; Act (Some BusyInvite) ActLock; Answer 1 "" RUndefined;
                           Answer 0 "" (RInvite (Some "secret"))] (app_start no_storage))) =
    SecretDialog SecretInvite "secret" None.
Proof. vm_compute. reflexivity. Qed.

(** An encrypted key in capitals is opened by the library and kept, but a reload
    does not show it. *)
Example capitals_lost :
  let a := fst (app_run
    [Act None (ActEdit "C" "x" "NCRYPTSEC1O" "" "pw" ""); Act None ActSubmit;
     Answer 0 "1" (RValue (VText "h://x")); Answer 0 "1" (RNpub (Some "o"))] (app_start no_storage)) in
  length (ph_profiles (ap_profiles a)) = 1%nat /\ ph_profiles (useProfiles (ap_storage a)) = [].
Proof. vm_compute. auto. Qed.
End PageRuns.
