(* ===== verification/Landing.v ===== *)
(** * The upload page (storage-client/blossom/src/landing/client)

    The queues of the landing page: UploadForm.tsx and MirrorForm.tsx with
    helpers.ts, api.ts, auth.ts. Rendering is left out; a component's state is
    its queue, changed by [patchFile] alone. The node and the signing extension
    are the class [Site], any state and any answers. Uploads the page runs side
    by side are taken one after the other: each changes its own entry only. *)

From Stdlib Require Import QArith Ascii.
From S2P Require Import Prelude Js.
#[local] Open Scope Z_scope.

(** ** types.ts *)

Inductive FileStatus :=
| FPending | FHashing | FChecking | FSigning | FUploading | FDone | FExists | FSkipped | FRetrying | FError.
#[export] Instance FileStatus_eq_dec : EqDecision FileStatus.
Proof. solve_decision. Defined.

Record BlobDescriptor := { ds_sha256 : string; ds_size : Z; ds_type : string; ds_url : string }.

(** A picked file; reading it may fail. *)
Record PickedFile := { pf_type : string; pf_size : Z; pf_bytes : exc string string }.

Record UploadFile := {
  uf_id : string;
  uf_file : PickedFile;
  uf_status : FileStatus;
  uf_progress : num;
  uf_result : option BlobDescriptor;
  uf_error : option string;
  uf_optimize : bool
}.

(** ** helpers.ts *)

Definition isMediaFile (f : PickedFile) : bool := starts_with "image/" (pf_type f) || starts_with "video/" (pf_type f).

Definition STATUS_MESSAGES (status : Z) : option string :=
  if status =? 401 then Some "Authorization required — connect a Nostr signing extension"
  else if status =? 402 then Some "Payment required"
  else if status =? 409 then Some "Hash mismatch — the file changed during upload"
  else if status =? 413 then Some "File too large for this server"
  else if status =? 415 then Some "This file type is not accepted by the server"
  else if status =? 422 then Some "Media could not be processed (corrupt or unsupported codec)"
  else if status =? 429 then Some "Rate limited — retrying automatically…"
  else if status =? 502 then Some "Could not fetch the blob from the source URL"
  else if status =? 503 then Some "Server temporarily unavailable"
  else None.

Definition nonempty (o : option string) : option string :=
  match o with Some s => if String.eqb s "" then None else Some s | None => None end.

Definition friendlyErrorMessage (status : Z) (xReason : option string) : string :=
  match STATUS_MESSAGES status, nonempty xReason with
  | Some base, Some reason => base +:+ " — " +:+ reason
  | Some base, None => base
  | None, reason => "Error (" +:+ Z_to_string status +:+ "): " +:+ default "Unknown error" reason
  end.

(** The maximal runs of word characters. *)
Fixpoint words (s cur : string) : list string :=
  match s with
  | "" => [cur]
  | String c s => if is_word c then words s (cur +:+ String c "") else cur :: words s ""
  end.

Definition add_hash (acc : list string) (h : string) : list string :=
  if bool_decide (h ∈ acc) then acc else acc ++ [h].

(** Every 64-digit word of the text, lower case, once, in order: between word
    boundaries a match is a whole run of word characters. *)
Definition findAllHashes (text : string) : list string :=
  fold_left (fun acc w => if is_hex64_i w then add_hash acc (toLowerCase w) else acc) (words text "") [].

Record BlossomRef := { ref_display : string; ref_mirror : string; ref_sha256 : string; ref_allHashes : list string }.

Definition upto_char (p : ascii -> bool) (s : string) : string := fst (span (fun c => negb (p c)) s).
Definition from_char (p : ascii -> bool) (s : string) : string := snd (span (fun c => negb (p c)) s).
Definition is_dot (c : ascii) : bool := Ascii.eqb c ".".
Definition is_qmark (c : ascii) : bool := Ascii.eqb c "?".
Definition is_hash_sign (c : ascii) : bool := Ascii.eqb c "#".

(** What the page uses of the browser's URL classes. *)
Class UrlLib := {
  (** [new URL(s)]: scheme with its colon, path *)
  parseUrl : string -> option (string * string);
  (** [new URLSearchParams(query).get(name)] *)
  searchParam : string -> string -> option string
}.

Section Refs.
Context `{UrlLib}.

(** [blossom:] and what follows it. *)
Definition blossom_ref (trimmed : string) : option BlossomRef :=
  let rest := String.substring 8 (String.length trimmed) trimmed in
  match filter (fun w => is_hex64_i w = true) (words (upto_char (fun c => is_dot c || is_qmark c) rest) "") with
  | [] => None
  | hash :: _ =>
      let sha256 := toLowerCase hash in
      let extAndQuery := from_char is_dot rest in
      let ext := upto_char is_qmark extAndQuery in
      let query := match from_char is_qmark extAndQuery with String _ q => q | "" => "" end in
      let mirrorUrl :=
        match nonempty (searchParam query "xs") with
        | Some xs =>
            let base := if starts_with "http://" (toLowerCase xs) || starts_with "https://" (toLowerCase xs) then xs
                        else "https://" +:+ xs in
            strip_slash base +:+ "/" +:+ sha256 +:+ ext
        | None => trimmed
        end in
      Some {| ref_display := trimmed; ref_mirror := mirrorUrl; ref_sha256 := sha256; ref_allHashes := [sha256] |}
  end.

Definition parseBlossomRef (raw : string) : option BlossomRef :=
  let trimmed := trim raw in
  if String.eqb trimmed "" then None
  else if starts_with "blossom:" (toLowerCase trimmed) then blossom_ref trimmed
  else match parseUrl trimmed with
  | Some (protocol, pathname) =>
      if String.eqb protocol "http:" || String.eqb protocol "https:" then
        match last (findAllHashes pathname) with
        | Some sha256 => Some {| ref_display := trimmed; ref_mirror := trimmed; ref_sha256 := sha256;
                                 ref_allHashes := findAllHashes pathname |}
        | None => None
        end
      else None
  | None =>
      let bare := upto_char (fun c => is_qmark c || is_hash_sign c) trimmed in
      if is_hex64_i bare then
        Some {| ref_display := trimmed; ref_mirror := trimmed; ref_sha256 := toLowerCase bare;
                ref_allHashes := [toLowerCase bare] |}
      else None
  end.
End Refs.

(** ** The node and the extension *)

(** A response of XMLHttpRequest or fetch: the descriptor when the body parses,
    and the two headers the page reads; or no response. *)
Inductive put_reply :=
| PutReply (status : Z) (body : option BlobDescriptor) (xReason retryAfter : option string) (progress : list (Z * Z))
| PutFailed.

Record AuthTemplate := { au_verb : string; au_hashes : list string; au_content : string; au_created : Z; au_expiration : Z }.

Inductive endpoint := EpUpload | EpMedia.
#[export] Instance endpoint_eq_dec : EqDecision endpoint.
Proof. solve_decision. Defined.

Class Site := {
  site : Type;
  digest : string -> string;
  origin : string;
  (** seconds *)
  site_now : site -> Z;
  (** HEAD /<sha256>: whether the status is 2xx *)
  headBlob : string -> site -> exc string bool * site;
  (** HEAD /upload or /media: status and reason *)
  headPreflight : endpoint -> string -> string -> Z -> option string -> site -> exc string (Z * option string) * site;
  putFile : endpoint -> PickedFile -> string -> option string -> site -> put_reply * site;
  putMirrorUrl : string -> option string -> site -> put_reply * site;
  (** the extension signs the event; the page encodes it as a header *)
  signAuth : AuthTemplate -> site -> exc string string * site;
  (** whether an extension is there *)
  hasNostr : site -> bool;
  sleep : Z -> site -> site
}.

(** An error of a request: with a status, or any other. *)
Inductive put_error := HttpError (status : Z) (message : string) (retryAfter : option Z) | OtherError (message : string).
Definition put_message (e : put_error) : string := match e with HttpError _ m _ => m | OtherError m => m end.

(** ** api.ts *)

Definition parseRetryAfter (value : option string) : option Z :=
  match nonempty value with
  | None => None
  | Some v => match parseInt10 v with Some n => if 0 <? n then Some n else None | None => None end
  end.

(** A reply as a result or an error: [xhrUpload]. *)
Definition xhr_result (r : put_reply) : exc put_error (BlobDescriptor * Z) :=
  match r with
  | PutFailed => Throw (OtherError "Network error")
  | PutReply status body xReason retryAfter _ =>
      if (200 <=? status) && (status <? 300) then
        match body with Some d => Ok (d, status) | None => Throw (OtherError "Invalid server response") end
      else Throw (HttpError status (friendlyErrorMessage status xReason) (parseRetryAfter retryAfter))
  end.

(** [mirrorPut], with fetch: its own texts for a lost connection and a body
    that does not parse are the browser's. *)
Definition fetch_result (r : put_reply) : exc put_error (BlobDescriptor * Z) :=
  match r with
  | PutFailed => Throw (OtherError "Failed to fetch")
  | PutReply status body xReason retryAfter _ =>
      if (200 <=? status) && (status <? 300) then
        match body with Some d => Ok (d, status) | None => Throw (OtherError "Unexpected token") end
      else Throw (HttpError status (friendlyErrorMessage status xReason) (parseRetryAfter retryAfter))
  end.

(** [Math.round((loaded / total) * 100)] *)
Definition percent_loaded (e : Z * Z) : num :=
  if snd e =? 0 then NaN else num_Z ((200 * fst e + snd e) / (2 * snd e)).

(** ** Retrying *)

Definition MAX_RETRIES : nat := 3.
Definition RETRY_BASE_MS : Z := 2000.
Definition isRetryable (status : Z) : bool := (status =? 429) || (status =? 503).
Definition retryDelay (attempt : nat) (retryAfter : option Z) : Z :=
  match retryAfter with Some s => s * 1000 | None => RETRY_BASE_MS * 2 ^ Z.of_nat attempt end.

Definition retry_after (attempt : nat) (e : put_error) : option Z :=
  match e with
  | HttpError status _ ra =>
      if isRetryable status && (attempt <? MAX_RETRIES)%nat then Some (retryDelay attempt ra) else None
  | OtherError _ => None
  end.

(** ** UploadForm.tsx *)

Section Upload.
Context `{Site}.

(** The page: the queue, the site it talks to, and for each PUT of a file the
    endpoint, the file and the header it carried. *)
Record UploadPage := { pg_queue : list UploadFile; pg_site : site; pg_puts : list (endpoint * UploadFile * option string) }.

Definition UP (A : Type) : Type := UploadPage -> exc string A * UploadPage.
Definition upret {A} (a : A) : UP A := fun p => (Ok a, p).
Definition upbind {A B} (m : UP A) (k : A -> UP B) : UP B := fun p =>
  match m p with (Ok a, p') => k a p' | (Throw e, p') => (Throw e, p') end.
Local Notation "'do*' x := m 'in' k" := (upbind m (fun x => k))
  (at level 10, x pattern, m at level 100, k at level 200).

Definition on_site {A} (f : site -> A * site) : UP A := fun p =>
  let (a, s) := f (pg_site p) in (Ok a, {| pg_queue := pg_queue p; pg_site := s; pg_puts := pg_puts p |}).

(** [setQueue(prev => ...)] *)
Definition setQueue (f : list UploadFile -> list UploadFile) : UP unit := fun p =>
  (Ok tt, {| pg_queue := f (pg_queue p); pg_site := pg_site p; pg_puts := pg_puts p |}).

Definition patchFile (id : string) (patch : UploadFile -> UploadFile) : UP unit :=
  setQueue (map (fun f => if String.eqb (uf_id f) id then patch f else f)).

Definition with_status (st : FileStatus) (f : UploadFile) : UploadFile :=
  {| uf_id := uf_id f; uf_file := uf_file f; uf_status := st; uf_progress := uf_progress f;
     uf_result := uf_result f; uf_error := uf_error f; uf_optimize := uf_optimize f |}.
Definition with_progress (n : num) (f : UploadFile) : UploadFile :=
  {| uf_id := uf_id f; uf_file := uf_file f; uf_status := uf_status f; uf_progress := n;
     uf_result := uf_result f; uf_error := uf_error f; uf_optimize := uf_optimize f |}.
Definition with_result (r : BlobDescriptor) (f : UploadFile) : UploadFile :=
  {| uf_id := uf_id f; uf_file := uf_file f; uf_status := uf_status f; uf_progress := uf_progress f;
     uf_result := Some r; uf_error := uf_error f; uf_optimize := uf_optimize f |}.
Definition with_error (e : string) (f : UploadFile) : UploadFile :=
  {| uf_id := uf_id f; uf_file := uf_file f; uf_status := uf_status f; uf_progress := uf_progress f;
     uf_result := uf_result f; uf_error := Some e; uf_optimize := uf_optimize f |}.
Definition with_optimize (o : bool) (f : UploadFile) : UploadFile :=
  {| uf_id := uf_id f; uf_file := uf_file f; uf_status := uf_status f; uf_progress := uf_progress f;
     uf_result := uf_result f; uf_error := uf_error f; uf_optimize := o |}.

(** [ids] are what createClientId gave, one for each file. *)
Definition addFiles (globalOptimize mediaEnabled : bool) (files : list (string * PickedFile)) : UP unit :=
  setQueue (fun prev => prev ++ map (fun '(id, file) =>
    {| uf_id := id; uf_file := file; uf_status := FPending; uf_progress := num_Z 0; uf_result := None; uf_error := None;
       uf_optimize := globalOptimize && mediaEnabled && isMediaFile file |}) files).

(** The effect of the toggle. *)
Definition setOptimize (globalOptimize mediaEnabled : bool) : UP unit :=
  setQueue (map (fun f => if decide (uf_status f = FPending)
    then with_optimize (globalOptimize && mediaEnabled && isMediaFile (uf_file f)) f else f)).

Definition removeFile (id : string) : UP unit := setQueue (List.filter (fun f => negb (String.eqb (uf_id f) id))).

Definition is_terminal (st : FileStatus) : bool :=
  match st with FDone | FExists | FSkipped | FError => true | _ => false end.
Definition is_working (st : FileStatus) : bool :=
  match st with FHashing | FChecking | FSigning | FUploading | FRetrying => true | _ => false end.

Definition clearDone : UP unit := setQueue (List.filter (fun f => negb (is_terminal (uf_status f)))).

Definition file_mime (f : PickedFile) : string :=
  if String.eqb (pf_type f) "" then "application/octet-stream" else pf_type f.
Definition endpoint_of (uf : UploadFile) : endpoint := if uf_optimize uf then EpMedia else EpUpload.

(** [checkOne]: whether to go on with the upload. *)
Definition checkOne (uf : UploadFile) (sha256 : string) (authHeader : option string) : UP bool :=
  do* _ := patchFile (uf_id uf) (with_status FChecking) in
  do* present := (if uf_optimize uf then upret false else
    do* r := on_site (headBlob sha256) in upret (match r with Ok b => b | Throw _ => false end)) in
  if present : bool then
    do* _ := patchFile (uf_id uf) (fun f => with_result
      {| ds_sha256 := sha256; ds_size := pf_size (uf_file uf); ds_type := file_mime (uf_file uf);
         ds_url := origin +:+ "/" +:+ sha256 |} (with_status FExists f)) in
    upret false
  else
    do* r := on_site (headPreflight (endpoint_of uf) sha256 (file_mime (uf_file uf)) (pf_size (uf_file uf)) authHeader) in
    match r with
    | Ok (status, reason) =>
        if status =? 200 then upret true
        else
          do* _ := patchFile (uf_id uf) (fun f => with_error (friendlyErrorMessage status reason) (with_status FSkipped f)) in
          upret false
    | Throw _ => upret true
    end.

(** The request of [xhrUpload], with its progress events. *)
Definition send_put (uf : UploadFile) (authHeader : option string) : UP (exc put_error (BlobDescriptor * Z)) :=
  do* _ := (fun p => (Ok tt, {| pg_queue := pg_queue p; pg_site := pg_site p;
                                pg_puts := pg_puts p ++ [(endpoint_of uf, uf, authHeader)] |})) in
  do* r := on_site (putFile (endpoint_of uf) (uf_file uf) (file_mime (uf_file uf)) authHeader) in
  do* _ := match r with
           | PutReply _ _ _ _ progress =>
               setQueue (map (fun f => if String.eqb (uf_id f) (uf_id uf)
                 then fold_left (fun f e => with_progress (percent_loaded e) f) progress f else f))
           | PutFailed => upret tt
           end in
  upret (xhr_result r).

(** [uploadOne] from [attempt] on; [n] attempts are left. *)
Fixpoint upload_from (n attempt : nat) (uf : UploadFile) (authHeader : option string) : UP unit :=
  match n with
  | O => upret tt
  | S n =>
      do* _ := patchFile (uf_id uf) (fun f => with_progress (num_Z 0)
                 (with_status (if (0 <? attempt)%nat then FRetrying else FUploading) f)) in
      do* r := send_put uf authHeader in
      match r with
      | Ok (descriptor, status) =>
          patchFile (uf_id uf) (fun f => with_result descriptor (with_progress (num_Z 100)
            (with_status (if status =? 200 then FExists else FDone) f)))
      | Throw e =>
          match retry_after attempt e with
          | Some delay =>
              do* _ := patchFile (uf_id uf) (with_status FRetrying) in
              do* _ := on_site (fun s => (tt, sleep delay s)) in
              upload_from n (S attempt) uf authHeader
          | None => patchFile (uf_id uf) (fun f => with_error (put_message e) (with_status FError f))
          end
      end
  end.
Definition uploadOne (uf : UploadFile) (authHeader : option string) : UP unit :=
  upload_from (S MAX_RETRIES) 0 uf authHeader.

Fixpoint p_each {A} (f : A -> UP unit) (l : list A) : UP unit :=
  match l with [] => upret tt | x :: l => do* _ := f x in p_each f l end.

(** [hashBatch]: the hash of every file; a file that cannot be read throws. *)
Fixpoint hashBatch (files : list UploadFile) : UP (list (UploadFile * string)) :=
  match files with
  | [] => upret []
  | uf :: files =>
      do* _ := patchFile (uf_id uf) (with_status FHashing) in
      do* h := (fun p => match pf_bytes (uf_file uf) with Ok b => (Ok (digest b), p) | Throw e => (Throw e, p) end) in
      do* rest := hashBatch files in
      upret ((uf, h) :: rest)
  end.

(** Preflight of every file, then the uploads of those that passed. *)
Fixpoint preflight (files : list (UploadFile * string)) (authHeader : option string) : UP (list UploadFile) :=
  match files with
  | [] => upret []
  | (uf, h) :: files =>
      do* proceed := checkOne uf h authHeader in
      do* rest := preflight files authHeader in
      upret (if proceed : bool then uf :: rest else rest)
  end.

Definition upload_batch (files : list (UploadFile * string)) (authHeader : option string) : UP unit :=
  do* toUpload := preflight files authHeader in
  p_each (fun uf => uploadOne uf authHeader) toUpload.

Definition MAX_X_TAGS_PER_EVENT : nat := 60.

Definition signBatch (hashes : list string) (verb content : string) : UP (exc string string) :=
  on_site (fun s => signAuth {| au_verb := verb; au_hashes := hashes; au_content := content;
                                au_created := site_now s; au_expiration := site_now s + 300 |} s).

(** One signed batch: a refused signature marks its files. *)
Definition signed_batch (verb content : string) (batch : list (UploadFile * string)) : UP unit :=
  do* _ := p_each (fun x => patchFile (uf_id (fst x)) (with_status FSigning)) batch in
  do* r := signBatch (map snd batch) verb content in
  match r with
  | Throw msg => p_each (fun x => patchFile (uf_id (fst x)) (fun f => with_error msg (with_status FError f))) batch
  | Ok authHeader => upload_batch batch (Some authHeader)
  end.

(** [for (let i = 0; i < l.length; i += n)] over the slices. *)
Fixpoint slices {A} (fuel n : nat) (l : list A) : list (list A) :=
  match fuel, l with
  | S fuel, _ :: _ => take n l :: slices fuel n (drop n l)
  | _, _ => []
  end.

Definition signed_group (files : list UploadFile) (verb content : string) : UP unit :=
  match files with
  | [] => upret tt
  | _ =>
      do* hashed := hashBatch files in
      p_each (signed_batch verb content) (slices (length hashed) MAX_X_TAGS_PER_EVENT hashed)
  end.

Definition NO_EXTENSION : string := "No Nostr extension detected. Install Alby or nos2x.".

Definition runQueue (requireAuth mediaRequireAuth : bool) : UP unit := fun p =>
  let pending := List.filter (fun f => bool_decide (uf_status f = FPending)) (pg_queue p) in
  match pending with
  | [] => (Ok tt, p)
  | _ =>
      if existsb (fun f => if uf_optimize f then mediaRequireAuth else requireAuth) pending then
        if hasNostr (pg_site p) then
          (do* _ := signed_group (List.filter (fun f => negb (uf_optimize f)) pending) "upload" "Upload files" in
           signed_group (List.filter uf_optimize pending) "media" "Optimize and upload media") p
        else p_each (fun uf => patchFile (uf_id uf) (fun f => with_error NO_EXTENSION (with_status FError f))) pending p
      else
        (do* hashed := hashBatch pending in upload_batch hashed None) p
  end.

(** ** What the page shows *)

Definition isWorking (p : UploadPage) : bool := existsb (fun f => is_working (uf_status f)) (pg_queue p).
Definition hasPending (p : UploadPage) : bool := existsb (fun f => bool_decide (uf_status f = FPending)) (pg_queue p).
Definition canUpload (p : UploadPage) : bool := hasPending p && negb (isWorking p).
Definition allDone (p : UploadPage) : bool :=
  negb (bool_decide (pg_queue p = [])) && forallb (fun f => is_terminal (uf_status f)) (pg_queue p).
Definition successUrls (p : UploadPage) : list string :=
  omap (fun f => match uf_status f, uf_result f with FDone, Some r | FExists, Some r => Some (ds_url r) | _, _ => None end)
    (pg_queue p).
End Upload.

(** ** MirrorForm.tsx *)

Inductive MirrorStatus := MPending | MSigning | MMirroring | MDone | MExists | MRetrying | MError.
#[export] Instance MirrorStatus_eq_dec : EqDecision MirrorStatus.
Proof. solve_decision. Defined.

Record MirrorItem := {
  mi_id : string;
  mi_displayUrl : string;
  mi_mirrorUrl : string;
  mi_sha256 : string;
  mi_allHashes : list string;
  mi_status : MirrorStatus;
  mi_result : option BlobDescriptor;
  mi_error : option string
}.

Section Mirror.
Context `{UrlLib} `{Site}.

(** The lines of the text area: runs of newlines and commas separate. *)
Fixpoint split_lines (s cur : string) : list string :=
  match s with
  | "" => [cur]
  | String c s => if Ascii.eqb c "010" || Ascii.eqb c "," then cur :: split_lines s "" else split_lines s (cur +:+ String c "")
  end.

(** [handleNext]: the references of the text, each hash once; [ids] are what
    createClientId gives. *)
Fixpoint parse_lines (lines : list string) (ids : nat -> string) (seen : list string) (n : nat) : list MirrorItem :=
  match lines with
  | [] => []
  | line :: lines =>
      match parseBlossomRef line with
      | None => parse_lines lines ids seen n
      | Some ref =>
          if bool_decide (ref_sha256 ref ∈ seen) then parse_lines lines ids seen n
          else {| mi_id := ids n; mi_displayUrl := ref_display ref; mi_mirrorUrl := ref_mirror ref;
                  mi_sha256 := ref_sha256 ref; mi_allHashes := ref_allHashes ref; mi_status := MPending;
                  mi_result := None; mi_error := None |} :: parse_lines lines ids (ref_sha256 ref :: seen) (S n)
      end
  end.

Record MirrorPage := { mp_items : list MirrorItem; mp_site : site; mp_list : bool; mp_parseError : option string }.

Definition PARSE_ERROR : string :=
  "No valid Blossom URLs or blossom:// URIs found. Each must contain a 64-character hex hash.".

Definition handleNext (inputText : string) (ids : nat -> string) (p : MirrorPage) : MirrorPage :=
  match parse_lines (split_lines inputText "") ids [] 0 with
  | [] => {| mp_items := mp_items p; mp_site := mp_site p; mp_list := mp_list p; mp_parseError := Some PARSE_ERROR |}
  | parsed => {| mp_items := parsed; mp_site := mp_site p; mp_list := true; mp_parseError := None |}
  end.

Definition handleBack (p : MirrorPage) : MirrorPage :=
  {| mp_items := []; mp_site := mp_site p; mp_list := false; mp_parseError := mp_parseError p |}.

Definition set_items (f : list MirrorItem -> list MirrorItem) (p : MirrorPage) : MirrorPage :=
  {| mp_items := f (mp_items p); mp_site := mp_site p; mp_list := mp_list p; mp_parseError := mp_parseError p |}.
Definition set_site (s : site) (p : MirrorPage) : MirrorPage :=
  {| mp_items := mp_items p; mp_site := s; mp_list := mp_list p; mp_parseError := mp_parseError p |}.

(** A patch sets the status, and a result or an error when there is one. *)
Definition patched (st : MirrorStatus) (result : option BlobDescriptor) (error : option string) (it : MirrorItem) : MirrorItem :=
  {| mi_id := mi_id it; mi_displayUrl := mi_displayUrl it; mi_mirrorUrl := mi_mirrorUrl it; mi_sha256 := mi_sha256 it;
     mi_allHashes := mi_allHashes it; mi_status := st;
     mi_result := match result with Some r => Some r | None => mi_result it end;
     mi_error := match error with Some e => Some e | None => mi_error it end |}.
Definition patchItem (id : string) (st : MirrorStatus) (result : option BlobDescriptor) (error : option string) : MirrorPage -> MirrorPage :=
  set_items (map (fun it => if String.eqb (mi_id it) id then patched st result error it else it)).

Definition removeItem (id : string) : MirrorPage -> MirrorPage :=
  set_items (List.filter (fun it => negb (String.eqb (mi_id it) id))).
Definition mirror_terminal (st : MirrorStatus) : bool := match st with MDone | MExists | MError => true | _ => false end.
Definition clearMirrored : MirrorPage -> MirrorPage :=
  set_items (List.filter (fun it => negb (mirror_terminal (mi_status it)))).

Fixpoint mirror_from (n attempt : nat) (item : MirrorItem) (authHeader : option string) (p : MirrorPage) : MirrorPage :=
  match n with
  | O => p
  | S n =>
      let p := patchItem (mi_id item) (if (0 <? attempt)%nat then MRetrying else MMirroring) None None p in
      let (r, s) := putMirrorUrl (mi_mirrorUrl item) authHeader (mp_site p) in
      let p := set_site s p in
      match fetch_result r with
      | Ok (descriptor, status) =>
          patchItem (mi_id item) (if status =? 200 then MExists else MDone) (Some descriptor) None p
      | Throw e =>
          match retry_after attempt e with
          | Some delay =>
              let p := patchItem (mi_id item) MRetrying None None p in
              mirror_from n (S attempt) item authHeader (set_site (sleep delay (mp_site p)) p)
          | None => patchItem (mi_id item) MError None (Some (put_message e)) p
          end
      end
  end.
Definition mirrorOne (item : MirrorItem) (authHeader : option string) : MirrorPage -> MirrorPage :=
  mirror_from (S MAX_RETRIES) 0 item authHeader.

Definition mirror_all (items : list MirrorItem) (authHeader : option string) (p : MirrorPage) : MirrorPage :=
  fold_left (fun p it => mirrorOne it authHeader p) items p.
Definition patch_all (items : list MirrorItem) (st : MirrorStatus) (error : option string) (p : MirrorPage) : MirrorPage :=
  fold_left (fun p it => patchItem (mi_id it) st None error p) items p.

(** [[...new Set(batch.flatMap((it) => it.allHashes))]] *)
Definition batch_hashes (batch : list MirrorItem) : list string := fold_left add_hash (batch ≫= mi_allHashes) [].

Definition mirror_batch (p : MirrorPage) (batch : list MirrorItem) : MirrorPage :=
  let p := patch_all batch MSigning None p in
  let s := mp_site p in
  let (r, s') := signAuth {| au_verb := "upload"; au_hashes := batch_hashes batch; au_content := "Mirror blobs";
                             au_created := site_now s; au_expiration := site_now s + 300 |} s in
  let p := set_site s' p in
  match r with
  | Throw msg => patch_all batch MError (Some msg) p
  | Ok authHeader => mirror_all batch (Some authHeader) p
  end.

Definition runMirror (requireAuth : bool) (p : MirrorPage) : MirrorPage :=
  let pending := List.filter (fun it => bool_decide (mi_status it = MPending)) (mp_items p) in
  if negb requireAuth then mirror_all pending None p
  else if negb (hasNostr (mp_site p)) then patch_all pending MError (Some NO_EXTENSION) p
  else fold_left mirror_batch (slices (length pending) MAX_X_TAGS_PER_EVENT pending) p.
End Mirror.
