(* ===== verification/LandingFacts.v ===== *)
(** * What the upload page guarantees

    Every file the user sends ends in a final state whatever the node and the
    extension answer, and every request that needs a token carries one that
    names the file. *)

From Stdlib Require Import QArith Ascii.
From S2P Require Import Prelude Js Landing.
#[local] Open Scope Z_scope.

Section Facts.
Context `{Site}.

(** ** Which entries a step changes, and which it finishes *)

(** A step that returns some [a], keeps the entries' ids, changes entries of
    [S] only, and leaves those in a final state when [Q a]. *)
Definition finishing {A} (S : list string) (Q : A -> Prop) (m : UP A) : Prop := forall p, exists a p',
  m p = (Ok a, p') /\ map uf_id (pg_queue p') = map uf_id (pg_queue p) /\
  forall f, f ∈ pg_queue p' ->
    if decide (uf_id f ∈ S) then Q a -> is_terminal (uf_status f) = true else f ∈ pg_queue p.

Definition harmless {A} (S : list string) (m : UP A) : Prop := finishing S (fun _ => False) m.
Definition settling (S : list string) (m : UP unit) : Prop := finishing S (fun _ => True) m.

Lemma finishing_weaken {A} S (Q R : A -> Prop) m : (forall a, R a -> Q a) -> finishing S Q m -> finishing S R m.
Proof.
  intros Hq Hm p. destruct (Hm p) as (a & p' & E & I & F). exists a, p'. split_and!; [done..|].
  intros f Hin. specialize (F f Hin). destruct (decide (uf_id f ∈ S)); auto.
Qed.

Lemma finishing_bind {A B} S (Q : B -> Prop) (m : UP A) (k : A -> UP B) :
  harmless S m -> (forall a, finishing S Q (k a)) -> finishing S Q (upbind m k).
Proof.
  intros Hm Hk p. destruct (Hm p) as (a & p1 & E1 & I1 & F1). destruct (Hk a p1) as (b & p2 & E2 & I2 & F2).
  exists b, p2. unfold upbind. rewrite E1. split_and!; [done|congruence|]. intros f Hin. specialize (F2 f Hin).
  destruct (decide (uf_id f ∈ S)) as [Hs|Hs]; [done|]. specialize (F1 f F2). by rewrite decide_False in F1.
Qed.

(** Two steps in a row; the second may be about other entries. *)
Lemma finishing_seq {A B} S T (Q : A -> Prop) (R : B -> Prop) (U : B -> Prop) (m : UP A) (k : A -> UP B) :
  finishing S Q m -> (forall a, finishing T R (k a)) ->
  (forall p a p' b p2, m p = (Ok a, p') -> k a p' = (Ok b, p2) -> U b -> Q a /\ R b) ->
  finishing (S ++ T) U (upbind m k).
Proof.
  intros Hm Hk Hu p. destruct (Hm p) as (a & p1 & E1 & I1 & F1). destruct (Hk a p1) as (b & p2 & E2 & I2 & F2).
  exists b, p2. specialize (Hu _ _ _ _ _ E1 E2). unfold upbind. rewrite E1. split_and!; [done|congruence|].
  intros f Hin. specialize (F2 f Hin). destruct (decide (uf_id f ∈ T)) as [Ht|Ht].
  - rewrite decide_True by (apply elem_of_app; auto). intros [_ Hr]%Hu. auto.
  - specialize (F1 f F2). destruct (decide (uf_id f ∈ S)) as [Hs|Hs].
    + rewrite decide_True by (apply elem_of_app; auto). intros [Hq _]%Hu. auto.
    + rewrite decide_False; [done|]. rewrite elem_of_app. tauto.
Qed.

Lemma settling_seq S T m k : settling S m -> settling T k -> settling (S ++ T) (upbind m (fun _ => k)).
Proof. intros Hm Hk. by eapply finishing_seq. Qed.

Lemma harmless_ret {A} S (a : A) : harmless S (upret a).
Proof. intros p. exists a, p. split_and!; [done..|]. intros f Hin. by destruct (decide _). Qed.

Lemma finishing_ret {A} S (Q : A -> Prop) a : (Q a -> False) -> finishing S Q (upret a).
Proof. intros Hn p. exists a, p. split_and!; [done..|]. intros f Hin. destruct (decide _); [intros []%Hn|done]. Qed.

Lemma harmless_site {A} S (f : site -> A * site) : harmless S (on_site f).
Proof.
  intros p. unfold on_site. destruct (f (pg_site p)) as [a s]. eexists a, _. split_and!; [reflexivity|done|].
  intros g Hin. by destruct (decide _).
Qed.

Lemma settling_ret {A} S (Q : A -> Prop) m a : settling S m -> finishing S Q (upbind m (fun _ => upret a)).
Proof.
  intros Hm p. destruct (Hm p) as (x & p1 & E1 & I1 & F1). exists a, p1. unfold upbind. rewrite E1.
  split_and!; [done..|]. intros f Hin. specialize (F1 f Hin). destruct (decide _); auto.
Qed.

Lemma settling_harmless S m : settling S m -> harmless S m.
Proof. by apply finishing_weaken. Qed.

Lemma settling_each {A} (ids : A -> list string) (f : A -> UP unit) l :
  (forall x, x ∈ l -> settling (ids x) (f x)) -> settling (l ≫= ids) (p_each f l).
Proof.
  induction l as [|x l IH]; intros Hf; [|cbn; apply settling_seq; [apply Hf; left|apply IH; intros; apply Hf; by right]].
  intros p. exists tt, p. split_and!; [done..|]. intros g Hin. rewrite decide_False; [done|]. apply not_elem_of_nil.
Qed.

Lemma harmless_mono {A} S T (m : UP A) : (forall x, x ∈ S -> x ∈ T) -> harmless S m -> harmless T m.
Proof.
  intros Hs Hm p. destruct (Hm p) as (a & p' & E & I & F). exists a, p'. split_and!; [done..|].
  intros f Hin. specialize (F f Hin). destruct (decide (uf_id f ∈ T)); [done|]. rewrite decide_False in F; auto.
Qed.

Lemma harmless_each {A} S (f : A -> UP unit) l : (forall x, x ∈ l -> harmless S (f x)) -> harmless S (p_each f l).
Proof.
  induction l as [|x l IH]; intros Hf; [apply harmless_ret|]. cbn. apply finishing_bind; [apply Hf; left|].
  intros _. apply IH. intros; apply Hf; by right.
Qed.

Definition keeps_id (g : UploadFile -> UploadFile) : Prop := forall f, uf_id (g f) = uf_id f.

Lemma finishing_map (id : string) g (Q : unit -> Prop) :
  keeps_id g -> (Q tt -> forall f, is_terminal (uf_status (g f)) = true) -> finishing [id] Q (patchFile id g).
Proof.
  intros Hg Ht p. eexists tt, _. split_and!; [reflexivity| |]; cbn.
  - rewrite map_map. apply map_ext. intros f. by destruct (String.eqb (uf_id f) id).
  - intros f (f0 & -> & Hin)%list_elem_of_fmap. destruct (String.eqb_spec (uf_id f0) id) as [He|He].
    + rewrite decide_True; [intros; by apply Ht|]. rewrite Hg, He. left.
    + rewrite decide_False; [done|]. by rewrite list_elem_of_singleton.
Qed.

Lemma harmless_patch id g : keeps_id g -> harmless [id] (patchFile id g).
Proof. intros Hg. by apply finishing_map. Qed.

Lemma settling_patch id g :
  keeps_id g -> (forall f, is_terminal (uf_status (g f)) = true) -> settling [id] (patchFile id g).
Proof. intros Hg Ht. apply finishing_map; auto. Qed.

(** ** The steps of an upload *)

Lemma progress_id l f : uf_id (fold_left (fun f e => with_progress (percent_loaded e) f) l f) = uf_id f.
Proof. revert f. induction l as [|e l IH]; intros f; [done|]. cbn. by rewrite IH. Qed.

Lemma harmless_send uf auth : harmless [uf_id uf] (send_put uf auth).
Proof.
  unfold send_put. apply finishing_bind.
  { intros p. eexists tt, _. split_and!; [reflexivity|done|]. intros f Hin. by destruct (decide _). }
  intros _. apply finishing_bind; [apply harmless_site|]. intros r. apply finishing_bind; [|intros; apply harmless_ret].
  destruct r as [st body xr ra progress|]; [|apply harmless_ret]. apply harmless_patch. intros f. apply progress_id.
Qed.

Lemma retry_after_attempt attempt e d : retry_after attempt e = Some d -> (attempt < MAX_RETRIES)%nat.
Proof.
  unfold retry_after. destruct e as [st m ra|]; [|done]. destruct (isRetryable st); [|done]. rewrite andb_true_l.
  destruct (Nat.ltb_spec attempt MAX_RETRIES); done.
Qed.

Lemma upload_from_settles n attempt uf auth :
  (S MAX_RETRIES <= n + attempt)%nat -> (1 <= n)%nat -> settling [uf_id uf] (upload_from n attempt uf auth).
Proof.
  revert attempt. induction n as [|n IH]; intros attempt Hn H1; [lia|]. cbn [upload_from].
  apply finishing_bind; [by apply harmless_patch|]. intros _.
  apply finishing_bind; [apply harmless_send|]. intros [[descriptor status]|e].
  - apply settling_patch; [done|]. intros f. cbn. by destruct (status =? 200).
  - destruct (retry_after attempt e) as [delay|] eqn:Er; [|by apply settling_patch].
    apply finishing_bind; [by apply harmless_patch|]. intros _. apply finishing_bind; [apply harmless_site|].
    intros _. apply retry_after_attempt in Er. apply IH; unfold MAX_RETRIES in *; lia.
Qed.

Lemma uploadOne_settles uf auth : settling [uf_id uf] (uploadOne uf auth).
Proof. apply upload_from_settles; unfold MAX_RETRIES; lia. Qed.

(** A check that does not go on has finished the entry. *)
Lemma checkOne_spec uf h auth : finishing [uf_id uf] (fun b => b = false) (checkOne uf h auth).
Proof.
  unfold checkOne. apply finishing_bind; [by apply harmless_patch|]. intros _. apply finishing_bind.
  { destruct (uf_optimize uf); [apply harmless_ret|]. apply finishing_bind; [apply harmless_site|]. intros; apply harmless_ret. }
  intros [|]; [by apply settling_ret, settling_patch|]. apply finishing_bind; [apply harmless_site|].
  intros [[status reason]|e]; [|by apply finishing_ret]. destruct (status =? 200); [by apply finishing_ret|].
  by apply settling_ret, settling_patch.
Qed.

Definition file_ids (l : list (UploadFile * string)) : list string := map (fun x => uf_id (fst x)) l.

(** What is not handed on is finished. *)
Lemma preflight_spec files auth p : exists l p',
  preflight files auth p = (Ok l, p') /\ map uf_id (pg_queue p') = map uf_id (pg_queue p) /\
  (forall uf, uf ∈ l -> exists h, (uf, h) ∈ files) /\
  forall f, f ∈ pg_queue p' ->
    if decide (uf_id f ∈ file_ids files) then uf_id f ∉ map uf_id l -> is_terminal (uf_status f) = true
    else f ∈ pg_queue p.
Proof.
  revert p. induction files as [|[uf h] files IH]; intros p; cbn [preflight].
  { exists [], p. split_and!; [done..|intros ? []%elem_of_nil|]. intros f Hin. by rewrite decide_False by apply not_elem_of_nil. }
  destruct (checkOne_spec uf h auth p) as (b & p1 & E1 & I1 & F1). destruct (IH p1) as (l & p2 & E2 & I2 & L2 & F2).
  exists (if b then uf :: l else l), p2. unfold upbind. rewrite E1, E2. split_and!; [done|congruence| |].
  - intros u Hu. assert (u = uf \/ u ∈ l) as [->|Hl] by (destruct b; [by apply elem_of_cons|by right]); [exists h; left|].
    destruct (L2 u Hl) as [h' Hh]. exists h'. by right.
  - intros f Hin. specialize (F2 f Hin). change (file_ids ((uf, h) :: files)) with (uf_id uf :: file_ids files).
    destruct (decide (uf_id f ∈ file_ids files)) as [Hi|Hi].
    + rewrite decide_True by (by right). intros Hn. apply F2. destruct b; cbn in *; set_solver.
    + specialize (F1 f F2). destruct (decide (uf_id f = uf_id uf)) as [He|He].
      * rewrite decide_True by (rewrite He; left). rewrite decide_True in F1 by (rewrite He; left).
        intros Hn. apply F1. destruct b; [|done]. exfalso. apply Hn. cbn. rewrite He. left.
      * rewrite decide_False in F1 by (by rewrite list_elem_of_singleton). by rewrite decide_False by set_solver.
Qed.

Lemma upload_batch_settles files auth : settling (file_ids files) (upload_batch files auth).
Proof.
  intros p. unfold upload_batch. destruct (preflight_spec files auth p) as (l & p1 & E1 & I1 & L1 & F1).
  destruct (settling_each (fun uf => [uf_id uf]) (fun uf => uploadOne uf auth) l (fun uf _ => uploadOne_settles uf auth) p1)
    as ([] & p2 & E2 & I2 & F2).
  exists tt, p2. unfold upbind. rewrite E1. split_and!; [done|congruence|]. intros f Hin. specialize (F2 f Hin).
  assert ((uf_id f ∈ l ≫= (fun uf => [uf_id uf])) <-> uf_id f ∈ map uf_id l) as Hl.
  { rewrite list_elem_of_bind, list_elem_of_fmap. split; intros (u & Hu); exists u; set_solver. }
  destruct (decide (uf_id f ∈ l ≫= _)) as [Hi|Hi].
  - destruct (decide (uf_id f ∈ file_ids files)) as [|Hn]; [done|]. exfalso. apply Hn. apply Hl in Hi.
    apply list_elem_of_fmap in Hi as (u & Hu & [h Hh]%L1). apply list_elem_of_fmap. by exists (u, h).
  - specialize (F1 f F2). destruct (decide (uf_id f ∈ file_ids files)); [|done]. intros _. apply F1. by rewrite <- Hl.
Qed.

(** ** The queue *)

Definition readable (f : UploadFile) : Prop := is_ok (pf_bytes (uf_file f)) = true.
Definition hash_of (f : UploadFile) : string := match pf_bytes (uf_file f) with Ok b => digest b | Throw _ => "" end.
Definition hashed (l : list UploadFile) : list (UploadFile * string) := map (fun f => (f, hash_of f)) l.

Lemma file_ids_hashed l : file_ids (hashed l) = map uf_id l.
Proof. unfold file_ids, hashed. by rewrite map_map. Qed.

Lemma hashBatch_result files p l p' : hashBatch files p = (Ok l, p') -> l = hashed files.
Proof.
  revert p l p'. induction files as [|uf files IH]; intros p l p'; cbn [hashBatch]; [by intros [= <- _]|].
  unfold upbind. cbn. unfold hashed, hash_of. cbn. destruct (pf_bytes (uf_file uf)) as [b|e]; [|done].
  destruct (hashBatch files _) as [[rest|e] p1] eqn:Eh; [|done]. intros [= <- _]. f_equal. by eapply IH.
Qed.

Lemma hashBatch_harmless files S :
  Forall readable files -> (forall f, f ∈ files -> uf_id f ∈ S) -> harmless S (hashBatch files).
Proof.
  induction files as [|uf files IH]; intros Hr Hs; cbn [hashBatch]; [apply harmless_ret|].
  inversion Hr as [|? ? Hu Hr']; subst. unfold readable in Hu. destruct (pf_bytes (uf_file uf)) as [b|e] eqn:Eb; [|done].
  apply finishing_bind; [eapply harmless_mono, harmless_patch; [|done]; intros x ->%list_elem_of_singleton; apply Hs; left|].
  intros _. apply finishing_bind; [apply (harmless_ret _ (digest b))|]. intros h.
  apply finishing_bind; [|intros; apply harmless_ret]. apply IH; [done|]. intros; apply Hs; by right.
Qed.

Lemma slices_concat {A} fuel n (l : list A) :
  (0 < n)%nat -> (length l <= fuel)%nat -> concat (slices fuel n l) = l.
Proof.
  revert l. induction fuel as [|fuel IH]; intros [|x l] Hn Hl; try done; [cbn in Hl; lia|].
  cbn [slices concat]. rewrite IH; [by rewrite take_drop|done|]. rewrite length_drop. cbn in *. lia.
Qed.

Lemma settling_eq S T m : (forall x, x ∈ S <-> x ∈ T) -> settling S m -> settling T m.
Proof.
  intros He Hm p. destruct (Hm p) as (a & p' & E & I & F). exists a, p'. split_and!; [done..|].
  intros f Hin. specialize (F f Hin). destruct (decide (uf_id f ∈ S)) as [Hs|Hs].
  - by rewrite decide_True by (by apply He).
  - by rewrite decide_False by (by rewrite <- He).
Qed.

Lemma bind_singletons l : l ≫= (fun x : UploadFile * string => [uf_id (fst x)]) = file_ids l.
Proof. induction l as [|x l IH]; [done|]. cbn. by rewrite IH. Qed.

Lemma signed_batch_settles verb content batch : settling (file_ids batch) (signed_batch verb content batch).
Proof.
  unfold signed_batch. apply finishing_bind.
  { apply harmless_each. intros x Hx. eapply harmless_mono, harmless_patch; [|done].
    intros y ->%list_elem_of_singleton. apply list_elem_of_fmap. eauto. }
  intros _. apply finishing_bind; [apply harmless_site|]. intros [h|msg]; [apply upload_batch_settles|].
  rewrite <- bind_singletons. apply settling_each. intros x _. by apply settling_patch.
Qed.

Lemma bind_file_ids ls : ls ≫= file_ids = file_ids (concat ls).
Proof. induction ls as [|l ls IH]; [done|]. cbn. rewrite IH. unfold file_ids. by rewrite map_app. Qed.

(** Hashing first changes entries that the rest settles anyway. *)
Lemma hash_then files k :
  Forall readable files -> settling (map uf_id files) (k (hashed files)) ->
  settling (map uf_id files) (upbind (hashBatch files) k).
Proof.
  intros Hr Hk p. assert (harmless (map uf_id files) (hashBatch files)) as Hh.
  { apply hashBatch_harmless; [done|]. intros f Hf. apply list_elem_of_fmap. eauto. }
  destruct (Hh p) as (l & p1 & E1 & I1 & F1). pose proof (hashBatch_result _ _ _ _ E1) as ->. unfold upbind. rewrite E1.
  destruct (Hk p1) as ([] & p2 & E2 & I2 & F2). exists tt, p2. split_and!; [done|congruence|].
  intros f Hin. specialize (F2 f Hin). destruct (decide (uf_id f ∈ map uf_id files)) as [|Hn]; [done|].
  specialize (F1 f F2). by rewrite decide_False in F1.
Qed.

Lemma signed_group_settles files verb content :
  Forall readable files -> settling (map uf_id files) (signed_group files verb content).
Proof.
  intros Hr. unfold signed_group. destruct files as [|uf files].
  { intros p. exists tt, p. split_and!; [done..|]. intros f Hin. by rewrite decide_False by apply not_elem_of_nil. }
  apply hash_then; [done|]. set (l := hashed (uf :: files)).
  pose proof (settling_each file_ids (signed_batch verb content) (slices (length l) MAX_X_TAGS_PER_EVENT l)
    (fun b _ => signed_batch_settles verb content b)) as Hs.
  rewrite bind_file_ids, slices_concat in Hs by (unfold MAX_X_TAGS_PER_EVENT; lia). unfold l in *. by rewrite file_ids_hashed in Hs.
Qed.

Definition pending_of (p : UploadPage) : list UploadFile :=
  List.filter (fun f => bool_decide (uf_status f = FPending)) (pg_queue p).

Lemma split_ids (l : list UploadFile) x :
  x ∈ map uf_id (List.filter (fun f => negb (uf_optimize f)) l) ++ map uf_id (List.filter uf_optimize l) <->
  x ∈ map uf_id l.
Proof.
  rewrite elem_of_app, !list_elem_of_fmap. setoid_rewrite list_elem_of_In. setoid_rewrite filter_In. split.
  - intros [(f & ? & ? & ?)|(f & ? & ? & ?)]; eauto.
  - intros (f & ? & ?). destruct (uf_optimize f) eqn:Eo; [right|left]; exists f; rewrite Eo; auto.
Qed.

Lemma Forall_List_filter (Q : UploadFile -> Prop) g l : Forall Q l -> Forall Q (List.filter g l).
Proof. rewrite !List.Forall_forall. intros Hq x [Hx _]%filter_In. auto. Qed.

(** C32: whatever the node and the extension answer, a click on "Upload" settles
    every file that was waiting: it ends uploaded, present, skipped or with an
    error, and nothing stays half way. Entries that were not waiting are
    untouched. The files have to be readable. *)
Theorem upload_settles requireAuth mediaRequireAuth p :
  Forall readable (pending_of p) -> exists p',
  runQueue requireAuth mediaRequireAuth p = (Ok tt, p') /\
  map uf_id (pg_queue p') = map uf_id (pg_queue p) /\
  forall f, f ∈ pg_queue p' ->
    if decide (uf_id f ∈ map uf_id (pending_of p)) then is_terminal (uf_status f) = true else f ∈ pg_queue p.
Proof.
  intros Hr. unfold runQueue. fold (pending_of p).
  enough (forall m, settling (map uf_id (pending_of p)) m -> exists p', m p = (Ok tt, p') /\
    map uf_id (pg_queue p') = map uf_id (pg_queue p) /\ forall f, f ∈ pg_queue p' ->
    if decide (uf_id f ∈ map uf_id (pending_of p)) then is_terminal (uf_status f) = true else f ∈ pg_queue p) as Hrun.
  2:{ intros m Hm. destruct (Hm p) as ([] & p' & E & I & F). exists p'. split_and!; [done..|].
      intros f Hin. specialize (F f Hin). destruct (decide _); auto. }
  destruct (pending_of p) as [|u us] eqn:Ep.
  { exists p. split_and!; [done..|]. intros f Hin. by rewrite decide_False by apply not_elem_of_nil. }
  rewrite <- Ep in *. clear Ep u us. destruct (existsb _ _).
  - destruct (hasNostr (pg_site p)); apply Hrun.
    + eapply settling_eq; [apply split_ids|]. apply settling_seq; by apply signed_group_settles, Forall_List_filter.
    + eapply settling_eq; [|apply (settling_each (fun uf => [uf_id uf])); intros; by apply settling_patch].
      intros x. rewrite list_elem_of_bind, list_elem_of_fmap. setoid_rewrite list_elem_of_singleton. naive_solver.
  - apply Hrun, hash_then; [done|]. rewrite <- file_ids_hashed. apply upload_batch_settles.
Qed.

(** ** Tokens *)

(** A step whose PUTs all satisfy [R], if it returns at all. *)
Definition sends {A} (R : endpoint * UploadFile * option string -> Prop) (m : UP A) : Prop :=
  forall p r p', m p = (r, p') -> exists l, pg_puts p' = pg_puts p ++ l /\ Forall R l.

Lemma sends_none {A} R (m : UP A) : (forall p, pg_puts (m p).2 = pg_puts p) -> sends R m.
Proof. intros Hm p r p' E. exists []. specialize (Hm p). rewrite E in Hm. cbn in Hm. by rewrite Hm, app_nil_r. Qed.

Lemma sends_bind {A B} R (m : UP A) (k : A -> UP B) : sends R m -> (forall a, sends R (k a)) -> sends R (upbind m k).
Proof.
  intros Hm Hk p r p' E. unfold upbind in E. destruct (m p) as [[a|e] p1] eqn:E1; apply Hm in E1 as (l1 & P1 & R1).
  - apply Hk in E as (l2 & P2 & R2). exists (l1 ++ l2). rewrite P2, P1, (assoc_L app). split; [done|]. by apply Forall_app_2.
  - simplify_eq. eauto.
Qed.

Lemma sends_bind_dep {A B} R (m : UP A) (k : A -> UP B) (Q : A -> Prop) :
  sends R m -> (forall p a p', m p = (Ok a, p') -> Q a) -> (forall a, Q a -> sends R (k a)) -> sends R (upbind m k).
Proof.
  intros Hm Hq Hk p r p' E. unfold upbind in E. destruct (m p) as [[a|e] p1] eqn:E1.
  - pose proof (Hq _ _ _ E1) as Ha. apply Hm in E1 as (l1 & P1 & R1). apply (Hk a Ha) in E as (l2 & P2 & R2).
    exists (l1 ++ l2). rewrite P2, P1, (assoc_L app). split; [done|]. by apply Forall_app_2.
  - apply Hm in E1 as (l1 & P1 & R1). simplify_eq. eauto.
Qed.

Lemma sends_patch R id g : sends R (patchFile id g).
Proof. by apply sends_none. Qed.
Lemma sends_ret {A} R (a : A) : sends R (upret a).
Proof. by apply sends_none. Qed.
Lemma sends_site {A} R (f : site -> A * site) : sends R (on_site f).
Proof. apply sends_none. intros p. unfold on_site. by destruct (f (pg_site p)). Qed.
Lemma sends_each {A} R (f : A -> UP unit) l : (forall x, x ∈ l -> sends R (f x)) -> sends R (p_each f l).
Proof.
  induction l as [|x l IH]; intros Hf; [apply sends_ret|]. cbn. apply sends_bind; [apply Hf; left|].
  intros _. apply IH. intros; apply Hf; by right.
Qed.

Lemma uploadOne_sends (R : _ -> Prop) uf auth : R (endpoint_of uf, uf, auth) -> sends R (uploadOne uf auth).
Proof.
  intros HR. unfold uploadOne. generalize (S MAX_RETRIES), 0%nat. intros n. induction n as [|n IH]; intros attempt; [apply sends_ret|].
  cbn [upload_from]. apply sends_bind; [apply sends_patch|]. intros _. apply sends_bind.
  - unfold send_put. apply sends_bind.
    + intros p r p' [= <- <-]. exists [(endpoint_of uf, uf, auth)]. split; [done|]. by apply Forall_singleton.
    + intros _. apply sends_bind; [apply sends_site|]. intros [st bd xr ra pr|]; (apply sends_bind; [|intros; apply sends_ret]);
        by apply sends_none.
  - intros [[d st]|e]; [apply sends_patch|]. destruct (retry_after attempt e); [|apply sends_patch].
    apply sends_bind; [apply sends_patch|]. intros _. apply sends_bind; [apply sends_site|]. auto.
Qed.

Lemma checkOne_sends R uf h auth : sends R (checkOne uf h auth).
Proof.
  unfold checkOne. apply sends_bind; [apply sends_patch|]. intros _. apply sends_bind.
  { destruct (uf_optimize uf); [apply sends_ret|]. apply sends_bind; [apply sends_site|]. intros; apply sends_ret. }
  intros [|]; [apply sends_bind; [apply sends_patch|intros; apply sends_ret]|].
  apply sends_bind; [apply sends_site|]. intros [[st rs]|e]; [|apply sends_ret].
  destruct (st =? 200); [apply sends_ret|]. apply sends_bind; [apply sends_patch|intros; apply sends_ret].
Qed.

Lemma upload_batch_sends (R : _ -> Prop) files auth :
  (forall uf h, (uf, h) ∈ files -> R (endpoint_of uf, uf, auth)) -> sends R (upload_batch files auth).
Proof.
  intros HR. unfold upload_batch. eapply (sends_bind_dep _ _ _ (fun l => forall uf, uf ∈ l -> exists h, (uf, h) ∈ files)).
  - clear HR. induction files as [|[uf h] files IH]; [apply sends_ret|]. cbn [preflight].
    apply sends_bind; [apply checkOne_sends|]. intros b. apply sends_bind; [exact IH|]. intros; apply sends_ret.
  - intros p l p' E. destruct (preflight_spec files auth p) as (l' & p1 & E1 & _ & L1 & _). by rewrite E in E1; simplify_eq.
  - intros l Hl. apply sends_each. intros uf [h Hh]%Hl. apply uploadOne_sends. by eapply HR.
Qed.

(** A header the extension made for a token that names the file, for the verb
    of its endpoint, with at most sixty files, dated when it was signed and for five
    minutes. *)
Definition covers (uf : UploadFile) (header : string) : Prop := exists t s s',
  signAuth t s = (Ok header, s') /\ hash_of uf ∈ au_hashes t /\ (length (au_hashes t) <= MAX_X_TAGS_PER_EVENT)%nat /\
  au_verb t = (if uf_optimize uf then "media" else "upload") /\
  au_created t = site_now s /\ au_expiration t = site_now s + 300.

Definition covered (files : list UploadFile) (x : endpoint * UploadFile * option string) : Prop :=
  let '(ep, uf, auth) := x in uf ∈ files /\ ep = endpoint_of uf /\ exists h, auth = Some h /\ covers uf h.

Lemma signed_batch_sends files verb content batch :
  (length batch <= MAX_X_TAGS_PER_EVENT)%nat ->
  (forall uf h, (uf, h) ∈ batch -> uf ∈ files /\ h = hash_of uf /\ verb = (if uf_optimize uf then "media" else "upload")) ->
  sends (covered files) (signed_batch verb content batch).
Proof.
  intros Hl Hb. unfold signed_batch. apply sends_bind; [apply sends_each; intros; apply sends_patch|]. intros _.
  apply (sends_bind_dep _ _ _ (fun r => forall h, r = Ok h -> exists t s s', signAuth t s = (Ok h, s') /\
    au_hashes t = map snd batch /\ au_verb t = verb /\ au_created t = site_now s /\ au_expiration t = site_now s + 300)); [apply sends_site| |].
  - intros p r p' E h ->. unfold signBatch, on_site in E.
    destruct (signAuth _ (pg_site p)) as [x s] eqn:Es. simplify_eq. by eexists _, _, _.
  - intros [h|msg] Hr; [|apply sends_each; intros; apply sends_patch].
    destruct (Hr h eq_refl) as (t & s & s' & Ht & Hh & Hv & Hc & He). apply upload_batch_sends.
    intros uf d Hin. destruct (Hb _ _ Hin) as (Hf & -> & ->). split_and!; [done..|]. exists h. split; [done|].
    exists t, s, s'. rewrite Hh. split_and!; [done| |by rewrite length_map|done..].
    apply list_elem_of_fmap. by exists (uf, hash_of uf).
Qed.

Lemma slices_bound {A} fuel n (l s : list A) : s ∈ slices fuel n l -> (length s <= n)%nat /\ forall x, x ∈ s -> x ∈ l.
Proof.
  revert l. induction fuel as [|fuel IH]; intros [|y l]; cbn [slices]; try (intros []%elem_of_nil).
  intros [->|Hs]%elem_of_cons.
  - rewrite length_take. split; [lia|]. intros x Hx. rewrite <- (take_drop n (y :: l)). apply elem_of_app. by left.
  - destruct (IH _ Hs) as [Hn Hx]. split; [done|]. intros x Hin. rewrite <- (take_drop n (y :: l)). apply elem_of_app. right. auto.
Qed.

Lemma hashBatch_sends R files : sends R (hashBatch files).
Proof.
  induction files as [|uf files IH]; [apply sends_ret|]. cbn [hashBatch]. apply sends_bind; [apply sends_patch|].
  intros _. apply sends_bind; [apply sends_none; intros p; by destruct (pf_bytes _)|]. intros h.
  apply sends_bind; [done|]. intros; apply sends_ret.
Qed.

Lemma signed_group_sends files verb content all :
  (forall uf, uf ∈ files -> uf ∈ all /\ verb = (if uf_optimize uf then "media" else "upload")) ->
  sends (covered all) (signed_group files verb content).
Proof.
  intros Hf. unfold signed_group. destruct files as [|u us]; [apply sends_ret|].
  eapply sends_bind_dep; [apply hashBatch_sends|intros p l p'; apply hashBatch_result|]. intros l ->.
  apply sends_each. intros b [Hb Hin]%slices_bound. apply signed_batch_sends; [done|].
  intros uf h (f & [= -> ->] & Hfin)%Hin%list_elem_of_fmap. destruct (Hf f Hfin). done.
Qed.

(** C33: when any of the waiting files needs a token, every file the page sends
    goes out under a token signed for it: its hash is among at most sixty
    hashes, the verb is the one of the endpoint it goes to, the token expires
    in five minutes. A file that was not waiting is never sent. *)
Theorem uploads_authorised requireAuth mediaRequireAuth p r p' :
  existsb (fun f => if uf_optimize f then mediaRequireAuth else requireAuth) (pending_of p) = true ->
  runQueue requireAuth mediaRequireAuth p = (r, p') ->
  exists l, pg_puts p' = pg_puts p ++ l /\ Forall (covered (pending_of p)) l.
Proof.
  intros Hx Hrun. unfold runQueue in Hrun. fold (pending_of p) in Hrun. rewrite Hx in Hrun.
  enough (forall m : UP unit, sends (covered (pending_of p)) m -> m p = (r, p') ->
            exists l, pg_puts p' = pg_puts p ++ l /\ Forall (covered (pending_of p)) l) as Hs.
  2:{ intros m Hm E. by apply Hm in E. }
  destruct (pending_of p) as [|u us] eqn:Ep; [done|]. rewrite <- Ep in *. clear Ep.
  destruct (hasNostr (pg_site p)); revert Hrun; apply Hs.
  - apply sends_bind; [|intros _]; apply signed_group_sends; intros uf [Hin Ho]%list_elem_of_In%filter_In;
      (split; [by apply list_elem_of_In|]); destruct (uf_optimize uf); done.
  - apply sends_each. intros; apply sends_patch.
Qed.
End Facts.

(** ** Mirroring *)

Section MirrorFacts.
Context `{UrlLib} `{Site}.

(** From [p] to [p'] only items of [S] changed, and those are settled. *)
Definition mirrors (S : list string) (p p' : MirrorPage) : Prop :=
  map mi_id (mp_items p') = map mi_id (mp_items p) /\
  forall it, it ∈ mp_items p' ->
    if decide (mi_id it ∈ S) then mirror_terminal (mi_status it) = true else it ∈ mp_items p.

(** Only items of [S] changed. *)
Definition touches (S : list string) (p p' : MirrorPage) : Prop :=
  map mi_id (mp_items p') = map mi_id (mp_items p) /\
  forall it, it ∈ mp_items p' -> mi_id it ∉ S -> it ∈ mp_items p.

Lemma patch_touches id st r e p : touches [id] p (patchItem id st r e p).
Proof.
  split; cbn.
  - rewrite map_map. apply map_ext. intros it. by destruct (String.eqb (mi_id it) id).
  - intros it (i0 & -> & Hin)%list_elem_of_fmap. destruct (String.eqb_spec (mi_id i0) id) as [He|He]; [|done].
    cbn. intros Hn. exfalso. apply Hn. rewrite He. left.
Qed.

Lemma patch_mirrors id st r e p : mirror_terminal st = true -> mirrors [id] p (patchItem id st r e p).
Proof.
  intros Ht. split; [apply patch_touches|]. cbn.
  intros it (i0 & -> & Hin)%list_elem_of_fmap. destruct (String.eqb_spec (mi_id i0) id) as [He|He]; cbn.
  - rewrite decide_True; [done|]. rewrite He. left.
  - by rewrite decide_False by (by rewrite list_elem_of_singleton).
Qed.

Lemma touches_trans S p p1 p2 : touches S p p1 -> touches S p1 p2 -> touches S p p2.
Proof. intros [I1 F1] [I2 F2]. split; [congruence|]. auto. Qed.

Lemma touches_mirrors S p p1 p2 : touches S p p1 -> mirrors S p1 p2 -> mirrors S p p2.
Proof.
  intros [I1 F1] [I2 F2]. split; [congruence|]. intros it Hin. specialize (F2 it Hin).
  destruct (decide (mi_id it ∈ S)); auto.
Qed.

Lemma mirrors_seq S T p p1 p2 : mirrors S p p1 -> mirrors T p1 p2 -> mirrors (S ++ T) p p2.
Proof.
  intros [I1 F1] [I2 F2]. split; [congruence|]. intros it Hin. specialize (F2 it Hin).
  destruct (decide (mi_id it ∈ T)) as [Ht|Ht]; [by rewrite decide_True by (apply elem_of_app; auto)|].
  specialize (F1 it F2). destruct (decide (mi_id it ∈ S)) as [Hs|Hs].
  - by rewrite decide_True by (apply elem_of_app; auto).
  - rewrite decide_False; [done|]. rewrite elem_of_app. tauto.
Qed.

Lemma mirrors_fold {A} (f : MirrorPage -> A -> MirrorPage) (ids : A -> list string) l p :
  (forall p x, x ∈ l -> mirrors (ids x) p (f p x)) -> mirrors (l ≫= ids) p (fold_left f l p).
Proof.
  revert p. induction l as [|x l IH]; intros p Hf.
  - split; [done|]. intros it Hin. by rewrite decide_False by apply not_elem_of_nil.
  - cbn. eapply mirrors_seq; [apply Hf; left|]. apply IH. intros; apply Hf; by right.
Qed.

Lemma mirror_from_settles n attempt item auth p :
  (S MAX_RETRIES <= n + attempt)%nat -> (1 <= n)%nat -> mirrors [mi_id item] p (mirror_from n attempt item auth p).
Proof.
  revert attempt p. induction n as [|n IH]; intros attempt p Hn H1'; [lia|]. cbn [mirror_from].
  set (p1 := patchItem _ _ _ _ p). destruct (putMirrorUrl _ _ _) as [r s].
  assert (touches [mi_id item] p (set_site s p1)) as Ht by apply patch_touches.
  destruct (fetch_result r) as [[d st]|e].
  - eapply touches_mirrors; [exact Ht|]. apply patch_mirrors. by destruct (st =? 200).
  - destruct (retry_after attempt e) as [delay|] eqn:Er; [|eapply touches_mirrors; [exact Ht|by apply patch_mirrors]].
    apply retry_after_attempt in Er. eapply touches_mirrors; [|apply IH; unfold MAX_RETRIES in *; lia].
    eapply touches_trans; [exact Ht|]. apply (patch_touches (mi_id item) MRetrying None None (set_site s p1)).
Qed.

Lemma mirror_all_settles items auth p : mirrors (items ≫= fun it => [mi_id it]) p (mirror_all items auth p).
Proof. apply mirrors_fold. intros q it _. apply mirror_from_settles; unfold MAX_RETRIES; lia. Qed.

Lemma patch_all_touches items st e p : touches (items ≫= fun it => [mi_id it]) p (patch_all items st e p).
Proof.
  enough (forall S, (forall it, it ∈ items -> mi_id it ∈ S) -> touches S p (patch_all items st e p)) as Hg.
  { apply Hg. intros it Hin. apply list_elem_of_bind. exists it. split; [left|done]. }
  intros S. revert p. induction items as [|it items IH]; intros p Hs; [done|]. cbn.
  eapply touches_trans; [|apply IH; intros; apply Hs; by right].
  destruct (patch_touches (mi_id it) st None e p) as [I F]. split; [done|]. intros x Hx Hn. apply F; [done|].
  intros He%list_elem_of_singleton. apply Hn. rewrite He. apply Hs. left.
Qed.

Lemma mirror_batch_settles batch p : mirrors (batch ≫= fun it => [mi_id it]) p (mirror_batch p batch).
Proof.
  unfold mirror_batch. destruct (signAuth _ _) as [r s]. set (p1 := patch_all batch MSigning None p).
  assert (touches (batch ≫= fun it => [mi_id it]) p (set_site s p1)) as Ht by apply patch_all_touches.
  destruct r as [h|msg]; (eapply touches_mirrors; [exact Ht|]); [apply mirror_all_settles|].
  unfold patch_all. apply mirrors_fold. intros q it _. by apply patch_mirrors.
Qed.

Definition mirror_pending (p : MirrorPage) : list MirrorItem :=
  List.filter (fun it => bool_decide (mi_status it = MPending)) (mp_items p).

(** Every item that was waiting is settled, whatever the node answers. *)
Theorem mirror_settles requireAuth p :
  mirrors (mirror_pending p ≫= fun it => [mi_id it]) p (runMirror requireAuth p).
Proof.
  unfold runMirror. fold (mirror_pending p). destruct requireAuth; cbn; [|apply mirror_all_settles].
  destruct (hasNostr (mp_site p)); cbn.
  - pose proof (mirrors_fold mirror_batch (fun b => b ≫= fun it => [mi_id it])
      (slices (length (mirror_pending p)) MAX_X_TAGS_PER_EVENT (mirror_pending p)) p (fun q b _ => mirror_batch_settles b q)) as Hm.
    replace (slices _ _ _ ≫= _) with (mirror_pending p ≫= fun it => [mi_id it]) in Hm; [exact Hm|].
    rewrite <- (slices_concat (length (mirror_pending p)) MAX_X_TAGS_PER_EVENT (mirror_pending p)) at 1 by (unfold MAX_X_TAGS_PER_EVENT; lia).
    generalize (slices (length (mirror_pending p)) MAX_X_TAGS_PER_EVENT (mirror_pending p)). intros ls.
    induction ls as [|l ls IH]; [done|]. cbn. by rewrite bind_app, IH.
  - apply mirrors_fold. intros q it _. by apply patch_mirrors.
Qed.
End MirrorFacts.

(** ** A site in memory *)

Module SiteExamples.

(** The status of every preflight, and the replies to the PUTs to come. *)
#[export] Instance toySite : Site := {|
  site := Z * list put_reply;
  digest b := b;
  origin := "https://node";
  site_now _ := 1000;
  headBlob _ s := (Ok false, s);
  headPreflight _ _ _ _ _ s := (Ok (fst s, None), s);
  putFile _ f _ _ s := match snd s with
    | r :: rs => (r, (fst s, rs))
    | [] => (PutReply 201 (Some {| ds_sha256 := "h"; ds_size := pf_size f; ds_type := pf_type f; ds_url := "https://node/h" |}) None None [], s)
    end;
  putMirrorUrl _ _ s := (PutFailed, s);
  signAuth t s := (Ok ("Nostr " +:+ String.concat "," (au_hashes t)), s);
  hasNostr _ := true;
  sleep _ s := s
|}.

Definition queued (id : string) (bytes : exc string string) : UploadFile :=
  {| uf_id := id; uf_file := {| pf_type := "text/plain"; pf_size := 3; pf_bytes := bytes |}; uf_status := FPending;
     uf_progress := num_Z 0; uf_result := None; uf_error := None; uf_optimize := false |}.
Definition page_of (s : site) (l : list UploadFile) : UploadPage := {| pg_queue := l; pg_site := s; pg_puts := [] |}.
Definition shown_of (p : UploadPage) : list (FileStatus * option string) := map (fun f => (uf_status f, uf_error f)) (pg_queue p).

Lemma upload_settles_witness : exists p',
  runQueue true true (page_of (200, [PutReply 503 None None (Some "7") []]) [queued "a" (Ok "abc")]) = (Ok tt, p') /\
  shown_of p' = [(FDone, None)] /\ forall f, f ∈ pg_queue p' -> is_terminal (uf_status f) = true.
Proof.
  destruct (upload_settles true true (page_of (200, [PutReply 503 None None (Some "7") []]) [queued "a" (Ok "abc")]))
    as (p' & E & I & F); [by repeat constructor|].
  assert (p' = (runQueue true true (page_of (200, [PutReply 503 None None (Some "7") []]) [queued "a" (Ok "abc")])).2) as Hp
    by (by rewrite E).
  exists p'. split_and!; [exact E|rewrite Hp; reflexivity|]. intros f Hin. specialize (F f Hin).
  rewrite decide_True in F; [exact F|]. change (uf_id f ∈ ["a"]).
  assert (map uf_id (pg_queue p') = ["a"]) as <- by exact I. apply list_elem_of_fmap. eauto.
Defined.

Lemma uploads_authorised_witness :
  let p := page_of (200, []) [queued "a" (Ok "abc"); queued "b" (Ok "def")] in
  Forall (covered (pending_of p)) (pg_puts (runQueue true false p).2) /\ length (pg_puts (runQueue true false p).2) = 2%nat.
Proof.
  intros p. split; [|reflexivity].
  destruct (uploads_authorised true false p (runQueue true false p).1 (runQueue true false p).2) as (l & Hl & HF);
    [reflexivity|apply surjective_pairing|]. rewrite Hl. exact HF.
Defined.

(** A preflight answered "slow down" ends the file: the text says it is being
    retried, and no request follows. *)
Example rate_limit_not_retried :
  let p := (runQueue false false (page_of (429, []) [queued "a" (Ok "abc")])).2 in
  shown_of p = [(FSkipped, Some "Rate limited — retrying automatically…")] /\ pg_puts p = [].
Proof. split; reflexivity. Qed.

(** A file that cannot be read leaves its entry "hashing" and the others
    waiting, and the button stays disabled. *)
Example unreadable_blocks :
  let out := runQueue false false (page_of (200, []) [queued "a" (Throw "NotReadableError"); queued "b" (Ok "def")]) in
  out.1 = Throw "NotReadableError" /\ shown_of out.2 = [(FHashing, None); (FPending, None)] /\ canUpload out.2 = false.
Proof. split_and!; reflexivity. Qed.

(** A batch of mirrors is cut at sixty items, not at sixty hashes. *)
Example mirror_token_exceeds :
  let item i := {| mi_id := Z_to_string i; mi_displayUrl := ""; mi_mirrorUrl := ""; mi_sha256 := Z_to_string i;
                   mi_allHashes := [Z_to_string i; "n" +:+ Z_to_string i]; mi_status := MPending; mi_result := None;
                   mi_error := None |} in
  let items := map item (seqZ 0 60) in
  slices (length items) MAX_X_TAGS_PER_EVENT items = [items] /\ length (batch_hashes items) = 120%nat.
Proof. vm_compute. done. Qed.
End SiteExamples.
