(* ===== verification/Explorer.v ===== *)
(** * The gate of the database explorer (pg-explorer/proxy.mjs)

    A reverse proxy in front of pgweb: an administrator signs a NIP-98 event,
    gets a session cookie for it, and from then on every request is forwarded,
    except statements the read-only guard refuses. The state is the two maps of
    the process, sessions and used events; times are in milliseconds. The answer
    of pgweb is part of the request. The settings read from the environment are
    the record [ExplorerConfig], its numbers integers. *)

From Stdlib Require Import Ascii QArith Qabs.
From S2P Require Import Prelude Js Regex Nip98 Landing.
#[local] Open Scope Z_scope.

(** ** The allow list *)

(** The pieces of [s] between characters of [sep]. *)
Fixpoint pieces (sep : ascii -> bool) (s : string) : list string :=
  match s with
  | "" => [""]
  | String c s =>
      if sep c then "" :: pieces sep s
      else match pieces sep s with [] => [String c ""] | w :: ws => String c w :: ws end
  end.

Definition nonempty_string (s : string) : bool := negb (String.eqb s "").
Definition npub_entries (l : list string) : list string :=
  List.filter nonempty_string (map (fun t => toLowerCase (trim t)) l).

(** [ALLOWED_NPUBS] and the text of [ALLOWED_NPUBS_FILE]. *)
Definition allow_list (npubs file : option string) : list string :=
  npub_entries (pieces (fun c => Ascii.eqb c "," || is_space c) (default "" npubs)) ++
  match file with
  | Some text => List.filter (fun t => negb (starts_with "#" t)) (npub_entries (pieces (fun c => code c =? 10) text))
  | None => []
  end.

Record ExplorerConfig := {
  ec_allowAll : bool;
  ec_allowList : list string;
  ec_window : Z;     (* MAX_WINDOW_S *)
  ec_ttl : Z;        (* SESSION_TTL_MS *)
  ec_url : string;   (* EXPLORER_URL *)
  ec_pgweb : string; (* PGWEB_URL *)
  ec_host : string   (* its host *)
}.

(** ** Sessions *)

Record PgSession := { ps_npub : string; ps_expires : Z }.
Record Explorer := { ex_sessions : gmap string PgSession; ex_seen : gmap string Z }.

Definition pruneSessions (now : Z) (x : Explorer) : Explorer :=
  {| ex_sessions := filter (fun p => (ps_expires p.2 <? now) = false) (ex_sessions x); ex_seen := ex_seen x |}.

Definition COOKIE_NAME : string := "pgx_session".

(** [part.indexOf("=")] and the two slices. *)
Fixpoint split_eq (s : string) : option (string * string) :=
  match s with
  | "" => None
  | String c s => if Ascii.eqb c "=" then Some ("", s)
                  else match split_eq s with Some (k, v) => Some (String c k, v) | None => None end
  end.

(** The value of a cookie; of several with one name the last. *)
Fixpoint cookie_in (name : string) (parts : list string) (found : option string) : option string :=
  match parts with
  | [] => found
  | p :: parts =>
      cookie_in name parts
        (match split_eq p with
         | Some (String c k, v) => if String.eqb (trim (String c k)) name then Some (trim v) else found
         | _ => found
         end)
  end.
Definition parseCookies (header : option string) (name : string) : option string :=
  match header with Some h => cookie_in name (split_on ";" h) None | None => None end.

(** ** NIP-98 *)

(** [new Map(tags.map((t) => [t[0], t[1]])).get(name)]: the last tag of a name wins. *)
Fixpoint tag_last (name : string) (tags : list (list string)) (found : option string) : option string :=
  match tags with
  | [] => found
  | t :: tags => tag_last name tags (match t with k :: rest => if String.eqb k name then head rest else found | [] => found end)
  end.

Section Gate.
Context `{Nostr} `{JsonText} `{UrlLib}.
Variable cfg : ExplorerConfig.

(** The result is the npub, or the reason of the refusal. *)
Definition explorer_nip98 (now : Z) (authHeader method url : string) : exc string string :=
  if negb (starts_with "Nostr " authHeader) then Throw "missing Nostr authorization" else
  match decodeEvent (String.substring 6 (String.length authHeader) authHeader) with
  | None => Throw "malformed base64 payload"
  | Some event =>
      if negb (num_eqZ (ev_kind event) 27235) then Throw "kind is not 27235" else
      if negb (bool_decide (tag_last "u" (ev_tags event) None = Some url)) then Throw "u tag mismatch" else
      if negb (bool_decide (toUpperCase <$> tag_last "method" (ev_tags event) None = Some (toUpperCase method)))
      then Throw "method mismatch" else
      if negb (is_finite (ev_created_at event)) || outside_window (now / 1000) (ev_created_at event) (ec_window cfg)
      then Throw "created_at outside allowed window" else
      if negb (verifyEvent event) then Throw "signature invalid" else
      let npub := npubEncode (ev_pubkey event) in
      if negb (ec_allowAll cfg) && negb (bool_decide (npub ∈ ec_allowList cfg)) then Throw "npub not allowed"
      else Ok npub
  end.

Definition isReplay (now : Z) (id : string) (seen : gmap string Z) : bool * gmap string Z :=
  let seen := filter (fun p => (p.2 <? now) = false) seen in
  match seen !! id with
  | Some _ => (true, seen)
  | None => (false, <[id := now + ec_window cfg * 2000]> seen)
  end.

(** ** The read-only guard *)

Definition READ_FIRST_KEYWORDS : list string := ["select"; "with"; "explain"; "show"; "table"; "values"].

Definition any_char : re := RChr (fun _ => true).
Definition block_comment_re : re := rseq [rlit "/*"; RLazy any_char; rlit "*/"].
Definition line_comment_re : re := rseq [rlit "--"; RStar (RChr (fun c => negb (code c =? 10)))].
Definition final_semicolon_re : re := rseq [rlit ";"; RStar rspace; REnd].
Definition write_re : re :=
  rseq [RBnd; ralt (rlit_i "insert") (map rlit_i ["update"; "delete"; "drop"; "truncate"; "alter"; "create"; "grant"; "revoke"; "merge"]); RBnd].

(** The first word, after opening parentheses and then spaces, in lower case. *)
Definition first_keyword (s : string) : string :=
  let rest := trim_left (snd (span (fun c => Ascii.eqb c "(") s)) in
  toLowerCase (fst (span (fun c => is_lower c || is_upper c) rest)).

(** The text the guard looks at. *)
Definition guarded_text (sql : string) : string :=
  replace final_semicolon_re "" (trim (replace_all line_comment_re " " (replace_all block_comment_re " " sql))).

Definition isReadOnly (sql : string) : bool :=
  let s := guarded_text sql in
  if String.eqb s "" then true
  else if contains ";" s then false
  else
    let first := first_keyword s in
    if negb (bool_decide (first ∈ READ_FIRST_KEYWORDS)) then false
    else negb (String.eqb first "with" && test write_re s).

(** ** The server *)

Record PgwebAnswer := { pa_status : Z; pa_headers : list (string * string); pa_body : string }.
Record ExRequest := {
  er_method : string;
  er_url : string;
  er_headers : list (string * string);   (* names in lower case *)
  er_body : string;
  er_token : string;                     (* the random bytes of this request *)
  er_pgweb : option PgwebAnswer          (* what pgweb answers, if it does *)
}.

Record Forwarded := { fw_method : string; fw_target : string; fw_headers : list (string * string); fw_body : option string }.

Inductive ExReply :=
| Favicon
| SignInPage
| LoggedIn (token : string)
| AuthRefused (status : Z) (reason : string)
| ReadOnlyRefused
| Relayed (f : Forwarded) (a : PgwebAnswer)
| BackendDown (f : Forwarded)
| ServerError.

(** The body of POST /auth: [authorization] with its scheme; [None] when
    reading it throws. *)
Definition normalized_authorization (body : string) : option string :=
  match json_parse body with
  | None | Some JNull => None
  | Some v =>
      match jget v "authorization" with
      | JUndefined | JNull => Some "Nostr "
      | JStr s => Some (if starts_with "Nostr " s then s else "Nostr " +:+ s)
      | _ => None
      end
  end.

Definition auth_route (now : Z) (r : ExRequest) (x : Explorer) : ExReply * Explorer :=
  match normalized_authorization (er_body r) with
  | None => (AuthRefused 400 "bad request", x)
  | Some normalized =>
      match decodeEvent (String.substring 6 (String.length normalized) normalized) with
      | None => (AuthRefused 400 "bad request", x)
      | Some event =>
          match explorer_nip98 now normalized "GET" (ec_url cfg) with
          | Throw reason => (AuthRefused 401 reason, x)
          | Ok _ =>
              let (replayed, seen) := isReplay now (ev_id event) (ex_seen x) in
              if replayed then (AuthRefused 401 "replayed authorization", {| ex_sessions := ex_sessions x; ex_seen := seen |})
              else (LoggedIn (er_token r),
                    {| ex_sessions := <[er_token r := {| ps_npub := npubEncode (ev_pubkey event);
                                                         ps_expires := now + ec_ttl cfg |}]> (ex_sessions x);
                       ex_seen := seen |})
          end
      end
  end.

Definition session_token (r : ExRequest) : option string := parseCookies (assoc_str "cookie" (er_headers r)) COOKIE_NAME.

Definition authed (now : Z) (r : ExRequest) (x : Explorer) : bool :=
  match session_token r with
  | None | Some "" => false
  | Some t => match ex_sessions x !! t with Some s => now <? ps_expires s | None => false end
  end.

(** [/^\/api\/(query|explain|analyze)(\?|$)/] *)
Definition execute_re : re :=
  rseq [RStart; rlit "/api/"; ralt (rlit "query") [rlit "explain"; rlit "analyze"]; RAlt (rlit "?") REnd].
Definition is_execute (r : ExRequest) : bool := String.eqb (er_method r) "POST" && test execute_re (er_url r).

(** The statement of an execute request. *)
Definition statement_of (r : ExRequest) : string := default "" (searchParam (er_body r) "query").

Definition drop_header (k : string) (l : list (string * string)) : list (string * string) :=
  List.filter (fun h => negb (String.eqb (fst h) k)) l.

Definition forwarded (r : ExRequest) : Forwarded :=
  {| fw_method := er_method r; fw_target := ec_pgweb cfg +:+ er_url r;
     fw_headers := drop_header "host" (drop_header "authorization" (drop_header "cookie" (er_headers r))) ++ [("host", ec_host cfg)];
     fw_body := if is_execute r then Some (er_body r)
                else if String.eqb (er_method r) "GET" || String.eqb (er_method r) "HEAD" then None else Some (er_body r) |}.

Definition response_headers (l : list (string * string)) : list (string * string) :=
  List.filter (fun h => negb (String.eqb (toLowerCase (fst h)) "content-security-policy") &&
                        negb (String.eqb (toLowerCase (fst h)) "x-frame-options")) l.

Definition explorer_serve (now : Z) (r : ExRequest) (x : Explorer) : ExReply * Explorer :=
  let authed := authed now r x in
  if String.eqb (er_url r) "/favicon.ico" then (Favicon, x)
  else if String.eqb (er_url r) "/auth" && String.eqb (er_method r) "POST" then auth_route now r x
  else if negb authed then (SignInPage, x)
  else if is_execute r && negb (isReadOnly (statement_of r)) then (ReadOnlyRefused, x)
  else match parseUrl (ec_pgweb cfg +:+ er_url r) with
       | None => (ServerError, x)
       | Some _ =>
           match er_pgweb r with
           | None => (BackendDown (forwarded r), x)
           | Some a => (Relayed (forwarded r) {| pa_status := pa_status a; pa_headers := response_headers (pa_headers a);
                                                 pa_body := pa_body a |}, x)
           end
       end.

(** Requests and the minute timer, each at its time. *)
Inductive ex_event := ExServe (now : Z) (r : ExRequest) | ExPrune (now : Z).

Definition explorer_step (e : ex_event) (x : Explorer) : option ExReply * Explorer :=
  match e with
  | ExServe now r => let (a, x) := explorer_serve now r x in (Some a, x)
  | ExPrune now => (None, pruneSessions now x)
  end.

Fixpoint explorer_run (evs : list ex_event) (x : Explorer) : list (option ExReply) * Explorer :=
  match evs with
  | [] => ([], x)
  | e :: evs => let (a, x) := explorer_step e x in let (l, x) := explorer_run evs x in (a :: l, x)
  end.

Definition explorer_start : Explorer := {| ex_sessions := ∅; ex_seen := ∅ |}.
End Gate.
