(* ===== verification/ExplorerFacts.v ===== *)
(** * What the explorer's gate guarantees, and what its guard does not

    [explorer_gate]: what reaches pgweb belongs to a session that a permitted
    administrator's signature opened. [login_again]: how soon one signature can
    open a second session. The guard reads the text of a statement without
    knowing where its strings are; [guard_bypassed] shows what gets through. *)

From Stdlib Require Import Ascii QArith Qabs.
From S2P Require Import Prelude Js Regex Nip98 Landing Explorer.
#[local] Open Scope Z_scope.

Section Facts.
Context `{Nostr} `{JsonText} `{UrlLib}.
Variable cfg : ExplorerConfig.

(** The event behind the body of POST /auth is a permitted administrator's,
    signed for the explorer's address and made at about [now]. *)
Record login_ok (now : Z) (r : ExRequest) (event : Event) : Prop := {
  lo_decoded : exists normalized, normalized_authorization (er_body r) = Some normalized /\
    decodeEvent (String.substring 6 (String.length normalized) normalized) = Some event;
  lo_signed : verifyEvent event = true;
  lo_kind : num_eqZ (ev_kind event) 27235 = true;
  lo_url : tag_last "u" (ev_tags event) None = Some (ec_url cfg);
  lo_method : toUpperCase <$> tag_last "method" (ev_tags event) None = Some "GET";
  lo_window : exists q, ev_created_at event = Fin q /\ (Qabs (inject_Z (now / 1000) - q) <= inject_Z (ec_window cfg))%Q;
  lo_allowed : ec_allowAll cfg = true \/ npubEncode (ev_pubkey event) ∈ ec_allowList cfg
}.

Lemma explorer_nip98_Ok now hdr url npub :
  explorer_nip98 cfg now hdr "GET" url = Ok npub ->
  exists event, decodeEvent (String.substring 6 (String.length hdr) hdr) = Some event /\
    npub = npubEncode (ev_pubkey event) /\
    verifyEvent event = true /\ num_eqZ (ev_kind event) 27235 = true /\
    tag_last "u" (ev_tags event) None = Some url /\
    toUpperCase <$> tag_last "method" (ev_tags event) None = Some "GET" /\
    (exists q, ev_created_at event = Fin q /\ (Qabs (inject_Z (now / 1000) - q) <= inject_Z (ec_window cfg))%Q) /\
    (ec_allowAll cfg = true \/ npubEncode (ev_pubkey event) ∈ ec_allowList cfg).
Proof.
  unfold explorer_nip98. destruct (starts_with _ _); [|done]. cbn [negb].
  destruct (decodeEvent _) as [event|]; [|done]. intros E. exists event. split; [done|].
  split_ifs_in E; try done. injection E as <-. zbool. split_and!; try done.
  - destruct (ev_created_at event) as [| | |q]; try done. exists q. split; [done|].
    match goal with Hw : outside_window _ _ _ = false |- _ => unfold outside_window in Hw; apply negb_false_iff, Qle_bool_iff in Hw; done end.
  - match goal with Ha : _ && _ = false |- _ => apply andb_false_iff in Ha as [Ha|Ha] end; zbool; auto.
Qed.

(** The outcome of POST /auth. *)
Lemma auth_route_cases now r x a x' : auth_route cfg now r x = (a, x') ->
  (ex_sessions x' = ex_sessions x /\ (forall t, a <> LoggedIn t) /\
   (ex_seen x' = ex_seen x \/ exists id, isReplay cfg now id (ex_seen x) = (true, ex_seen x'))) \/
  exists event, login_ok now r event /\ a = LoggedIn (er_token r) /\
    isReplay cfg now (ev_id event) (ex_seen x) = (false, ex_seen x') /\
    ex_sessions x' = <[er_token r := {| ps_npub := npubEncode (ev_pubkey event); ps_expires := now + ec_ttl cfg |}]> (ex_sessions x).
Proof.
  unfold auth_route. destruct (normalized_authorization _) as [hdr|] eqn:En; [|intros [= <- <-]; left; auto].
  destruct (decodeEvent _) as [event|] eqn:Ed; [|intros [= <- <-]; left; auto].
  destruct (explorer_nip98 _ _ _ _ _) as [npub|e] eqn:Ev; [|intros [= <- <-]; left; auto].
  destruct (isReplay _ _ _ _) as [[] seen] eqn:Er; intros [= <- <-]; cbn.
  - left. split_and!; [done..|]. right. by exists (ev_id event).
  - right. exists event. split_and!; try done.
    destruct (explorer_nip98_Ok _ _ _ _ Ev) as (e & Ee & _ & Hsig & Hk & Hu & Hm & Hw & Ha).
    rewrite Ed in Ee. injection Ee as <-. constructor; eauto.
Qed.

(** Only POST /auth changes the state. *)
Lemma serve_cases now r x a x' : explorer_serve cfg now r x = (a, x') ->
  auth_route cfg now r x = (a, x') \/ (x' = x /\ forall t, a <> LoggedIn t).
Proof. unfold explorer_serve. intros E. repeat case_match; simplify_eq; auto. Qed.

Definition reaches_pgweb (a : ExReply) : option Forwarded :=
  match a with Relayed f _ => Some f | BackendDown f => Some f | _ => None end.

Lemma serve_forward now r x a x' f : explorer_serve cfg now r x = (a, x') -> reaches_pgweb a = Some f ->
  f = forwarded cfg r /\ (is_execute r = true -> isReadOnly (statement_of r) = true) /\
  exists t s, session_token r = Some t /\ ex_sessions x !! t = Some s /\ now < ps_expires s.
Proof.
  unfold explorer_serve. intros E Hf.
  destruct (String.eqb (er_url r) "/favicon.ico"); [injection E as <- <-; done|].
  destruct (String.eqb (er_url r) "/auth" && _).
  { destruct (auth_route_cases _ _ _ _ _ E) as [(_ & _ & _)|(ev & _ & -> & _)]; [|done].
    unfold auth_route in E. repeat case_match; simplify_eq; done. }
  destruct (authed now r x) eqn:Ea; [|injection E as <- <-; done]. cbn [negb] in E.
  destruct (is_execute r && negb (isReadOnly (statement_of r))) eqn:Eg; [injection E as <- <-; done|].
  split_and!.
  - repeat case_match; simplify_eq; cbn in Hf; congruence.
  - intros Hx. rewrite Hx in Eg. cbn in Eg. by apply negb_false_iff.
  - unfold authed in Ea. destruct (session_token r) as [[|c t]|] eqn:Et; try done.
    destruct (ex_sessions x !! String c t) as [s|] eqn:Es; [|done]. exists (String c t), s. split_and!; try done. lia.
Qed.

(** ** Runs *)

Lemma explorer_run_app a b x : explorer_run cfg (a ++ b) x =
  let (l1, x1) := explorer_run cfg a x in let (l2, x2) := explorer_run cfg b x1 in (l1 ++ l2, x2).
Proof.
  revert x. induction a as [|e a IH]; intros x; cbn; [by destruct (explorer_run _ b x)|].
  destruct (explorer_step cfg e x) as [r x1]. rewrite IH. destruct (explorer_run cfg a x1). by destruct (explorer_run cfg b _).
Qed.

Lemma explorer_run_length evs : forall x, length (explorer_run cfg evs x).1 = length evs.
Proof.
  induction evs as [|e evs IH]; intros x; cbn; [done|]. destruct (explorer_step cfg e x) as [r x1].
  specialize (IH x1). destruct (explorer_run cfg evs x1). cbn in *. by rewrite IH.
Qed.

(** The reply to the last event of a run. *)
Lemma run_snoc evs e x : explorer_run cfg (evs ++ [e]) x =
  ((explorer_run cfg evs x).1 ++ [(explorer_step cfg e (explorer_run cfg evs x).2).1],
   (explorer_step cfg e (explorer_run cfg evs x).2).2).
Proof.
  rewrite explorer_run_app. destruct (explorer_run cfg evs x) as [l x1]. cbn. by destruct (explorer_step cfg e x1).
Qed.

(** The [i]-th event of a run was served in the state the ones before it left. *)
Lemma run_at evs i e x : evs !! i = Some e ->
  (explorer_run cfg evs x).1 !! i = Some (explorer_step cfg e (explorer_run cfg (take i evs) x).2).1.
Proof.
  intros Hi. pose proof (take_drop_middle evs i e Hi) as Hsplit. rewrite <- Hsplit at 1.
  rewrite cons_middle, app_assoc, explorer_run_app.
  rewrite run_snoc. destruct (explorer_run cfg (drop (S i) evs) _) as [l2 x2]. cbn.
  rewrite <- app_assoc. rewrite lookup_app_r; rewrite explorer_run_length, length_take_le; try lia.
  - rewrite Nat.sub_diag. done.
  - apply lookup_lt_Some in Hi. lia.
  - apply lookup_lt_Some in Hi. lia.
Qed.

(** At place [j] of a run a session was opened. *)
Definition opened (evs : list ex_event) (j : nat) (t0 : Z) (r0 : ExRequest) (event : Event) : Prop :=
  evs !! j = Some (ExServe t0 r0) /\ login_ok t0 r0 event /\
  (explorer_run cfg evs explorer_start).1 !! j = Some (Some (LoggedIn (er_token r0))).

Lemma opened_app evs l j t0 r0 event : opened evs j t0 r0 event -> opened (evs ++ l) j t0 r0 event.
Proof.
  intros (Hj & Ho & Hr). split_and!; [by apply lookup_app_l_Some|done|]. rewrite explorer_run_app.
  destruct (explorer_run cfg evs explorer_start) as [l1 x1]. destruct (explorer_run cfg l x1). by apply lookup_app_l_Some.
Qed.

Lemma sessions_opened evs t s :
  ex_sessions (explorer_run cfg evs explorer_start).2 !! t = Some s ->
  exists j t0 r0 event, opened evs j t0 r0 event /\ er_token r0 = t /\ ps_expires s = t0 + ec_ttl cfg.
Proof.
  induction evs as [|e evs IH] using rev_ind; [done|]. rewrite run_snoc. cbn [snd].
  assert (Hold : ex_sessions (explorer_run cfg evs explorer_start).2 !! t = Some s ->
    exists j t0 r0 event, opened (evs ++ [e]) j t0 r0 event /\ er_token r0 = t /\ ps_expires s = t0 + ec_ttl cfg).
  { intros (j & t0 & r0 & event & Ho & Ht)%IH. exists j, t0, r0, event. split; [by apply opened_app|done]. }
  destruct e as [now r|now]; cbn.
  - destruct (explorer_serve cfg now r _) as [a x'] eqn:Es. cbn. intros Hs.
    destruct (serve_cases _ _ _ _ _ Es) as [Ea|[-> _]]; [|by apply Hold].
    destruct (auth_route_cases _ _ _ _ _ Ea) as [(E & _)|(event & Ho & -> & _ & E)]; rewrite E in Hs; [by apply Hold|].
    destruct (decide (er_token r = t)) as [<-|Hne]; [|rewrite lookup_insert_ne in Hs by done; by apply Hold].
    rewrite lookup_insert_eq in Hs. injection Hs as <-. exists (length evs), now, r, event. split; [|done]. split_and!; [|done|].
    + by rewrite lookup_app_r, Nat.sub_diag by lia.
    + rewrite run_snoc. cbn. rewrite lookup_app_r; rewrite explorer_run_length; [|lia]. rewrite Nat.sub_diag. cbn.
      by rewrite Es.
  - intros [Hs _]%map_lookup_filter_Some. by apply Hold.
Qed.

Lemma drop_header_absent k l v : (k, v) ∉ drop_header k l.
Proof. intros [_ E]%list_elem_of_In%filter_In. cbn in E. by rewrite String.eqb_refl in E. Qed.

Lemma drop_header_sub k l p : p ∈ drop_header k l -> p ∈ l.
Proof. rewrite !list_elem_of_In. by intros [? _]%filter_In. Qed.

Lemma forwarded_secrets r v : ("cookie", v) ∉ fw_headers (forwarded cfg r) /\ ("authorization", v) ∉ fw_headers (forwarded cfg r).
Proof.
  split; intros [Hin|Hin]%elem_of_app; try (by apply list_elem_of_singleton in Hin); apply drop_header_sub in Hin.
  - by apply drop_header_sub, drop_header_absent in Hin.
  - by apply drop_header_absent in Hin.
Qed.


(** ** One signature, one session *)

Definition time_of (e : ex_event) : Z := match e with ExServe now _ => now | ExPrune now => now end.

Lemma isReplay_kept now id id' seen exp : now <= exp -> seen !! id = Some exp ->
  (isReplay cfg now id' seen).2 !! id = Some exp /\ (isReplay cfg now id seen).1 = true.
Proof.
  intros Hle Hs. unfold isReplay.
  assert (Hf : filter (fun p : string * Z => (p.2 <? now) = false) seen !! id = Some exp).
  { apply map_lookup_filter_Some. split; [done|]. cbn. lia. }
  rewrite Hf. split; [|done]. destruct (filter _ seen !! id') eqn:E'; cbn; [done|].
  rewrite lookup_insert_ne; [done|]. intros ->. congruence.
Qed.

Lemma step_keeps_seen e x id exp : time_of e <= exp -> ex_seen x !! id = Some exp ->
  ex_seen (explorer_step cfg e x).2 !! id = Some exp.
Proof.
  intros Hle Hs. destruct e as [now r|now]; cbn in *; [|done].
  destruct (explorer_serve cfg now r x) as [a x'] eqn:Es. cbn.
  destruct (serve_cases _ _ _ _ _ Es) as [Ea|[-> _]]; [|done].
  destruct (auth_route_cases _ _ _ _ _ Ea) as [(_ & _ & [->|[id' Er]])|(ev & _ & _ & Er & _)]; [done| |].
  - pose proof (isReplay_kept now id id' (ex_seen x) exp Hle Hs) as [Hk _]. by rewrite Er in Hk.
  - pose proof (isReplay_kept now id (ev_id ev) (ex_seen x) exp Hle Hs) as [Hk _]. by rewrite Er in Hk.
Qed.

Lemma run_take_S evs k e : evs !! k = Some e ->
  (explorer_run cfg (take (S k) evs) explorer_start).2 =
  (explorer_step cfg e (explorer_run cfg (take k evs) explorer_start).2).2.
Proof. intros Hk. rewrite (take_S_r _ _ _ Hk), run_snoc. done. Qed.

(** What opening a session does to the used events. *)
Lemma opened_step evs j t0 r0 event event' : opened evs j t0 r0 event -> login_ok t0 r0 event' ->
  let x := (explorer_run cfg (take j evs) explorer_start).2 in
  (isReplay cfg t0 (ev_id event') (ex_seen x)).1 = false /\
  ex_seen (explorer_step cfg (ExServe t0 r0) x).2 !! ev_id event' = Some (t0 + ec_window cfg * 2000).
Proof.
  intros (Hj & Ho & Hr) Ho'. cbn zeta. rewrite (run_at _ _ _ _ Hj) in Hr. revert Hr.
  generalize (explorer_run cfg (take j evs) explorer_start).2 as x. intros x. cbn.
  destruct (explorer_serve cfg t0 r0 x) as [a x'] eqn:Es. cbn. intros [= ->].
  destruct (serve_cases _ _ _ _ _ Es) as [Ea|[_ Hn]]; [|by destruct (Hn (er_token r0))].
  destruct (auth_route_cases _ _ _ _ _ Ea) as [(_ & Hn & _)|(e & He & _ & Er & _)]; [by destruct (Hn (er_token r0))|].
  assert (ev_id event' = ev_id e) as ->.
  { destruct Ho' as [(n1 & E1 & D1) _ _ _ _ _ _], He as [(n2 & E2 & D2) _ _ _ _ _ _]. congruence. }
  rewrite Er. split; [done|]. unfold isReplay in Er. destruct (filter _ _ !! _) in Er; [done|]. injection Er as Er. cbn. rewrite <- Er. apply lookup_insert_eq.
Qed.

(** A signature opens a second session only after twice the window. When time
    does not run backwards, two sessions opened with one event are more than
    2 * MAX_WINDOW_S seconds apart. *)
Theorem login_again evs j1 j2 t1 t2 r1 r2 e1 e2 :
  (forall i k e e', (i <= k)%nat -> evs !! i = Some e -> evs !! k = Some e' -> time_of e <= time_of e') ->
  (j1 < j2)%nat -> opened evs j1 t1 r1 e1 -> opened evs j2 t2 r2 e2 -> ev_id e1 = ev_id e2 ->
  t1 + ec_window cfg * 2000 < t2.
Proof.
  intros Hsort Hlt Ho1 Ho2 Hid. apply Z.lt_nge. intros Hle.
  destruct (opened_step _ _ _ _ _ _ Ho1 (proj1 (proj2 Ho1))) as [_ Hseen].
  destruct (opened_step _ _ _ _ _ _ Ho2 (proj1 (proj2 Ho2))) as [Hnew _].
  set (exp := t1 + ec_window cfg * 2000) in *. destruct Ho1 as (Hj1 & _ & _), Ho2 as (Hj2 & _ & _).
  assert (Hkept : forall n, (S j1 + n <= j2)%nat ->
    ex_seen (explorer_run cfg (take (S j1 + n) evs) explorer_start).2 !! ev_id e1 = Some exp).
  { induction n as [|n IH]; intros Hn; [by rewrite Nat.add_0_r, (run_take_S _ _ _ Hj1)|].
    destruct (lookup_lt_is_Some_2 evs (S j1 + n)) as [e He]; [apply lookup_lt_Some in Hj2; lia|].
    rewrite Nat.add_succ_r, (run_take_S _ _ _ He). apply step_keeps_seen; [|apply IH; lia].
    transitivity t2; [|done]. by apply (Hsort (S j1 + n)%nat j2 e (ExServe t2 r2)); [lia|..]. }
  specialize (Hkept (j2 - S j1)%nat ltac:(lia)). replace (S j1 + (j2 - S j1))%nat with j2 in Hkept by lia.
  destruct (isReplay_kept t2 (ev_id e1) (ev_id e1) _ exp Hle Hkept) as [_ Hr]. rewrite Hid in Hr. congruence.
Qed.
End Facts.

(** ** Runs *)

Module ExplorerRuns.

Definition EXNOW : Z := 1790812800.

(** An event signed at second [EXNOW] travels as the name of its signer. *)
Definition login_event (who : string) : Event :=
  {| ev_id := "id:" +:+ who; ev_pubkey := who; ev_created_at := num_Z EXNOW; ev_kind := num_Z 27235;
     ev_tags := [["u"; "https://pg/"]; ["method"; "GET"]]; ev_content := ""; ev_sig := "sig:" +:+ who |}.
#[export] Instance namedNostr : Nostr := {|
  secretKey := string;
  decodeEvent s := Some (login_event s);
  encodeEvent e := ev_pubkey e;
  verifyEvent e := String.eqb (ev_sig e) ("sig:" +:+ ev_pubkey e);
  finalizeEvent t sk := login_event sk;
  getPublicKey sk := sk;
  npubEncode pk := "npub1" +:+ pk;
  nsecDecode s := Some s;
  keyFromHex s := s;
  sha256 s := s;
  stringify v := ""
|}.

(** The body of POST /auth is the header itself, the body of an execute request
    its statement. *)
#[export] Instance plainJson : JsonText :=
  {| json_parse s := Some (JObj [("authorization", JStr s)]); json_stringify v := "" |}.
#[export] Instance plainUrl : UrlLib := {| parseUrl s := Some ("http:", s); searchParam q name := Some q |}.

Definition cfg_admin : ExplorerConfig :=
  {| ec_allowAll := false; ec_allowList := allow_list (Some "npub1carol, NPUB1ALICE") None; ec_window := 300;
     ec_ttl := 8 * 3600000; ec_url := "https://pg/"; ec_pgweb := "http://127.0.0.1:8081"; ec_host := "127.0.0.1:8081" |}.

Definition login (who token : string) : ExRequest :=
  {| er_method := "POST"; er_url := "/auth"; er_headers := []; er_body := "Nostr " +:+ who; er_token := token;
     er_pgweb := None |}.
Definition with_cookie (method url body : string) : ExRequest :=
  {| er_method := method; er_url := url; er_headers := [("cookie", "a=b; pgx_session=t1"); ("accept", "*")]; er_body := body;
     er_token := "unused"; er_pgweb := Some {| pa_status := 200; pa_headers := []; pa_body := "rows" |} |}.

Definition replies (evs : list ex_event) : list (option ExReply) := (explorer_run cfg_admin evs explorer_start).1.
Definition was_forwarded (a : option (option ExReply)) : bool :=
  match a with Some (Some a) => match reaches_pgweb a with Some _ => true | None => false end | _ => false end.

(** Alice signs at second [EXNOW]; she may log in from 300 seconds before to 300 after. *)
Ltac opens := split; [reflexivity|]; split; [constructor|vm_compute; reflexivity];
  [exists "Nostr alice"; split; vm_compute; reflexivity
  |vm_compute; reflexivity|vm_compute; reflexivity|vm_compute; reflexivity|vm_compute; reflexivity
  |exists (inject_Z EXNOW); split; [reflexivity|vm_compute; discriminate]
  |right; apply list_elem_of_In; vm_compute; tauto].

Definition visit : list ex_event :=
  [ExServe (EXNOW * 1000) (with_cookie "POST" "/api/query" "select 1"); ExServe (EXNOW * 1000 + 5) (login "alice" "t1");
   ExPrune (EXNOW * 1000 + 60000); ExServe (EXNOW * 1000 + 70000) (with_cookie "POST" "/api/query" "select 1")].


(** The second login is in the last second of the window, when the first has
    just been forgotten. *)
Definition two_logins : list ex_event :=
  [ExServe ((EXNOW - 300) * 1000) (login "alice" "t1"); ExServe ((EXNOW + 300) * 1000 + 1) (login "alice" "t2")].

Lemma login_again_witness :
  replies two_logins = [Some (LoggedIn "t1"); Some (LoggedIn "t2")] /\
  (EXNOW - 300) * 1000 + ec_window cfg_admin * 2000 < (EXNOW + 300) * 1000 + 1.
Proof.
  split; [vm_compute; reflexivity|].
  apply (login_again cfg_admin two_logins 0 1 ((EXNOW - 300) * 1000) ((EXNOW + 300) * 1000 + 1) (login "alice" "t1") (login "alice" "t2")
           (login_event "alice") (login_event "alice")); [|lia|opens|opens|reflexivity].
  intros [|[|i]] [|[|k]] e e' Hle Hi Hk; try done; try lia; injection Hi as <-; injection Hk as <-; vm_compute; discriminate.
Defined.

(** The guard lets writes through. After a login, each of these statements is
    forwarded: comment marks inside a string hide the rest of the line from the
    guard, EXPLAIN ANALYZE executes the statement it explains, SELECT INTO
    creates a table; and a GET of the same address is not looked at. The page
    promises that the guard "must never be bypassable". *)
Theorem guard_bypassed :
  let sent r := was_forwarded (replies [ExServe (EXNOW * 1000) (login "alice" "t1"); ExServe (EXNOW * 1000) r] !! 1%nat) in
  sent (with_cookie "POST" "/api/query" "delete from notes") = false /\
  sent (with_cookie "POST" "/api/query" "select 1; delete from notes") = false /\
  sent (with_cookie "POST" "/api/query" "select '--'; delete from notes") = true /\
  sent (with_cookie "POST" "/api/query" "explain analyze delete from notes") = true /\
  sent (with_cookie "POST" "/api/query" "select * into copy from notes") = true /\
  sent (with_cookie "GET" "/api/query?query=delete from notes" "") = true.
Proof. vm_compute. auto 10. Qed.

(** A comment is no way around it, and a modifying WITH is refused. *)
Example guard_refuses :
  isReadOnly "/* select */ delete from notes" = false /\
  isReadOnly "with d as (delete from notes returning *) select * from d" = false /\
  isReadOnly "-- count
    (SELECT count(id) FROM notes);" = true.
Proof. vm_compute. auto. Qed.

(** The list is read regardless of case; a key that is not on it is refused. *)
Example stranger_refused : replies [ExServe (EXNOW * 1000) (login "bob" "t1")] = [Some (AuthRefused 401 "npub not allowed")].
Proof. vm_compute. reflexivity. Qed.
End ExplorerRuns.
