(* ===== verification/Signer.v ===== *)
(** * The browser signer (packages/browser-signer/src)

    The service worker that keeps the keys ([core.ts], [background.ts]), the
    relay between a page and the worker ([content/relay.ts]) and the page's own
    script ([content/inpage.ts]). The worker's handlers wait for
    chrome.storage, so a handler is a [task]: what it does until it waits, what
    it waits for, what it does with the answer. Requests interleave at these
    points. NIP-19, NIP-49 and event signing are the class [SignerLib]. *)

From Stdlib Require Import QArith Ascii.
From S2P Require Import Prelude Js Nip98.
#[local] Open Scope Z_scope.

(** ** Values *)

(** [a === b]; two objects are never the same one after storage copied them. *)
Definition strict_eq (a b : jsval) : bool :=
  match a, b with
  | JUndefined, JUndefined => true
  | JNull, JNull => true
  | JBool x, JBool y => Bool.eqb x y
  | JStr x, JStr y => String.eqb x y
  | JNum (Fin x), JNum (Fin y) => Qeq_bool x y
  | JNum PInf, JNum PInf => true
  | JNum NInf, JNum NInf => true
  | _, _ => false
  end.

Definition js_truthy (v : jsval) : bool :=
  match v with
  | JUndefined | JNull => false
  | JBool b => b
  | JNum (Fin q) => negb (Qeq_bool q 0)
  | JNum NaN => false
  | JNum _ => true
  | JStr s => negb (String.eqb s "")
  | JArr _ | JObj _ => true
  end.

Definition obj_opt (k : string) (o : option string) : string * jsval :=
  (k, match o with Some s => JStr s | None => JNull end).

(** What the worker uses of nostr-tools; a thrown error is its message. *)
Class SignerLib `{Nostr} := {
  (** [nip19.decode(s)]: its type, and the key when that is "nsec" *)
  nip19Decode : string -> exc string (string * option secretKey);
  nip49Encrypt : secretKey -> jsval -> exc string string;
  nip49Decrypt : string -> jsval -> exc string secretKey;
  (** [finalizeEvent] of a template nobody checked *)
  finalizeAny : jsval -> secretKey -> exc string jsval;
  (** [String(value)] *)
  toText : jsval -> string
}.

Section Worker.
Context `{SignerLib}.

(** ** State *)

Record StoredProfile := { sp_ncryptsec : string; sp_npub : string; sp_label : jsval; sp_createdAt : Z }.
Record AllowlistEntry := { ae_origin : jsval; ae_addedAt : Z }.

(** chrome.storage.local: a key that was never set is absent. *)
Record Store := { st_profiles : option (list StoredProfile); st_allowlist : option (list AllowlistEntry) }.

(** The worker's memory, with the milliseconds its clock shows and the
    deadline of the idle timer. *)
Record Mem := {
  activeSecret : option secretKey;
  activeNpub : option string;
  idleTimer : option Z;
  clock : Z
}.

Definition IDLE_MS : Z := 5 * 60 * 1000.

Definition scheduleIdleClear (m : Mem) : Mem :=
  {| activeSecret := activeSecret m; activeNpub := activeNpub m; idleTimer := Some (clock m + IDLE_MS); clock := clock m |}.

Definition lock (m : Mem) : Mem :=
  {| activeSecret := None; activeNpub := None; idleTimer := None; clock := clock m |}.

Definition getProfiles (s : Store) : list StoredProfile := default [] (st_profiles s).
Definition getAllowlist (s : Store) : list AllowlistEntry := default [] (st_allowlist s).
Definition setProfiles (l : list StoredProfile) (s : Store) : Store :=
  {| st_profiles := Some l; st_allowlist := st_allowlist s |}.
Definition setAllowlist (l : list AllowlistEntry) (s : Store) : Store :=
  {| st_profiles := st_profiles s; st_allowlist := Some l |}.

(** ** Tasks *)

(** A handler that answered, waits for a read, waits for a write, or may go on. *)
Inductive task :=
| Done (r : exc string jsval)
| Get (k : Store -> Mem -> Mem * task)
| Put (f : Store -> Store) (k : Mem -> Mem * task)
| Ready (k : Mem -> Mem * task).

Definition finish (r : exc string jsval) (m : Mem) : Mem * task := (m, Done r).
Definition ok_data (fields : list (string * jsval)) : jsval := JObj (("ok", JBool true) :: fields).
Definition fail_data (error : string) : jsval := JObj [("ok", JBool false); ("error", JStr error)].

(** ** core.ts *)

(** [label || `Key ${n + 1}`] *)
Definition label_or (label : jsval) (n : nat) : jsval :=
  if js_truthy label then label else JStr ("Key " +:+ Z_to_string (Z.of_nat n + 1)).

Definition npub_of (secret : secretKey) : string := npubEncode (getPublicKey secret).

Definition store_profile (ncryptsec npub : string) (label : jsval) (profiles : list StoredProfile) (m : Mem) : Mem * task :=
  (m, Put (setProfiles (profiles ++ [{| sp_ncryptsec := ncryptsec; sp_npub := npub;
                                       sp_label := label_or label (length profiles); sp_createdAt := clock m |}]))
          (finish (Ok (JObj [("npub", JStr npub)])))).

Definition importKey (nsec passphrase label : jsval) : task :=
  match nsec with
  | JStr text =>
      match nip19Decode (trim text) with
      | Throw e => Done (Throw e)
      | Ok (ty, key) =>
          match (if String.eqb ty "nsec" then key else None) with
          | None => Done (Throw "Not an nsec")
          | Some secret =>
              match nip49Encrypt secret passphrase with
              | Throw e => Done (Throw e)
              | Ok ncryptsec =>
                  Get (fun s m =>
                    let profiles := getProfiles s in
                    if existsb (fun p => String.eqb (sp_npub p) (npub_of secret)) profiles
                    then (m, Done (Throw "Key already imported"))
                    else store_profile ncryptsec (npub_of secret) label profiles m)
              end
          end
      end
  | _ => Done (Throw "nsec.trim is not a function")
  end.

(** [secret] is what generateSecretKey drew. *)
Definition generateKey (secret : secretKey) (passphrase label : jsval) : task :=
  match nip49Encrypt secret passphrase with
  | Throw e => Done (Throw e)
  | Ok ncryptsec => Get (fun s m => store_profile ncryptsec (npub_of secret) label (getProfiles s) m)
  end.

Definition removeProfile (npub : jsval) : task :=
  Get (fun s m =>
    (m, Put (setProfiles (List.filter (fun p => negb (strict_eq (JStr (sp_npub p)) npub)) (getProfiles s)))
            (fun m => let active := match activeNpub m with Some n => JStr n | None => JNull end in
                      (if strict_eq active npub then lock m else m, Done (Ok JUndefined))))).

Definition unlock (npub passphrase : jsval) : task :=
  Get (fun s m =>
    match find_first (fun p => strict_eq (JStr (sp_npub p)) npub) (getProfiles s) with
    | None => (m, Done (Ok (fail_data "Unknown profile")))
    | Some profile =>
        match nip49Decrypt (sp_ncryptsec profile) passphrase with
        | Ok secret =>
            (scheduleIdleClear {| activeSecret := Some secret; activeNpub := Some (sp_npub profile);
                                  idleTimer := idleTimer m; clock := clock m |},
             Done (Ok (ok_data [])))
        | Throw _ => (m, Done (Ok (fail_data "Wrong passphrase")))
        end
    end).

Definition profile_view (p : StoredProfile) : jsval :=
  JObj [("npub", JStr (sp_npub p)); ("label", sp_label p); ("createdAt", JNum (num_Z (sp_createdAt p)))].

Definition signer_status : task :=
  Get (fun s m =>
    (m, Done (Ok (JObj [("unlocked", JBool (bool_decide (is_Some (activeSecret m))));
                        obj_opt "activeNpub" (activeNpub m);
                        ("profiles", JArr (map profile_view (getProfiles s)))])))).

Definition entry_view (e : AllowlistEntry) : jsval :=
  JObj [("origin", ae_origin e); ("addedAt", JNum (num_Z (ae_addedAt e)))].

Definition allowlist_data : task :=
  Get (fun s m => (m, Done (Ok (JArr (map entry_view (getAllowlist s)))))).

Definition setOriginAllowed (origin allowed : jsval) : task :=
  Get (fun s m =>
    let others := List.filter (fun e => negb (strict_eq (ae_origin e) origin)) (getAllowlist s) in
    let next := if js_truthy allowed then others ++ [{| ae_origin := origin; ae_addedAt := clock m |}] else others in
    (m, Put (setAllowlist next) (finish (Ok (ok_data []))))).

Definition isOriginAllowed (origin : string) (s : Store) : bool :=
  existsb (fun e => strict_eq (ae_origin e) (JStr origin)) (getAllowlist s).

Definition getActivePublicKey (m : Mem) : exc string jsval :=
  match activeSecret m with
  | None => Ok (fail_data "Signer locked")
  | Some secret => Ok (ok_data [("pubkey", JStr (getPublicKey secret))])
  end.

Definition sign_event (template : jsval) (m : Mem) : exc string jsval :=
  match activeSecret m with
  | None => Ok (fail_data "Signer locked")
  | Some secret =>
      match finalizeAny template secret with
      | Ok event => Ok (ok_data [("event", event)])
      | Throw e => Throw e
      end
  end.

(** ** background.ts *)

(** The origin gate, then [act]. *)
Definition requireAllowed (origin : option string) (act : Mem -> exc string jsval) : task :=
  match origin with
  | None => Done (Throw "Unknown caller origin")
  | Some o =>
      if String.eqb o "" then Done (Throw "Unknown caller origin") else
      Get (fun s m => if isOriginAllowed o s then (m, Ready (fun m => (m, Done (act m))))
                      else (m, Done (Throw ("Origin not enabled: " +:+ o))))
  end.

(** A message is an object; [assoc] reads a field. *)
Definition message := list (string * jsval).

Definition handle (fresh : secretKey) (msg : message) (origin : option string) (m : Mem) : Mem * task :=
  match assoc "type" msg with
  | JStr ty =>
      if String.eqb ty "status" then (m, signer_status)
      else if String.eqb ty "unlock" then (m, unlock (assoc "npub" msg) (assoc "passphrase" msg))
      else if String.eqb ty "lock" then (lock m, Done (Ok (ok_data [])))
      else if String.eqb ty "importKey" then
        (m, importKey (assoc "nsec" msg) (assoc "passphrase" msg) (assoc "label" msg))
      else if String.eqb ty "generateKey" then (m, generateKey fresh (assoc "passphrase" msg) (assoc "label" msg))
      else if String.eqb ty "removeProfile" then (m, removeProfile (assoc "npub" msg))
      else if String.eqb ty "allowlist" then (m, allowlist_data)
      else if String.eqb ty "setOriginAllowed" then (m, setOriginAllowed (assoc "origin" msg) (assoc "allowed" msg))
      else if String.eqb ty "pubkey" then (m, requireAllowed origin getActivePublicKey)
      else if String.eqb ty "signEvent" then (m, requireAllowed origin (sign_event (assoc "event" msg)))
      else (m, Done (Throw ("Unknown message type: " +:+ ty)))
  | v => (m, Done (Throw ("Unknown message type: " +:+ toText v)))
  end.

(** The listener's reply to the sender. *)
Definition worker_reply (r : exc string jsval) : jsval :=
  match r with
  | Ok data => JObj [("ok", JBool true); ("data", data)]
  | Throw error => JObj [("ok", JBool false); ("error", JStr error)]
  end.

(** ** content/relay.ts *)

(** The message a page's request becomes, or the reply that ends it. The fields
    of [args] come after [type], so an object's own [type] replaces it. *)
Definition relay (method : string) (args : jsval) : jsval + message :=
  if negb (String.eqb method "getPublicKey") && negb (String.eqb method "signEvent") then
    inl (fail_data ("Unsupported method: " +:+ method))
  else
    let base := [("type", JStr (if String.eqb method "getPublicKey" then "pubkey" else "signEvent"))] in
    inr (match args with JObj fields => fields ++ base | _ => base end).

(** ** content/inpage.ts *)

Inductive settled := Resolved (v : jsval) | Rejected (error : string).

Record Inpage := { in_pending : gmap Z unit; in_nextId : Z; in_settled : gmap Z settled }.

Definition in_call (p : Inpage) : Z * Inpage :=
  (in_nextId p, {| in_pending := <[in_nextId p := tt]> (in_pending p); in_nextId := in_nextId p + 1;
                   in_settled := in_settled p |}).

Definition in_settle (id : Z) (v : settled) (p : Inpage) : Inpage :=
  match in_pending p !! id with
  | None => p
  | Some _ => {| in_pending := delete id (in_pending p); in_nextId := in_nextId p; in_settled := <[id := v]> (in_settled p) |}
  end.

Definition in_response (id : Z) (reply : jsval) (p : Inpage) : Inpage :=
  in_settle id
    (if js_truthy (jget reply "ok") then Resolved (jget reply "data")
     else Rejected (match jget reply "error" with JStr e => e | JUndefined | JNull => "signer error" | v => toText v end)) p.

Definition in_timeout (id : Z) : Inpage -> Inpage := in_settle id (Rejected "Signer request timed out").

(** ** The extension as a system

    The worker with the requests it is busy with. Any request may arrive at any
    time, storage answers in any order, time passes, and the browser may stop
    the worker, which loses its memory and the requests it had not answered. *)

Record Request := { rq_message : message; rq_origin : option string }.

Record Sys := { sy_mem : Mem; sy_store : Store; sy_tasks : list (Request * task) }.

Inductive sys_event :=
| Receive (fresh : secretKey) (r : Request)
| Answer (i : nat)
| Resume (i : nat)
| Wait (d : Z)
| Suspend.

Definition idle_advance (d : Z) (m : Mem) : Mem :=
  let now := clock m + Z.max 0 d in
  match idleTimer m with
  | Some deadline =>
      if deadline <=? now then {| activeSecret := None; activeNpub := None; idleTimer := None; clock := now |}
      else {| activeSecret := activeSecret m; activeNpub := activeNpub m; idleTimer := Some deadline; clock := now |}
  | None => {| activeSecret := activeSecret m; activeNpub := activeNpub m; idleTimer := None; clock := now |}
  end.

Definition is_done (t : task) : bool := match t with Done _ => true | _ => false end.

Definition sys_step (e : sys_event) (y : Sys) : Sys :=
  match e with
  | Receive fresh r =>
      let (m, t) := handle fresh (rq_message r) (rq_origin r) (sy_mem y) in
      {| sy_mem := m; sy_store := sy_store y; sy_tasks := sy_tasks y ++ [(r, t)] |}
  | Answer i =>
      match sy_tasks y !! i with
      | Some (r, Get k) =>
          {| sy_mem := sy_mem y; sy_store := sy_store y; sy_tasks := <[i := (r, Ready (k (sy_store y)))]> (sy_tasks y) |}
      | Some (r, Put f k) =>
          {| sy_mem := sy_mem y; sy_store := f (sy_store y); sy_tasks := <[i := (r, Ready k)]> (sy_tasks y) |}
      | _ => y
      end
  | Resume i =>
      match sy_tasks y !! i with
      | Some (r, Ready k) =>
          let (m, t) := k (sy_mem y) in
          {| sy_mem := m; sy_store := sy_store y; sy_tasks := <[i := (r, t)]> (sy_tasks y) |}
      | _ => y
      end
  | Wait d => {| sy_mem := idle_advance d (sy_mem y); sy_store := sy_store y; sy_tasks := sy_tasks y |}
  | Suspend => {| sy_mem := lock (sy_mem y); sy_store := sy_store y;
                  sy_tasks := List.filter (fun rt => is_done (snd rt)) (sy_tasks y) |}
  end.

Definition sys_run (evs : list sys_event) (y : Sys) : Sys := fold_left (fun y e => sys_step e y) evs y.
End Worker.
