(* ===== verification/SignerFacts.v ===== *)
(** * What the browser signer guarantees, and what it does not

    [task_safe] reasons about a handler at its waiting points; the theorems hold
    for every interleaving of requests, storage answers, timers and restarts. *)

From Stdlib Require Import Ascii.
From S2P Require Import Prelude Js Nip98 Signer.
#[local] Open Scope Z_scope.

Lemma elem_of_insert_inv {A} (x a : A) (i : nat) (l : list A) : x ∈ <[i := a]> l -> x = a \/ x ∈ l.
Proof.
  intros [j Hj]%list_elem_of_lookup_1. apply list_lookup_insert_Some in Hj as [(_ & -> & _)|[_ Hj]]; [by left|].
  right. by eapply list_elem_of_lookup_2.
Qed.

Section Facts.
Context `{SignerLib}.

(** A task that, when reads see stores in [PS], keeps the memory in [PM],
    writes only stores in [PW] and answers in [Q]. *)
Fixpoint task_safe (PS : Store -> Prop) (PM : Mem -> Prop) (PW : Store -> Prop) (Q : exc string jsval -> Prop)
    (t : task) : Prop :=
  match t with
  | Done r => Q r
  | Get k => forall s m, PS s -> PM m -> match k s m with (m', t') => PM m' /\ task_safe PS PM PW Q t' end
  | Put f k => (forall s, PW s -> PW (f s)) /\
      forall m, PM m -> match k m with (m', t') => PM m' /\ task_safe PS PM PW Q t' end
  | Ready k => forall m, PM m -> match k m with (m', t') => PM m' /\ task_safe PS PM PW Q t' end
  end.

Lemma task_safe_answer PS PM PW Q k s :
  PS s -> task_safe PS PM PW Q (Get k) -> task_safe PS PM PW Q (Ready (k s)).
Proof. intros Hs Hk m Hm. by apply Hk. Qed.

Lemma task_safe_written PS PM PW Q f k :
  task_safe PS PM PW Q (Put f k) -> task_safe PS PM PW Q (Ready k).
Proof. by intros [_ Hk]. Qed.

(** ** Only an origin that was enabled is served *)

Definition is_nip07 (msg : message) : bool :=
  match assoc "type" msg with JStr t => String.eqb t "pubkey" || String.eqb t "signEvent" | _ => false end.

Definition never_listed (o : option string) (s : Store) : Prop :=
  match o with Some o => isOriginAllowed o s = false | None => True end.

(** An answer that hands out neither a signed event nor the public key, and is
    an error when the message asked for one of them. *)
Definition withheld (msg : message) (r : exc string jsval) : Prop :=
  (forall v, r = Ok v -> jget v "event" = JUndefined /\ jget v "pubkey" = JUndefined) /\
  (is_nip07 msg = true -> is_ok r = false).

Definition refusing (o : option string) (msg : message) : task -> Prop :=
  task_safe (never_listed o) (fun _ => True) (fun _ => True) (withheld msg).

Lemma withheld_throw msg e : withheld msg (Throw e).
Proof. split; [|done]. intros v Hv. discriminate. Qed.

Lemma withheld_ok msg v :
  is_nip07 msg = false -> jget v "event" = JUndefined -> jget v "pubkey" = JUndefined -> withheld msg (Ok v).
Proof. intros Hn H1 H2. split; [|congruence]. by intros ? [= <-]. Qed.

Lemma requireAllowed_refuses o msg act : refusing o msg (requireAllowed o act).
Proof.
  destruct o as [o|]; [|apply withheld_throw]. unfold requireAllowed. destruct (String.eqb o ""); [apply withheld_throw|].
  intros s m Hs _. cbn in Hs. rewrite Hs. split; [done | apply withheld_throw].
Qed.

(** The handlers that no origin gates. *)
Lemma importKey_refuses o msg nsec pass label : is_nip07 msg = false -> refusing o msg (importKey nsec pass label).
Proof.
  intros Hn. unfold importKey. destruct nsec; try apply withheld_throw.
  destruct (nip19Decode _) as [[ty key]|e]; [|apply withheld_throw].
  destruct (if String.eqb ty "nsec" then key else None) as [secret|]; [|apply withheld_throw].
  destruct (nip49Encrypt secret pass) as [c|e]; [|apply withheld_throw].
  intros st m _ _. destruct (existsb _ _); [split; [done | apply withheld_throw]|].
  split; [done|]. split; [done|]. intros m' _. split; [done|]. by apply withheld_ok.
Qed.

Lemma generateKey_refuses o msg fresh pass label : is_nip07 msg = false -> refusing o msg (generateKey fresh pass label).
Proof.
  intros Hn. unfold generateKey. destruct (nip49Encrypt fresh pass) as [c|e]; [|apply withheld_throw].
  intros st m _ _. split; [done|]. split; [done|]. intros m' _. split; [done|]. by apply withheld_ok.
Qed.

Lemma unlock_refuses o msg npub pass : is_nip07 msg = false -> refusing o msg (unlock npub pass).
Proof.
  intros Hn st m _ _. destruct (find_first _ _) as [p|]; [|split; [done|]; by apply withheld_ok].
  destruct (nip49Decrypt _ _); (split; [done|]; by apply withheld_ok).
Qed.

Lemma handle_refuses fresh msg o m : refusing o msg (handle fresh msg o m).2.
Proof.
  unfold handle. destruct (assoc "type" msg) as [| | | |ty| |] eqn:Et; try apply withheld_throw.
  assert (ty <> "pubkey" -> ty <> "signEvent" -> is_nip07 msg = false) as Hn.
  { intros H1 H2. unfold is_nip07. rewrite Et. by rewrite (proj2 (String.eqb_neq _ _) H1), (proj2 (String.eqb_neq _ _) H2). }
  repeat match goal with |- context [String.eqb ty ?k] => destruct (String.eqb_spec ty k) as [->|?] end;
    try (specialize (Hn ltac:(done) ltac:(done))).
  - intros st m' _ _. split; [done|]. by apply withheld_ok.
  - by apply unlock_refuses.
  - by apply withheld_ok.
  - by apply importKey_refuses.
  - by apply generateKey_refuses.
  - intros st m' _ _. split; [done|]. split; [done|]. intros m2 _. split; [done|]. by apply withheld_ok.
  - intros st m' _ _. split; [done|]. by apply withheld_ok.
  - intros st m' _ _. split; [done|]. split; [done|]. intros m2 _. split; [done|]. by apply withheld_ok.
  - apply requireAllowed_refuses.
  - apply requireAllowed_refuses.
  - apply withheld_throw.
Qed.

(** Every request of an origin, in whatever state it is, will not be granted. *)
Definition all_refusing (o : option string) (y : Sys) : Prop :=
  forall rt, rt ∈ sy_tasks y -> rq_origin (fst rt) = o -> refusing o (rq_message (fst rt)) rt.2.

Lemma sys_step_refuses o e y : never_listed o (sy_store y) -> all_refusing o y -> all_refusing o (sys_step e y).
Proof.
  intros Hn Hall rt. destruct e as [fresh r|i|i|d|]; cbn [sys_step].
  - destruct (handle fresh (rq_message r) (rq_origin r) (sy_mem y)) as [m t] eqn:Eh. cbn.
    intros [Hin| ->%list_elem_of_singleton]%elem_of_app Ho; [by apply Hall|]. cbn in *.
    rewrite <- Ho. pose proof (handle_refuses fresh (rq_message r) (rq_origin r) (sy_mem y)) as Hr.
    by rewrite Eh in Hr.
  - destruct (sy_tasks y !! i) as [[r [x|k|f k|k]]|] eqn:Ei; try apply Hall; cbn.
    + intros Hin Hf. apply elem_of_insert_inv in Hin as [->|Hin]; [|by apply Hall].
      apply task_safe_answer; [done|]. apply (Hall (r, Get k)); [by eapply list_elem_of_lookup_2|done].
    + intros Hin Hf. apply elem_of_insert_inv in Hin as [->|Hin]; [|by apply Hall].
      apply (task_safe_written _ _ _ _ f k), (Hall (r, Put f k)); [by eapply list_elem_of_lookup_2|done].
  - destruct (sy_tasks y !! i) as [[r [x|k|f k|k]]|] eqn:Ei; try apply Hall.
    destruct (k (sy_mem y)) as [m t] eqn:Ek. cbn. intros Hin Hf.
    apply elem_of_insert_inv in Hin as [->|Hin]; [|by apply Hall].
    assert (refusing o (rq_message r) (Ready k)) as Hr by (apply (Hall (r, Ready k)); [by eapply list_elem_of_lookup_2|done]).
    specialize (Hr (sy_mem y) I). by rewrite Ek in Hr; destruct Hr.
  - apply Hall.
  - cbn. intros [Hin _]%list_elem_of_In%filter_In. by apply Hall, list_elem_of_In.
Qed.

(** C30: an origin that is not on the allow list at any moment of a run gets no
    signature. Whatever messages it sends and whatever else goes on, no answer
    to it carries a signed event or the active key's hex public key, and every
    answer to its pubkey and signEvent messages is an error; the same holds for
    a caller without an origin. Two things this does not say, both left open by
    the relay, which lets a page replace the type of its message: such a page
    may put itself on the list (page_enables_itself; the run is then outside
    this statement), and it may ask for the status, whose answer names the
    npubs of the profiles and of the active key (page_reads_status). *)
Theorem unlisted_refused o evs y rt :
  sy_tasks y = [] ->
  (forall n, never_listed o (sy_store (sys_run (take n evs) y))) ->
  rt ∈ sy_tasks (sys_run evs y) -> rq_origin (fst rt) = o ->
  forall r, rt.2 = Done r ->
    (forall v, r = Ok v -> jget v "event" = JUndefined /\ jget v "pubkey" = JUndefined) /\
    (is_nip07 (rq_message (fst rt)) = true -> is_ok r = false).
Proof.
  intros Hy Hn Hin Hf r Hr.
  enough (all_refusing o (sys_run evs y)) as Hall.
  { specialize (Hall rt Hin Hf). by rewrite Hr in Hall. }
  clear rt Hin Hf r Hr. induction evs as [|e evs IH] using rev_ind.
  - intros rt Hin. cbn in Hin. rewrite Hy in Hin. by apply not_elem_of_nil in Hin.
  - unfold sys_run. rewrite fold_left_app. cbn. apply sys_step_refuses.
    + specialize (Hn (length evs)). by rewrite take_app_length in Hn.
    + apply IH. intros n. specialize (Hn (Nat.min n (length evs))). rewrite take_app_le in Hn by lia. by rewrite <- take_take, (take_ge evs) in Hn by lia.
Qed.

(** ** The key in memory *)

(** What NIP-49 promises: what one passphrase opens is what was put in. *)
Definition nip49_authentic : Prop :=
  forall s p c p' s', nip49Encrypt s p = Ok c -> nip49Decrypt c p' = Ok s' -> s' = s.

(** A stored profile names the key it encrypts. *)
Definition profile_ok (p : StoredProfile) : Prop :=
  exists s pass, nip49Encrypt s pass = Ok (sp_ncryptsec p) /\ sp_npub p = npub_of s.
Definition store_ok (s : Store) : Prop := Forall profile_ok (getProfiles s).

(** The key in memory is the one its npub names, and a timer is set that
    clears it no later than five minutes after it was unlocked. *)
Definition mem_ok (m : Mem) : Prop :=
  match activeSecret m with
  | Some s => activeNpub m = Some (npub_of s) /\
      exists d, idleTimer m = Some d /\ clock m < d <= clock m + IDLE_MS
  | None => activeNpub m = None
  end.

Definition good_task : task -> Prop := task_safe store_ok mem_ok store_ok (fun _ => True).

Lemma lock_ok m : mem_ok (lock m).
Proof. done. Qed.

Lemma store_profile_good secret pass c label ps m :
  nip49Encrypt secret pass = Ok c -> Forall profile_ok ps -> mem_ok m ->
  match store_profile c (npub_of secret) label ps m with (m', t) => mem_ok m' /\ good_task t end.
Proof.
  intros He Hps Hm. split; [done|]. split; [|done]. intros s Hs. unfold store_ok, setProfiles, getProfiles. cbn.
  apply Forall_app_2; [done|]. apply Forall_singleton. by exists secret, pass.
Qed.

Lemma unlock_good npub pass : nip49_authentic -> good_task (unlock npub pass).
Proof.
  intros Ha s m Hs Hm. cbn. destruct (find_first _ (getProfiles s)) as [p|] eqn:Ef; [|done].
  apply find_first_Some in Ef as [Hin _]. pose proof (proj1 (Forall_forall _ _) Hs p Hin) as (s0 & p0 & He & Hn).
  destruct (nip49Decrypt (sp_ncryptsec p) pass) as [sec|e] eqn:Ed; [|done].
  rewrite (Ha _ _ _ _ _ He Ed). split; [|done]. unfold mem_ok, scheduleIdleClear. cbn. rewrite Hn.
  split; [done|]. eexists. split; [done|]. unfold IDLE_MS. lia.
Qed.

Lemma handle_good fresh msg o m :
  nip49_authentic -> mem_ok m ->
  match handle fresh msg o m with (m', t) => mem_ok m' /\ good_task t end.
Proof.
  intros Ha Hm. unfold handle. destruct (assoc "type" msg) as [| | | |ty| |]; try done.
  repeat match goal with |- context [if String.eqb ty ?k then _ else _] => destruct (String.eqb ty k) end;
    try (split; [done|]); try done.
  - by apply unlock_good.
  - unfold importKey. destruct (assoc "nsec" msg) as [| | | |text| |]; try done.
    destruct (nip19Decode (trim text)) as [[ty' key]|e]; [|done].
    destruct (if String.eqb ty' "nsec" then key else None) as [sec|]; [|done].
    destruct (nip49Encrypt sec _) as [c|e] eqn:Ee; [|done].
    intros s m' Hs Hm'. destruct (existsb _ _); [done|]. by eapply store_profile_good.
  - unfold generateKey. destruct (nip49Encrypt fresh _) as [c|e] eqn:Ee; [|done].
    intros s m' Hs Hm'. by eapply store_profile_good.
  - intros s m' Hs Hm'. split; [done|]. split.
    + intros s' _. unfold store_ok, setProfiles, getProfiles. cbn. apply Forall_forall. intros p.
      intros [Hin _]%list_elem_of_In%filter_In. apply (proj1 (Forall_forall _ _) Hs). by apply list_elem_of_In.
    + intros m2 Hm2. split; [|done]. by destruct (strict_eq _ _).
  - unfold requireAllowed. destruct o as [o|]; [|done]. destruct (String.eqb o ""); [done|].
    intros s m' _ Hm'. by destruct (isOriginAllowed o s).
  - unfold requireAllowed. destruct o as [o|]; [|done]. destruct (String.eqb o ""); [done|].
    intros s m' _ Hm'. by destruct (isOriginAllowed o s).
Qed.

Lemma advance_ok d m : mem_ok m -> mem_ok (idle_advance d m).
Proof.
  unfold mem_ok, idle_advance. destruct (activeSecret m) as [s|] eqn:Es.
  - intros [Hn (dl & -> & Hd)]. destruct (Z.leb_spec dl (clock m + Z.max 0 d)); cbn; [done|].
    split; [done|]. exists dl. split; [done|]. unfold IDLE_MS in *. lia.
  - intros Hn. destruct (idleTimer m) as [dl|]; [destruct (dl <=? _)|]; cbn; done.
Qed.

Definition sys_ok (y : Sys) : Prop :=
  mem_ok (sy_mem y) /\ store_ok (sy_store y) /\ forall rt, rt ∈ sy_tasks y -> good_task rt.2.

Lemma sys_step_ok e y : nip49_authentic -> sys_ok y -> sys_ok (sys_step e y).
Proof.
  intros Ha (Hm & Hs & Hall). destruct e as [fresh r|i|i|d|]; cbn [sys_step].
  - pose proof (handle_good fresh (rq_message r) (rq_origin r) (sy_mem y) Ha Hm) as Hg.
    destruct (handle fresh (rq_message r) (rq_origin r) (sy_mem y)) as [m t]. destruct Hg as [Hm' Ht].
    split_and!; [done..|]. cbn. intros rt [Hin| ->%list_elem_of_singleton]%elem_of_app; auto.
  - destruct (sy_tasks y !! i) as [[r [x|k|f k|k]]|] eqn:Ei; try done;
      apply list_elem_of_lookup_2, Hall in Ei; cbn in Ei.
    + split_and!; [done..|]. cbn. intros rt [->|Hin]%elem_of_insert_inv; [|auto].
      by apply task_safe_answer.
    + split_and!; [done|by apply Ei|]. cbn. intros rt [->|Hin]%elem_of_insert_inv; [|auto].
      by apply (task_safe_written _ _ _ _ f k).
  - destruct (sy_tasks y !! i) as [[r [x|k|f k|k]]|] eqn:Ei; try done.
    apply list_elem_of_lookup_2, Hall in Ei. specialize (Ei _ Hm). destruct (k (sy_mem y)) as [m t].
    destruct Ei as [Hm' Ht]. split_and!; [done..|]. cbn. intros rt [->|Hin]%elem_of_insert_inv; auto.
  - split_and!; [by apply advance_ok|done..].
  - split_and!; [apply lock_ok|done|]. cbn. intros rt [Hin _]%list_elem_of_In%filter_In.
    by apply Hall, list_elem_of_In.
Qed.

(** C31: in every run that starts locked, with a store whose profiles name their
    keys, the key in memory is the one of the active npub and the timer that
    clears it is at most five minutes away; the stored profiles keep naming
    the keys they encrypt. *)
Theorem signer_custody evs y :
  nip49_authentic -> sy_mem y = lock (sy_mem y) -> store_ok (sy_store y) -> sy_tasks y = [] ->
  mem_ok (sy_mem (sys_run evs y)) /\ store_ok (sy_store (sys_run evs y)).
Proof.
  intros Ha Hm Hs Ht. enough (sys_ok (sys_run evs y)) as (? & ? & _) by done.
  assert (sys_ok y) as Hy.
  { split_and!; [rewrite Hm; apply lock_ok|done|]. intros rt Hin. rewrite Ht in Hin. by apply not_elem_of_nil in Hin. }
  clear Hm Hs Ht. revert y Hy. induction evs as [|e evs IH]; intros y Hy; [done|]. cbn. by apply IH, sys_step_ok.
Qed.
End Facts.


(** ** Runs of the extension *)

Module SignerRuns.
Import Nip98Examples.

(** A ciphertext is the key and the passphrase under one code number. *)
#[export] Instance toySigner : SignerLib := {|
  nip19Decode s := if starts_with "nsec1" s then Ok ("nsec", Some s) else Throw "Invalid checksum";
  nip49Encrypt s p := match p with JStr p => Ok (Z_to_string (Zpos (encode (s : string, p)))) | _ => Throw "password" end;
  nip49Decrypt c p := match BigInt_string c, p with
    | Some (Zpos n), JStr p =>
        match decode n with Some (s, p') => if String.eqb p p' then Ok s else Throw "invalid tag" | None => Throw "?" end
    | _, _ => Throw "password"
    end;
  finalizeAny t sk := match t with
    | JObj fields => Ok (JObj (("pubkey", JStr sk) :: ("sig", JStr ("sig:" +:+ sk)) :: fields))
    | _ => Throw "can't serialize event with wrong or missing properties"
    end;
  toText v := "?"
|}.

Lemma toy_authentic : nip49_authentic.
Proof.
  intros s p c p' s'. cbn [nip49Encrypt nip49Decrypt toySigner]. destruct p as [| | | |p| |]; try done. intros [= <-].
  rewrite BigInt_Z_to_string. destruct p' as [| | | |p'| |]; try done.
  rewrite (countable.decode_encode (s : string, p)). destruct (String.eqb p' p); [|done]. by intros [= ->].
Qed.

Definition alice_profile : StoredProfile :=
  {| sp_ncryptsec := Z_to_string (Zpos (encode ("alice", "pw"))); sp_npub := "npub1alice"; sp_label := JStr "Key 1";
     sp_createdAt := 0 |}.
Definition installed (allowed : list string) : Sys :=
  {| sy_mem := {| activeSecret := None; activeNpub := None; idleTimer := None; clock := 0 |};
     sy_store := {| st_profiles := Some [alice_profile];
                    st_allowlist := Some (map (fun o => {| ae_origin := JStr o; ae_addedAt := 0 |}) allowed) |};
     sy_tasks := [] |}.

Definition popup (msg : message) : Request :=
  {| rq_message := msg; rq_origin := Some "chrome-extension://signer" |}.
Definition unlock_alice : Request :=
  popup [("type", JStr "unlock"); ("npub", JStr "npub1alice"); ("passphrase", JStr "pw")].
(** What a page at [origin] makes the relay send. *)
Definition page (origin method : string) (args : jsval) : Request :=
  {| rq_message := match relay method args with inr m => m | inl _ => [] end; rq_origin := Some origin |}.

(** A request served without another in between; [i] is its position. *)
Definition alone (i : nat) (r : Request) : list sys_event :=
  [Receive "fresh" r; Answer i; Resume i; Answer i; Resume i].

Definition reply_of (i : nat) (y : Sys) : option (exc string jsval) :=
  match sy_tasks y !! i with Some (_, Done r) => Some r | _ => None end.

Definition a_note : jsval := JObj [("kind", JNum (num_Z 1))].

(** A page can enable itself. The relay puts the page's fields after its
    own [type], so a page that asks for a signature with a [type] of its own
    sends the worker a [setOriginAllowed] message, which nothing checks; its
    next request is signed with the user's key. *)
Theorem page_enables_itself :
  let evil := "https://evil.example" in
  let y := sys_run (alone 0 unlock_alice ++
      alone 1 (page evil "signEvent" (JObj [("type", JStr "setOriginAllowed"); ("origin", JStr evil); ("allowed", JBool true)])) ++
      alone 2 (page evil "signEvent" (JObj [("event", a_note)])))
    (installed []) in
  reply_of 2 y = Some (Ok (ok_data [("event", JObj [("pubkey", JStr "alice"); ("sig", JStr "sig:alice"); ("kind", JNum (num_Z 1))])])).
Proof. vm_compute. reflexivity. Qed.

(** A page that was never enabled can read the profiles: with a [type] of its
    own its request is the popup's [status] message, which no origin gates. *)
Theorem page_reads_status :
  let evil := "https://evil.example" in
  reply_of 1 (sys_run (alone 0 unlock_alice ++ alone 1 (page evil "getPublicKey" (JObj [("type", JStr "status")]))) (installed [])) =
    Some (Ok (JObj [("unlocked", JBool true); ("activeNpub", JStr "npub1alice");
                    ("profiles", JArr [profile_view alice_profile])])).
Proof. vm_compute. reflexivity. Qed.

(** Without that message the same request is refused. *)
Example page_refused :
  reply_of 1 (sys_run (alone 0 unlock_alice ++ alone 1 (page "https://evil.example" "signEvent" (JObj [("event", a_note)])))
    (installed [])) = Some (Throw "Origin not enabled: https://evil.example").
Proof. vm_compute. reflexivity. Qed.

Definition allow (origin : string) (allowed : bool) : Request :=
  popup [("type", JStr "setOriginAllowed"); ("origin", JStr origin); ("allowed", JBool allowed)].

(** A revocation can be lost. The list is read and written back in two
    steps; when another change is under way, both report success and the
    revoked origin is on the list again. *)
Theorem revocation_lost :
  let y := sys_run [Receive "fresh" (allow "https://a" false); Receive "fresh" (allow "https://b" true);
                    Answer 0; Answer 1; Resume 0; Resume 1; Answer 0; Answer 1; Resume 0; Resume 1]
             (installed ["https://a"]) in
  reply_of 0 y = Some (Ok (ok_data [])) /\ reply_of 1 y = Some (Ok (ok_data [])) /\
  isOriginAllowed "https://a" (sy_store y) = true.
Proof. vm_compute. done. Qed.

(** A page's [getPublicKey] resolves to the worker's envelope instead of the
    key, also when the signer is locked. *)
Example public_key_envelope :
  let site := "https://site.example" in
  let ask := page site "getPublicKey" JUndefined in
  let settle y i := default JUndefined (worker_reply <$> reply_of i y) in
  let p := (in_call {| in_pending := empty; in_nextId := 1; in_settled := empty |}).2 in
  in_settled (in_response 1 (settle (sys_run (alone 0 unlock_alice ++ alone 1 ask) (installed [site])) 1%nat) p) !! 1 =
    Some (Resolved (JObj [("ok", JBool true); ("pubkey", JStr "alice")])) /\
  in_settled (in_response 1 (settle (sys_run (alone 0 ask) (installed [site])) 0%nat) p) !! 1 =
    Some (Resolved (fail_data "Signer locked")).
Proof. vm_compute. done. Qed.

Lemma unlisted_refused_witness :
  let ask := page "https://evil.example" "signEvent" (JObj [("event", a_note)]) in
  let refusal := Throw "Origin not enabled: https://evil.example" : exc string jsval in
  sy_tasks (sys_run (alone 0 ask) (installed [])) = [(ask, Done refusal)] /\ is_ok refusal = false.
Proof.
  intros ask refusal.
  assert (sy_tasks (sys_run (alone 0 ask) (installed [])) = [(ask, Done refusal)]) as Ht by reflexivity.
  split; [exact Ht|].
  destruct (unlisted_refused (Some "https://evil.example") (alone 0 ask) (installed []) (ask, Done refusal)) with (r := refusal)
    as [_ Hno].
  - reflexivity.
  - intros n. do 6 (destruct n as [|n]; [reflexivity|]). reflexivity.
  - rewrite Ht. left.
  - reflexivity.
  - reflexivity.
  - apply Hno. reflexivity.
Defined.

Lemma signer_custody_witness :
  let y := sys_run (alone 0 unlock_alice ++ [Wait 299999]) (installed []) in
  activeSecret (sy_mem y) = Some "alice" /\ mem_ok (sy_mem y) /\
  activeSecret (sy_mem (sys_step (Wait 1) y)) = None.
Proof.
  split_and!; [vm_compute; reflexivity| |vm_compute; reflexivity].
  apply (signer_custody (alone 0 unlock_alice ++ [Wait 299999]) (installed []) toy_authentic);
    [reflexivity| |reflexivity].
  constructor; [|constructor]. exists "alice", (JStr "pw"). split; reflexivity.
Defined.
End SignerRuns.
