(* ===== verification/PgAgent.v ===== *)
(** * The provider's PostgreSQL agent (storage-client/pg-agent)

    The HTTP routes behind which a storage provider keeps its share of the
    mesh database: main.ts (token gate, start-up), src/apply.ts (batches of row
    operations), src/schema.ts (migrations), src/query.ts (reads) and
    src/health.ts.

    PostgreSQL and its driver are the class [PgServer]: what a statement does
    to the application tables and what the catalog says. The agent's own two
    tables, [_mesh_pg_meta] and [_mesh_pg_migrations], are modelled with their
    constraints; the statements a gateway sends are taken to leave them alone.
    Every statement and every commit meets the next fault of the state: none,
    refused before it does anything, or done with the answer lost. *)

From Stdlib Require Import Ascii QArith.
From S2P Require Import Prelude Js Http Regex.
#[local] Open Scope Z_scope.

(** A value handed to the driver: JSON, or bytes. *)
Inductive pgval :=
| PJson (v : jsval)
| PBytes (l : list Z).

(** The statements the agent sends on behalf of the gateway. *)
Inductive stmt :=
| Unsafe (text : jsval) (params : list pgval)
| DeleteById (table rowId : string)
| InsertUpsert (table : string) (values : list (string * pgval)) (conflict : list string)
| InsertDoNothing (table : string) (values : list (string * pgval)).

(** A value of a result row as the driver hands it over. *)
Inductive pgout :=
| ONull
| ODate (iso : string)
| OBigint (n : Z)
| OBytes (l : list Z)
| OArr (l : list pgout)
| OOther (v : jsval).

Class PgServer := {
  (** the application tables, their indexes and rows *)
  userdb : Type;
  (** the effect of a statement, or the message of the error *)
  pg_run : stmt -> userdb -> exc string userdb;
  (** information_schema.columns of the schema public: table, column, type *)
  pg_columns : userdb -> list (string * string * string);
  (** unique indexes without a predicate: table and columns *)
  pg_unique : userdb -> list (string * list string);
  (** tables of the schema public, the agent's own included *)
  pg_tables : userdb -> list string;
  (** a read: its rows and the tables afterwards *)
  pg_query : string -> userdb -> exc string (list (list (string * pgout)) * userdb);
  (** prepare and describe: the column names and type numbers *)
  pg_describe : string -> userdb -> exc string (list (string * Z));
  (** [JSON.parse]; [None] when it throws *)
  parseJson : string -> option jsval;
  (** quoting of an identifier by the driver *)
  pg_ident : string -> string
}.

Inductive pg_fault := NoFault | Refused (msg : string) | AnswerLost (msg : string).

Record Pg `{PgServer} := {
  pg_meta : gmap string string;      (* _mesh_pg_meta: key, value *)
  pg_migrations : gmap string Z;     (* _mesh_pg_migrations: id, version *)
  pg_user : userdb;
  pg_faults : list pg_fault
}.

Section agent.
Context `{PgServer}.

Definition set_meta (s : Pg) m : Pg :=
  {| pg_meta := m; pg_migrations := pg_migrations s; pg_user := pg_user s; pg_faults := pg_faults s |}.
Definition set_migrations (s : Pg) m : Pg :=
  {| pg_meta := pg_meta s; pg_migrations := m; pg_user := pg_user s; pg_faults := pg_faults s |}.
Definition set_user (s : Pg) u : Pg :=
  {| pg_meta := pg_meta s; pg_migrations := pg_migrations s; pg_user := u; pg_faults := pg_faults s |}.
Definition pg_set_faults (s : Pg) f : Pg :=
  {| pg_meta := pg_meta s; pg_migrations := pg_migrations s; pg_user := pg_user s; pg_faults := f |}.

(** ** Computations that may throw *)

Definition PG (A : Type) : Type := Pg -> exc string A * Pg.

Definition pret {A} (a : A) : PG A := fun s => (Ok a, s).
Definition pthrow {A} (e : string) : PG A := fun s => (Throw e, s).
Definition pbind {A B} (m : PG A) (k : A -> PG B) : PG B := fun s =>
  match m s with (Ok a, s') => k a s' | (Throw e, s') => (Throw e, s') end.
(** [try m catch (error) h] *)
Definition pcatch {A} (m : PG A) (h : string -> PG A) : PG A := fun s =>
  match m s with (Ok a, s') => (Ok a, s') | (Throw e, s') => h e s' end.

End agent.

Declare Scope pg_scope.
Delimit Scope pg_scope with pg.
Notation "'let*' x := m 'in' k" := (pbind m (fun x => k))
  (at level 10, x pattern, m at level 100, k at level 200) : pg_scope.
#[local] Open Scope pg_scope.

Section statements.
Context `{PgServer}.

Definition pg_next_fault (s : Pg) : pg_fault := hd NoFault (pg_faults s).
Definition drop_fault (s : Pg) : Pg := pg_set_faults s (tl (pg_faults s)).

(** One awaited statement. *)
Definition statement {A} (m : Pg -> exc string (A * Pg)) : PG A := fun s =>
  match pg_next_fault s with
  | NoFault => match m (drop_fault s) with
               | Ok (a, s') => (Ok a, s')
               | Throw e => (Throw e, drop_fault s)
               end
  | Refused e => (Throw e, drop_fault s)
  | AnswerLost e => match m (drop_fault s) with
                    | Ok (_, s') => (Throw e, s')
                    | Throw _ => (Throw e, drop_fault s)
                    end
  end.

(** [sql.begin(body)]: the body's changes are kept only when it ends without an
    error and the commit goes through. *)
Definition begin {A} (body : PG A) : PG A := fun s =>
  match body s with
  | (Throw e, s') => (Throw e, pg_set_faults s (pg_faults s'))
  | (Ok a, s') =>
      match pg_next_fault s' with
      | NoFault => (Ok a, drop_fault s')
      | Refused e => (Throw e, pg_set_faults s (tl (pg_faults s')))
      | AnswerLost e => (Throw e, drop_fault s')
      end
  end.

(** A statement on the application tables. *)
Definition run_user (q : stmt) : PG () := statement (fun s =>
  match pg_run q (pg_user s) with
  | Ok u => Ok (tt, set_user s u)
  | Throw e => Throw e
  end).

(** A read of the catalog. *)
Definition read_user {A} (f : userdb -> A) : PG A := statement (fun s => Ok (f (pg_user s), s)).

(** ** apply.ts *)

Inductive op_kind := INSERT | UPDATE | DELETE | RAW.

Record Op := {
  op_id : string;
  op_table : string;
  op_op : op_kind;
  op_rowId : string;
  op_row : jsval;                        (* undefined, null or an object *)
  op_conflictColumns : option (list string)
}.

Definition is_ident_start (c : ascii) : bool := is_upper c || is_lower c || (code c =? 95).
(** [/^[a-zA-Z_][a-zA-Z0-9_]*$/], or the empty string *)
Definition is_table (s : string) : bool :=
  match s with "" => true | String c s => is_ident_start c && sall is_word s end.

Definition parse_kind (s : string) : option op_kind :=
  if String.eqb s "INSERT" then Some INSERT
  else if String.eqb s "UPDATE" then Some UPDATE
  else if String.eqb s "DELETE" then Some DELETE
  else if String.eqb s "RAW" then Some RAW
  else None.

Definition parse_str (v : jsval) : option string := match v with JStr s => Some s | _ => None end.
Definition parse_row (v : jsval) : option jsval :=
  match v with JUndefined | JNull | JObj _ => Some v | _ => None end.
Definition parse_conflict (v : jsval) : option (option (list string)) :=
  match v with
  | JUndefined => Some None
  | JArr l => Some <$> mapM parse_str l
  | _ => None
  end.

Definition parseOp (v : jsval) : option Op :=
  id ← parse_str (jget v "id");
  table ← parse_str (jget v "table");
  kind ← parse_str (jget v "op") ≫= parse_kind;
  rowId ← parse_str (jget v "rowId");
  row ← parse_row (jget v "row");
  conflict ← parse_conflict (jget v "conflictColumns");
  if negb (String.eqb id "") && is_table table
  then Some {| op_id := id; op_table := table; op_op := kind; op_rowId := rowId;
               op_row := row; op_conflictColumns := conflict |}
  else None.

(** [ApplySchema.safeParse(body)]: at most 500 operations. *)
Definition parseOps (body : jsval) : option (list Op) :=
  match jget body "ops" with
  | JArr l => if (length l <=? 500)%nat then mapM parseOp l else None
  | _ => None
  end.

(** The later row of the catalog wins, as in [map.set]. *)
Definition columnTypeMap (table : string) (u : userdb) : list (string * string) :=
  omap (fun '(t, c, ty) => if String.eqb (toLowerCase t) (toLowerCase table)
                           then Some (toLowerCase c, ty) else None) (pg_columns u).
Definition column_type (types : list (string * string)) (column : string) : option string :=
  assoc_str (toLowerCase column) (rev types).

Fixpoint hex_pairs (s : string) : list Z :=
  match s with
  | String a (String b s) =>
      (16 * default 0 (hex_digit_val a) + default 0 (hex_digit_val b)) :: hex_pairs s
  | _ => []
  end.

Definition backslash_x : string := String "092"%char "x".

Definition decodeValue (value : jsval) (dataType : option string) : pgval :=
  match value with
  | JStr s =>
      let hex := if starts_with backslash_x s then String.substring 2 (String.length s - 2) s else s in
      if bool_decide (dataType = Some "bytea") && sall is_hex hex && Nat.even (String.length hex)
      then PBytes (hex_pairs hex)
      else if bool_decide (dataType = Some "jsonb") || bool_decide (dataType = Some "json")
      then PJson (default value (parseJson s))
      else PJson value
  | _ => PJson value
  end.

(** What a falsy JavaScript value is. *)
Definition falsy (v : jsval) : bool :=
  match v with
  | JUndefined | JNull => true
  | JBool b => negb b
  | JNum n => num_eqZ n 0 || match n with NaN => true | _ => false end
  | JStr s => String.eqb s ""
  | _ => false
  end.

Definition updateSqlSafe (_sql : jsval) : bool := true.

(** [conflict.map((column) => `'...'`).join(",")] *)
Fixpoint double_quotes (s : string) : string :=
  match s with
  | "" => ""
  | String c s => if code c =? 39 then String c (String c (double_quotes s)) else String c (double_quotes s)
  end.
Definition quote_literal (s : string) : string :=
  String "039"%char (double_quotes s +:+ String "039"%char "").
Definition joined_literals (conflict : list string) : string :=
  String.concat "," (quote_literal <$> conflict).

Definition str_le (a b : string) : Prop := String.leb a b = true.
#[export] Instance str_le_dec : RelDecision str_le.
Proof. intros a b. unfold str_le. apply _. Defined.
(** [array_agg(x ORDER BY x)] *)
Definition array_agg (l : list string) : list string := merge_sort str_le l.

(** The text between [ARRAY\[] and [\]] is a parameter of the statement: the
    array has one element, whatever the number of columns. *)
Definition uniqueIndexCovers (table : string) (conflict : list string) (u : userdb) : bool :=
  existsb (fun '(t, cols) => String.eqb t table &&
             bool_decide (array_agg cols = array_agg [joined_literals conflict]))
          (pg_unique u).

Definition where_re : re := RSeq RStart (RSeq (rlit_i "where") RBnd).

Definition obj_fields (v : jsval) : list (string * jsval) := match v with JObj l => l | _ => [] end.
Definition del_key (k : string) (l : list (string * jsval)) : list (string * jsval) :=
  filter (fun e => e.1 <> k) l.

(** The text of a partial-index upsert. *)
Definition partial_upsert (table : string) (columns conflict : list string) (predicate : string) : string :=
  let columnList := String.concat ", " (pg_ident <$> columns) in
  let parameterList := String.concat ", " (imap (fun i _ => "$" +:+ Z_to_string (Z.of_nat i + 1)) columns) in
  let setters := String.concat ", " ((fun c => pg_ident c +:+ " = EXCLUDED." +:+ pg_ident c) <$> columns) in
  "INSERT INTO " +:+ pg_ident table +:+ " (" +:+ columnList +:+ ") VALUES (" +:+ parameterList +:+
  ") ON CONFLICT (" +:+ String.concat ", " (pg_ident <$> conflict) +:+ ") " +:+ predicate +:+
  " DO UPDATE SET " +:+ setters.

(** [rawRow\["_conflictColumns"\] as string\[\]]; the elements are used as text. *)
Definition text_of (v : jsval) : string := match v with JStr s => s | _ => "" end.
Definition declared_conflict (op : Op) : option (list string) :=
  match assoc "_conflictColumns" (obj_fields (op_row op)) with
  | JArr l => Some (text_of <$> l)
  | _ => op_conflictColumns op
  end.
Definition declared_predicate (op : Op) : option string :=
  match assoc "_conflictPredicate" (obj_fields (op_row op)) with JStr s => Some s | _ => None end.
Definition op_row_fields (op : Op) : list (string * jsval) :=
  del_key "_conflictPredicate" (del_key "_conflictColumns" (obj_fields (op_row op))).

Definition apply_insert (op : Op) : PG () :=
  let* _ := match declared_predicate op with
            | Some p => if test where_re p then pret tt else pthrow "invalid conflict predicate"
            | None => pret tt
            end in
  let row := op_row_fields op in
  if (length row =? 0)%nat then pthrow "empty insert row" else
  let* types := read_user (columnTypeMap (op_table op)) in
  let row2 := (fun '(c, v) => (c, decodeValue v (column_type types c))) <$> row in
  let conflict := default [] (declared_conflict op) in
  match declared_predicate op with
  | Some p =>
      if (0 <? length conflict)%nat
      then run_user (Unsafe (JStr (partial_upsert (op_table op) (row.*1) conflict p)) (row2.*2))
      else run_user (InsertDoNothing (op_table op) row2)
  | None =>
      if (0 <? length conflict)%nat then
        let* covers := read_user (uniqueIndexCovers (op_table op) conflict) in
        if covers then run_user (InsertUpsert (op_table op) row2 conflict)
        else run_user (InsertDoNothing (op_table op) row2)
      else run_user (InsertDoNothing (op_table op) row2)
  end.

(** The statements of one operation, after the idempotency gate. *)
Definition apply_effect (op : Op) : PG () :=
  match op_op op with
  | RAW =>
      let rawSql := jget (op_row op) "sql" in
      if falsy rawSql then pthrow "missing raw sql" else run_user (Unsafe rawSql [])
  | DELETE => run_user (DeleteById (op_table op) (op_rowId op))
  | UPDATE =>
      let updateSql := jget (op_row op) "sql" in
      if negb (updateSqlSafe updateSql) then pthrow "missing update sql"
      else run_user (Unsafe updateSql [])
  | INSERT => apply_insert op
  end.

Definition op_key (op : Op) : string := "op:" +:+ op_id op.

(** [INSERT INTO _mesh_pg_meta ... ON CONFLICT (key) DO NOTHING RETURNING key] *)
Definition insert_meta_once (key value : string) : PG bool := statement (fun s =>
  match pg_meta s !! key with
  | Some _ => Ok (false, s)
  | None => Ok (true, set_meta s (<[key := value]> (pg_meta s)))
  end).

(** One turn of the loop; [now] is [now()::text]. *)
Definition apply_op (now : string) (op : Op) : PG () :=
  let* applied := insert_meta_once (op_key op) now in
  if applied then apply_effect op else pret tt.

Fixpoint apply_ops (now : string) (ops : list Op) : PG () :=
  match ops with
  | [] => pret tt
  | op :: ops => let* _ := apply_op now op in apply_ops now ops
  end.

(** A handler replies: an error that reaches its catch is a 500 with the message. *)
Definition answer {A} (m : PG A) (s : Pg) : reply A * Pg :=
  match m s with
  | (Ok a, s') => (Res 200 a, s')
  | (Throw e, s') => (Err 500 e, s')
  end.

(** POST /pg/apply; the body answers the number of operations. *)
Definition postApply (now : string) (body : jsval) (s : Pg) : reply Z * Pg :=
  match parseOps body with
  | None => (Err 400 "invalid_ops", s)
  | Some ops =>
      answer (let* _ := begin (apply_ops now ops) in pret (Z.of_nat (length ops))) s
  end.

(** ** schema.ts *)

Record Migration := { mg_id : string; mg_version : Z; mg_ddl : string }.

Definition parseMigration (v : jsval) : option Migration :=
  id ← parse_str (jget v "id");
  version ← match jget v "version" with JNum n => num_safe_int n | _ => None end;
  ddl ← parse_str (jget v "ddl");
  if negb (String.eqb id "") && (0 <? version) && negb (String.eqb ddl "")
  then Some {| mg_id := id; mg_version := version; mg_ddl := ddl |}
  else None.

Definition parseMigrations (body : jsval) : option (list Migration) :=
  match jget body "migrations" with
  | JArr l => if (length l <=? 200)%nat then mapM parseMigration l else None
  | _ => None
  end.

(** Statements that cannot run in a transaction block. *)
Definition concurrently_re : re := rseq [RBnd; rlit_i "CONCURRENTLY"; RBnd].
Definition vacuum_re : re := rseq [RStart; RStar rspace; rlit_i "VACUUM"; RBnd].
Definition runsOutsideTransaction (ddl : string) : bool :=
  test concurrently_re ddl || test vacuum_re ddl.

Definition rword (s : string) : re := rseq [RBnd; rlit_i s; RBnd].
Definition rnot (c : ascii) : re := RChr (fun x => negb (Ascii.eqb x c)).
Definition spaces : re := RStar rspace.
Definition spaces1 : re := RPlus rspace.
Definition quote : ascii := "039"%char.

Definition bigserial_re : re := rseq [RBnd; RAlt (rlit_i "bigserial") (rlit_i "serial8"); RBnd].
Definition smallserial_re : re := rseq [RBnd; RAlt (rlit_i "smallserial") (rlit_i "serial2"); RBnd].
Definition serial_re : re :=
  RAlt (rword "serial4") (rseq [RBnd; rlit_i "serial"; RNotAhead (RChr is_word)]).
Definition identity_re : re :=
  rseq [RBnd; rlit_i "GENERATED"; spaces1;
        RAlt (rlit_i "ALWAYS") (rseq [rlit_i "BY"; spaces1; rlit_i "DEFAULT"]);
        spaces1; rlit_i "AS"; spaces1; rlit_i "IDENTITY";
        ROpt (rseq [spaces; rlit "("; RStar (rnot ")"); rlit ")"])].
Definition nextval_re : re :=
  rseq [rlit_i "DEFAULT"; spaces1; rlit_i "nextval"; spaces; rlit "("; spaces;
        rchar quote; RStar (rnot quote); rchar quote; spaces;
        ROpt (rseq [rlit "::"; RPlus (RChr (fun c => negb (Ascii.eqb c ")" || is_space c)))]);
        spaces; rlit ")"].
Definition now_re : re :=
  ralt (rseq [rlit_i "DEFAULT"; spaces1; ROpt (rlit_i "pg_catalog.");
              RAlt (rlit_i "now") (rlit_i "clock_timestamp"); spaces; rlit "("; spaces; rlit ")"])
    [rseq [rlit_i "DEFAULT"; spaces1; rlit_i "CURRENT_TIMESTAMP";
           ROpt (rseq [rlit "("; RStar (RChr is_digit); rlit ")"])];
     rseq [rlit_i "DEFAULT"; spaces1; rchar quote; rlit_i "now"; rchar quote;
           rlit_i "::text::timestamp";
           ROpt (rseq [spaces1; rlit_i "with"; spaces1; rlit_i "time"; spaces1; rlit_i "zone"])]].

Definition stripServerGenerators (ddl : string) : string :=
  let ddl := replace_all bigserial_re "bigint" ddl in
  let ddl := replace_all smallserial_re "smallint" ddl in
  let ddl := replace_all serial_re "integer" ddl in
  let ddl := replace_all identity_re "" ddl in
  let ddl := replace_all nextval_re "" ddl in
  replace_all now_re "DEFAULT NULL" ddl.

Definition ALREADY_EXISTS : re :=
  ralt (rlit_i "42P07") [rlit_i "42710"; rlit_i "42723"; rlit_i "42701"; rlit_i "42P06";
                         rlit_i "42P04"; rlit_i "already exists"].
Definition DOES_NOT_EXIST : re :=
  ralt (rlit_i "42P01") [rlit_i "42703"; rlit_i "42P02"; rlit_i "42704"; rlit_i "42602";
                         rlit_i "42883"; rlit_i "does not exist"].

(** [Math.max(version, n)] *)
Definition num_max (v : num) (n : Z) : num :=
  match v with
  | NaN => NaN
  | PInf => PInf
  | NInf => num_Z n
  | Fin _ => if num_lt v n then num_Z n else v
  end.

(** [String(version)]; a version is an integer. *)
Definition String_num (v : num) : string :=
  match v with
  | NaN => "NaN"
  | PInf => "Infinity"
  | NInf => "-Infinity"
  | Fin _ => match num_int v with Some z => Z_to_string z | None => "" end
  end.

Definition currentVersion : PG num := statement (fun s =>
  Ok (match pg_meta s !! "schema_version" with Some v => Number_string v | None => num_Z 0 end, s)).

Definition known_migration (id : string) : PG bool := statement (fun s =>
  Ok (bool_decide (is_Some (pg_migrations s !! id)), s)).

(** [INSERT INTO _mesh_pg_migrations (id, version)]: the primary key and the
    range of INTEGER. *)
Definition record_migration (m : Migration) : PG () := statement (fun s =>
  match pg_migrations s !! mg_id m with
  | Some _ => Throw "duplicate key value violates unique constraint"
  | None =>
      if 2 ^ 31 <=? mg_version m then Throw "value is out of range for type integer"
      else Ok (tt, set_migrations s (<[mg_id m := mg_version m]> (pg_migrations s)))
  end).

Definition tolerated (message : string) : bool :=
  test ALREADY_EXISTS message || test DOES_NOT_EXIST message.

(** One turn of the loop over the migrations. *)
Definition apply_migration (version : num) (m : Migration) : PG num :=
  let* known := known_migration (mg_id m) in
  if (known : bool) then pret version else
  let ddl := stripServerGenerators (mg_ddl m) in
  let* _ := pcatch
    (if runsOutsideTransaction ddl
     then let* _ := run_user (Unsafe (JStr ddl) []) in record_migration m
     else begin (let* _ := run_user (Unsafe (JStr ddl) []) in record_migration m))
    (fun message => if negb (tolerated message) then pthrow message else record_migration m) in
  pret (num_max version (mg_version m)).

Fixpoint apply_migrations (version : num) (ms : list Migration) : PG num :=
  match ms with
  | [] => pret version
  | m :: ms => let* version := apply_migration version m in apply_migrations version ms
  end.

(** [INSERT ... ON CONFLICT (key) DO UPDATE SET value = EXCLUDED.value] *)
Definition write_version (version : num) : PG () := statement (fun s =>
  Ok (tt, set_meta s (<["schema_version" := String_num version]> (pg_meta s)))).

(** POST /pg/schema; the body answers the version. *)
Definition postSchema (body : jsval) (s : Pg) : reply num * Pg :=
  match parseMigrations body with
  | None => (Err 400 "invalid_migrations", s)
  | Some ms =>
      answer (let* version := currentVersion in
              let* version := apply_migrations version ms in
              let* _ := write_version version in
              pret version) s
  end.

(** ** query.ts *)

Definition nibble (d : Z) : ascii := if d <? 10 then digit_char d else ascii_of_N (Z.to_N (87 + d)).
(** [b.toString(16).padStart(2, "0")] of a byte. *)
Definition hex_byte (b : Z) : string := String (nibble (b / 16)) (String (nibble (b mod 16)) "").
Definition hex_bytes (l : list Z) : string := String.concat "" (hex_byte <$> l).

Fixpoint serializeValue (value : pgout) : jsval :=
  match value with
  | ONull => JNull
  | ODate iso => JStr iso
  | OBigint n => JStr (Z_to_string n)
  | OBytes l => JStr (backslash_x +:+ hex_bytes l)
  | OArr l => JArr (serializeValue <$> l)
  | OOther v => v
  end.

Definition trailing_semicolon_re : re := rseq [rlit ";"; RStar rspace; REnd].
Definition select_re : re := rseq [RStart; RAlt (rlit_i "select") (rlit_i "with"); RBnd].
Definition second_statement_re : re := rseq [rlit ";"; RStar rspace; rnospace].

(** The text that is run, when the checks let it through. *)
Definition query_text (sql : string) : option string :=
  let text := replace trailing_semicolon_re "" (trim sql) in
  if negb (test select_re text) || test second_statement_re text then None else Some text.

Record QueryReply := {
  qr_rows : list (list (string * jsval));
  qr_columns : list (string * Z)
}.

(** [sql.unsafe(text).describe()], a failure of which is only logged. *)
Definition describe_query (text : string) : PG (list (string * Z)) :=
  pcatch (statement (fun s => match pg_describe text (pg_user s) with
                              | Ok cols => Ok (cols, s)
                              | Throw e => Throw e
                              end))
         (fun _ => pret []).

Definition run_query (text : string) : PG (list (list (string * pgout))) := statement (fun s =>
  match pg_query text (pg_user s) with
  | Ok (rows, u) => Ok (rows, set_user s u)
  | Throw e => Throw e
  end).

Definition postQuery (body : jsval) (s : Pg) : reply QueryReply * Pg :=
  match jget body "sql" with
  | JStr sql =>
      if String.eqb sql "" then (Err 400 "invalid_query", s) else
      match query_text sql with
      | None => (Err 400 "only_single_select_supported", s)
      | Some text =>
          answer (let* described := describe_query text in
                  let* rows := run_query text in
                  pret {| qr_rows := map (map (fun '(c, v) => (c, serializeValue v))) rows;
                          qr_columns := described |}) s
      end
  | _ => (Err 400 "invalid_query", s)
  end.

(** ** health.ts and middleware.ts *)

(** [currentSchemaVersion]: a failed read counts as version 0. *)
Definition currentSchemaVersion : PG num := pcatch currentVersion (fun _ => pret (num_Z 0)).

Record HealthReply := { hr_status : string; hr_version : num; hr_tables : list string }.

(** [tablename !~ '^_'] *)
Definition public_table (t : string) : bool :=
  match t with String c _ => negb (code c =? 95) | "" => true end.

Definition getHealth (s : Pg) : reply HealthReply * Pg :=
  answer (pcatch
    (let* version := currentSchemaVersion in
     let* tables := read_user pg_tables in
     pret {| hr_status := "ok"; hr_version := version; hr_tables := filter public_table tables |})
    (fun _ => pret {| hr_status := "degraded"; hr_version := num_Z 0; hr_tables := [] |})) s.

(** ** main.ts *)

(** The start-up loop: [attempts] says for each attempt whether both CREATE
    TABLE statements went through; the result is whether the agent starts
    serving, or [None] while the outcomes given do not decide it. *)
Fixpoint ensure_from (attempt : nat) (attempts : list bool) : option bool :=
  match attempts with
  | [] => None
  | true :: _ => Some true
  | false :: rest => if (30 <=? attempt)%nat then Some false else ensure_from (S attempt) rest
  end.
Definition ensureMeshSchema (attempts : list bool) : option bool := ensure_from 1 attempts.

Inductive pg_request :=
| HealthReq
| ApplyReq (now : string) (body : jsval)
| SchemaReq (body : jsval)
| QueryReq (body : jsval).

Inductive pg_reply :=
| HealthRep (r : reply HealthReply)
| ApplyRep (r : reply Z)
| SchemaRep (r : reply num)
| QueryRep (r : reply QueryReply)
| Denied.                              (* 401 invalid_token *)

Definition bearer_re : re := rseq [RStart; rlit_i "Bearer"; RPlus rspace].
(** The token of the Authorization header. *)
Definition bearer_token (header : option string) : option string := replace bearer_re "" <$> header.

(** [config.token && token !== config.token] *)
Definition token_refused (configured header : option string) : bool :=
  match configured with
  | Some t => negb (String.eqb t "") && bool_decide (bearer_token header <> Some t)
  | None => false
  end.

Definition pg_serve (token header : option string) (r : pg_request) (s : Pg) : pg_reply * Pg :=
  match r with
  | HealthReq => let (a, s) := getHealth s in (HealthRep a, s)
  | ApplyReq now b =>
      if token_refused token header then (Denied, s) else let (a, s) := postApply now b s in (ApplyRep a, s)
  | SchemaReq b =>
      if token_refused token header then (Denied, s) else let (a, s) := postSchema b s in (SchemaRep a, s)
  | QueryReq b =>
      if token_refused token header then (Denied, s) else let (a, s) := postQuery b s in (QueryRep a, s)
  end.
End statements.
