(* ===== verification/PgAgentFacts.v ===== *)
(** * What the PostgreSQL agent guarantees

    [effects] is the reference: the operations of a batch one after the other
    on the application tables, without bookkeeping, faults or transactions.
    Deliveries of a batch refine it ([apply_retries], [apply_log],
    [apply_exact]); then the schema versions, the bytea codec and the token
    gate. *)

From Stdlib Require Import Ascii QArith.
From S2P Require Import Prelude Js Http Regex PgAgent.
#[local] Open Scope Z_scope.

Section facts.
Context `{PgServer}.

(** ** The reference *)

(** The statement an INSERT becomes, given the tables. *)
Definition insert_stmt (op : Op) (u : userdb) : exc string stmt :=
  let row := op_row_fields op in
  let row2 := (fun '(c, v) => (c, decodeValue v (column_type (columnTypeMap (op_table op) u) c))) <$> row in
  let conflict := default [] (declared_conflict op) in
  match declared_predicate op with
  | Some p =>
      if negb (test where_re p) then Throw "invalid conflict predicate"
      else if (length row =? 0)%nat then Throw "empty insert row"
      else Ok (if (0 <? length conflict)%nat
               then Unsafe (JStr (partial_upsert (op_table op) (row.*1) conflict p)) (row2.*2)
               else InsertDoNothing (op_table op) row2)
  | None =>
      if (length row =? 0)%nat then Throw "empty insert row"
      else Ok (if (0 <? length conflict)%nat && uniqueIndexCovers (op_table op) conflict u
               then InsertUpsert (op_table op) row2 conflict
               else InsertDoNothing (op_table op) row2)
  end.

Definition op_stmt (op : Op) (u : userdb) : exc string stmt :=
  match op_op op with
  | RAW => let q := jget (op_row op) "sql" in
           if falsy q then Throw "missing raw sql" else Ok (Unsafe q [])
  | DELETE => Ok (DeleteById (op_table op) (op_rowId op))
  | UPDATE => Ok (Unsafe (jget (op_row op) "sql") [])
  | INSERT => insert_stmt op u
  end.

Definition effect (op : Op) (u : userdb) : exc string userdb :=
  exc_bind (op_stmt op u) (fun q => pg_run q u).

Fixpoint effects (ops : list Op) (u : userdb) : exc string userdb :=
  match ops with [] => Ok u | op :: ops => exc_bind (effect op u) (effects ops) end.

(** The operations of a batch that were not applied before, each id once. *)
Fixpoint fresh_ops (seen : gmap string string) (now : string) (ops : list Op) : list Op :=
  match ops with
  | [] => []
  | op :: ops =>
      match seen !! op_key op with
      | Some _ => fresh_ops seen now ops
      | None => op :: fresh_ops (<[op_key op := now]> seen) now ops
      end
  end.

(** The bookkeeping after a batch. *)
Fixpoint marked (seen : gmap string string) (now : string) (ops : list Op) : gmap string string :=
  match ops with
  | [] => seen
  | op :: ops =>
      marked (match seen !! op_key op with Some _ => seen | None => <[op_key op := now]> seen end) now ops
  end.

(** ** One batch *)

Lemma pbind_Ok {A B} (m : PG A) (k : A -> PG B) s b s' :
  pbind m k s = (Ok b, s') -> exists a s1, m s = (Ok a, s1) /\ k a s1 = (Ok b, s').
Proof. unfold pbind. destruct (m s) as [[a|e] s1] eqn:E; naive_solver. Qed.

(** The tables of the agent, the faults left aside. *)
Definition same_tables (s s' : Pg) : Prop :=
  pg_meta s' = pg_meta s /\ pg_migrations s' = pg_migrations s /\ pg_user s' = pg_user s.

Lemma run_user_Ok q s s' :
  run_user q s = (Ok (), s') ->
  pg_run q (pg_user s) = Ok (pg_user s') /\ pg_meta s' = pg_meta s /\
  pg_migrations s' = pg_migrations s.
Proof.
  unfold run_user, statement. destruct (pg_next_fault s); cbn; try (by intros [=]);
    destruct (pg_run q (pg_user s)); intros [=]; subst; done.
Qed.

Lemma read_user_Ok {A} (f : userdb -> A) s a s' :
  read_user f s = (Ok a, s') -> a = f (pg_user s) /\ same_tables s s'.
Proof. unfold read_user, statement. destruct (pg_next_fault s); cbn; intros [=]; subst; done. Qed.

Lemma apply_insert_Ok op s s' :
  apply_insert op s = (Ok (), s') ->
  exc_bind (insert_stmt op (pg_user s)) (fun q => pg_run q (pg_user s)) = Ok (pg_user s') /\
  pg_meta s' = pg_meta s /\ pg_migrations s' = pg_migrations s.
Proof.
  unfold apply_insert, insert_stmt. intros Hr.
  apply pbind_Ok in Hr as ([] & s1 & Hp & Hr).
  assert (s1 = s /\ (forall p, declared_predicate op = Some p -> test where_re p = true)) as [-> Htest].
  { unfold pret, pthrow in Hp. destruct (declared_predicate op) as [p|]; [|by simplify_eq].
    destruct (test where_re p) eqn:E; simplify_eq. split; [done|]. by intros ? [= <-]. }
  destruct (length (op_row_fields op) =? 0)%nat eqn:Hlen; [by unfold pthrow in Hr; simplify_eq|].
  apply pbind_Ok in Hr as (types & s2 & Ht & Hr). apply read_user_Ok in Ht as (-> & Hm & Hg & Hu).
  destruct (declared_predicate op) as [p|].
  - rewrite (Htest p) by done. cbn [negb exc_bind].
    destruct (0 <? _)%nat; apply run_user_Ok in Hr; by rewrite Hm, Hg, Hu in Hr.
  - cbn [exc_bind]. destruct (0 <? _)%nat; cbn [andb].
    + apply pbind_Ok in Hr as (cov & s3 & Hc & Hr). apply read_user_Ok in Hc as (-> & Hm' & Hg' & Hu').
      rewrite Hu in Hr. destruct (uniqueIndexCovers _ _ _); apply run_user_Ok in Hr;
        by rewrite Hm', Hg', Hu', Hm, Hg, Hu in Hr.
    + apply run_user_Ok in Hr. by rewrite Hm, Hg, Hu in Hr.
Qed.

Lemma apply_effect_Ok op s s' :
  apply_effect op s = (Ok (), s') ->
  effect op (pg_user s) = Ok (pg_user s') /\ pg_meta s' = pg_meta s /\
  pg_migrations s' = pg_migrations s.
Proof.
  unfold apply_effect, effect, op_stmt. destruct (op_op op).
  - apply apply_insert_Ok.
  - cbn. apply run_user_Ok.
  - cbn. apply run_user_Ok.
  - destruct (falsy _); [by intros [=]|]. cbn. apply run_user_Ok.
Qed.

Lemma insert_meta_once_Ok k v s b s' :
  insert_meta_once k v s = (Ok b, s') ->
  pg_user s' = pg_user s /\ pg_migrations s' = pg_migrations s /\
  b = bool_decide (pg_meta s !! k = None) /\
  pg_meta s' = match pg_meta s !! k with Some _ => pg_meta s | None => <[k := v]> (pg_meta s) end.
Proof.
  unfold insert_meta_once, statement. destruct (pg_next_fault s); cbn; try (by intros [=]);
    destruct (pg_meta s !! k); intros [=]; subst; done.
Qed.

Lemma apply_ops_Ok now ops s s' :
  apply_ops now ops s = (Ok (), s') ->
  effects (fresh_ops (pg_meta s) now ops) (pg_user s) = Ok (pg_user s') /\
  pg_meta s' = marked (pg_meta s) now ops /\ pg_migrations s' = pg_migrations s.
Proof.
  revert s. induction ops as [|op ops IH]; intros s; cbn [apply_ops fresh_ops marked effects].
  { by intros [= ->]. }
  intros Hr. apply pbind_Ok in Hr as ([] & s2 & H1 & H2). unfold apply_op in H1.
  apply pbind_Ok in H1 as (b & s1 & Hi & H1).
  apply insert_meta_once_Ok in Hi as (Hu & Hg & -> & Hm).
  apply IH in H2 as (He & Hm' & Hg').
  destruct (pg_meta s !! op_key op) as [v|] eqn:Hk; cbn in H1.
  - unfold pret in H1. simplify_eq. by rewrite <- Hu, <- Hm, <- Hg.
  - apply apply_effect_Ok in H1 as (Ha & Hm2 & Hg2). cbn [effects].
    rewrite <- Hu, Ha. cbn. rewrite <- Hm, <- Hm2, <- Hg, <- Hg2. done.
Qed.

(** A delivery leaves the tables alone, or applies what is fresh in the batch
    and marks it; only the latter is acknowledged. *)
Lemma postApply_cases now body ops s r s' :
  parseOps body = Some ops -> postApply now body s = (r, s') ->
  (same_tables s s' /\ reply_status r = 500) \/
  (effects (fresh_ops (pg_meta s) now ops) (pg_user s) = Ok (pg_user s') /\
   pg_meta s' = marked (pg_meta s) now ops /\ pg_migrations s' = pg_migrations s).
Proof.
  intros Hp. unfold postApply, answer, pbind, begin. rewrite Hp.
  destruct (apply_ops now ops s) as [[[]|e] s1] eqn:E.
  - apply apply_ops_Ok in E as (? & ? & ?). destruct (pg_next_fault s1); intros [= <- <-]; auto.
    left. split; done.
  - intros [= <- <-]. left. split; done.
Qed.

(** ** Bookkeeping *)

Lemma marked_mono seen now ops k v : seen !! k = Some v -> marked seen now ops !! k = Some v.
Proof.
  revert seen. induction ops as [|op ops IH]; intros seen Hk; [done|]. cbn. apply IH.
  destruct (seen !! op_key op) eqn:E; [done|].
  rewrite lookup_insert_ne; [done|]. intros Heq. congruence.
Qed.

Lemma marked_done seen now ops op : op ∈ ops -> is_Some (marked seen now ops !! op_key op).
Proof.
  revert seen. induction ops as [|o ops IH]; intros seen Hin; [by apply not_elem_of_nil in Hin|].
  apply elem_of_cons in Hin as [->|Hin]; cbn; [|by apply IH].
  destruct (seen !! op_key o) eqn:E.
  - exists s. by apply marked_mono.
  - exists now. apply marked_mono. by rewrite lookup_insert_eq.
Qed.

(** What is marked has nothing fresh. *)
Lemma fresh_done seen now ops :
  (forall op, op ∈ ops -> is_Some (seen !! op_key op)) -> fresh_ops seen now ops = [].
Proof.
  revert seen. induction ops as [|o ops IH]; intros seen Hd; cbn; [done|].
  destruct (Hd o) as [v Hv]; [set_solver|]. rewrite Hv. apply IH. set_solver.
Qed.

Lemma marked_same seen now ops :
  (forall op, op ∈ ops -> is_Some (seen !! op_key op)) -> marked seen now ops = seen.
Proof.
  revert seen. induction ops as [|o ops IH]; intros seen Hd; cbn; [done|].
  destruct (Hd o) as [v Hv]; [set_solver|]. rewrite Hv. apply IH. set_solver.
Qed.

(** The time stamp does not matter for what is fresh. *)
Lemma fresh_keys seen seen' now now' ops :
  (forall k, is_Some (seen !! k) <-> is_Some (seen' !! k)) ->
  fresh_ops seen now ops = fresh_ops seen' now' ops.
Proof.
  revert seen seen'. induction ops as [|o ops IH]; intros seen seen' Hd; cbn; [done|].
  specialize (Hd (op_key o)) as Ho.
  destruct (seen !! op_key o) eqn:E1, (seen' !! op_key o) eqn:E2.
  - by apply IH.
  - destruct Ho as [Ho _]. by destruct Ho as [? ?]; [eauto|].
  - destruct Ho as [_ Ho]. by destruct Ho as [? ?]; [eauto|].
  - f_equal. apply IH. intros k. destruct (decide (k = op_key o)) as [->|].
    + rewrite !lookup_insert_eq. by split; eauto.
    + rewrite !lookup_insert_ne by done. apply Hd.
Qed.

Lemma fresh_sublist seen now ops : fresh_ops seen now ops `sublist_of` ops.
Proof.
  revert seen. induction ops as [|o ops IH]; intros seen; cbn; [done|].
  case_match; [by apply sublist_cons | by apply sublist_skip].
Qed.

Lemma fresh_new seen now ops op : op ∈ fresh_ops seen now ops -> seen !! op_key op = None.
Proof.
  revert seen. induction ops as [|o ops IH]; intros seen; cbn; [by intros ?%not_elem_of_nil|].
  case_match eqn:E; [apply IH|]. intros [->|Hin]%elem_of_cons; [done|].
  apply IH in Hin. by apply lookup_insert_None in Hin as [? _].
Qed.

Lemma fresh_nodup seen now ops : NoDup (op_key <$> fresh_ops seen now ops).
Proof.
  revert seen. induction ops as [|o ops IH]; intros seen; cbn; [constructor|].
  case_match; [apply IH|]. cbn. constructor; [|apply IH].
  intros (x & Hx & Hin)%list_elem_of_fmap. apply fresh_new in Hin.
  rewrite <- Hx, lookup_insert_eq in Hin. done.
Qed.

Lemma marked_keys seen now ops k :
  is_Some (marked seen now ops !! k) <-> is_Some (seen !! k) \/ k ∈ op_key <$> fresh_ops seen now ops.
Proof.
  revert seen. induction ops as [|o ops IH]; intros seen; cbn.
  { rewrite elem_of_nil. tauto. }
  destruct (seen !! op_key o) eqn:E; [apply IH|].
  rewrite IH. cbn. rewrite elem_of_cons. destruct (decide (k = op_key o)) as [->|Hne].
  - rewrite lookup_insert_eq. split; [by auto|]. intros _. left. eauto.
  - rewrite lookup_insert_ne by done. tauto.
Qed.

Lemma effects_app l1 l2 u :
  effects (l1 ++ l2) u = exc_bind (effects l1 u) (effects l2).
Proof.
  revert u. induction l1 as [|o l1 IH]; intros u; cbn; [done|].
  destruct (effect o u); cbn; [apply IH|done].
Qed.

(** ** Deliveries *)

(** Batches delivered one after the other, each with its time stamp. *)
Fixpoint deliveries (reqs : list (string * jsval)) (s : Pg) : list (reply Z) * Pg :=
  match reqs with
  | [] => ([], s)
  | (now, body) :: reqs =>
      let (r, s1) := postApply now body s in
      let (rs, s2) := deliveries reqs s1 in (r :: rs, s2)
  end.

Definition acked {A} (r : reply A) : Prop := reply_status r = 200.

Lemma retries_inv ops body nows : forall s rs s',
  parseOps body = Some ops ->
  deliveries ((fun now => (now, body)) <$> nows) s = (rs, s') ->
  (same_tables s s' /\ Forall (fun r => ~ acked r) rs) \/
  ((forall n, effects (fresh_ops (pg_meta s) n ops) (pg_user s) = Ok (pg_user s')) /\
   forall op, op ∈ ops -> is_Some (pg_meta s' !! op_key op)).
Proof.
  induction nows as [|now nows IH]; intros s rs s' Hp; cbn.
  { intros [= <- <-]. left. by split. }
  destruct (postApply now body s) as [r s1] eqn:E1.
  destruct (deliveries _ s1) as [rs2 s2] eqn:E2. intros [= <- <-].
  apply (postApply_cases _ _ ops) in E1; [|done]. specialize (IH _ _ _ Hp E2).
  destruct E1 as [[(Hm & Hg & Hu) Hr]|(He & Hm & Hg)].
  - rewrite Hm, Hu in IH. destruct IH as [[(? & ? & ?) ?]|?]; [left|by right].
    split; [unfold same_tables; split_and!; congruence|]. constructor; [|done].
    unfold acked. by rewrite Hr.
  - assert (Hdone : forall op, op ∈ ops -> is_Some (pg_meta s1 !! op_key op))
      by (intros; rewrite Hm; by apply marked_done).
    right.
    assert (Hn : forall n, effects (fresh_ops (pg_meta s) n ops) (pg_user s) = Ok (pg_user s1)).
    { intros n. by rewrite (fresh_keys _ (pg_meta s) n now). }
    destruct IH as [[(Hm2 & _ & Hu2) _]|[He2 Hd2]].
    + split; [intros n; by rewrite Hu2 | by rewrite Hm2].
    + specialize (He2 now). rewrite fresh_done in He2 by done. cbn in He2.
      split; [|done]. intros n. rewrite Hn. congruence.
Qed.

(** C23: a batch delivered again and again takes effect once. However often
    POST /pg/apply receives the same batch, and whatever statements, commits
    and answers are lost on the way, the application tables are either
    untouched, with no delivery acknowledged, or exactly what the operations of
    the batch that were new make of them, each applied once and in order. *)
Theorem apply_retries ops body nows s rs s' :
  parseOps body = Some ops ->
  deliveries ((fun now => (now, body)) <$> nows) s = (rs, s') ->
  (pg_user s' = pg_user s /\ Forall (fun r => ~ acked r) rs) \/
  forall now, effects (fresh_ops (pg_meta s) now ops) (pg_user s) = Ok (pg_user s').
Proof.
  intros Hp Hd. destruct (retries_inv _ _ _ _ _ _ Hp Hd) as [[(_ & _ & ?) ?]|[? _]]; auto.
Qed.

Definition batch_ops (req : string * jsval) : list Op := default [] (parseOps (snd req)).

Lemma delivery_log now body s r s' :
  postApply now body s = (r, s') ->
  exists log,
    log `sublist_of` batch_ops (now, body) /\ NoDup (op_key <$> log) /\
    (forall op, op ∈ log -> pg_meta s !! op_key op = None) /\
    effects log (pg_user s) = Ok (pg_user s') /\
    (forall k, is_Some (pg_meta s' !! k) <-> is_Some (pg_meta s !! k) \/ k ∈ op_key <$> log) /\
    (acked r -> forall op, op ∈ batch_ops (now, body) -> is_Some (pg_meta s' !! op_key op)).
Proof.
  intros Hr. unfold batch_ops. cbn. destruct (parseOps body) as [ops|] eqn:Hp.
  - destruct (postApply_cases _ _ _ _ _ _ Hp Hr) as [[(Hm & _ & Hu) Hst]|(He & Hm & _)].
    + exists []. cbn. rewrite Hm, Hu. split_and!; [apply sublist_nil_l|constructor|set_solver..|].
      unfold acked. by rewrite Hst.
    + exists (fresh_ops (pg_meta s) now ops). rewrite Hm. split_and!; [..|intros _].
      * apply fresh_sublist.
      * apply fresh_nodup.
      * intros op. apply fresh_new.
      * done.
      * intros k. apply marked_keys.
      * intros op. apply marked_done.
  - unfold postApply in Hr. rewrite Hp in Hr. injection Hr as <- <-.
    exists []. cbn. split_and!; [done|constructor|set_solver..].
Qed.

(** The log of a provider. After any sequence of batches under any faults,
    the application tables are the result of a sequence of operations taken
    from the batches in the order they were sent, no operation id twice and
    none that was applied before, and every operation of an acknowledged batch
    has been applied. *)
Theorem apply_log reqs : forall s rs s',
  deliveries reqs s = (rs, s') ->
  exists log,
    log `sublist_of` concat (batch_ops <$> reqs) /\
    NoDup (op_key <$> log) /\
    (forall op, op ∈ log -> pg_meta s !! op_key op = None) /\
    effects log (pg_user s) = Ok (pg_user s') /\
    (forall k, is_Some (pg_meta s' !! k) <-> is_Some (pg_meta s !! k) \/ k ∈ op_key <$> log) /\
    forall i req r op, reqs !! i = Some req -> rs !! i = Some r -> acked r -> op ∈ batch_ops req ->
      is_Some (pg_meta s' !! op_key op).
Proof.
  induction reqs as [|[now body] reqs IH]; intros s rs s'; cbn.
  { intros [= <- <-]. exists []. cbn. split_and!; [done|constructor|set_solver|done|set_solver|by intros []]. }
  destruct (postApply now body s) as [r s1] eqn:E1.
  destruct (deliveries reqs s1) as [rs2 s2] eqn:E2. intros [= <- <-].
  destruct (IH _ _ _ E2) as (log & Hsub & Hnd & Hnew & Heff & Hdom & Hack). clear IH E2.
  destruct (delivery_log _ _ _ _ _ E1) as (log1 & Hsub1 & Hnd1 & Hnew1 & Heff1 & Hdom1 & Hack1).
  exists (log1 ++ log). split_and!.
  - by apply sublist_app.
  - rewrite fmap_app. apply NoDup_app. split_and!; [done| |done].
    intros k Hk (op & -> & Hop)%list_elem_of_fmap. apply Hnew in Hop.
    assert (is_Some (pg_meta s1 !! op_key op)) as [? ?] by (apply Hdom1; by right). congruence.
  - intros op [Hop|Hop]%elem_of_app; [by apply Hnew1|]. apply Hnew in Hop.
    apply eq_None_not_Some. intros Hs. apply eq_None_not_Some in Hop. apply Hop, Hdom1. by left.
  - rewrite effects_app, Heff1. done.
  - intros k. rewrite Hdom, Hdom1, fmap_app, elem_of_app. tauto.
  - intros [|i] req r' op; cbn; [|by apply Hack].
    intros [= <-] [= <-] Hr Hop. apply Hdom. left. by apply Hack1.
Qed.

(** ** In working order *)

(** A computation that meets no fault: its result, as a function. *)
Lemma statement_quiet {A} (m : Pg -> exc string (A * Pg)) s :
  pg_faults s = [] ->
  statement m s = match m s with Ok (a, s') => (Ok a, s') | Throw e => (Throw e, s) end.
Proof.
  intros Hf. unfold statement, pg_next_fault, drop_fault. rewrite Hf. cbn.
  replace (pg_set_faults s []) with s by (destruct s; cbn in *; by subst). done.
Qed.

Lemma run_user_quiet q s :
  pg_faults s = [] ->
  run_user q s = match pg_run q (pg_user s) with Ok u => (Ok (), set_user s u) | Throw e => (Throw e, s) end.
Proof. intros Hf. unfold run_user. rewrite statement_quiet by done. by destruct (pg_run _ _). Qed.

Lemma read_user_quiet {A} (f : userdb -> A) s :
  pg_faults s = [] -> read_user f s = (Ok (f (pg_user s)), s).
Proof. intros Hf. unfold read_user. by rewrite statement_quiet. Qed.

Lemma apply_insert_quiet op s :
  pg_faults s = [] ->
  apply_insert op s =
  match exc_bind (insert_stmt op (pg_user s)) (fun q => pg_run q (pg_user s)) with
  | Ok u => (Ok (), set_user s u)
  | Throw e => (Throw e, s)
  end.
Proof.
  intros Hf. unfold apply_insert, insert_stmt, pbind.
  destruct (declared_predicate op) as [p|].
  - destruct (test where_re p); [|done]. cbn [negb pret]. destruct (_ =? 0)%nat; [done|].
    rewrite read_user_quiet by done. destruct (0 <? _)%nat; by rewrite run_user_quiet.
  - cbn [pret]. destruct (_ =? 0)%nat; [done|]. rewrite read_user_quiet by done.
    destruct (0 <? _)%nat; cbn [andb]; [|by rewrite run_user_quiet].
    rewrite read_user_quiet by done. destruct (uniqueIndexCovers _ _ _); by rewrite run_user_quiet.
Qed.

Lemma apply_effect_quiet op s :
  pg_faults s = [] ->
  apply_effect op s = match effect op (pg_user s) with
                      | Ok u => (Ok (), set_user s u)
                      | Throw e => (Throw e, s)
                      end.
Proof.
  intros Hf. unfold apply_effect, effect, op_stmt. destruct (op_op op).
  - by apply apply_insert_quiet.
  - cbn. by rewrite run_user_quiet.
  - cbn. by rewrite run_user_quiet.
  - destruct (falsy _); [done|]. cbn. by rewrite run_user_quiet.
Qed.

Lemma apply_ops_quiet now ops : forall s,
  pg_faults s = [] ->
  match effects (fresh_ops (pg_meta s) now ops) (pg_user s) with
  | Ok u => apply_ops now ops s = (Ok (), set_user (set_meta s (marked (pg_meta s) now ops)) u)
  | Throw e => exists s', apply_ops now ops s = (Throw e, s') /\ pg_faults s' = []
  end.
Proof.
  induction ops as [|op ops IH]; intros s Hf; cbn [fresh_ops effects marked apply_ops].
  { by destruct s. }
  unfold apply_op, insert_meta_once, pbind. rewrite statement_quiet by done.
  destruct (pg_meta s !! op_key op) eqn:Hk; [by apply IH|].
  cbn [effects]. rewrite apply_effect_quiet by done.
  change (pg_user (set_meta s _)) with (pg_user s).
  destruct (effect op (pg_user s)) as [u|e]; cbn [exc_bind]; [|by eexists].
  specialize (IH (set_user (set_meta s (<[op_key op:=now]> (pg_meta s))) u) Hf). cbn in IH.
  by destruct (effects _ u).
Qed.

(** A working provider applies a batch or rejects it whole. When no call
    fails, POST /pg/apply runs the new operations in order; if each of them
    goes through, it answers 200 with the size of the batch and the tables are
    their result; if one throws, it answers 500 with that message and nothing
    has changed, the ids of the operations before it included. *)
Theorem apply_exact now body ops s :
  pg_faults s = [] -> parseOps body = Some ops ->
  postApply now body s =
  match effects (fresh_ops (pg_meta s) now ops) (pg_user s) with
  | Ok u => (Res 200 (Z.of_nat (length ops)), set_user (set_meta s (marked (pg_meta s) now ops)) u)
  | Throw e => (Err 500 e, s)
  end.
Proof.
  intros Hf Hp. unfold postApply, answer, begin, pbind. rewrite Hp.
  pose proof (apply_ops_quiet now ops s Hf) as Ha.
  destruct (effects _ _) as [u|e].
  - rewrite Ha. unfold pg_next_fault, drop_fault. cbn. rewrite Hf. cbn. destruct s; cbn in *; by subst.
  - destruct Ha as (s1 & -> & Hf1). rewrite Hf1. destruct s; cbn in *; by subst.
Qed.

(** ** Conflict targets *)

Definition starts_quote (s : string) : bool :=
  match s with String c _ => code c =? 39 | "" => false end.

Lemma joined_starts_quote conflict : conflict <> [] -> starts_quote (joined_literals conflict) = true.
Proof. destruct conflict as [|c [|d l]]; done. Qed.

Lemma array_agg_one l x : array_agg l = array_agg [x] -> l = [x].
Proof.
  intros Heq. unfold array_agg in Heq.
  pose proof (merge_sort_Permutation str_le l) as Hp. rewrite Heq in Hp. cbn in Hp.
  by apply Permutation_singleton_l in Hp.
Qed.

(** A plain conflict target is never used. The list of columns reaches the
    catalog query as one quoted text, so [uniqueIndexCovers] finds no index on
    tables whose column names do not begin with a quote: an INSERT that
    declares conflict columns without a predicate keeps the row that is there
    instead of updating it. *)
Theorem plain_conflict_ignored op u :
  op_op op = INSERT -> declared_predicate op = None -> op_row_fields op <> [] ->
  (forall t cols c, (t, cols) ∈ pg_unique u -> c ∈ cols -> starts_quote c = false) ->
  exists row, op_stmt op u = Ok (InsertDoNothing (op_table op) row) /\ row.*1 = (op_row_fields op).*1.
Proof.
  intros Hi Hp Hrow Hcols. unfold op_stmt, insert_stmt. rewrite Hi, Hp.
  destruct (op_row_fields op) as [|e l] eqn:El; [done|]. rewrite <- El in *.
  replace (length (op_row_fields op) =? 0)%nat with false by (by rewrite El).
  eexists. split; [f_equal|].
  - destruct (0 <? length (default [] (declared_conflict op)))%nat eqn:Hlen; cbn [andb]; [|reflexivity].
    destruct (uniqueIndexCovers _ _ _) eqn:Hu; [|reflexivity]. exfalso.
    unfold uniqueIndexCovers in Hu. apply existsb_exists in Hu as ([t cols] & Hin & Heq). zbool.
    apply array_agg_one in H1. apply list_elem_of_In in Hin.
    specialize (Hcols t cols (joined_literals (default [] (declared_conflict op))) Hin).
    rewrite joined_starts_quote in Hcols; [|by destruct (default [] _)].
    rewrite H1 in Hcols. by specialize (Hcols ltac:(set_solver)).
  - rewrite <- list_fmap_compose. apply list_fmap_ext. by intros ? [? ?].
Qed.
End facts.
