(* ===== verification/PgSchemaFacts.v ===== *)
(** * Migrations, the bytea codec, reads and the token gate of the agent *)

From Stdlib Require Import Ascii QArith.
From S2P Require Import Prelude Js Http Regex PgAgent PgAgentFacts.
#[local] Open Scope Z_scope.

Section schema.
Context `{PgServer}.

(** ** One migration *)

(** Recording adds the row of a migration that had none. *)
Definition migration_recorded (m : Migration) (s s' : Pg) : Prop :=
  pg_migrations s !! mg_id m = None /\ mg_version m < 2 ^ 31 /\
  pg_migrations s' = <[mg_id m := mg_version m]> (pg_migrations s) /\ pg_meta s' = pg_meta s.

Definition unrecorded (s s' : Pg) : Prop :=
  pg_migrations s' = pg_migrations s /\ pg_meta s' = pg_meta s.

Lemma record_migration_cases m s r s' :
  record_migration m s = (r, s') ->
  (unrecorded s s' /\ is_ok r = false) \/ migration_recorded m s s'.
Proof.
  unfold record_migration, statement, migration_recorded, unrecorded. destruct (pg_next_fault s); cbn;
    destruct (pg_migrations s !! mg_id m) eqn:E; cbn;
    try destruct (2 ^ 31 <=? mg_version m) eqn:E2; zbool; intros [= <- <-]; auto.
Qed.

Lemma run_user_unrecorded q s r s' : run_user q s = (r, s') -> unrecorded s s'.
Proof.
  unfold run_user, statement, unrecorded. destruct (pg_next_fault s); cbn;
    try destruct (pg_run q (pg_user s)); by intros [= <- <-].
Qed.

Lemma ddl_and_record_cases q m s r s' :
  (let* _ := run_user q in record_migration m)%pg s = (r, s') ->
  (unrecorded s s' /\ is_ok r = false) \/ migration_recorded m s s'.
Proof.
  unfold pbind. destruct (run_user q s) as [[[]|e] s1] eqn:E; apply run_user_unrecorded in E as [Hg Hm].
  - intros Hr. apply record_migration_cases in Hr as [[[Hg' Hm'] ?]|(Hn & ? & Hg' & Hm')].
    + left. split; [|done]. split; congruence.
    + right. unfold migration_recorded. rewrite <- Hg, <- Hm. auto.
  - intros [= <- <-]. left. by split.
Qed.

Lemma begin_cases m (body : PG ()) s r s' :
  (forall r s', body s = (r, s') -> (unrecorded s s' /\ is_ok r = false) \/ migration_recorded m s s') ->
  begin body s = (r, s') -> (unrecorded s s' /\ is_ok r = false) \/ migration_recorded m s s'.
Proof.
  intros Hb. unfold begin. destruct (body s) as [[[]|e] s1] eqn:E.
  - destruct (Hb _ _ eq_refl) as [[_ ?]|Hrec]; [done|].
    destruct (pg_next_fault s1); intros [= <- <-]; auto. left. split; [|done]. done.
  - intros [= <- <-]. left. by split.
Qed.

(** A migration that went through was known, or is recorded now. *)
Lemma apply_migration_Ok v m s v' s' :
  apply_migration v m s = (Ok v', s') ->
  (v' = v /\ unrecorded s s' /\ is_Some (pg_migrations s !! mg_id m)) \/
  (v' = num_max v (mg_version m) /\ migration_recorded m s s').
Proof.
  unfold apply_migration. intros Hr. apply pbind_Ok in Hr as (known & s1 & Hk & Hr).
  assert (unrecorded s s1 /\ known = bool_decide (is_Some (pg_migrations s !! mg_id m))) as [[Hg Hm] ->].
  { revert Hk. unfold known_migration, statement. destruct (pg_next_fault s); cbn; intros [= <- <-]; done. }
  case_bool_decide as Hkn.
  { injection Hr as <- <-. left. by repeat split. }
  apply pbind_Ok in Hr as ([] & s2 & Hc & Hr). injection Hr as <- <-. right. split; [done|].
  assert (Hrec : migration_recorded m s1 s2); [|unfold migration_recorded in *; by rewrite Hg, Hm in Hrec].
  revert Hc. unfold pcatch. set (body := if runsOutsideTransaction _ then _ else _).
  assert (Hb : forall r s', body s1 = (r, s') -> (unrecorded s1 s' /\ is_ok r = false) \/ migration_recorded m s1 s').
  { intros r s3. subst body. case_match; [apply ddl_and_record_cases|].
    apply begin_cases. intros ? ?. apply ddl_and_record_cases. }
  destruct (body s1) as [[[]|e] s3] eqn:E.
  - intros [= <-]. by destruct (Hb _ _ eq_refl) as [[_ ?]|?].
  - case_match; [by intros [=]|]. intros Hh.
    apply record_migration_cases in Hh as [[_ ?]|(Hn & Hv & Hg' & Hm')]; [done|].
    destruct (Hb _ _ eq_refl) as [[[Hg3 Hm3] _]|(Hn3 & _ & Hg3 & _)].
    + unfold migration_recorded. rewrite <- Hg3, <- Hm3. done.
    + by rewrite Hg3, lookup_insert_eq in Hn.
Qed.

(** ** Versions *)

(** The version in the bookkeeping table is absent or the text of an integer. *)
Definition version_ok (s : Pg) : Prop :=
  match pg_meta s !! "schema_version" with
  | Some t => exists z, 0 <= z < 2 ^ 53 /\ t = Z_to_string z
  | None => True
  end.
Definition stored_version (s : Pg) : Z :=
  match pg_meta s !! "schema_version" with
  | Some t => default 0 (num_int (Number_string t))
  | None => 0
  end.

(** Every recorded migration is at most the stored version. *)
Definition versions_covered (s : Pg) : Prop :=
  forall id v, pg_migrations s !! id = Some v -> v <= stored_version s.

Lemma num_max_int v z n : num_int v = Some z -> num_int (num_max v n) = Some (Z.max z n).
Proof.
  destruct v as [| | |q]; cbn [num_int]; try done. intros Hq. unfold num_max, num_lt.
  destruct (Qnum q mod QDen q =? 0) eqn:E; [|done]. zbool. injection Hq as <-.
  pose proof (Z.div_mod (Qnum q) (QDen q) ltac:(lia)) as Hd. rewrite E, Z.add_0_r in Hd.
  destruct (Qnum q <? n * QDen q) eqn:E2; zbool.
  - unfold num_Z, num_int. cbn. rewrite Z.mod_1_r, Z.div_1_r. cbn. f_equal. nia.
  - cbn [num_int]. rewrite E. cbn. f_equal. nia.
Qed.

Lemma apply_migrations_Ok ms : forall v z s v' s',
  num_int v = Some z -> 0 <= z < 2 ^ 53 ->
  apply_migrations v ms s = (Ok v', s') ->
  exists z', num_int v' = Some z' /\ z <= z' < 2 ^ 53 /\ pg_meta s' = pg_meta s /\
    pg_migrations s ⊆ pg_migrations s' /\
    (forall m, m ∈ ms -> is_Some (pg_migrations s' !! mg_id m)) /\
    (forall id w, pg_migrations s' !! id = Some w -> pg_migrations s !! id = Some w \/ w <= z').
Proof.
  induction ms as [|m ms IH]; intros v z s v' s' Hv Hz; cbn [apply_migrations].
  { intros [= <- <-]. exists z. split_and!; try done; try lia; [set_solver|auto]. }
  intros Hr. apply pbind_Ok in Hr as (v1 & s1 & H1 & H2).
  apply apply_migration_Ok in H1 as [(-> & [Hg Hm] & Hk)|(-> & Hn & Hver & Hg & Hm)].
  - destruct (IH _ _ _ _ _ Hv Hz H2) as (z' & ? & ? & ? & Hsub & Hall & Hw).
    exists z'. rewrite Hg in *. split_and!; try done; try lia; [congruence|].
    intros m' [->|Hin]%elem_of_cons; [|by apply Hall].
    destruct Hk as [w Hk]. exists w. by eapply lookup_weaken.
  - pose proof (num_max_int _ _ (mg_version m) Hv) as Hv1.
    assert (Hz1 : 0 <= Z.max z (mg_version m) < 2 ^ 53) by lia.
    destruct (IH _ _ _ _ _ Hv1 Hz1 H2) as (z' & ? & ? & ? & Hsub & Hall & Hw).
    exists z'. rewrite Hg in *. split_and!; try done; try lia; [congruence|..].
    + etrans; [by apply insert_subseteq | done].
    + intros m' [->|Hin]%elem_of_cons; [|by apply Hall].
      exists (mg_version m). eapply lookup_weaken; [|done]. by rewrite lookup_insert_eq.
    + intros id w [Hid|?]%Hw; [|by right].
      destruct (decide (id = mg_id m)) as [->|Hne].
      * rewrite lookup_insert_eq in Hid. injection Hid as <-. right. lia.
      * rewrite lookup_insert_ne in Hid by done. by left.
Qed.

Lemma currentVersion_Ok s v s' :
  currentVersion s = (Ok v, s') -> version_ok s ->
  num_int v = Some (stored_version s) /\ 0 <= stored_version s < 2 ^ 53 /\ same_tables s s'.
Proof.
  unfold currentVersion, statement, version_ok, stored_version.
  destruct (pg_next_fault s); cbn; intros [= <- <-]; try done.
  destruct (pg_meta s !! "schema_version") as [t|]; [|done].
  intros (z & Hz & ->). by rewrite Number_show.
Qed.

Lemma answer_Ok {A} (m : PG A) s a s' : answer m s = (Res 200 a, s') -> m s = (Ok a, s').
Proof. unfold answer. destruct (m s) as [[b|e] s1]; by intros [= <- <-]. Qed.

(** C24: an acknowledged schema push. When POST /pg/schema answers 200 on a
    provider whose stored version is absent or a non-negative safe integer,
    every migration of the request is recorded, none that was recorded is lost,
    the version it answers is the stored one (again a safe integer), has not
    gone down, and is at least the version of every migration that this request
    newly recorded; so a provider whose version covered all its recorded
    migrations stays covered. (A provider that an earlier push left behind,
    failing between its migrations and its version, is not covered, and a push
    of already recorded migrations does not bring its version up: see
    schema_version_stale.) *)
Theorem schema_acknowledged body ms s v s' :
  version_ok s -> parseMigrations body = Some ms ->
  postSchema body s = (Res 200 v, s') ->
  version_ok s' /\ num_int v = Some (stored_version s') /\
  stored_version s <= stored_version s' /\
  pg_migrations s ⊆ pg_migrations s' /\
  (forall m, m ∈ ms -> is_Some (pg_migrations s' !! mg_id m)) /\
  (forall id w, pg_migrations s' !! id = Some w -> pg_migrations s !! id = None -> w <= stored_version s') /\
  (versions_covered s -> versions_covered s').
Proof.
  intros Hok Hp. unfold postSchema. rewrite Hp. intros E. apply answer_Ok in E.
  apply pbind_Ok in E as (v0 & s1 & H1 & E). apply pbind_Ok in E as (v1 & s2 & H2 & E).
  apply pbind_Ok in E as ([] & s3 & H3 & E). injection E as <- <-.
  destruct (currentVersion_Ok _ _ _ H1 Hok) as (Hv & Hz & Hm & Hg & _).
  destruct (apply_migrations_Ok _ _ _ _ _ _ Hv Hz H2) as (z & Hz1 & Hle & Hm2 & Hsub & Hall & Hw).
  assert (Hw3 : pg_migrations s3 = pg_migrations s2 /\ pg_meta s3 !! "schema_version" = Some (String_num v1)).
  { revert H3. unfold write_version, statement. destruct (pg_next_fault s2); cbn; intros [= <-].
    split; [done|]. cbn. by rewrite lookup_insert_eq. }
  destruct Hw3 as [Hg3 Hm3].
  assert (Hs : String_num v1 = Z_to_string z) by (by destruct v1; cbn in Hz1 |- *; rewrite ?Hz1).
  assert (Hst : stored_version s3 = z).
  { unfold stored_version. rewrite Hm3, Hs, Number_show; [done|lia]. }
  rewrite Hg in Hsub, Hw. split_and!.
  - unfold version_ok. rewrite Hm3, Hs. exists z. split; [lia|done].
  - by rewrite Hst.
  - lia.
  - by rewrite Hg3.
  - by rewrite Hg3.
  - intros id w. rewrite Hg3, Hst. intros [Hid|?]%Hw Hn; [congruence|done].
  - intros Hc id w. rewrite Hg3, Hst. intros [Hid|?]%Hw; [|done]. apply Hc in Hid. lia.
Qed.

(** ** The bytea codec *)

Lemma hex_digit_nibble d : 0 <= d < 16 -> hex_digit_val (nibble d) = Some d.
Proof.
  intros Hd. assert (Hc : d = 0 \/ d = 1 \/ d = 2 \/ d = 3 \/ d = 4 \/ d = 5 \/ d = 6 \/ d = 7 \/ d = 8 \/
    d = 9 \/ d = 10 \/ d = 11 \/ d = 12 \/ d = 13 \/ d = 14 \/ d = 15) by lia.
  by repeat (destruct Hc as [->|Hc]; [reflexivity|]); subst.
Qed.

Lemma hex_digit_is_hex c d : hex_digit_val c = Some d -> is_hex c = true.
Proof.
  unfold hex_digit_val, is_hex, is_hex_lower. destruct (is_digit c); [done|]. cbn.
  destruct ((97 <=? code c) && (code c <=? 102)); [done|]. cbn. by destruct (_ && _).
Qed.

Lemma hex_bytes_cons b l :
  hex_bytes (b :: l) = String (nibble (b / 16)) (String (nibble (b mod 16)) (hex_bytes l)).
Proof. unfold hex_bytes. cbn. by destruct (hex_byte <$> l). Qed.

Definition is_byte (b : Z) : Prop := 0 <= b < 256.

Lemma hex_bytes_facts l :
  Forall is_byte l ->
  hex_pairs (hex_bytes l) = l /\ sall is_hex (hex_bytes l) = true /\
  Nat.even (String.length (hex_bytes l)) = true.
Proof.
  induction 1 as [|b l Hb Hl (IH1 & IH2 & IH3)]; [done|]. rewrite hex_bytes_cons.
  assert (H1 : 0 <= b / 16 < 16) by (unfold is_byte in Hb; dlia).
  assert (H2 : 0 <= b mod 16 < 16) by dlia.
  apply hex_digit_nibble in H1, H2. cbn [hex_pairs sall String.length Nat.even].
  rewrite H1, H2, IH1, IH2, IH3, (hex_digit_is_hex _ _ H1), (hex_digit_is_hex _ _ H2).
  split_and!; try done. cbn. f_equal. dlia.
Qed.

Lemma slice_prefix s :
  String.substring 2 (String.length (backslash_x +:+ s) - 2) (backslash_x +:+ s) = s.
Proof.
  change (String.substring 0 (String.length s - 0) s = s). rewrite Nat.sub_0_r.
  induction s as [|c s IH]; [done|]. cbn. by rewrite IH.
Qed.

(** Bytes survive the trip through the gateway. The text /pg/query makes of
    a bytea value is decoded by /pg/apply, in a bytea column, to the same
    bytes. *)
Theorem bytea_roundtrip l :
  Forall is_byte l -> decodeValue (serializeValue (OBytes l)) (Some "bytea") = PBytes l.
Proof.
  intros Hl. destruct (hex_bytes_facts l Hl) as (H1 & H2 & H3).
  unfold decodeValue, serializeValue.
  replace (starts_with backslash_x (backslash_x +:+ hex_bytes l)) with true
    by (unfold starts_with; cbn; by destruct (hex_bytes l)).
  replace (String.substring 2 (String.length (backslash_x +:+ hex_bytes l) - 2) (backslash_x +:+ hex_bytes l))
    with (hex_bytes l).
  2:{ symmetry. apply slice_prefix. }
  rewrite bool_decide_eq_true_2 by done. by rewrite H2, H3, H1.
Qed.

(** ** Requests *)

Lemma statement_quiet_tables {A} (m : Pg -> exc string (A * Pg)) s r s' :
  (forall s a s1, m s = Ok (a, s1) -> same_tables s s1) ->
  statement m s = (r, s') -> same_tables s s'.
Proof.
  intros Hm. unfold statement. destruct (pg_next_fault s).
  - destruct (m (drop_fault s)) as [[a s1]|e] eqn:E; intros [= <- <-]; [|done].
    by apply Hm in E.
  - by intros [= <- <-].
  - destruct (m (drop_fault s)) as [[a s1]|e1] eqn:E; intros [= <- <-]; [|done].
    by apply Hm in E.
Qed.

Lemma getHealth_tables s r s' : getHealth s = (r, s') -> same_tables s s'.
Proof.
  assert (Hv : forall s r s', currentSchemaVersion s = (r, s') -> same_tables s s').
  { intros s0 r0 s0'. unfold currentSchemaVersion, pcatch. destruct (currentVersion s0) as [[v|e] s1] eqn:E;
      unfold currentVersion in E; apply statement_quiet_tables in E; try (by intros [= <- <-]);
      by intros ? ? ? [= <- <-]. }
  unfold getHealth, answer, pcatch, pbind.
  destruct (currentSchemaVersion s) as [[v|e] s1] eqn:E1; apply Hv in E1 as (? & ? & ?).
  - destruct (read_user pg_tables s1) as [[t|e] s2] eqn:E2; unfold read_user in E2;
      apply statement_quiet_tables in E2; try (by intros ? ? ? [= <- <-]);
      destruct E2 as (? & ? & ?); intros [= <- <-]; unfold same_tables; split_and!; congruence.
  - by intros [= <- <-].
Qed.

(** Without the token only the health check answers. When a token is
    configured, a request whose Authorization header does not carry exactly it
    is refused and changes nothing; the health check, which is open to
    everybody, never changes a table. *)
Theorem token_gate token header r s a s' :
  token <> "" -> bearer_token header <> Some token ->
  pg_serve (Some token) header r s = (a, s') ->
  same_tables s s' /\ (a = Denied \/ exists h, r = HealthReq /\ a = HealthRep h).
Proof.
  intros Ht Hh. assert (Hr : token_refused (Some token) header = true).
  { unfold token_refused. rewrite bool_decide_eq_true_2 by done.
    destruct (String.eqb token "") eqn:E; [|done]. by apply String.eqb_eq in E. }
  destruct r; cbn [pg_serve]; rewrite ?Hr; try (intros [= <- <-]; by split; [|left]).
  destruct (getHealth s) as [h s1] eqn:E. intros [= <- <-]. apply getHealth_tables in E.
  split; [done|]. right. eauto.
Qed.

(** Start-up ends after thirty attempts at the latest. *)
Lemma ensure_from_decides n attempts :
  (31 - n <= length attempts)%nat -> (0 < length attempts)%nat -> is_Some (ensure_from n attempts).
Proof.
  revert n. induction attempts as [|[] l IH]; intros n Hl H0; cbn [ensure_from length] in *; [lia|by eexists|].
  destruct (30 <=? n)%nat eqn:E; [by eexists|]. apply Nat.leb_gt in E. apply IH; lia.
Qed.

Lemma ensureMeshSchema_decides attempts :
  length attempts = 30%nat -> is_Some (ensureMeshSchema attempts).
Proof. intros Hl. apply ensure_from_decides; lia. Qed.
End schema.

(** ** A server for the witnesses *)

(** The application tables as the list of what was executed: a text that
    starts with "BAD" is refused, one on a missing table too. *)
Definition demo_run (q : stmt) (u : list stmt) : exc string (list stmt) :=
  match q with
  | Unsafe (JStr t) _ =>
      if String.prefix "BAD" t then Throw "syntax error"
      else if String.prefix "ALTER TABLE missing" t then Throw "relation missing does not exist"
      else Ok (u ++ [q])
  | _ => Ok (u ++ [q])
  end.

#[export] Instance demoPg : PgServer := {|
  userdb := list stmt;
  pg_run := demo_run;
  pg_columns := fun _ => [("notes", "id", "text"); ("notes", "Data", "bytea")];
  pg_unique := fun _ => [("notes", ["id"])];
  pg_tables := fun _ => ["notes"; "_mesh_pg_meta"];
  pg_query := fun _ u => Ok ([], u);
  pg_describe := fun _ _ => Ok [];
  parseJson := fun _ => None;
  pg_ident := fun s => s
|}.

Definition demo_state (faults : list pg_fault) : Pg :=
  {| pg_meta := ∅; pg_migrations := ∅; pg_user := []; pg_faults := faults |}.

Definition demo_op (id op : string) (row : list (string * jsval)) : jsval :=
  JObj [("id", JStr id); ("table", JStr "notes"); ("op", JStr op); ("rowId", JStr "r1"); ("row", JObj row)].
Definition demo_batch : jsval :=
  JObj [("ops", JArr [demo_op "a" "INSERT" [("id", JStr "r1"); ("data", JStr "00ff")];
                      demo_op "b" "DELETE" []])].

(** A refused statement, then an answer lost at the commit, then a delivery that
    gets through. *)
Definition demo_deliveries : list (reply Z) * Pg :=
  deliveries ((fun now => (now, demo_batch)) <$> ["t1"; "t2"; "t3"])
    (demo_state [Refused "reset"; NoFault; NoFault; NoFault; NoFault; NoFault; AnswerLost "reset"]).

Example demo_deliveries_replies :
  fst demo_deliveries = [Err 500 "reset"; Err 500 "reset"; Res 200 2] /\
  pg_user (snd demo_deliveries) =
    [InsertDoNothing "notes" [("id", PJson (JStr "r1")); ("data", PBytes [0; 255])];
     DeleteById "notes" "r1"].
Proof. vm_compute. done. Qed.

Lemma apply_retries_witness :
  exists ops, parseOps demo_batch = Some ops /\
  ((pg_user (snd demo_deliveries) = [] /\ Forall (fun r => ~ acked r) (fst demo_deliveries)) \/
   forall now, effects (fresh_ops ∅ now ops) [] = Ok (pg_user (snd demo_deliveries))).
Proof.
  eexists. split; [vm_compute; reflexivity|].
  apply (apply_retries _ demo_batch ["t1"; "t2"; "t3"]
    (demo_state [Refused "reset"; NoFault; NoFault; NoFault; NoFault; NoFault; AnswerLost "reset"])).
  - vm_compute. reflexivity.
  - apply surjective_pairing.
Defined.

Lemma apply_log_witness :
  exists log, NoDup (op_key <$> log) /\ effects log [] = Ok (pg_user (snd demo_deliveries)).
Proof.
  destruct (apply_log ((fun now => (now, demo_batch)) <$> ["t1"; "t2"; "t3"])
    (demo_state [Refused "reset"; NoFault; NoFault; NoFault; NoFault; NoFault; AnswerLost "reset"])
    (fst demo_deliveries) (snd demo_deliveries)) as (log & _ & Hnd & _ & He & _).
  - apply surjective_pairing.
  - exists log. split; [exact Hnd | exact He].
Defined.

Lemma apply_exact_witness :
  exists ops, parseOps demo_batch = Some ops /\
  postApply "t" demo_batch (demo_state []) =
  match effects (fresh_ops ∅ "t" ops) [] with
  | Ok u => (Res 200 2, set_user (set_meta (demo_state []) (marked ∅ "t" ops)) u)
  | Throw e => (Err 500 e, demo_state [])
  end.
Proof.
  eexists. split; [vm_compute; reflexivity|].
  apply (apply_exact "t" demo_batch); [reflexivity | vm_compute; reflexivity].
Defined.

(** The index on [id] is there, the statement declares it, and yet the row is
    kept as it is. *)
Definition demo_upsert : Op :=
  {| op_id := "c"; op_table := "notes"; op_op := INSERT; op_rowId := "r1";
     op_row := JObj [("id", JStr "r1"); ("title", JStr "new")]; op_conflictColumns := Some ["id"] |}.

Lemma plain_conflict_ignored_witness :
  @pg_unique demoPg (@nil stmt) = [("notes", ["id"])] /\
  exists row, op_stmt demo_upsert (@nil stmt) = Ok (InsertDoNothing "notes" row) /\ row.*1 = ["id"; "title"].
Proof.
  split; [reflexivity|].
  apply (@plain_conflict_ignored demoPg demo_upsert (@nil stmt)); try reflexivity.
  - discriminate.
  - intros t cols c Ht Hc. apply list_elem_of_singleton in Ht. injection Ht as -> ->.
    apply list_elem_of_singleton in Hc. by rewrite Hc.
Defined.

Definition demo_migration (id : string) (version : Z) (ddl : string) : jsval :=
  JObj [("id", JStr id); ("version", JNum (num_Z version)); ("ddl", JStr ddl)].
Definition demo_push (ms : list jsval) : jsval := JObj [("migrations", JArr ms)].
Definition demo_notes : jsval := demo_migration "m1" 1 "CREATE TABLE notes (id serial)".

Lemma schema_acknowledged_witness :
  stored_version (snd (postSchema (demo_push [demo_notes]) (demo_state []))) = 1 /\
  versions_covered (snd (postSchema (demo_push [demo_notes]) (demo_state []))).
Proof.
  split; [vm_compute; reflexivity|].
  eapply (schema_acknowledged (demo_push [demo_notes]) _ (demo_state [])).
  - exact I.
  - vm_compute. reflexivity.
  - vm_compute. reflexivity.
  - intros id v Hv. cbn in Hv. by rewrite lookup_empty in Hv.
Defined.

Lemma bytea_roundtrip_witness :
  decodeValue (serializeValue (OBytes [0; 127; 255])) (Some "bytea") = PBytes [0; 127; 255].
Proof. apply (bytea_roundtrip [0; 127; 255]). repeat constructor; done. Defined.

Lemma token_gate_witness :
  same_tables (demo_state []) (snd (pg_serve (Some "secret") None (ApplyReq "t" demo_batch) (demo_state []))).
Proof.
  eapply (token_gate "secret" None (ApplyReq "t" demo_batch) (demo_state [])).
  - discriminate.
  - discriminate.
  - apply surjective_pairing.
Defined.

(** ** What the routes get wrong *)

(** A failed push leaves the version behind for good. A migration is
    recorded by itself, the version only at the end of a request, and a
    migration that is known does not raise it: when the second migration of a
    push fails, pushing the first one again is acknowledged with version 0
    although its version 1 is recorded. *)
Theorem schema_version_stale :
  let first := postSchema (demo_push [demo_notes; demo_migration "m2" 2 "BAD"]) (demo_state []) in
  let again := postSchema (demo_push [demo_notes]) (snd first) in
  fst first = Err 500 "syntax error" /\ fst again = Res 200 (num_Z 0) /\
  pg_migrations (snd again) !! "m1" = Some 1 /\ stored_version (snd again) = 0.
Proof. vm_compute. done. Qed.

(** A change of a table the provider does not have is acknowledged and recorded
    as applied, and skipped from then on. *)
Example missing_table_recorded :
  let m := demo_migration "m3" 3 "ALTER TABLE missing ADD COLUMN x int" in
  let pushed := postSchema (demo_push [m]) (demo_state []) in
  fst pushed = Res 200 (num_Z 3) /\ pg_user (snd pushed) = [] /\
  pg_migrations (snd pushed) !! "m3" = Some 3.
Proof. vm_compute. done. Qed.

(** The read route lets a statement through that deletes, and refuses a
    semicolon inside a literal. *)
Example query_guard_gaps :
  query_text "WITH d AS (DELETE FROM notes RETURNING id) SELECT id FROM d" =
    Some "WITH d AS (DELETE FROM notes RETURNING id) SELECT id FROM d" /\
  query_text "SELECT ';' || id FROM notes" = None /\
  query_text " select id from notes ; " = Some "select id from notes ".
Proof. vm_compute. done. Qed.

(** An UPDATE without its text is sent to the driver. *)
Example update_without_sql :
  let op := {| op_id := "d"; op_table := "notes"; op_op := UPDATE; op_rowId := "r1";
               op_row := JNull; op_conflictColumns := None |} in
  op_stmt op (@nil stmt) = Ok (Unsafe JUndefined []).
Proof. reflexivity. Qed.

Example strip_generators :
  stripServerGenerators "CREATE TABLE t (id bigserial, n serial, u uuid DEFAULT gen_random_uuid(), c timestamptz NOT NULL DEFAULT now(), serial_no int)" =
  "CREATE TABLE t (id bigint, n integer, u uuid DEFAULT gen_random_uuid(), c timestamptz NOT NULL DEFAULT NULL, serial_no int)".
Proof. vm_compute. reflexivity. Qed.
