(* ===== verification/Notifier.v ===== *)
(** * The notifier (packages/notifier)

    [notifications.ts]: which notifications an account is due; [scheduler.ts]:
    one pass over the accounts, delivery with its log, and the purge decision;
    [email.ts] and [dm.ts]: the two senders. Dates are printed in full; a
    percentage is printed exactly while it is below 2^53. *)

From Stdlib Require Import QArith Qround.
From S2P Require Import Prelude Js Dates Http Lifecycle Entitlement Db DbApi DbFacts MeshApi DbSystem Nip98 Bud11 World RateLimit Servers Access Proxy.
#[local] Open Scope Z_scope.

(** ** Printing *)

Definition WEEKDAYS : list string := ["Sun"; "Mon"; "Tue"; "Wed"; "Thu"; "Fri"; "Sat"].
Definition MONTHS : list string :=
  ["Jan"; "Feb"; "Mar"; "Apr"; "May"; "Jun"; "Jul"; "Aug"; "Sep"; "Oct"; "Nov"; "Dec"].

(** [date.toUTCString()] *)
Definition toUTCString (d : jsdate) : string :=
  match d with
  | None => "Invalid Date"
  | Some t =>
      let ms := t mod DAY in
      let c := civil_of_days (t / DAY) in
      let y := Z.abs (cy c) in
      let year := (if cy c <? 0 then "-" else "") +:+ (if y <? 10000 then pad 4 y "" else Z_to_string y) in
      nth (Z.to_nat ((t / DAY + 4) mod 7)) WEEKDAYS "" +:+ ", " +:+ pad 2 (cd c) "" +:+ " " +:+
      nth (Z.to_nat (cm c - 1)) MONTHS "" +:+ " " +:+ year +:+ " " +:+ pad 2 (ms / 3600000) "" +:+ ":" +:+
      pad 2 (ms / 60000 mod 60) "" +:+ ":" +:+ pad 2 (ms / 1000 mod 60) "" +:+ " GMT"
  end.

(** [`${date?.toUTCString()}`] *)
Definition utc (d : option jsdate) : string := match d with Some d => toUTCString d | None => "undefined" end.

(** [n.toFixed(f)] for [f] of 0 or 1 and [|n| < 10^21]: the nearest, the larger
    of two. *)
Definition toFixed (f : bool) (n : Q) : string :=
  let neg := Qnum n <? 0 in
  let a := if neg then (- n)%Q else n in
  (if neg then "-" else "") +:+
  if f then
    let m := Qfloor (a * 10 + (1 # 2)) in Z_to_string (m / 10) +:+ "." +:+ Z_to_string (m mod 10)
  else Z_to_string (Qfloor (a + (1 # 2))).

(** The [while] loop: at most one step per unit. *)
Fixpoint scale (n : Q) (unit : string) (rest : list string) (first : bool) : string :=
  match rest with
  | next :: rest =>
      if Qle_bool 1024 n then scale (n / 1024) next rest false
      else toFixed (negb (Qle_bool 10 n || first)) n +:+ " " +:+ unit
  | [] => toFixed (negb (Qle_bool 10 n || first)) n +:+ " " +:+ unit
  end.

Definition formatBytes (value : option string) : string :=
  match value with
  | None => "unlimited"
  | Some v =>
      match Number_string v with
      | Fin n => scale n "B" ["KB"; "MB"; "GB"; "TB"] true
      | _ => v
      end
  end.

(** ** What is due (notifications.ts) *)

Record DueNotification := { dn_kind : string; dn_ref : string; dn_title : string; dn_body : string }.

Definition expiry_warning (expiryRef : string) (expiry : jsdate) (remaining warningDays : Z) : DueNotification :=
  {| dn_kind := "expiry_warning_" +:+ Z_to_string warningDays; dn_ref := expiryRef;
     dn_title := "Plan expires in " +:+ Z_to_string remaining +:+ " day" +:+ (if remaining =? 1 then "" else "s");
     dn_body := "Your storage plan expires " +:+ toUTCString expiry +:+
                ". Renew from the pricing page to add days and keep uploads enabled." |}.

Definition quota_warning (expiryRef used total : string) (percent threshold : Z) : DueNotification :=
  {| dn_kind := "quota_warning_" +:+ Z_to_string threshold; dn_ref := expiryRef;
     dn_title := if 100 <=? threshold then "Storage allowance reached"
                 else "Storage " +:+ Z_to_string threshold +:+ "% full";
     dn_body := "You are using " +:+ formatBytes (Some used) +:+ " of your " +:+ formatBytes (Some total) +:+
                " allowance (" +:+ Z_to_string percent +:+
                "%). Delete blobs or upgrade to avoid uploads being blocked." |}.

Definition stage_notification (expiryRef : string) (access : AccessState) : list DueNotification :=
  match status access with
  | GRACE =>
      let over := bool_decide (reason access = grace_over_quota) in
      [{| dn_kind := "grace_entered"; dn_ref := expiryRef;
          dn_title := if over then "Over your storage allowance — grace period started"
                      else "Plan expired — grace period started";
          dn_body := if over
                     then "You are over your allowance. Uploads are blocked until you delete blobs or upgrade. Grace ends "
                          +:+ utc (graceUntil access) +:+ "."
                     else "Uploads are blocked. Delete blobs or renew before " +:+ utc (graceUntil access) +:+
                          " to avoid the next stage." |}]
  | WRITE_BLOCKED =>
      [{| dn_kind := "write_blocked"; dn_ref := expiryRef; dn_title := "Uploads are blocked";
          dn_body := "The grace period has ended and uploads are now blocked. Your data is still readable. " +:+
                     "Renew or free space before reads are blocked on " +:+ utc (readBlockedUntil access) +:+ "." |}]
  | READ_BLOCKED =>
      [{| dn_kind := "read_blocked"; dn_ref := expiryRef;
          dn_title := "Reads are blocked — data scheduled for purge";
          dn_body := "Reads are blocked and your blobs are scheduled for purge on " +:+ utc (purgeAt access) +:+
                     ". Renew before then to keep your data." |}]
  | _ => []
  end.

(** The part of an allowance in use, in percent: [None] when a [BigInt] throws,
    [Some None] when there is no allowance to compare with. *)
Definition used_percent (user : UserJson) : option (option Z) :=
  match uj_storageBytes user with
  | None => Some None
  | Some total =>
      t ← BigInt_string total;
      if 0 <? t then used ← BigInt_string (uj_usedStorage user); Some (Some (Z.quot (used * 100) t))
      else Some None
  end.

Section Due.
Context `{DateEngine}.

(** [None] when a [BigInt] throws. *)
Definition dueNotifications (user : UserJson) (access : AccessState) (config : LifecycleConfig) (now : Z)
  : option (list DueNotification) :=
  match uj_planExpiresAt user with
  | None => Some []
  | Some expiryRef =>
      let expiry := Date_parse expiryRef in
      if bool_decide (status access = CLOSED) then Some [] else
      let warnings :=
        match expiry with
        | Some t =>
            let remaining := daysUntil t now in
            expiry_warning expiryRef expiry remaining <$>
              filter (fun w => 0 <= remaining /\ remaining <= w) (expiryWarningDays (notify config))
        | None => []
        end in
      percent ← used_percent user;
      let quotas :=
        match percent with
        | Some p => quota_warning expiryRef (uj_usedStorage user) (default "" (uj_storageBytes user)) p <$>
                      filter (fun t => t <= p) (quotaWarningPercent (notify config))
        | None => []
        end in
      Some (warnings ++ quotas ++ stage_notification expiryRef access)
  end.
End Due.

Definition moderationNotification (id hash reason : string) : DueNotification :=
  {| dn_kind := "moderation_deleted"; dn_ref := id; dn_title := "A blob was removed following a report";
     dn_body := "Blob " +:+ hash +:+ " was removed by moderation. Reason: " +:+ reason +:+
                ". If you believe this was a mistake, contact the operator to appeal." |}.

(** ** One pass (scheduler.ts) *)

(** A message that reached its recipient's relay or mailbox. *)
Record Sent := { sn_npub : string; sn_kind : string; sn_ref : string; sn_channel : string }.

#[export] Instance Sent_eq_dec : EqDecision Sent.
Proof. solve_decision. Defined.

(** The world with what was really sent; a computation on it keeps both when it
    throws. *)
Record NState := { ns_world : World; ns_sent : list Sent }.
Definition N (A : Type) : Type := NState -> exc perr A * NState.

Definition nret {A} (a : A) : N A := fun s => (Ok a, s).
Definition nbind {A B} (m : N A) (k : A -> N B) : N B :=
  fun s => let (r, s') := m s in match r with Ok a => k a s' | Throw e => (Throw e, s') end.
Definition ncatch {A} (m : N A) (h : perr -> N A) : N A :=
  fun s => let (r, s') := m s in match r with Ok a => (Ok a, s') | Throw e => h e s' end.
Definition lift {A} (m : P A) : N A := fun s =>
  let (r, w) := m (ns_world s) in (r, {| ns_world := w; ns_sent := ns_sent s |}).
Definition record (m : Sent) : N unit := fun s =>
  (Ok tt, {| ns_world := ns_world s; ns_sent := ns_sent s ++ [m] |}).

Declare Scope notifier_scope.
Delimit Scope notifier_scope with N.
Notation "'do*' x := m 'in' k" := (nbind m (fun x => k))
  (at level 10, x pattern, m at level 100, k at level 200) : notifier_scope.

Inductive EmailResult := E_sent | E_no_address | E_failed.

(** [NotifierOptions]: the DM sender when there is one ([valid_npub] is
    [nip19.decode] giving an npub), the mail bridge, the configuration and the
    call of the purge endpoint. *)
Record DmSender := { valid_npub : string -> bool }.
Record EmailSender := { em_backendUrl : option string; em_signer : bool; em_status : string -> string -> string }.
Record NotifierOptions := {
  no_dm : option DmSender;
  no_email : EmailSender;
  no_config : LifecycleConfig;
  no_purge : option (string -> P Z)
}.

(** The [purge] of [buildNotifierFromEnv]: the proxy's internal endpoint, whose
    loop gets [fuel] passes. *)
Definition proxy_purge (fuel : nat) (npub : string) : P Z := (
  let call :=
    do* r := purgeRoute fuel npub in
    match r with
    | POk _ (Some purged) => ret purged
    | _ => throw (EOther "Request failed with status code 502")
    end in
  do* flt := next_fault in
  match flt with
  | Fine => call
  | Lost => do* _ := call in throw (EOther "timeout of 60000ms exceeded")
  | _ => throw (EOther "request failed")
  end)%P.

Section Scheduler.
Context `{DateEngine} `{Nostr}.
Context (fresh_id : list string -> string).
Context (options : NotifierOptions).

(** [dm.send]: at least one relay must take the event. *)
Definition dm_send (dm : DmSender) (npub kind ref : string) : N unit := (
  if negb (valid_npub dm npub) then lift (throw (EOther "not an npub")) else
  let m := {| sn_npub := npub; sn_kind := kind; sn_ref := ref; sn_channel := "nostr" |} in
  do* flt := lift next_fault in
  match flt with
  | Fine => record m
  | Lost => do* _ := record m in lift (throw (EOther "All promises were rejected"))
  | _ => lift (throw (EOther "All promises were rejected"))
  end)%N.

(** [email.send] *)
Definition email_send (npub kind ref : string) : N EmailResult := (
  match truthy (em_backendUrl (no_email options)), em_signer (no_email options) with
  | Some _, true =>
      let m := {| sn_npub := npub; sn_kind := kind; sn_ref := ref; sn_channel := "email" |} in
      let sent := String.eqb (em_status (no_email options) npub kind) "sent" in
      do* flt := lift next_fault in
      match flt with
      | Fine => if sent then do* _ := record m in nret E_sent else nret E_no_address
      | Lost => if sent then do* _ := record m in nret E_failed else nret E_failed
      | _ => nret E_failed
      end
  | _, _ => nret E_failed
  end)%N.

Definition deliver_dm (npub : string) (n : DueNotification) (delivered : Z) : N Z :=
  match no_dm options with
  | None => nret delivered
  | Some dm =>
      ncatch (do* logged := lift (client_logNotification fresh_id npub (dn_kind n) (Some (dn_ref n)) "nostr") in
              if logged : bool then do* _ := dm_send dm npub (dn_kind n) (dn_ref n) in nret (delivered + 1)
              else nret (delivered + 1))%N
             (fun _ => nret delivered)
  end.

Definition deliver_email (npub : string) (n : DueNotification) (delivered : Z) : N Z :=
  ncatch (do* logged := lift (client_logNotification fresh_id npub (dn_kind n) (Some (dn_ref n)) "email") in
          if logged : bool then
            do* result := email_send npub (dn_kind n) (dn_ref n) in
            nret (match result with E_sent => delivered + 1 | _ => delivered end)
          else nret (delivered + 1))%N
         (fun _ => nret delivered).

Definition deliver (npub : string) (n : DueNotification) : N Z := (
  do* delivered := deliver_dm npub n 0 in deliver_email npub n delivered)%N.

Fixpoint deliverAll (npub : string) (due : list DueNotification) (sent : Z) : N Z :=
  match due with
  | [] => nret sent
  | n :: due => (do* d := deliver npub n in deliverAll npub due (sent + d))%N
  end.

(** The purge condition; [BigInt(user.usedStorage)] is only reached when the
    rest holds. *)
Definition purge_due (user : UserJson) (access : AccessState) (now : Z) : option bool :=
  if purgeEnabled (no_config options) &&
     (bool_decide (status access = READ_BLOCKED) || bool_decide (status access = CLOSED)) &&
     match purgeAt access with Some d => reached now d | None => false end
  then used ← BigInt_string (uj_usedStorage user); Some ((0 <? used) && bool_decide (is_Some (no_purge options)))
  else Some false.

Definition purged_notice (purgedAt : string) (purged : Z) : DueNotification :=
  {| dn_kind := "purged"; dn_ref := purgedAt; dn_title := "Your storage account was purged";
     dn_body := "All " +:+ Z_to_string purged +:+
                " blobs were deleted after the retention window. Purchase a new plan to start storing again." |}.

Definition run_purge (user : UserJson) (access : AccessState) : N unit :=
  match no_purge options with
  | None => nret tt
  | Some purge =>
      ncatch (do* purged := lift (purge (uj_npub user)) in
              do* iso := lift (purge_iso access) in
              do* _ := deliverAll (uj_npub user) [purged_notice (default "" iso) purged] 0 in
              nret tt)%N
             (fun _ => nret tt)
  end.

(** The body of the loop over a page's users. *)
Definition evaluate (now : Z) (user : UserJson) : N Z := (
  match deriveAccess (dates_of_json user) now (no_config options) with
  | None => lift (throw (EOther "Cannot convert to a BigInt"))
  | Some access =>
      match dueNotifications user access (no_config options) now with
      | None => lift (throw (EOther "Cannot convert to a BigInt"))
      | Some due =>
          do* sent := deliverAll (uj_npub user) due 0 in
          match purge_due user access now with
          | None => lift (throw (EOther "Cannot convert to a BigInt"))
          | Some true => do* _ := run_purge user access in nret sent
          | Some false => nret sent
          end
      end
  end)%N.

Fixpoint evaluate_all (now : Z) (users : list UserJson) (sent : Z) : N Z :=
  match users with
  | [] => nret sent
  | u :: users => (do* d := evaluate now u in evaluate_all now users (sent + d))%N
  end.

Definition client_listAttentionUsers (page pageSize : Z) : P (Page UserJson) :=
  client_ok (read_only (getAttention (parsePagination (QStr (Z_to_string page)) (QStr (Z_to_string pageSize))))).

Definition PAGE_SIZE : Z := 100.

(** The [for (let page = 1; ; page += 1)] loop with fuel; the result is
    [evaluated] and [sent], or [None] when the fuel runs out. *)
Fixpoint pass_loop (fuel : nat) (now page evaluated sent : Z) : N (option (Z * Z)) :=
  match fuel with
  | O => nret None
  | S fuel => (
      do* result := lift (client_listAttentionUsers page PAGE_SIZE) in
      let n := Z.of_nat (length (items result)) in
      do* s := evaluate_all now (items result) 0 in
      if (n <? PAGE_SIZE) || (total result <=? page * PAGE_SIZE)
      then nret (Some (evaluated + n, sent + s))
      else pass_loop fuel now (page + 1) (evaluated + n) (sent + s))%N
  end.

Definition runOnce (fuel : nat) : N (option (Z * Z)) := fun s =>
  pass_loop fuel (w_now (ns_world s)) 1 0 0 s.
End Scheduler.
