(* ===== verification/NotifierFacts.v ===== *)
(** * The notifier: what is announced, when, how often, and what is purged *)

From S2P Require Import Prelude Js Dates Http Lifecycle Entitlement Db DbApi DbFacts MeshApi DbSystem Nip98 Bud11 World RateLimit Servers Access Proxy ProxyFacts ProxySystem ProxyOutcomes Notifier.

(** ** What is due *)

Lemma daysUntil_window t now w :
  0 <= daysUntil t now /\ daysUntil t now <= w <-> now - t < DAY_MS /\ t - now <= w * DAY_MS.
Proof.
  unfold daysUntil, DAY_MS. pose proof (Z.div_mod (now - t) (24 * 60 * 60 * 1000) ltac:(lia)) as Hd.
  pose proof (Z.mod_pos_bound (now - t) (24 * 60 * 60 * 1000) ltac:(lia)) as Hm. lia.
Qed.

Lemma percent_threshold used total p : 0 <= used -> 0 < total -> p <= Z.quot (used * 100) total <-> p * total <= used * 100.
Proof.
  intros Hu Ht. rewrite Z.quot_div_nonneg by lia. split; intros Hp.
  - pose proof (Z.mul_div_le (used * 100) total Ht). nia.
  - apply Z.div_le_lower_bound; lia.
Qed.

Definition stage_kind (s : UserStatus) : option string :=
  match s with
  | GRACE => Some "grace_entered" | WRITE_BLOCKED => Some "write_blocked" | READ_BLOCKED => Some "read_blocked"
  | _ => None
  end.

Lemma stage_kinds ref access : dn_kind <$> stage_notification ref access = option_list (stage_kind (status access)).
Proof. unfold stage_notification, stage_kind. by destruct (status access). Qed.

Lemma elem_of_opt {A} (o : option A) (x : A) : x ∈ option_list o <-> o = Some x.
Proof. destruct o; simpl; [rewrite list_elem_of_singleton; naive_solver | by rewrite elem_of_nil]. Qed.

(** ** What a purge leaves alone *)

Definition plans (db : Db) : gmap string (option Z) := u_planExpiresAt <$> users db.

Record same_log (db db' : Db) : Prop := {
  sl_log : notifications db' = notifications db;
  sl_plans : plans db' = plans db
}.

Lemma same_log_trans db1 db2 db3 : same_log db1 db2 -> same_log db2 db3 -> same_log db1 db3.
Proof. intros [H1 H2] [H3 H4]. constructor; congruence. Qed.

Lemma delete_rows_log hash rows last db r db' : delete_rows hash rows last db = Ok (r, db') -> same_log db db'.
Proof.
  revert last db. induction rows as [|row rows IH]; intros last db Hd; simpl in Hd.
  - unfold tx_ret in Hd. by simplify_eq.
  - apply tx_bind_Ok in Hd as (b & db1 & Hb & Hd). apply tx_bind_Ok in Hd as (u & db2 & Hu & Hd).
    apply IH in Hd. eapply same_log_trans; [|exact Hd].
    apply blob_delete_Ok in Hb as (_ & _ & ->). apply user_update_Ok in Hu as (v & Hv & Hf & ->).
    apply increment_used_Some in Hf as [_ ->]. constructor; [done|]. unfold plans. simpl.
    rewrite fmap_insert. apply insert_id. rewrite lookup_fmap. simpl in Hv. by rewrite Hv.
Qed.

Lemma deleteBlob_log hash qn qa db : same_log db (DbApi.deleteBlob hash qn qa db).2.
Proof.
  unfold DbApi.deleteBlob. case_match; [done|].
  destruct (transaction _ db) as [[res|e] db'] eqn:E; simpl; [|by apply transaction_Throw in E as [_ ->]].
  apply transaction_Ok in E. unfold deleteBlob_tx in E. apply tx_bind_Ok in E as (rows & db1 & Hr & E).
  unfold blob_findMany in Hr. simplify_eq. destruct (filter _ _) as [|row rows]; [done|].
  apply tx_bind_Ok in E as (last & db2 & Hl & E). apply tx_bind_Ok in E as (rem & db3 & Hc & E).
  unfold blob_count, tx_ret in *. simplify_eq. by eapply delete_rows_log.
Qed.

Lemma attention_length db : length (attention_rows db) = length (filter (fun p => p.2 <> None) (map_to_list (plans db))).
Proof.
  unfold attention_rows, all_users. rewrite order_asc_perm. unfold plans. rewrite map_to_list_fmap.
  generalize (map_to_list (users db)). intros l. induction l as [|[n u] l IH]; [done|].
  rewrite !fmap_cons, !filter_cons. cbn [fst snd prod_map]. case_decide; cbn [length]; by rewrite IH.
Qed.

(** The invariants that a purge keeps. *)
Lemma keeps_proxy_purge I fuel npub :
  (forall w, I w -> I (pop w)) -> (forall a w, I w -> I (set_access a w)) ->
  (forall url h w, I w -> I (node_remove url h w)) ->
  (forall h qn qa w, I w -> I (set_db (DbApi.deleteBlob h qn qa (w_db w)).2 w)) ->
  keeps I (proxy_purge fuel npub).
Proof.
  intros Hp Ha Hn Hd.
  assert (keeps I (purgeRoute fuel npub)) as Hroute.
  { apply keeps_catch; [|auto with orch]. apply keeps_bind.
    - generalize 0. induction fuel as [|fuel IH]; intros p; cbn [purge_loop]; [auto with orch|].
      apply keeps_bind; [by apply keeps_ok_read|]. intros batch. destruct (items batch) as [|b0 bs]; [auto with orch|].
      apply keeps_bind; [|done]. generalize (b0 :: bs). intros l. revert p.
      induction l as [|b l IHl]; intros p; simpl; [auto with orch|].
      apply keeps_bind; [apply keeps_bind; [apply keeps_client_ok; [done|intros w; apply Hd] | auto with orch]|]. intros rem.
      apply keeps_bind; [|done]. case_match; [|auto with orch].
      generalize (bj_replicas b). intros reps. induction reps as [|rep reps IHr]; simpl; [auto with orch|].
      apply keeps_bind; [auto with orch|]. intros server. apply keeps_bind; [|done].
      destruct (truthy server); [|auto with orch].
      apply keeps_catch; [apply keeps_node_call | ]; auto with orch.
    - intros purged. apply keeps_bind; [|auto with orch]. apply keeps_modify. auto. }
  unfold proxy_purge. apply keeps_bind; [by apply keeps_next_fault|].
  assert (forall r : presp (option Z), keeps I (match r with POk _ (Some purged) => ret purged
    | _ => throw (EOther "Request failed with status code 502") end)) as Hr.
  { intros [st [p|]|st e|d]; auto with orch. }
  intros []; auto with orch.
Qed.

Section Facts.
Context `{DateEngine} `{Nostr}.

(** An account row as db-api reports it. *)
Lemma userToJson_fields u j :
  userToJson u = Some j ->
  uj_npub j = u_npub u /\ uj_usedStorage j = Z_to_string (u_usedStorage u) /\
  uj_storageBytes j = Z_to_string <$> u_storageBytes u /\
  match u_planExpiresAt u with
  | Some t => exists s, uj_planExpiresAt j = Some s /\ toISOString t = Some s /\ Date_parse s = Some t
  | None => uj_planExpiresAt j = None
  end.
Proof.
  unfold userToJson, iso_opt. intros (d & Hd & (cr & _ & [= <-])%bind_Some)%bind_Some. simpl.
  split_and!; try done. destruct (u_planExpiresAt u) as [t|]; simpl in Hd; [|by simplify_eq].
  destruct (toISOString t) as [s|] eqn:Hs; simpl in Hd; simplify_eq. exists s. split_and!; [done..|].
  by apply Date_parse_ISO.
Qed.

Lemma used_percent_row u j :
  userToJson u = Some j ->
  used_percent j = Some (match u_storageBytes u with
                         | Some t => if 0 <? t then Some (Z.quot (u_usedStorage u * 100) t) else None
                         | None => None
                         end).
Proof.
  intros (_ & Hu & Hs & _)%userToJson_fields. unfold used_percent. rewrite Hu, Hs.
  destruct (u_storageBytes u) as [t|]; simpl; [|done]. rewrite !BigInt_Z_to_string. simpl. by case_match.
Qed.

(** What an account is told, in terms of its row. While a plan is not
    closed, exactly these kinds are due: an expiry warning for each configured
    number of days that is not exceeded, up to the day after the expiry; a
    quota warning for each configured percentage the used bytes have reached;
    and the notice of the stage the account is in. Every one refers to the
    plan's expiry, so a renewed plan starts a new round; without a plan, or
    once closed, nothing is due. *)
Theorem due_exact u j now c expiry :
  userToJson u = Some j -> u_planExpiresAt u = Some expiry -> 0 <= u_usedStorage u ->
  let access := accessOf (Some expiry) (u_storageBytes u) (u_usedStorage u) now c in
  exists due, dueNotifications j access c now = Some due /\
    (forall n, n ∈ due -> toISOString expiry = Some (dn_ref n)) /\
    (status access = CLOSED -> due = []) /\
    (status access <> CLOSED -> forall k, k ∈ (dn_kind <$> due) <->
       (exists w, w ∈ expiryWarningDays (notify c) /\ k = "expiry_warning_" +:+ Z_to_string w /\
                  now - expiry < DAY_MS /\ expiry - now <= w * DAY_MS) \/
       (exists p a, p ∈ quotaWarningPercent (notify c) /\ k = "quota_warning_" +:+ Z_to_string p /\
                    u_storageBytes u = Some a /\ 0 < a /\ p * a <= u_usedStorage u * 100) \/
       stage_kind (status access) = Some k).
Proof.
  intros Hj He Hu access. pose proof (userToJson_fields u j Hj) as (_ & _ & _ & Hp). rewrite He in Hp.
  destruct Hp as (s & Hs & Hiso & Hd). unfold dueNotifications. rewrite Hs, (used_percent_row u j Hj), Hd.
  case_bool_decide as Hc.
  { exists []. split_and!; try done. intros n Hn. by apply elem_of_nil in Hn. }
  simpl. eexists. split; [reflexivity|]. split_and!; [|done|].
  - intros n [(w & -> & _)%list_elem_of_fmap|[Hn|Hn]%elem_of_app]%elem_of_app; [done| |].
    + destruct (u_storageBytes u) as [a|]; [|by apply elem_of_nil in Hn].
      destruct (0 <? a); [|by apply elem_of_nil in Hn]. by apply list_elem_of_fmap in Hn as (q & -> & _).
    + unfold stage_notification in Hn. destruct (status access); try (by apply elem_of_nil in Hn);
        apply list_elem_of_singleton in Hn as ->; done.
  - intros _ k. rewrite !fmap_app, !elem_of_app, stage_kinds, elem_of_opt. f_equiv; [|f_equiv].
    + rewrite <- list_fmap_compose, list_elem_of_fmap.
      split; [intros (w & -> & [Hw Hin]%list_elem_of_filter); exists w|intros (w & Hin & -> & Hw); exists w].
      * split_and!; [done..| |]; by apply (daysUntil_window expiry now w).
      * split; [done|]. apply list_elem_of_filter. split; [by apply daysUntil_window | done].
    + destruct (u_storageBytes u) as [a|]; simpl.
      2: { split; [by intros ?%elem_of_nil | by intros (? & ? & _ & _ & ? & _)]. }
      destruct (0 <? a) eqn:Ea; zbool.
      2: { split; [by intros ?%elem_of_nil | intros (? & ? & _ & _ & [= <-] & ? & _); lia]. }
      rewrite <- list_fmap_compose, list_elem_of_fmap.
      split; [intros (q & -> & [Hq Hin]%list_elem_of_filter); exists q, a|intros (q & b & Hin & -> & [= <-] & _ & Hq); exists q].
      * split_and!; try done. by apply percent_threshold.
      * split; [done|]. apply list_elem_of_filter. split; [by apply percent_threshold | done].
Qed.

(** ** When an account is purged *)

(** The purge endpoint is called for an account exactly when purging is
    switched on and configured, the account's state is CLOSED (its retention
    window is over) and it still uses storage: never in an earlier state, and
    never again once nothing is stored. *)
Theorem purge_due_iff options u j now :
  userToJson u = Some j ->
  let c := no_config options in
  let access := accessOf (u_planExpiresAt u) (u_storageBytes u) (u_usedStorage u) now c in
  exists b, purge_due options j access now = Some b /\
    (b = true <-> purgeEnabled c = true /\ is_Some (no_purge options) /\
                  status access = CLOSED /\ 0 < u_usedStorage u).
Proof.
  intros (_ & Hu & _)%userToJson_fields c access.
  assert (match purgeAt access with Some d => reached now d | None => false end = true <-> status access = CLOSED) as Hp.
  { unfold access, accessOf. destruct (u_planExpiresAt u) as [t|]; [|done]. simpl.
    destruct (reached now _) eqn:Er; simpl; [done|].
    destruct (now <? t); [by repeat case_match|]. destruct (before now _); [done|]. destruct (before now _); simpl; [done|].
    by rewrite Er. }
  unfold purge_due. rewrite Hu. fold c. simpl.
  destruct (purgeEnabled c) eqn:Epe; simpl; [|eexists; split; [done|naive_solver]].
  destruct (bool_decide (status access = READ_BLOCKED) || bool_decide (status access = CLOSED)) eqn:Est; simpl.
  2: { eexists. split; [done|]. apply orb_false_iff in Est as [_ Est]. apply bool_decide_eq_false in Est. naive_solver. }
  destruct (match purgeAt access with Some d => reached now d | None => false end).
  - rewrite BigInt_Z_to_string. simpl. eexists. split; [done|].
    rewrite andb_true_iff, bool_decide_eq_true, Z.ltb_lt. naive_solver.
  - eexists. split; [done|]. naive_solver.
Qed.

(** ** Each message at most once *)

Definition nkeeps {A} (I : NState -> Prop) (m : N A) : Prop := forall s, I s -> I (m s).2.

Lemma nkeeps_ret {A} I (a : A) : nkeeps I (nret a).
Proof. by intros s. Qed.
Lemma nkeeps_throw {A} I e : nkeeps I (lift (@throw A e)).
Proof. by intros []. Qed.
Lemma nkeeps_bind {A B} I (m : N A) (k : A -> N B) :
  nkeeps I m -> (forall a, nkeeps I (k a)) -> nkeeps I (nbind m k).
Proof.
  intros Hm Hk s Hs. unfold nbind. specialize (Hm s Hs). destruct (m s) as [[a|e] s1]; [by apply Hk | done].
Qed.
Lemma nkeeps_catch {A} I (m : N A) h : nkeeps I m -> (forall e, nkeeps I (h e)) -> nkeeps I (ncatch m h).
Proof.
  intros Hm Hk s Hs. unfold ncatch. specialize (Hm s Hs). destruct (m s) as [[a|e] s1]; [done | by apply Hk].
Qed.
Lemma nkeeps_lift {A} I (m : P A) :
  (forall s, I s -> I {| ns_world := (m (ns_world s)).2; ns_sent := ns_sent s |}) -> nkeeps I (lift m).
Proof. intros Hm s Hs. specialize (Hm s Hs). unfold lift. by destruct (m (ns_world s)). Qed.

#[local] Hint Resolve nkeeps_ret nkeeps_throw nkeeps_bind nkeeps_catch : orch.

(** There is a log row for the message. *)
Definition logged (m : Sent) (w : World) : Prop :=
  exists n, n ∈ notifications (w_db w) /\ n_npub n = sn_npub m /\ n_kind n = sn_kind m /\
    n_ref n = Some (sn_ref m) /\ n_channel n = sn_channel m.

(** A computation after which no log row is missing. *)
Definition grows {A} (m : P A) : Prop :=
  forall w n, n ∈ notifications (w_db w) -> n ∈ notifications (w_db (m w).2).

Lemma grows_keeps {A} (m : P A) :
  (forall l : list NotificationLog, keeps (fun w => forall n, n ∈ l -> n ∈ notifications (w_db w)) m) -> grows m.
Proof. intros Hm w n Hn. apply (Hm (notifications (w_db w)) w); auto. Qed.

(** An invariant [I] under which messages are only sent after their log row was
    found new; [ready m] holds between the two. *)
Record log_first (I : NState -> Prop) (ready : Sent -> NState -> Prop) : Prop := {
  lf_grow : forall s w', I s ->
    (forall n, n ∈ notifications (w_db (ns_world s)) -> n ∈ notifications (w_db w')) ->
    I {| ns_world := w'; ns_sent := ns_sent s |};
  lf_ready : forall m s w', I {| ns_world := w'; ns_sent := ns_sent s |} -> I s ->
    ~ logged m (ns_world s) -> logged m w' -> ready m {| ns_world := w'; ns_sent := ns_sent s |};
  lf_call : forall m s w', ready m s -> w_db w' = w_db (ns_world s) ->
    ready m {| ns_world := w'; ns_sent := ns_sent s |};
  lf_skip : forall m s, ready m s -> I s;
  lf_send : forall m s, ready m s -> I (record m s).2
}.

Lemma postNotification_grows now id req db n :
  n ∈ notifications db -> n ∈ notifications (postNotification now id req db).2.
Proof.
  intros Hn. unfold postNotification, transaction, notification_create. repeat case_match; simplify_eq; simpl; try done.
  apply elem_of_app. by left.
Qed.

Section Scheduler.
Context (fresh_id : list string -> string) (options : NotifierOptions).

Lemma log_grows npub kind ref ch : grows (client_logNotification fresh_id npub kind ref ch).
Proof.
  apply grows_keeps. intros l w. unfold client_logNotification.
  apply (keeps_catch (fun w => forall n, n ∈ l -> n ∈ notifications (w_db w))).
  - apply keeps_bind; [|auto with orch]. apply keeps_client_ok; [done|].
    intros w' Hw n Hn. by apply postNotification_grows, Hw.
  - intros []; auto with orch. case_match; auto with orch.
Qed.

(** A row is only reported as new when there was none. *)
Lemma log_true npub kind ref ch w w' :
  client_logNotification fresh_id npub kind (Some ref) ch w = (Ok true, w') ->
  let m := {| sn_npub := npub; sn_kind := kind; sn_ref := ref; sn_channel := ch |} in
  ~ logged m w /\ logged m w'.
Proof.
  unfold client_logNotification, catch, bind.
  match goal with |- context [client_ok ?f w] => destruct (client_ok f w) as [[j|e] w1] eqn:E end.
  2: { intros Hc. exfalso. destruct e; unfold throw, ret in Hc; try done. by case_match. }
  unfold ret. intros [= <-]. apply client_ok_inv in E as (st & db' & Hp & ->).
  unfold postNotification in Hp. simpl in Hp.
  destruct (String.eqb npub ""), (String.eqb kind ""), (String.eqb ch ""); try done.
  unfold transaction, notification_create in Hp. simpl in Hp.
  destruct (existsb _ (notifications (w_db w))) eqn:Ex; [done|]. simplify_eq. split.
  - intros (n & Hn & H1' & H2' & H3' & H4'). simpl in *.
    assert (existsb (fun n' => same_notification {| n_id := fresh_id (n_id <$> notifications (w_db w));
      n_npub := npub; n_kind := kind; n_ref := Some ref; n_channel := ch; n_sentAt := w_now w |} n' ||
      bool_decide (fresh_id (n_id <$> notifications (w_db w)) = n_id n')) (notifications (w_db w)) = true) as Ht.
    { apply existsb_exists. exists n. split; [by apply list_elem_of_In|]. unfold same_notification. simpl.
      rewrite H1', H2', H3', H4', !bool_decide_eq_true_2, String.eqb_refl by done. done. }
    unfold same_notification in Ht, Ex. simpl in Ht, Ex. congruence.
  - eexists. split; [simpl; apply elem_of_app; right; by apply list_elem_of_singleton|]. done.
Qed.

Section Log_first.
Context (I : NState -> Prop) (ready : Sent -> NState -> Prop) (HL : log_first I ready).

Lemma nkeeps_grows {A} (m : P A) : grows m -> nkeeps I (lift m).
Proof. intros Hm. apply nkeeps_lift. intros s Hs. apply (lf_grow _ _ HL); [done|]. apply Hm. Qed.

(** A network call and, if it goes through, the record of the message. *)
Lemma send_ready {A} (k : fault -> N A) m s :
  ready m s -> (forall f s', ready m s' -> I (k f s').2) -> I (nbind (lift next_fault) k s).2.
Proof.
  intros Hs Hk. unfold nbind, lift. rewrite next_fault_eq. apply Hk. by apply (lf_call _ _ HL).
Qed.

Lemma dm_send_ready dm npub kind ref s :
  ready {| sn_npub := npub; sn_kind := kind; sn_ref := ref; sn_channel := "nostr" |} s ->
  I (dm_send dm npub kind ref s).2.
Proof.
  intros Hs. unfold dm_send. pose proof (lf_skip _ _ HL _ s Hs) as Hi. destruct (negb _); [by destruct s|].
  eapply send_ready; [exact Hs|]. intros f s' Hs'. pose proof (lf_skip _ _ HL _ s' Hs') as Hi'.
  destruct f; try (by destruct s'); exact (lf_send _ _ HL _ _ Hs').
Qed.

Lemma email_send_ready npub kind ref s :
  ready {| sn_npub := npub; sn_kind := kind; sn_ref := ref; sn_channel := "email" |} s ->
  I (email_send options npub kind ref s).2.
Proof.
  intros Hs. unfold email_send. pose proof (lf_skip _ _ HL _ s Hs) as Hi.
  destruct (truthy _); [|done]. destruct (em_signer _); [|done].
  eapply send_ready; [exact Hs|]. intros f s' Hs'. pose proof (lf_skip _ _ HL _ s' Hs') as Hi'.
  destruct f; try done; (destruct (String.eqb _ _); [exact (lf_send _ _ HL _ _ Hs') | done]).
Qed.

(** Log first, send only when the row is new. *)
Lemma log_then_send {A} npub kind ref ch (yes no : N A) :
  (forall s, ready {| sn_npub := npub; sn_kind := kind; sn_ref := ref; sn_channel := ch |} s -> I (yes s).2) ->
  nkeeps I no ->
  nkeeps I (nbind (lift (client_logNotification fresh_id npub kind (Some ref) ch))
                 (fun logged => if logged : bool then yes else no)).
Proof.
  intros Hy Hn s Hs. pose proof (nkeeps_grows _ (log_grows npub kind (Some ref) ch) s Hs) as Hl.
  unfold nbind, lift in *.
  destruct (client_logNotification fresh_id npub kind (Some ref) ch (ns_world s)) as [[[]|e] w'] eqn:E; simpl in *.
  - apply log_true in E as [Hno Hyes]. by apply Hy, (lf_ready _ _ HL).
  - by apply Hn.
  - done.
Qed.

Lemma deliverAll_log npub due sent : nkeeps I (deliverAll fresh_id options npub due sent).
Proof.
  revert sent. induction due as [|n due IH]; intros sent; simpl; [auto with orch|].
  apply nkeeps_bind; [|done]. apply nkeeps_bind.
  - unfold deliver_dm. destruct (no_dm options) as [dm|]; [|auto with orch].
    apply nkeeps_catch; [|auto with orch]. apply log_then_send; [|auto with orch].
    intros s Hs. pose proof (dm_send_ready dm _ _ _ s Hs) as Hd. unfold nbind.
    by destruct (dm_send dm npub (dn_kind n) (dn_ref n) s) as [[u|e] s'].
  - intros delivered. apply nkeeps_catch; [|auto with orch]. apply log_then_send; [|auto with orch].
    intros s Hs. pose proof (email_send_ready _ _ _ s Hs) as Hd. unfold nbind.
    by destruct (email_send options npub (dn_kind n) (dn_ref n) s) as [[u|e] s'].
Qed.

Definition purge_grows : Prop := forall purge, no_purge options = Some purge -> forall npub, grows (purge npub).

Lemma grows_id {A} (m : P A) : (forall w, notifications (w_db (m w).2) = notifications (w_db w)) -> grows m.
Proof. intros Hm w n Hn. by rewrite Hm. Qed.

Lemma purge_iso_world access w : (purge_iso access w).2 = w.
Proof. unfold purge_iso. by repeat case_match. Qed.

Lemma read_world {A} (f : Db -> reply A) w : w_db (client_ok (read_only f) w).2 = w_db w.
Proof.
  by apply (keeps_client_ok (fun w' => w_db w' = w_db w)).
Qed.

Lemma evaluate_all_log now us sent :
  purge_grows -> nkeeps I (evaluate_all fresh_id options now us sent).
Proof.
  intros Hpurge. revert sent. induction us as [|u us IH]; intros sent; simpl; [auto with orch|].
  apply nkeeps_bind; [|done]. unfold evaluate.
  destruct (deriveAccess _ _ _) as [access|]; [|auto with orch].
  destruct (dueNotifications _ _ _ _) as [due|]; [|auto with orch].
  apply nkeeps_bind; [apply deliverAll_log|]. intros d.
  destruct (purge_due options u access now) as [[|]|]; [|auto with orch..].
  apply nkeeps_bind; [|auto with orch]. unfold run_purge.
  destruct (no_purge options) as [purge|] eqn:Ep; [|auto with orch].
  apply nkeeps_catch; [|auto with orch].
  apply nkeeps_bind; [by apply nkeeps_grows, Hpurge|]. intros purged.
  apply nkeeps_bind; [apply nkeeps_grows, grows_id; intros w; by rewrite purge_iso_world|]. intros iso.
  apply nkeeps_bind; [apply deliverAll_log | auto with orch].
Qed.

Lemma pass_loop_log fuel now page ev sent :
  purge_grows -> nkeeps I (pass_loop fresh_id options fuel now page ev sent).
Proof.
  intros Hpurge. revert page ev sent. induction fuel as [|fuel IH]; intros page ev sent; simpl; [auto with orch|].
  apply nkeeps_bind.
  { apply nkeeps_grows, grows_id. intros w. unfold client_listAttentionUsers. by rewrite read_world. }
  intros result. apply nkeeps_bind; [by apply evaluate_all_log|]. intros d.
  case_match; [auto with orch | apply IH].
Qed.

(** Passes one after the other, each at its time and with its faults. *)
Definition run_pass (fuel : nat) (p : Z * list fault) (s : NState) : NState :=
  (runOnce fresh_id options fuel
    {| ns_world := set_faults p.2 (set_time p.1 (ns_world s)); ns_sent := ns_sent s |}).2.
Definition run_passes (fuel : nat) (ps : list (Z * list fault)) (s : NState) : NState :=
  foldl (fun s p => run_pass fuel p s) s ps.


Lemma run_passes_log fuel ps s : purge_grows -> I s -> I (run_passes fuel ps s).
Proof.
  intros Hpurge. revert s. induction ps as [|p ps IH]; intros s Hs; [done|].
  simpl. apply IH, pass_loop_log; [done|]. by apply (lf_grow _ _ HL s).
Qed.
End Log_first.

Record once (s : NState) : Prop := {
  on_once : NoDup (ns_sent s);
  on_logged : forall m, m ∈ ns_sent s -> logged m (ns_world s)
}.


Lemma once_log_first : log_first once (fun m s => once s /\ m ∉ ns_sent s /\ logged m (ns_world s)).
Proof.
  constructor.
  - intros s w' [H1' H2'] Hg. constructor; simpl; [done|].
    intros x Hx. destruct (H2' x Hx) as (n & Hn & Hk). exists n. split; [by apply Hg | done].
  - intros m s w' Hs' Hs Hno Hyes. split; [done|]. split; [|done]. simpl. intros Hin. apply Hno. by apply Hs.
  - intros m s w' ([H1' H2'] & Hm & Hl) Hdb. unfold logged in *. simpl. rewrite Hdb.
    split; [constructor; simpl; [done|]; unfold logged; by rewrite Hdb | done].
  - intros m s Hs. apply Hs.
  - intros m s ([H1' H2'] & Hm & Hl). constructor; simpl.
    + apply NoDup_app. split; [done|]. split; [|apply NoDup_singleton]. set_solver.
    + intros x [Hx| ->%list_elem_of_singleton]%elem_of_app; [by apply H2' | done].
Qed.

(** C15: no message is ever sent twice. Over any sequence of passes, whatever
    calls fail, are refused or lose their answer, each (account, kind, ref,
    channel) reaches its recipient at most once, as long as purging does not
    remove log rows. *)
Theorem at_most_once fuel ps w :
  purge_grows -> NoDup (ns_sent (run_passes fuel ps {| ns_world := w; ns_sent := [] |})).
Proof.
  intros Hpurge. apply (run_passes_log _ _ once_log_first); [done|].
  constructor; simpl; [apply NoDup_nil_2|]. intros m Hm. by apply elem_of_nil in Hm.
Qed.

(** A message that was logged but not sent. *)
Definition dropped (m : Sent) (s : NState) : Prop := logged m (ns_world s) /\ m ∉ ns_sent s.

Lemma dropped_log_first m : log_first (dropped m) (fun m' s => dropped m s /\ m' <> m).
Proof.
  constructor.
  - intros s w' [(n & Hn & Hk) Hm] Hg. split; [|done]. exists n. split; [by apply Hg | done].
  - intros m' s w' Hs' Hs Hno Hyes. split; [done|]. intros ->. apply Hno, Hs.
  - intros m' s w' [[Hl Hm] Hne] Hdb. unfold dropped, logged in *. simpl. by rewrite Hdb.
  - by intros m' s [Hs _].
  - intros m' s [[Hl Hm] Hne]. split; [done|]. simpl. set_solver.
Qed.

(** The log row is written before the message is sent, so a send that
    fails is not retried: once a row exists for a message that did not reach
    its recipient, no later pass sends it. *)
Theorem failed_send_dropped fuel ps m s :
  purge_grows -> dropped m s -> dropped m (run_passes fuel ps s).
Proof. apply (run_passes_log _ _ (dropped_log_first m)). Qed.

(** ** Every account is evaluated *)

(** Calls are answered, the tables are consistent, [n] accounts have a plan. *)
Record steady (n : nat) (w : World) : Prop := {
  sy_calm : calm w;
  sy_db : db_ok (w_db w);
  sy_rows : length (attention_rows (w_db w)) = n
}.
Definition nsteady (n : nat) (s : NState) : Prop := steady n (ns_world s).

Lemma steady_pop n w : steady n w -> steady n (pop w).
Proof. intros [Hc Hd Hr]. by rewrite calm_pop. Qed.

Lemma steady_log n npub kind ref ch : keeps (steady n) (client_logNotification fresh_id npub kind ref ch).
Proof.
  intros w. unfold client_logNotification. apply (keeps_catch (steady n)).
  - apply keeps_bind; [|auto with orch]. apply keeps_client_ok; [apply steady_pop|].
    intros w' [Hc Hd Hr]. constructor; simpl; [done| |].
    + eapply db_ok_same; [apply postNotification_same | done].
    + rewrite <- Hr. unfold attention_rows, all_users.
      by rewrite (sa_users _ _ (postNotification_same _ _ _ (w_db w'))).
  - intros []; auto with orch. case_match; auto with orch.
Qed.

(** [m] always returns and keeps the world steady. *)
Definition runs {A} (n : nat) (m : N A) : Prop :=
  forall s, nsteady n s -> exists a s', m s = (Ok a, s') /\ nsteady n s'.

Lemma runs_ret {A} n (a : A) : runs n (nret a).
Proof. intros s Hs. by exists a, s. Qed.
Lemma runs_bind {A B} n (m : N A) (k : A -> N B) : runs n m -> (forall a, runs n (k a)) -> runs n (nbind m k).
Proof. intros Hm Hk s Hs. destruct (Hm s Hs) as (a & s1 & E & Hs1). unfold nbind. rewrite E. by apply Hk. Qed.
Lemma runs_catch {A} n (m : N A) (h : perr -> N A) :
  nkeeps (nsteady n) m -> (forall e, runs n (h e)) -> runs n (ncatch m h).
Proof.
  intros Hm Hh s Hs. specialize (Hm s Hs). unfold ncatch.
  destruct (m s) as [[a|e] s1]; [by exists a, s1 | by apply Hh].
Qed.
Lemma nsteady_lift {A} n (m : P A) : keeps (steady n) m -> nkeeps (nsteady n) (lift m).
Proof. intros Hm. apply nkeeps_lift. intros s Hs. by apply Hm. Qed.

Lemma nsteady_record n m : nkeeps (nsteady n) (record m).
Proof. by intros s. Qed.
Lemma nsteady_fault n : nkeeps (nsteady n) (lift next_fault).
Proof. apply nsteady_lift, keeps_next_fault, steady_pop. Qed.

Lemma nsteady_dm n dm npub kind ref : nkeeps (nsteady n) (dm_send dm npub kind ref).
Proof.
  unfold dm_send. case_match; [auto with orch|]. apply nkeeps_bind; [apply nsteady_fault|].
  intros []; auto using nsteady_record with orch.
Qed.
Lemma nsteady_email n npub kind ref : nkeeps (nsteady n) (email_send options npub kind ref).
Proof.
  unfold email_send. destruct (truthy _); [|auto with orch]. destruct (em_signer _); [|auto with orch].
  apply nkeeps_bind; [apply nsteady_fault|]. intros []; try case_match; auto using nsteady_record with orch.
Qed.

Lemma deliverAll_runs n npub due sent : runs n (deliverAll fresh_id options npub due sent).
Proof.
  revert sent. induction due as [|d due IH]; intros sent; simpl; [apply runs_ret|].
  apply runs_bind; [|done]. apply runs_bind.
  - unfold deliver_dm. destruct (no_dm options) as [dm|]; [|apply runs_ret].
    apply runs_catch; [|intros; apply runs_ret]. apply nkeeps_bind; [apply nsteady_lift, steady_log|].
    intros []; auto using nsteady_dm with orch.
  - intros delivered. apply runs_catch; [|intros; apply runs_ret].
    apply nkeeps_bind; [apply nsteady_lift, steady_log|]. intros []; auto using nsteady_email with orch.
Qed.

Lemma runs_nkeeps {A} n (m : N A) : runs n m -> nkeeps (nsteady n) m.
Proof. intros Hm s Hs. by destruct (Hm s Hs) as (a & s' & -> & Hs'). Qed.

Definition purge_steady (n : nat) : Prop :=
  forall purge, no_purge options = Some purge -> forall npub, keeps (steady n) (purge npub).

Lemma evaluate_all_runs n now us js sent :
  purge_steady n -> mapM userToJson us = Some js -> runs n (evaluate_all fresh_id options now js sent).
Proof.
  intros Hpurge Hjs. apply mapM_Some_1 in Hjs. revert sent.
  induction Hjs as [|u j us js Hj _ IH]; intros sent; simpl; [apply runs_ret|].
  apply runs_bind; [|done]. unfold evaluate. rewrite (userToJson_access u j) by done.
  set (access := accessOf _ _ _ _ _).
  assert (exists due, dueNotifications j access (no_config options) now = Some due) as (due & ->).
  { unfold dueNotifications. destruct (uj_planExpiresAt j) as [r|]; [|by eexists].
    case_bool_decide; [by eexists|]. rewrite (used_percent_row u j Hj). by eexists. }
  apply runs_bind; [apply deliverAll_runs|]. intros d.
  assert (exists b, purge_due options j access now = Some b) as (b & ->).
  { unfold purge_due. case_match; [|by eexists].
    destruct (userToJson_fields u j Hj) as (_ & -> & _). rewrite BigInt_Z_to_string. by eexists. }
  destruct b; [|apply runs_ret]. apply runs_bind; [|intros; apply runs_ret]. unfold run_purge.
  destruct (no_purge options) as [purge|] eqn:Ep; [|apply runs_ret]. apply runs_catch; [|intros; apply runs_ret].
  apply nkeeps_bind; [by apply nsteady_lift, Hpurge|]. intros purged.
  apply nkeeps_bind; [apply nsteady_lift; intros w Hw; by rewrite purge_iso_world|]. intros iso.
  apply nkeeps_bind; [apply runs_nkeeps, deliverAll_runs | auto with orch].
Qed.

(** One page of accounts. *)
Lemma attention_page n i w :
  steady n w ->
  exists us js pg, client_listAttentionUsers (Z.of_nat i + 1) PAGE_SIZE w = (Ok pg, w) /\ items pg = js /\
    mapM userToJson us = Some js /\ total pg = Z.of_nat n /\ length js = ((n - i * 100) `min` 100)%nat.
Proof.
  intros [Hc Hdb Hn]. set (us := take 100 (drop (i * 100) (attention_rows (w_db w)))).
  assert (is_Some (mapM userToJson us)) as [js Hjs].
  { apply mapM_is_Some, Forall_forall. intros u Hu.
    assert (u ∈ attention_rows (w_db w)) as Hin.
    { unfold us in Hu. rewrite <- (take_drop (i * 100) (attention_rows (w_db w))). apply elem_of_app. right.
      rewrite <- (take_drop 100 (drop _ _)). apply elem_of_app. by left. }
    unfold attention_rows in Hin. rewrite order_asc_perm, list_elem_of_filter in Hin. destruct Hin as [_ Hin].
    apply list_elem_of_fmap in Hin as ([npub v] & -> & Hv%elem_of_map_to_list).
    eapply userToJson_total. by apply (do_users _ Hdb npub). }
  exists us, js, (paginated js (Z.of_nat n) (page_at 100 i)). split_and!; try done.
  - unfold client_listAttentionUsers, PAGE_SIZE. rewrite calm_ok by done. unfold read_only, getAttention. cbn [fst snd].
    rewrite set_db_id. change 100 with (Z.of_nat 100). rewrite parsePagination_page_at by lia.
    unfold page_reply. rewrite slice_page_at. fold us. by rewrite Hjs, Hn.
  - rewrite <- (length_mapM _ _ _ Hjs). unfold us. rewrite length_take, length_drop, Hn. lia.
Qed.

Lemma pass_loop_runs fuel n now i ev sent s :
  purge_steady n -> nsteady n s -> (i * 100 <= n)%nat -> (n < (i + fuel) * 100)%nat -> ev = Z.of_nat (i * 100) ->
  exists sent' s', pass_loop fresh_id options fuel now (Z.of_nat i + 1) ev sent s =
      (Ok (Some (Z.of_nat n, sent')), s') /\ nsteady n s'.
Proof.
  intros Hpurge. revert i ev sent s. induction fuel as [|fuel IH]; intros i ev sent s Hs Hi Hf Hev; [lia|].
  destruct (attention_page n i (ns_world s) Hs) as (us & js & pg & Hl & Hit & Hjs & Ht & Hlen).
  cbn [pass_loop]. unfold nbind at 1, lift at 1. rewrite Hl, Hit.
  destruct (evaluate_all_runs n now us js 0 Hpurge Hjs {| ns_world := ns_world s; ns_sent := ns_sent s |} Hs)
    as (d & s1 & He & Hs1).
  unfold nbind. rewrite He, Hlen, Ht. unfold PAGE_SIZE.
  destruct ((Z.of_nat ((n - i * 100) `min` 100) <? 100) || (Z.of_nat n <=? (Z.of_nat i + 1) * 100)) eqn:Estop.
  - exists (sent + d), s1. split; [|done]. unfold nret.
    replace (ev + Z.of_nat ((n - i * 100) `min` 100)) with (Z.of_nat n); [done|].
    apply orb_true_iff in Estop as [?%Z.ltb_lt|?%Z.leb_le]; lia.
  - apply orb_false_iff in Estop as [E1%Z.ltb_ge E2%Z.leb_gt].
    replace (Z.of_nat i + 1 + 1) with (Z.of_nat (S i) + 1) by lia.
    apply IH; [done|lia..].
Qed.

(** A pass looks at every account with a plan exactly once. With calls
    answered, [runOnce] finishes (one page of fuel per hundred accounts and one
    more) and reports as evaluated the number of accounts that have a plan,
    whatever it delivers or purges on the way. *)
Theorem pass_evaluates_all fuel w sent0 :
  calm w -> db_ok (w_db w) -> purge_steady (length (attention_rows (w_db w))) ->
  (length (attention_rows (w_db w)) < fuel * 100)%nat ->
  exists sent s', runOnce fresh_id options fuel {| ns_world := w; ns_sent := sent0 |} =
    (Ok (Some (Z.of_nat (length (attention_rows (w_db w))), sent)), s').
Proof.
  intros Hc Hdb Hp Hf. unfold runOnce.
  destruct (pass_loop_runs fuel (length (attention_rows (w_db w))) (w_now w) 0 0 0 {| ns_world := w; ns_sent := sent0 |})
    as (sent & s' & Hrun & _); [done|by constructor|lia|lia|done|].
  exists sent, s'. exact Hrun.
Qed.
End Scheduler.
End Facts.

(** ** The proxy's purge endpoint is such a purge *)

Lemma proxy_purge_grows fuel npub : grows (proxy_purge fuel npub).
Proof.
  apply grows_keeps. intros l. apply keeps_proxy_purge; try done.
  intros h qn qa w Hw. simpl. by rewrite (sl_log _ _ (deleteBlob_log h qn qa (w_db w))).
Qed.

Lemma proxy_purge_steady n fuel npub : keeps (steady n) (proxy_purge fuel npub).
Proof.
  apply keeps_proxy_purge; [apply steady_pop|intros a w []|intros url h w []|]; try by constructor.
  intros h qn qa w [Hc Hd Hr]. constructor; simpl; [done|by apply deleteBlob_db_ok|].
  by rewrite attention_length, (sl_plans _ _ (deleteBlob_log h qn qa (w_db w))), <- attention_length.
Qed.

(** ** Witnesses *)

Module NotifierExamples.
Import LifecycleExamples EntitlementExamples DbExamples.

Definition notify_options : NotifierOptions :=
  {| no_dm := Some {| valid_npub := fun _ => true |};
     no_email := {| em_backendUrl := Some "http://b"; em_signer := true; em_status := fun _ _ => "sent" |};
     no_config := DEFAULT_LIFECYCLE_CONFIG; no_purge := Some (proxy_purge 10) |}.

Definition next_id (l : list string) : string := Z_to_string (Z.of_nat (length l)).
Definition state1 : NState := {| ns_world := AccessExamples.world1 []; ns_sent := [] |}.

Definition json_a : UserJson :=
  {| uj_npub := "npub1a"; uj_planExpiresAt := Some "2026-10-11T00:00:00.000Z"; uj_storageBytes := Some "1000";
     uj_usedStorage := "900"; uj_createdAt := "2026-10-01T00:00:00.000Z" |}.

Lemma json_a_row : userToJson (paid "npub1a" 900) = Some json_a.
Proof. vm_compute. reflexivity. Qed.

(** Ten days left and 90% used: the 14-day and the 80% warning. *)
Lemma due_exact_witness :
  exists due, dueNotifications json_a (accessOf (Some (NOW + 10 * DAY_MS)) (Some 1000) 900 NOW DEFAULT_LIFECYCLE_CONFIG)
      DEFAULT_LIFECYCLE_CONFIG NOW = Some due /\
    "expiry_warning_14" ∈ (dn_kind <$> due) /\ "quota_warning_80" ∈ (dn_kind <$> due).
Proof.
  destruct (due_exact (paid "npub1a" 900) json_a NOW DEFAULT_LIFECYCLE_CONFIG (NOW + 10 * DAY_MS))
    as (due & H1 & _ & _ & H2).
  - apply json_a_row.
  - reflexivity.
  - discriminate.
  - exists due. split; [exact H1|].
    assert (status (accessOf (Some (NOW + 10 * DAY_MS)) (Some 1000) 900 NOW DEFAULT_LIFECYCLE_CONFIG) <> CLOSED) as Hc
      by (vm_compute; discriminate).
    split; apply (H2 Hc).
    + left. exists 14. split; [apply list_elem_of_here|]. split; [reflexivity|]. split; vm_compute; [reflexivity|discriminate].
    + right. left. exists 80, 1000. split; [apply list_elem_of_here|]. split; [reflexivity|].
      split; [reflexivity|]. split; [reflexivity|]. vm_compute. discriminate.
Defined.

Definition purging_options : NotifierOptions :=
  {| no_dm := no_dm notify_options; no_email := no_email notify_options;
     no_config := {| graceDays := 7; writeBlockedDays := 30; readBlockedDays := 30; purgeEnabled := true;
                     notify := notify DEFAULT_LIFECYCLE_CONFIG |};
     no_purge := Some (proxy_purge 10) |}.

Lemma purge_due_iff_witness :
  purge_due purging_options json_a
    (accessOf (Some (NOW + 10 * DAY_MS)) (Some 1000) 900 (NOW + 77 * DAY_MS) (no_config purging_options))
    (NOW + 77 * DAY_MS) = Some true.
Proof.
  destruct (purge_due_iff purging_options (paid "npub1a" 900) json_a (NOW + 77 * DAY_MS) json_a_row) as (b & H1 & H2).
  refine (eq_trans H1 (f_equal Some _)). apply H2. split; [reflexivity|]. split; [eexists; reflexivity|].
  split; [vm_compute; reflexivity | reflexivity].
Defined.

Lemma at_most_once_witness :
  NoDup (ns_sent (run_passes next_id notify_options 2 [(NOW, [Fine; Fine; Lost]); (NOW + 900000, [])]
    {| ns_world := AccessExamples.world1 []; ns_sent := [] |})).
Proof.
  apply (at_most_once next_id notify_options 2 [(NOW, [Fine; Fine; Lost]); (NOW + 900000, [])]
    (AccessExamples.world1 [])).
  intros purge [= <-] npub. apply proxy_purge_grows.
Defined.

Lemma pass_evaluates_all_witness :
  exists sent s', runOnce next_id notify_options 1 state1 = (Ok (Some (2, sent)), s').
Proof.
  apply (pass_evaluates_all next_id notify_options 1 (AccessExamples.world1 []) []).
  - reflexivity.
  - apply two_db_ok.
  - intros purge [= <-] npub. apply proxy_purge_steady.
  - vm_compute. lia.
Defined.

(** The first pass logs a's 14-day warning for DM but cannot reach a relay. *)
Definition unsent : Sent :=
  {| sn_npub := "npub1a"; sn_kind := "expiry_warning_14"; sn_ref := "2026-10-11T00:00:00.000Z"; sn_channel := "nostr" |}.
Definition after_failure : NState := run_passes next_id notify_options 1 [(NOW, [Fine; Fine; Unsent])] state1.

Lemma failed_send_dropped_witness :
  dropped unsent after_failure /\
  dropped unsent (run_passes next_id notify_options 1 [(NOW + 900000, []); (NOW + 1800000, [])] after_failure).
Proof.
  assert (dropped unsent after_failure) as Hd.
  { split.
    - exists {| n_id := "0"; n_npub := "npub1a"; n_kind := "expiry_warning_14"; n_ref := Some "2026-10-11T00:00:00.000Z";
                n_channel := "nostr"; n_sentAt := NOW |}.
      split; [vm_compute; apply list_elem_of_here | repeat split; reflexivity].
    - refine (bool_decide_unpack _ _). vm_compute. exact I. }
  split; [exact Hd|].
  apply (failed_send_dropped next_id notify_options 1 [(NOW + 900000, []); (NOW + 1800000, [])] unsent after_failure).
  - intros purge [= <-] npub. apply proxy_purge_grows.
  - exact Hd.
Defined.
End NotifierExamples.
