(* ===== verification/NodeRules.v ===== *)
(** * Storage rules of a node (storage-client/blossom/src/prune/rules.ts)

    Durations, the matching of MIME types at upload time and at prune time,
    and the upload gate. At upload time a rule is matched in JavaScript, at
    prune time by the operand of an SQL LIKE; [prefilter_equivalent] relates
    the two. *)

From Stdlib Require Import QArith Ascii.
From S2P Require Import Prelude Js.
#[local] Open Scope Z_scope.

Record StorageRule := {
  ru_type : string;
  ru_expiration : string;
  ru_pubkeys : option (list string)
}.

(** ** Durations *)

Definition DURATION_UNITS : list (string * Z) :=
  [("second", 1); ("seconds", 1); ("minute", 60); ("minutes", 60); ("hour", 3600); ("hours", 3600);
   ("day", 86400); ("days", 86400); ("week", 604800); ("weeks", 604800);
   ("month", 2592000); ("months", 2592000); ("year", 31536000); ("years", 31536000)].

(** [/^(\d+)\s*(\w+)$/] on a trimmed string: the digits and the unit. A string
    of digits only matches by giving its last digit to [\w+]. *)
Definition match_duration (s : string) : option (string * string) :=
  let (ds, r) := span is_digit s in
  if String.eqb ds "" then None else
  match r with
  | "" =>
      let n := (String.length ds - 1)%nat in
      if (n =? 0)%nat then None else Some (String.substring 0 n ds, String.substring n 1 ds)
  | _ =>
      let unit := trim_left r in
      if negb (String.eqb unit "") && sall is_word unit then Some (ds, unit) else None
  end.

(** The value in seconds, exact below 2^53. [DURATION_UNITS] is an object
    literal, so a unit that names a property every object inherits is not
    undefined, and the product is NaN; of those names only two consist of
    lower-case word characters. *)
Definition parseDuration (s : string) : exc string num :=
  match match_duration (trim s) with
  | None => Throw "Invalid duration"
  | Some (ds, u) =>
      let unit := toLowerCase u in
      match assoc_str unit DURATION_UNITS with
      | Some multiplier => Ok (num_Z (dec_value ds * multiplier))
      | None =>
          if String.eqb unit "constructor" || String.eqb unit "__proto__" then Ok NaN
          else Throw "Unknown duration unit"
      end
  end.

(** ** MIME types *)

(** [s.endsWith(suf)], with what comes before. *)
Fixpoint strip_suffix (suf s : string) : option string :=
  if String.eqb s suf then Some ""
  else match s with "" => None | String c s' => String c <$> strip_suffix suf s' end.

Definition mimeMatchesRule (mimeType : option string) (ruleType : string) : bool :=
  if String.eqb ruleType "*" then true else
  match mimeType with
  | None => false
  | Some m =>
      if String.eqb m "" then false
      else if String.eqb m ruleType then true
      else match strip_suffix "/*" ruleType with
           | Some prefix => starts_with (prefix +:+ "/") m
           | None => false
           end
  end.

Definition mimeToSqlLike (ruleType : string) : string :=
  if String.eqb ruleType "*" then "%" else
  match strip_suffix "/*" ruleType with
  | Some prefix => prefix +:+ "/" +:+ "%"
  | None => ruleType
  end.

(** SQLite's [x LIKE p]: a percent sign stands for any run of characters, an underscore for one
    character, letters compare without case; a NULL operand never matches. *)
Fixpoint like (p : string) : string -> bool :=
  match p with
  | "" => fun s => String.eqb s ""
  | String c p' =>
      if code c =? 37 then
        fix any (s : string) : bool := like p' s || match s with "" => false | String _ s' => any s' end
      else if code c =? 95 then
        fun s => match s with "" => false | String _ s' => like p' s' end
      else
        fun s => match s with
                 | "" => false
                 | String d s' => Ascii.eqb (lower_char c) (lower_char d) && like p' s'
                 end
  end.

Definition sql_like (x : option string) (p : string) : bool :=
  match x with Some s => like p s | None => false end.

(** ** The upload gate *)

Inductive FileRule := Matched (r : StorageRule) | ALLOW_ALL.

Definition rule_list (r : StorageRule) : list string := default [] (ru_pubkeys r).

(** [!pubkey] for a [string | undefined] *)
Definition pubkey_in (pubkey : option string) (l : list string) : bool :=
  match pubkey with
  | Some p => negb (String.eqb p "") && bool_decide (p ∈ l)
  | None => false
  end.

Fixpoint rule_loop (mimeType pubkey : option string) (requirePubkeyInRule : bool) (rules : list StorageRule)
  : option FileRule :=
  match rules with
  | [] => None
  | rule :: rest =>
      let continue := rule_loop mimeType pubkey requirePubkeyInRule rest in
      let skip :=
        if bool_decide (rule_list rule <> []) then negb (pubkey_in pubkey (rule_list rule))
        else requirePubkeyInRule in
      if skip then continue
      else if mimeMatchesRule mimeType (ru_type rule) then Some (Matched rule) else continue
  end.

Definition getFileRule (mimeType pubkey : option string) (rules : list StorageRule) (requirePubkeyInRule : bool)
  : option FileRule :=
  match rules with
  | [] => if requirePubkeyInRule then None else Some ALLOW_ALL
  | _ => rule_loop mimeType pubkey requirePubkeyInRule rules
  end.

(** ** Strings *)

Lemma strip_suffix_spec suf s pre : suf <> "" -> strip_suffix suf s = Some pre <-> s = pre +:+ suf.
Proof.
  intros Hsuf. revert pre. induction s as [|c s IH]; intros pre; cbn [strip_suffix].
  - destruct (String.eqb_spec "" suf) as [<-|]; [done|]. split; [done|].
    intros H. by destruct pre, suf.
  - destruct (String.eqb_spec (String c s) suf) as [<-|Hne].
    + split; [by intros [= <-]|]. intros H. destruct pre as [|d pre]; [done|].
      cbn in H. injection H as _ H. exfalso.
      apply (f_equal String.length) in H. rewrite sapp_length in H. cbn in H. lia.
    + split.
      * destruct (strip_suffix suf s) as [q|]; [|done]. intros [= <-].
        rewrite sapp_cons. f_equal. by apply IH.
      * intros H. destruct pre as [|d pre]; [by rewrite H in Hne|].
        cbn in H. injection H as -> H. apply IH in H. by rewrite H.
Qed.

Lemma prefix_app p s : starts_with p s = true <-> exists t, s = p +:+ t.
Proof.
  unfold starts_with. revert s. induction p as [|c p IH]; intros s; simpl.
  - split; [|by destruct s]. by exists s.
  - destruct s as [|d s]; [split; [done|intros (t & H); by rewrite sapp_cons in H]|].
    cbn [String.prefix]. destruct (ascii_dec c d) as [<-|Hne].
    + rewrite IH. split; intros (t & H); exists t; [by rewrite H, sapp_cons | by rewrite sapp_cons in H; injection H].
    + split; [done|]. intros (t & H). rewrite sapp_cons in H. by injection H.
Qed.

(** ** LIKE *)

Lemma like_percent p s :
  like (String "%" p) s = like p s || match s with "" => false | String _ s' => like (String "%" p) s' end.
Proof. by destruct s. Qed.

Lemma like_any p s t : like p s = true -> like (String "%" p) (t +:+ s) = true.
Proof.
  intros H. induction t as [|c t IH]; rewrite like_percent.
  - change ("" +:+ s) with s. by rewrite H.
  - by rewrite sapp_cons, IH, orb_true_r.
Qed.

Lemma code_percent c : code c = 37 -> c = "%"%char.
Proof.
  unfold code. intros H. rewrite <- (ascii_N_embedding c). by replace (N_of_ascii c) with 37%N by lia.
Qed.

(** A pattern matches itself, wildcards included. *)
Lemma like_app p q s : like q s = true -> like (p +:+ q) (p +:+ s) = true.
Proof.
  intros Hq. induction p as [|c p IH]; [done|]. rewrite !sapp_cons.
  destruct (Z.eq_dec (code c) 37) as [->%code_percent|H37].
  - exact (like_any (p +:+ q) (p +:+ s) (String "%" "") IH).
  - cbn [like]. replace (code c =? 37) with false by lia. case_match; [done|].
    by rewrite Ascii.eqb_refl, IH.
Qed.

Lemma like_refl p : like p p = true.
Proof. rewrite <- (sapp_nil_r p) at 1 2. by apply like_app. Qed.

(** No wildcard and no upper-case letter. *)
Definition plain_char (c : ascii) : bool := negb (code c =? 37) && negb (code c =? 95) && negb (is_upper c).
Definition plain (s : string) : bool := sall plain_char s.

(** On lower-case strings a pattern without wildcards is a prefix. *)
Lemma like_plain p q s :
  plain p = true -> sall (fun c => negb (is_upper c)) s = true ->
  like (p +:+ q) s = true -> exists t, s = p +:+ t /\ like q t = true.
Proof.
  unfold plain. revert s. induction p as [|c p IH]; intros s Hp Hs H; [by exists s|].
  rewrite sapp_cons in H. cbn in Hp. apply andb_true_iff in Hp as [Hc Hp].
  unfold plain_char in Hc. zbool. cbn [like] in H.
  replace (code c =? 37) with false in H by lia. replace (code c =? 95) with false in H by lia.
  destruct s as [|d s]; [done|]. cbn in Hs. zbool. apply Ascii.eqb_eq in H.
  unfold lower_char in H. rewrite H1, H4 in H. subst d.
  destruct (IH s) as (t & -> & Ht); [done..|]. by exists t.
Qed.

(** The prune query never leaves out a blob whose type a rule matches at upload. *)
Lemma prefilter_covers m ruleType :
  mimeMatchesRule (Some m) ruleType = true -> sql_like (Some m) (mimeToSqlLike ruleType) = true.
Proof.
  unfold mimeMatchesRule, mimeToSqlLike, sql_like.
  destruct (String.eqb_spec ruleType "*").
  { intros _. change "%" with (String "%" ""). rewrite <- (sapp_nil_r m). by apply like_any. }
  destruct (String.eqb_spec m ""); [done|].
  destruct (strip_suffix "/*" ruleType) as [pre|] eqn:E.
  - apply strip_suffix_spec in E; [|done]. intros H.
    assert (exists t, m = (pre +:+ "/") +:+ t) as (t & ->).
    { destruct (String.eqb_spec m ruleType) as [->|]; [|by apply prefix_app].
      exists "*". rewrite E. by rewrite <- sapp_assoc. }
    rewrite sapp_assoc. apply like_app. rewrite <- (sapp_nil_r t). by apply like_any.
  - destruct (String.eqb_spec m ruleType) as [->|]; [|done]. intros _. apply like_refl.
Qed.

Lemma prefilter_exact_to m ruleType :
  m <> "" -> plain ruleType = true -> sall (fun c => negb (is_upper c)) m = true ->
  sql_like (Some m) (mimeToSqlLike ruleType) = true -> mimeMatchesRule (Some m) ruleType = true.
Proof.
  intros Hm Hp Hl. unfold mimeMatchesRule, mimeToSqlLike, sql_like.
  destruct (String.eqb_spec ruleType "*"); [done|].
  destruct (String.eqb_spec m ""); [done|].
  destruct (strip_suffix "/*" ruleType) as [pre|] eqn:E; intros H.
  - apply strip_suffix_spec in E; [|done].
    destruct (String.eqb_spec m ruleType); [done|]. rewrite sapp_assoc in H.
    apply like_plain in H as (t & -> & _); [apply prefix_app; eauto| |done].
    rewrite E in Hp. unfold plain in *. rewrite sall_app in *. by apply andb_true_iff in Hp as [-> _].
  - rewrite <- (sapp_nil_r ruleType) in H.
    apply like_plain in H as (t & -> & Ht%String.eqb_eq); [|done..]. subst t.
    by rewrite sapp_nil_r, String.eqb_refl.
Qed.

(** C21: the type test of the prune query (an SQL LIKE) and the one of the upload gate
    agree on every known lower-case MIME type, for a rule that is written in lower case and
    without the wildcards of LIKE; whatever the rule, the query finds every
    typed blob the rule matches. A blob without a type is matched by the rule
    "*" at upload and by no query. *)
Theorem prefilter_equivalent ruleType :
  (forall m, mimeMatchesRule (Some m) ruleType = true -> sql_like (Some m) (mimeToSqlLike ruleType) = true) /\
  (plain ruleType = true -> forall m, m <> "" -> toLowerCase m = m ->
     sql_like (Some m) (mimeToSqlLike ruleType) = mimeMatchesRule (Some m) ruleType) /\
  sql_like None (mimeToSqlLike ruleType) = false /\
  (mimeMatchesRule None ruleType = true <-> ruleType = "*").
Proof.
  split_and!; [intros m; apply prefilter_covers | | done | ].
  - intros Hp m Hm Hl.
    assert (sall (fun c => negb (is_upper c)) m = true) as Hu by by apply lower_no_upper.
    apply eq_true_iff_eq. split; [by apply prefilter_exact_to | by apply prefilter_covers].
  - unfold mimeMatchesRule. by destruct (String.eqb_spec ruleType "*").
Qed.

(** ** Durations *)

Lemma strip_right_app p a b : strip_right p b = b -> b <> "" -> strip_right p (a +:+ b) = a +:+ b.
Proof.
  intros Hb Hne. induction a as [|c a IH]; [done|]. rewrite sapp_cons. cbn [strip_right]. rewrite IH.
  destruct (a +:+ b) as [|d t] eqn:E; [|done].
  apply (f_equal String.length) in E. rewrite sapp_length in E. destruct b; [done|simpl in E; lia].
Qed.

Lemma span_app p a b :
  sall p a = true -> match b with "" => True | String c _ => p c = false end -> span p (a +:+ b) = (a, b).
Proof.
  intros Ha Hb. induction a as [|c a IH].
  - change ("" +:+ b) with b. destruct b; cbn; [done|]. by rewrite Hb.
  - cbn in Ha. apply andb_true_iff in Ha as [Hc Ha]. rewrite sapp_cons. cbn [span]. by rewrite Hc, IH.
Qed.

(** What a written duration looks like: a count, perhaps a space, and a unit. *)
Lemma match_duration_written n sep u :
  0 <= n -> sep ∈ [""; " "] ->
  match u with "" => False | String c _ => is_digit c = false end -> sall is_word u = true -> no_space u = true ->
  match_duration (trim (Z_to_string n +:+ sep +:+ u)) = Some (Z_to_string n, u).
Proof.
  intros Hn Hsep Hu Hw Hns. destruct (all_digits_inv _ (all_digits_Z n Hn)) as (d & ds & Hd & Hdig & Hall).
  set (s := Z_to_string n) in *. clearbody s.
  assert (u <> "") as Hu0 by by destruct u.
  assert (trim_left u = u) as Htl.
  { destruct u as [|c u]; [done|]. cbn in Hns. apply andb_true_iff in Hns as [Hc _].
    unfold trim_left. cbn. by rewrite (proj1 (negb_true_iff _) Hc). }
  assert (trim (s +:+ sep +:+ u) = s +:+ sep +:+ u) as ->.
  { unfold trim, trim_left. rewrite Hd, sapp_cons. cbn [span]. rewrite digit_not_space by done. cbn [snd].
    rewrite <- sapp_cons, sapp_assoc. apply strip_right_app; [|done]. by apply strip_right_none. }
  unfold match_duration. rewrite span_app; [|done|].
  2:{ rewrite !elem_of_cons in Hsep. destruct Hsep as [->|[->|[]%elem_of_nil]]; [|done].
      change ("" +:+ u) with u. by destruct u. }
  rewrite (proj2 (String.eqb_neq s "")) by (by rewrite Hd).
  assert (trim_left (sep +:+ u) = u) as Htr.
  { rewrite !elem_of_cons in Hsep. destruct Hsep as [->|[->|[]%elem_of_nil]]; [exact Htl|].
    unfold trim_left in *. change (" " +:+ u) with (String " " u). cbn [span is_space].
    change (is_space " ") with true. cbn iota. by destruct (span is_space u). }
  rewrite Htr, Hw, (proj2 (String.eqb_neq u "")) by done.
  destruct (sep +:+ u) as [|c r] eqn:E; [|done].
  apply (f_equal String.length) in E. rewrite sapp_length in E. destruct u; simpl in E; [done|lia].
Qed.

(** A duration reads back as it is written: a count followed by a unit name,
    with or without a space between them, is that many of the unit's seconds. *)
Theorem parseDuration_written n sep u k :
  0 <= n -> sep ∈ [""; " "] -> (u, k) ∈ DURATION_UNITS ->
  parseDuration (Z_to_string n +:+ sep +:+ u) = Ok (num_Z (n * k)).
Proof.
  intros Hn Hsep Hu. unfold parseDuration.
  assert (match u with "" => False | String c _ => is_digit c = false end /\ sall is_word u = true /\
    no_space u = true /\ assoc_str (toLowerCase u) DURATION_UNITS = Some k) as (H1 & H2 & H3 & H4).
  { unfold DURATION_UNITS in Hu. repeat (apply elem_of_cons in Hu as [[= -> ->]|Hu]; [done|]).
    by apply elem_of_nil in Hu. }
  rewrite match_duration_written by done. rewrite H4. unfold Z_to_string.
  replace (n <? 0) with false by lia. by rewrite dec_value_show.
Qed.

(** ** The gate *)

(** The condition under which one rule lets an upload through. *)
Definition admits (mimeType pubkey : option string) (req : bool) (r : StorageRule) : bool :=
  (if bool_decide (rule_list r <> []) then pubkey_in pubkey (rule_list r) else negb req) &&
  mimeMatchesRule mimeType (ru_type r).

Lemma rule_loop_first m pk req rules :
  rule_loop m pk req rules = Matched <$> find_first (admits m pk req) rules.
Proof.
  induction rules as [|r rules IH]; [done|]. cbn [rule_loop find_first]. rewrite IH. unfold admits.
  destruct (bool_decide (rule_list r <> [])); [destruct (pubkey_in pk (rule_list r))|destruct req];
    simpl; by destruct (mimeMatchesRule m (ru_type r)).
Qed.

(** The upload gate is a first match. With rules, it answers the first rule that
    admits the upload and refuses when none does; without rules everything is
    accepted, unless uploads are by invitation. On an invitation-only node an
    accepted upload's signer is always listed by the rule that let it in. *)
Theorem getFileRule_first mimeType pubkey rules req :
  getFileRule mimeType pubkey rules req =
    match rules with
    | [] => if req then None else Some ALLOW_ALL
    | _ => Matched <$> find_first (admits mimeType pubkey req) rules
    end /\
  (forall rule, req = true -> getFileRule mimeType pubkey rules req = Some rule ->
     exists r p, rule = Matched r /\ r ∈ rules /\ pubkey = Some p /\ p ∈ rule_list r).
Proof.
  assert (forall l, rule_loop mimeType pubkey req l = Matched <$> find_first (admits mimeType pubkey req) l)
    as Hloop by apply rule_loop_first.
  split; [destruct rules; [done|apply Hloop]|].
  intros rule -> H. destruct rules as [|r0 rules]; [done|]. unfold getFileRule in H. rewrite Hloop in H.
  destruct (find_first _ _) as [r|] eqn:E; [|done]. injection H as <-.
  apply find_first_Some in E as [Hin Ha]. unfold admits in Ha. apply andb_true_iff in Ha as [Ha _].
  case_bool_decide; [|done]. unfold pubkey_in in Ha. destruct pubkey as [p|]; [|done]. zbool.
  by exists r, p.
Qed.

Module RulesExamples.

Lemma parseDuration_written_witness :
  parseDuration "30 days" = Ok (num_Z 2592000) /\ parseDuration "2weeks" = Ok (num_Z 1209600).
Proof.
  split.
  - apply (parseDuration_written 30 " " "days" 86400); [lia | by rewrite !elem_of_cons; auto |].
    unfold DURATION_UNITS. rewrite !elem_of_cons. tauto.
  - apply (parseDuration_written 2 "" "weeks" 604800); [lia | by rewrite !elem_of_cons; auto |].
    unfold DURATION_UNITS. rewrite !elem_of_cons. tauto.
Defined.

(** The unit test of the source, and the inherited property names. *)
Example parseDuration_values :
  parseDuration "1 month" = Ok (num_Z 2592000) /\ parseDuration " 7 DAYS " = Ok (num_Z 604800) /\
  parseDuration "12" = Throw "Unknown duration unit" /\ parseDuration "7" = Throw "Invalid duration" /\
  parseDuration "days" = Throw "Invalid duration" /\ parseDuration "1 constructor" = Ok NaN.
Proof. repeat split. Qed.

Example like_wildcards :
  like "image/x_y" "IMAGE/x-y" = true /\ mimeMatchesRule (Some "image/x-y") "image/x_y" = false.
Proof. by split. Qed.

End RulesExamples.
