(* ===== verification/NodeDb.v ===== *)
(** * Metadata of a storage node (storage-client/blossom/src/db)

    The SQLite tables of the migrations under src/db/migrations, with their
    primary keys, foreign keys (ON DELETE CASCADE) and unique constraint, and
    the functions of blobs.ts over them. A statement runs in the
    monad [D]: it may fail before it changes anything (a busy or broken
    database), which is scripted by [nd_faults]. A batch is one transaction.
    Rows of a query without ORDER BY come in the order of the map. *)

From Stdlib Require Import Ascii QArith.
From S2P Require Import Prelude Js Nip98 NodeRules.
#[local] Open Scope Z_scope.

(** ** Data *)

(** A row of [blobs], keyed by [sha256]. *)
Record BlobRow := {
  r_size : Z;
  r_type : option string;
  r_uploaded : Z;
  r_nip94 : option string
}.

Record BlobRecord := {
  br_sha256 : string;
  br_size : Z;
  br_type : option string;
  br_uploaded : Z;
  br_nip94 : option (list (list string))
}.

Record ReportRecord := {
  rp_id : Z;
  rp_event_id : string;
  rp_reporter : string;
  rp_blob : string;
  rp_type : option string;
  rp_content : string;
  rp_created : num
}.

Record NodeDb := {
  t_blobs : gmap string BlobRow;
  t_owners : gset (string * string);
  t_accessed : gmap string Z;
  t_derivatives : gmap string string;
  t_thumbnails : gmap string string;
  t_reports : list ReportRecord;
  (** the AUTOINCREMENT counter *)
  t_report_seq : Z
}.

(** The node: tables, blob files and temporary files by path, and the faults
    of the coming statements. *)
Record Node := {
  nd_db : NodeDb;
  nd_files : gmap string string;
  nd_tmp : gmap string string;
  nd_faults : list bool
}.

Definition set_t_blobs (f : gmap string BlobRow -> gmap string BlobRow) (d : NodeDb) : NodeDb :=
  {| t_blobs := f (t_blobs d); t_owners := t_owners d; t_accessed := t_accessed d;
     t_derivatives := t_derivatives d; t_thumbnails := t_thumbnails d; t_reports := t_reports d;
     t_report_seq := t_report_seq d |}.
Definition set_t_owners (f : gset (string * string) -> gset (string * string)) (d : NodeDb) : NodeDb :=
  {| t_blobs := t_blobs d; t_owners := f (t_owners d); t_accessed := t_accessed d;
     t_derivatives := t_derivatives d; t_thumbnails := t_thumbnails d; t_reports := t_reports d;
     t_report_seq := t_report_seq d |}.
Definition set_t_accessed (f : gmap string Z -> gmap string Z) (d : NodeDb) : NodeDb :=
  {| t_blobs := t_blobs d; t_owners := t_owners d; t_accessed := f (t_accessed d);
     t_derivatives := t_derivatives d; t_thumbnails := t_thumbnails d; t_reports := t_reports d;
     t_report_seq := t_report_seq d |}.
Definition set_t_derivatives (f : gmap string string -> gmap string string) (d : NodeDb) : NodeDb :=
  {| t_blobs := t_blobs d; t_owners := t_owners d; t_accessed := t_accessed d;
     t_derivatives := f (t_derivatives d); t_thumbnails := t_thumbnails d; t_reports := t_reports d;
     t_report_seq := t_report_seq d |}.
Definition set_t_thumbnails (f : gmap string string -> gmap string string) (d : NodeDb) : NodeDb :=
  {| t_blobs := t_blobs d; t_owners := t_owners d; t_accessed := t_accessed d;
     t_derivatives := t_derivatives d; t_thumbnails := f (t_thumbnails d); t_reports := t_reports d;
     t_report_seq := t_report_seq d |}.
Definition set_t_reports (f : list ReportRecord -> list ReportRecord) (seq : Z) (d : NodeDb) : NodeDb :=
  {| t_blobs := t_blobs d; t_owners := t_owners d; t_accessed := t_accessed d;
     t_derivatives := t_derivatives d; t_thumbnails := t_thumbnails d; t_reports := f (t_reports d);
     t_report_seq := seq |}.

Definition set_nd_db (d : NodeDb) (n : Node) : Node :=
  {| nd_db := d; nd_files := nd_files n; nd_tmp := nd_tmp n; nd_faults := nd_faults n |}.
Definition set_nd_files (f : gmap string string -> gmap string string) (n : Node) : Node :=
  {| nd_db := nd_db n; nd_files := f (nd_files n); nd_tmp := nd_tmp n; nd_faults := nd_faults n |}.
Definition set_nd_tmp (f : gmap string string -> gmap string string) (n : Node) : Node :=
  {| nd_db := nd_db n; nd_files := nd_files n; nd_tmp := f (nd_tmp n); nd_faults := nd_faults n |}.
Definition set_nd_faults (l : list bool) (n : Node) : Node :=
  {| nd_db := nd_db n; nd_files := nd_files n; nd_tmp := nd_tmp n; nd_faults := l |}.

(** ** Computations *)

Inductive nerr :=
| HTTPException (st : Z) (message : string)
| NError (message : string).

Definition D (A : Type) : Type := Node -> exc nerr A * Node.
Definition dret {A} (a : A) : D A := fun n => (Ok a, n).
Definition dthrow {A} (e : nerr) : D A := fun n => (Throw e, n).
Definition dbind {A B} (m : D A) (k : A -> D B) : D B :=
  fun n => let (r, n') := m n in match r with Ok a => k a n' | Throw e => (Throw e, n') end.
Definition dcatch {A} (m : D A) (h : nerr -> D A) : D A :=
  fun n => let (r, n') := m n in match r with Ok a => (Ok a, n') | Throw e => h e n' end.
Definition dgets {A} (f : Node -> A) : D A := fun n => (Ok (f n), n).
Definition dmodify (f : Node -> Node) : D unit := fun n => (Ok tt, f n).

Declare Scope node_scope.
Delimit Scope node_scope with D.
Notation "'do*' x := m 'in' k" := (dbind m (fun x => k))
  (at level 10, x pattern, m at level 100, k at level 200) : node_scope.

(** One statement or batch. [None] is a constraint that rejects it. *)
Definition execute {A} (f : NodeDb -> option (A * NodeDb)) : D A := fun n =>
  let fails := match nd_faults n with b :: _ => b | [] => false end in
  let n := set_nd_faults (tail (nd_faults n)) n in
  if fails then (Throw (NError "database error"), n) else
  match f (nd_db n) with
  | Some (a, d) => (Ok a, set_nd_db d n)
  | None => (Throw (NError "constraint failed"), n)
  end.

Definition query {A} (f : NodeDb -> A) : D A := execute (fun d => Some (f d, d)).

(** ** NIP-94 tags *)

(** What the node uses of its libraries and runtime besides signatures. *)
Class NodeLib := {
  (** [None] when it throws *)
  JSON_parse : string -> option jsval;
  (** [extension] of @std/media-types *)
  extFromMime : string -> option string;
  (** the event of an authorization header: base64url, or base64, of its JSON *)
  decodeAuth : string -> option Event;
  (** [new URL(s)]: its protocol and hostname *)
  newURL : string -> option (string * string);
  (** [sharp(file).metadata()] on the bytes of a file: width and height *)
  sharpMetadata : string -> option (jsval * jsval);
  (** the parsed output of ffprobe -show_streams; [None] when it fails *)
  ffprobe : string -> option jsval;
  (** the pieces in which the runtime delivers the bytes of a file *)
  chop : string -> list string
}.

Section Node.
Context `{Nostr} `{NodeLib}.

Definition tags_json (tags : list (list string)) : jsval := JArr ((fun t => JArr (JStr <$> t)) <$> tags).

Definition string_part (v : jsval) : option string := match v with JStr s => Some s | _ => None end.

(** A tag of at least two parts, all strings. *)
Definition valid_tag (v : jsval) : option (list string) :=
  match v with
  | JArr parts => if (2 <=? length parts)%nat then mapM string_part parts else None
  | _ => None
  end.

Definition parseNip94 (value : option string) : option (list (list string)) :=
  match value with
  | None | Some "" => None
  | Some s =>
      match JSON_parse s with
      | Some (JArr tags) =>
          match omap valid_tag tags with [] => None | valid => Some valid end
      | _ => None
      end
  end.

Definition serializeNip94 (tags : option (list (list string))) : option string :=
  match tags with
  | Some (t :: ts) => Some (stringify (tags_json (t :: ts)))
  | _ => None
  end.

(** ** optimize/dimensions.ts *)

(** [Math.round]: half up. *)
Definition num_round (q : Q) : Z := (2 * Qnum q + QDen q) / (2 * QDen q).

Definition positive_num (v : jsval) : option Q :=
  match v with JNum (Fin q) => if 0 <? Qnum q then Some q else None | _ => None end.

Definition formatDim (width height : jsval) : option string :=
  w ← positive_num width;
  h ← positive_num height;
  Some (Z_to_string (num_round w) +:+ "x" +:+ Z_to_string (num_round h)).

Definition probeImageDim (content : string) : option string :=
  match sharpMetadata content with Some (w, h) => formatDim w h | None => None end.

(** The first stream of the kind video; a document without a list of streams
    throws, which counts as a failure. *)
Definition video_stream (json : jsval) : option jsval :=
  match jget json "streams" with
  | JArr l => List.find (fun s => match jget s "codec_type" with JStr t => String.eqb t "video" | _ => false end) l
  | _ => None
  end.

Definition probeVideoDim (content : string) : option string :=
  json ← ffprobe content;
  v ← video_stream json;
  formatDim (jget v "width") (jget v "height").

Definition extractDimensions (content : string) (mimeType : option string) : option string :=
  match mimeType with
  | None | Some "" => None
  | Some m =>
      if starts_with "image/" m then probeImageDim content
      else if starts_with "video/" m then probeVideoDim content
      else None
  end.

(** ** blobs.ts *)

Definition record_of (sha : string) (r : BlobRow) : BlobRecord :=
  {| br_sha256 := sha; br_size := r_size r; br_type := r_type r; br_uploaded := r_uploaded r;
     br_nip94 := parseNip94 (r_nip94 r) |}.

Definition row_of (b : BlobRecord) : BlobRow :=
  {| r_size := br_size b; r_type := br_type b; r_uploaded := br_uploaded b;
     r_nip94 := serializeNip94 (br_nip94 b) |}.

Definition getBlob (sha : string) : D (option BlobRecord) :=
  query (fun d => record_of sha <$> t_blobs d !! sha).

Definition hasBlob (sha : string) : D bool := query (fun d => bool_decide (is_Some (t_blobs d !! sha))).

(** INSERT OR IGNORE INTO blobs *)
Definition insert_row (b : BlobRecord) (d : NodeDb) : NodeDb :=
  match t_blobs d !! br_sha256 b with
  | Some _ => d
  | None => set_t_blobs (<[br_sha256 b := row_of b]>) d
  end.

Definition insertBlob (b : BlobRecord) (uploaderPubkey : string) : D unit :=
  execute (fun d =>
    let d := insert_row b d in
    let d := set_t_owners (fun o => {[(br_sha256 b, uploaderPubkey)]} ∪ o) d in
    Some (tt, set_t_accessed (<[br_sha256 b := br_uploaded b]>) d)).

Definition insertBlobRecord (b : BlobRecord) : D unit :=
  execute (fun d => Some (tt, set_t_accessed (<[br_sha256 b := br_uploaded b]>) (insert_row b d))).

(** DELETE FROM blobs, with the cascades of the tables that refer to it. *)
Definition cascade (sha : string) (d : NodeDb) : NodeDb :=
  {| t_blobs := delete sha (t_blobs d);
     t_owners := filter (fun o => o.1 <> sha) (t_owners d);
     t_accessed := delete sha (t_accessed d);
     t_derivatives := filter (fun p : string * string => p.2 <> sha) (t_derivatives d);
     t_thumbnails := filter (fun p : string * string => p.1 <> sha /\ p.2 <> sha) (t_thumbnails d);
     t_reports := t_reports d;
     t_report_seq := t_report_seq d |}.

Definition deleteBlob (sha : string) : D bool :=
  execute (fun d => Some (bool_decide (is_Some (t_blobs d !! sha)), cascade sha d)).

Definition removeOwner (sha pubkey : string) : D bool :=
  execute (fun d => Some (bool_decide ((sha, pubkey) ∈ t_owners d),
                          set_t_owners (fun o => o ∖ {[(sha, pubkey)]}) d)).

Definition owners_of (sha : string) (d : NodeDb) : list (string * string) :=
  filter (fun o => o.1 = sha) (elements (t_owners d)).

Definition countOwners (sha : string) : D Z := query (fun d => Z.of_nat (length (owners_of sha d))).

(** INSERT OR REPLACE INTO accessed: the foreign key is checked. *)
Definition touchBlob (sha : string) (timestamp : Z) : D unit :=
  execute (fun d => match t_blobs d !! sha with
                    | Some _ => Some (tt, set_t_accessed (<[sha := timestamp]>) d)
                    | None => None
                    end).

(** ORDER BY uploaded DESC, sha256 ASC *)
Definition newest_first (a b : BlobRecord) : Prop :=
  br_uploaded b < br_uploaded a \/
  (br_uploaded a = br_uploaded b /\ String.leb (br_sha256 a) (br_sha256 b) = true).
#[export] Instance newest_first_dec : RelDecision newest_first.
Proof. intros a b. unfold newest_first. apply _. Defined.

Definition blob_records (d : NodeDb) : list BlobRecord :=
  (fun p => record_of p.1 p.2) <$> map_to_list (t_blobs d).

(** The blobs joined with the rows of [owners] of one key. *)
Definition owned_records (pubkey : string) (d : NodeDb) : list BlobRecord :=
  filter (fun b => (br_sha256 b, pubkey) ∈ t_owners d) (blob_records d).

Record ListOpts := {
  lo_limit : option Z;
  lo_cursor : option string;
  lo_since : option Z;
  lo_until : option Z
}.

(** [(b.uploaded < ? OR (b.uploaded = ? AND b.sha256 > ?))] *)
Definition after_cursor (uploaded : Z) (sha : string) (b : BlobRecord) : Prop :=
  br_uploaded b < uploaded \/ (br_uploaded b = uploaded /\ String.ltb sha (br_sha256 b) = true).
#[export] Instance after_cursor_dec u s b : Decision (after_cursor u s b).
Proof. unfold after_cursor. apply _. Defined.

(** The conditions of the query, apart from the owner. *)
Definition selected (o : ListOpts) (after : option (Z * string)) (b : BlobRecord) : Prop :=
  match after with Some (u, s) => after_cursor u s b | None => True end /\
  match lo_since o with Some t => t <= br_uploaded b | None => True end /\
  match lo_until o with Some t => br_uploaded b <= t | None => True end.
#[export] Instance selected_dec o after b : Decision (selected o after b).
Proof.
  unfold selected. destruct after as [[??]|], (lo_since o), (lo_until o); apply _.
Defined.

Definition list_page (pubkey : string) (o : ListOpts) (after : option (Z * string)) (d : NodeDb)
  : list BlobRecord :=
  let limit := Z.min (default 100 (lo_limit o)) 1000 in
  let rows := filter (selected o after) (owned_records pubkey d) in
  let sorted := merge_sort newest_first rows in
  if limit <? 0 then sorted else take (Z.to_nat limit) sorted.

Definition listBlobsByPubkey (pubkey : string) (o : ListOpts) : D (list BlobRecord) := (
  do* after :=
    match lo_cursor o with
    | Some c =>
        if String.eqb c "" then dret None
        else do* row := query (fun d => t_blobs d !! c) in
             dret ((fun r => (r_uploaded r, c)) <$> row)
    | None => dret None
    end in
  query (list_page pubkey o after))%D.

Record BlobStats := { bs_blobCount : Z; bs_totalSize : Z; bs_dailyUploads : Z }.

Definition getBlobStats (now : Z) : D BlobStats :=
  query (fun d =>
    let rows := blob_records d in
    {| bs_blobCount := Z.of_nat (length rows);
       bs_totalSize := sumZ br_size rows;
       bs_dailyUploads := Z.of_nat (length (filter (fun b => now - 86400 < br_uploaded b) rows)) |}).

(** ** Media derivatives and thumbnails *)

Definition getMediaDerivative (originalSha256 : string) : D (option string) :=
  query (fun d => t_derivatives d !! originalSha256).

(** OR IGNORE keeps an existing row; the foreign key is checked. *)
Definition insertMediaDerivative (originalSha256 optimizedSha256 : string) : D unit :=
  execute (fun d =>
    match t_derivatives d !! originalSha256 with
    | Some _ => Some (tt, d)
    | None =>
        match t_blobs d !! optimizedSha256 with
        | Some _ => Some (tt, set_t_derivatives (<[originalSha256 := optimizedSha256]>) d)
        | None => None
        end
    end).

Definition thumbnails_of (parentSha256 : string) (d : NodeDb) : list BlobRecord :=
  match t_thumbnails d !! parentSha256 with
  | Some th => match t_blobs d !! th with Some r => [record_of th r] | None => [] end
  | None => []
  end.

Definition getMediaThumbnail (parentSha256 : string) : D (option BlobRecord) :=
  query (fun d => head (thumbnails_of parentSha256 d)).

Definition insertMediaThumbnail (parentSha256 thumbnailSha256 : string) : D unit :=
  execute (fun d =>
    match t_blobs d !! parentSha256, t_blobs d !! thumbnailSha256 with
    | Some _, Some _ => Some (tt, set_t_thumbnails (<[parentSha256 := thumbnailSha256]>) d)
    | _, _ => None
    end).

Definition getMediaThumbnailsForParent (parentSha256 : string) : D (list BlobRecord) :=
  query (thumbnails_of parentSha256).

Definition isOwner (sha pubkey : string) : D bool := query (fun d => bool_decide ((sha, pubkey) ∈ t_owners d)).

(** ** Queries of the prune engine *)

Record BlobPruneRecord := { pr_blob : BlobRecord; pr_accessed : option Z }.

Definition is_thumbnail (d : NodeDb) (sha : string) : Prop := sha ∈ (map_to_list (t_thumbnails d)).*2.
#[export] Instance is_thumbnail_dec d sha : Decision (is_thumbnail d sha).
Proof. unfold is_thumbnail. apply _. Defined.

Definition prune_candidates (typePattern : string) (d : NodeDb) : list BlobRecord :=
  filter (fun b => sql_like (br_type b) typePattern = true /\ ~ is_thumbnail d (br_sha256 b)) (blob_records d).

(** One row per blob, or one per matching owner when the rule names keys. *)
Definition prune_rows (typePattern : string) (pubkeys : option (list string)) (d : NodeDb) : list BlobPruneRecord :=
  (fun b => {| pr_blob := b; pr_accessed := t_accessed d !! br_sha256 b |}) <$>
  match default [] pubkeys with
  | [] => prune_candidates typePattern d
  | keys =>
      mjoin ((fun b => (fun _ => b) <$> filter (fun o => o.2 ∈ keys) (owners_of (br_sha256 b) d))
              <$> prune_candidates typePattern d)
  end.

Definition getBlobsForPrune (typePattern : string) (pubkeys : option (list string)) : D (list BlobPruneRecord) :=
  query (prune_rows typePattern pubkeys).

Definition ownerless (d : NodeDb) : list BlobRecord :=
  filter (fun b => owners_of (br_sha256 b) d = [] /\ ~ is_thumbnail d (br_sha256 b)) (blob_records d).

Definition getOwnerlessBlobSha256s : D (list (string * option string)) :=
  query (fun d => (fun b => (br_sha256 b, br_type b)) <$> ownerless d).

End Node.
