(* ===== verification/NodeApi.v ===== *)
(** * The HTTP interface of a storage node (storage-client/blossom/src)

    Authorization (middleware/auth.ts), blob files (storage/local.ts), the
    upload worker (workers/upload-worker.ts) and the routes for uploading,
    reading, deleting and listing blobs. Requests are served one after the
    other, each at one instant; what the worker pool answers an upload is part
    of the request. Numbers inside error messages are left out. *)

From Stdlib Require Import Ascii.
From S2P Require Import Prelude Js Nip98 NodeRules NodeDb.

(** ** Requests, responses, configuration *)

Record ImageOpts := {
  io_quality : Z;
  io_progressive : bool;
  io_maxWidth : Z;
  io_maxHeight : Z;
  io_outputFormat : string;
  io_keepExif : bool;
  io_fps : Z
}.

Record VideoOpts := {
  vo_quality : Z;
  vo_maxHeight : Z;
  vo_maxFps : Z;
  vo_format : string;
  vo_audioCodec : string;
  vo_videoCodec : string
}.

Record ThumbOpts := {
  th_enabled : bool;
  th_quality : Z;
  th_maxWidth : Z;
  th_maxHeight : Z;
  th_outputFormat : string;
  th_videoSeek : num
}.

Record MConfig := {
  mc_enabled : bool;
  mc_requireAuth : bool;
  mc_maxSize : Z;
  mc_image : ImageOpts;
  mc_video : VideoOpts;
  mc_thumbnail : ThumbOpts;
  (** whether the system's temporary directory and the blobs are on one file
      system, a fact of the deployment: [Deno.rename] does not cross them *)
  mc_sameFs : bool
}.

Record NConfig := {
  cf_publicDomain : string;
  cf_uploadEnabled : bool;
  cf_uploadRequireAuth : bool;
  cf_maxSize : Z;
  cf_requirePubkeyInRule : bool;
  cf_mirrorEnabled : bool;
  cf_mirrorRequireAuth : bool;
  cf_reportEnabled : bool;
  cf_deleteRequireAuth : bool;
  cf_listEnabled : bool;
  cf_listRequireAuth : bool;
  cf_allowListOthers : bool;
  cf_rules : list StorageRule;
  cf_removeWhenNoOwners : bool;
  cf_media : MConfig
}.

(** The headers, path parts and query of a request, its body as the chunks
    that arrive and whether the stream breaks off, and what the pool says. *)
Record NReq := {
  nq_authorization : option string;
  nq_host : option string;
  nq_head : bool;
  nq_filename : string;
  nq_contentLength : option string;
  nq_contentType : option string;
  nq_xSha256 : option string;
  nq_xContentType : option string;
  nq_xContentLength : option string;
  nq_ifNoneMatch : option string;
  nq_range : option string;
  nq_limit : option string;
  nq_since : option string;
  nq_until : option string;
  nq_cursor : option string;
  nq_forwardedProto : option string;
  nq_forwarded : option string;
  nq_urlProtocol : string;
  nq_urlHost : string;
  nq_body : option (list string * bool);
  nq_poolAvailable : bool;
  nq_dispatched : bool;
  (** the name [ulid()] makes up for the temporary file *)
  nq_ulid : string
}.

Inductive nresp (A : Type) :=
| NRes (st : Z) (body : A)
| NErr (st : Z) (reason : string).
Arguments NRes {A} st body.
Arguments NErr {A} st reason.

Definition nresp_status {A} (r : nresp A) : Z := match r with NRes st _ => st | NErr st _ => st end.

(** Errors that leave a handler: the router's [onError]. *)
Definition onError {A} (m : D (nresp A)) : D (nresp A) :=
  dcatch m (fun e => dret (match e with
    | HTTPException st message => NErr st (if String.eqb message "" then "An error occurred" else message)
    | NError _ => NErr 500 "Internal server error"
    end)).

Definition truthy_str (o : option string) : option string :=
  match o with Some s => if String.eqb s "" then None else Some s | None => None end.

Section Api.
Context `{Nostr} `{NodeLib}.

(** ** middleware/auth.ts *)

Definition extractHostname (value : option string) : option string :=
  match truthy_str value with
  | None => None
  | Some v =>
      let trimmed := trim v in
      if String.eqb trimmed "" then None else
      let bare := toLowerCase <$> head (split_on ":" trimmed) in
      if contains "://" trimmed then
        match newURL trimmed with Some (_, h) => Some (toLowerCase h) | None => bare end
      else bare
  end.

Definition has_name (name : string) (t : list string) : bool := bool_decide (head t = Some name).

Definition parseAuthEvent (now : Z) (raw : string) (serverDomain : option string) : exc nerr Event := (
  match decodeAuth raw with
  | None => Throw (HTTPException 400 "Invalid Authorization header encoding")
  | Some auth =>
      throw_if negb (num_eqZ (ev_kind auth) 24242)
        with HTTPException 400 "Auth event must be kind 24242" then
      throw_if num_gt (ev_created_at auth) (now + 60)
        with HTTPException 400 "Auth event created_at is in the future" then
      match truthy_str (tag_value "expiration" (ev_tags auth)) with
      | None => Throw (HTTPException 400 "Auth event missing expiration tag")
      | Some expiration =>
          throw_if match parseInt10 expiration with Some t => t <? now | None => false end
            with HTTPException 401 "Auth token expired" then
          match truthy_str (tag_value "t" (ev_tags auth)) with
          | None => Throw (HTTPException 400 "Auth event missing t tag")
          | Some _ =>
              let serverTags := filter (fun t => has_name "server" t = true) (ev_tags auth) in
              throw_if bool_decide (serverTags <> []) &&
                       match truthy_str serverDomain with
                       | None => true
                       | Some dom => negb (existsb (fun t => bool_decide (extractHostname (t !! 1%nat) = Some dom)) serverTags)
                       end
                with HTTPException 401 "Auth token not valid for this server" then
              throw_if negb (verifyEvent auth)
                with HTTPException 400 "Auth event signature invalid" then
              Ok auth
          end
      end
  end)%exc.

(** [ctx]: the event and the value of its "t" tag. *)
Definition auth_ctx : Type := option (Event * option string).

(** The name this server goes by: the configured domain, or the Host header. *)
Definition server_domain (cfg : NConfig) (r : NReq) : option string :=
  match extractHostname (Some (cf_publicDomain cfg)) with
  | Some d => Some d
  | None => host ← nq_host r; toLowerCase <$> head (split_on ":" host)
  end.

Definition raw_token (h : string) : string := trim (String.substring 6 (String.length h - 6) h).

Definition authMiddleware (now : Z) (cfg : NConfig) (r : NReq) : exc nerr auth_ctx :=
  match nq_authorization r with
  | Some h =>
      if starts_with "Nostr " h then
        match parseAuthEvent now (raw_token h) (server_domain cfg r) with
        | Ok auth => Ok (Some (auth, tag_value "t" (ev_tags auth)))
        | Throw e => Throw e
        end
      else Ok None
  | None => Ok None
  end.

Definition requireAuth (ctx : auth_ctx) (verb : string) : exc nerr Event :=
  match ctx with
  | None => Throw (HTTPException 401 "Authorization required")
  | Some (auth, authType) =>
      if bool_decide (authType = Some verb) then Ok auth
      else Throw (HTTPException 403 "Auth token type does not match required type")
  end.

Definition optionalAuth (ctx : auth_ctx) : option Event := fst <$> ctx.

Definition requireXTag (auth : Event) (hash : string) : exc nerr unit :=
  let xTags := filter (fun t => has_name "x" t = true) (ev_tags auth) in
  if bool_decide (xTags <> []) && negb (existsb (fun t => bool_decide (t !! 1%nat = Some hash)) xTags)
  then Throw (HTTPException 403 "Auth token does not authorize operation on blob")
  else Ok tt.

Definition dlift {A} (m : exc nerr A) : D A := match m with Ok a => dret a | Throw e => dthrow e end.

(** ** utils *)

Definition mimeToExt (mime : option string) : string :=
  match truthy_str mime with
  | None => ""
  | Some m => if String.eqb m "application/octet-stream" then "" else default "" (extFromMime m)
  end.

Definition nip94Tags (url sha type : string) (size : Z) (tags : option (list (list string))) : list (list string) :=
  [["url"; url]; ["m"; toLowerCase type]; ["x"; sha]; ["size"; Z_to_string size]] ++ default [] tags.

(** Only the dimensions are given on the upload path. *)
Definition optionalNip94Tags (originalSha256 dim : option string) (thumbnail : option (string * string))
  : option (list (list string)) :=
  let tags :=
    match truthy_str originalSha256 with Some o => [["ox"; o]] | None => [] end ++
    match truthy_str dim with Some d => [["dim"; d]] | None => [] end ++
    match thumbnail with Some (url, sha) => [["thumb"; url; sha]] | None => [] end in
  match tags with [] => None | _ => Some tags end.

Definition http_scheme (s : string) : bool := String.eqb s "https" || String.eqb s "http".
Definition is_alpha (c : ascii) : bool := is_upper c || is_lower c.
Definition is_quote (c : ascii) : bool := code c =? 34.

(** The first proto=scheme of a Forwarded header, the scheme perhaps quoted. *)
Fixpoint find_proto (s : string) : option string :=
  let here :=
    if starts_with "proto" s then
      match trim_left (String.substring 5 (String.length s - 5) s) with
      | String c rest =>
          if code c =? 61 then
            let v := trim_left rest in
            let v := match v with String q v' => if is_quote q then v' else v | _ => v end in
            let (w, _) := span is_alpha v in
            if String.eqb w "" then None else Some w
          else None
      | _ => None
      end
    else None in
  match here with
  | Some w => Some w
  | None => match s with "" => None | String _ s' => find_proto s' end
  end.

Definition getProtocol (r : NReq) : string :=
  let from_forwarded :=
    match truthy_str (nq_forwarded r) with
    | Some f =>
        match find_proto f with
        | Some p => if http_scheme (toLowerCase p) then toLowerCase p +:+ ":" else nq_urlProtocol r
        | None => nq_urlProtocol r
        end
    | None => nq_urlProtocol r
    end in
  match truthy_str (nq_forwardedProto r) with
  | Some xfp =>
      let proto := toLowerCase (trim (default "" (head (split_on "," xfp)))) in
      if http_scheme proto then proto +:+ ":" else from_forwarded
  | None => from_forwarded
  end.

Definition getBaseUrl (cfg : NConfig) (r : NReq) : string :=
  let protocol := getProtocol r in
  if String.eqb (cf_publicDomain cfg) "" then protocol +:+ "//" +:+ nq_urlHost r
  else protocol +:+ "//" +:+ strip_slash (cf_publicDomain cfg).

Definition getBlobUrl (hash : string) (mimeType : option string) (baseUrl : string) : string :=
  let ext := mimeToExt mimeType in
  baseUrl +:+ "/" +:+ hash +:+ (if String.eqb ext "" then "" else "." +:+ ext).

(** ** storage/local.ts *)

(** Paths are relative to the directory of the adapter. *)
Definition blobPath (hash ext : string) : string :=
  if String.eqb ext "" then hash else hash +:+ "." +:+ ext.

Definition st_has (hash ext : string) : D bool :=
  dgets (fun n => bool_decide (is_Some (nd_files n !! blobPath hash ext))).

Definition st_read (hash ext : string) : D (option (list string)) :=
  dgets (fun n => chop <$> nd_files n !! blobPath hash ext).

Definition beginWrite (id : string) : D string := (
  do* _ := dmodify (set_nd_tmp (<[id := ""]>)) in dret id)%D.

Definition commitWrite (tmpPath hash ext : string) : D unit := (
  do* present := st_has hash ext in
  if present : bool then dmodify (set_nd_tmp (delete tmpPath))
  else
    do* content := dgets (fun n => nd_tmp n !! tmpPath) in
    match content with
    | None => dthrow (NError "No such file or directory")
    | Some c => dmodify (fun n => set_nd_tmp (delete tmpPath) (set_nd_files (<[blobPath hash ext := c]>) n))
    end)%D.

Definition abortWrite (tmpPath : string) : D unit := dmodify (set_nd_tmp (delete tmpPath)).

Definition st_remove (hash ext : string) : D bool := (
  do* present := st_has hash ext in
  do* _ := dmodify (set_nd_files (delete (blobPath hash ext))) in
  dret present)%D.

(** ** workers/upload-worker.ts *)

Inductive JobResult :=
| JobSuccess (hash : string) (size : Z)
| JobError (error errorType : string).

Definition runJob (body : list string * bool) (tmpPath : string) (xSha256 : option string) : D JobResult := (
  let data := String.concat "" (fst body) in
  if snd body then
    do* _ := dmodify (set_nd_tmp (delete tmpPath)) in
    dret (JobError "stream error" "UNKNOWN")
  else
    do* _ := dmodify (set_nd_tmp (<[tmpPath := data]>)) in
    let hash := sha256 data in
    if match xSha256 with Some x => negb (String.eqb hash x) | None => false end then
      do* _ := dmodify (set_nd_tmp (delete tmpPath)) in
      dret (JobError "Hash mismatch" "HASH_MISMATCH")
    else dret (JobSuccess hash (Z.of_nat (String.length data))))%D.

(** ** routes/upload.ts *)

Record NDescriptor := {
  nds_url : string;
  nds_sha256 : string;
  nds_size : Z;
  nds_type : string;
  nds_uploaded : Z;
  nds_nip94 : list (list string)
}.

Definition descriptor (cfg : NConfig) (r : NReq) (b : BlobRecord) (extra : list (list string)) : NDescriptor :=
  let url := getBlobUrl (br_sha256 b) (br_type b) (getBaseUrl cfg r) in
  let type := default "application/octet-stream" (br_type b) in
  {| nds_url := url; nds_sha256 := br_sha256 b; nds_size := br_size b; nds_type := type;
     nds_uploaded := br_uploaded b;
     nds_nip94 := nip94Tags url (br_sha256 b) type (br_size b) (Some (default [] (br_nip94 b) ++ extra)) |}.

(** [if (requireAuth) ...]: the event, or nothing when auth is off; a refusal
    is answered. *)
Definition auth_if (required : bool) (ctx : auth_ctx) (verb : string) : exc nerr (option Event) :=
  if required then match requireAuth ctx verb with Ok e => Ok (Some e) | Throw e => Throw e end
  else Ok None.

(** The answer of the rule gate to an upload no rule matches. *)
Definition no_rule {A} (cfg : NConfig) (mimeType : string) : nresp A :=
  if cf_requirePubkeyInRule cfg then NErr 401 "Pubkey not authorized by any storage rule"
  else NErr 415 ("Server does not accept " +:+ mimeType +:+ " blobs").

(** A declared length: 411, 400 or 413 when it is not acceptable. *)
Definition check_length {A} (cfg : NConfig) (header : option string) (missing invalid : string) : nresp A + Z :=
  match truthy_str header with
  | None => inl (NErr 411 missing)
  | Some h =>
      match parseInt10 h with
      | None => inl (NErr 400 invalid)
      | Some size =>
          if size <? 0 then inl (NErr 400 invalid)
          else if cf_maxSize cfg <? size then inl (NErr 413 "File too large.")
          else inr size
      end
  end.

(** HEAD /upload; the body says whether the blob is already there. *)
Definition headUpload (cfg : NConfig) (ctx : auth_ctx) (r : NReq) : D (nresp bool) := (
  if negb (cf_uploadEnabled cfg) then dret (NErr 403 "Uploads are disabled on this server") else
  match auth_if (cf_uploadRequireAuth cfg) ctx "upload" with
  | Throw e => dthrow e
  | Ok _ =>
      let xContentType := default "application/octet-stream" (nq_xContentType r) in
      match check_length cfg (nq_xContentLength r)
              "Missing X-Content-Length header" "Invalid X-Content-Length header" with
      | inl e => dret e
      | inr _ =>
          match getFileRule (Some xContentType) (ev_pubkey <$> optionalAuth ctx)
                  (cf_rules cfg) (cf_requirePubkeyInRule cfg) with
          | None => dret (no_rule cfg xContentType)
          | Some _ =>
              if negb (nq_poolAvailable r) then dret (NErr 503 "Server busy, try again later") else
              match truthy_str (nq_xSha256 r) with
              | Some x => do* known := hasBlob x in dret (NRes 200 known)
              | None => dret (NRes 200 false)
              end
          end
      end
  end)%D.

(** What steps 1 to 5 of an upload establish. *)
Record UploadAdmission := { ad_auth : option Event; ad_mime : string; ad_xSha256 : option string }.

Definition upload_checks (cfg : NConfig) (ctx : auth_ctx) (r : NReq) : exc nerr (nresp NDescriptor + UploadAdmission) :=
  if negb (cf_uploadEnabled cfg) then Ok (inl (NErr 403 "Uploads are disabled on this server")) else
  match auth_if (cf_uploadRequireAuth cfg) ctx "upload" with
  | Throw e => Throw e
  | Ok auth =>
      match check_length cfg (nq_contentLength r)
              "Content-Length header required" "Invalid Content-Length header" with
      | inl e => Ok (inl e)
      | inr _ =>
          let contentType := default "application/octet-stream" (nq_contentType r) in
          let mimeType := trim (default "" (head (split_on ";" contentType))) in
          match getFileRule (Some mimeType) (ev_pubkey <$> auth) (cf_rules cfg) (cf_requirePubkeyInRule cfg) with
          | None => Ok (inl (no_rule cfg mimeType))
          | Some _ =>
              let xSha256 := toLowerCase <$> nq_xSha256 r in
              match truthy_str xSha256 with
              | None => Ok (inr {| ad_auth := auth; ad_mime := mimeType; ad_xSha256 := xSha256 |})
              | Some x =>
                  if negb (is_hex64 x) then Ok (inl (NErr 400 "Invalid X-SHA-256 header format")) else
                  match (match auth with Some e => requireXTag e x | None => Ok tt end) with
                  | Throw e => Throw e
                  | Ok _ => Ok (inr {| ad_auth := auth; ad_mime := mimeType; ad_xSha256 := xSha256 |})
                  end
              end
          end
      end
  end.

(** An authenticated uploader of a known blob becomes one of its owners. *)
Definition add_owner (auth : option Event) (hash : string) (b : BlobRecord) : D unit := (
  match auth with
  | Some e =>
      do* own := isOwner hash (ev_pubkey e) in
      if own : bool then dret tt else insertBlob b (ev_pubkey e)
  | None => dret tt
  end)%D.

(** Step 6: a blob that is already there is answered at once, and its
    uploader becomes an owner. *)
Definition upload_dedup (cfg : NConfig) (r : NReq) (a : UploadAdmission) : D (option (nresp NDescriptor)) := (
  match truthy_str (ad_xSha256 a) with
  | None => dret None
  | Some x =>
      do* known := hasBlob x in
      if negb known then dret None else
      do* existing := getBlob x in
      match existing with
      | None => dret None
      | Some b =>
          do* _ := add_owner (ad_auth a) x b in
          dret (Some (NRes 200 (descriptor cfg r b [])))
      end
  end)%D.

Definition blob_type (mimeType : string) : option string :=
  if String.eqb mimeType "application/octet-stream" then None else Some mimeType.

(** Commit the hashed temporary file and record it. *)
Definition store_blob (now : Z) (auth : option Event) (mimeType tmpPath hash : string) (size : Z) : D BlobRecord := (
  let blobType := blob_type mimeType in
  do* dim := dgets (fun n => content ← nd_tmp n !! tmpPath; extractDimensions content blobType) in
  do* _ := dcatch (commitWrite tmpPath hash (mimeToExt (Some mimeType)))
                  (fun e => do* _ := abortWrite tmpPath in dthrow e) in
  let record := {| br_sha256 := hash; br_size := size; br_type := blobType; br_uploaded := now;
                   br_nip94 := optionalNip94Tags None dim None |} in
  do* _ := insertBlob record (default "anonymous" (ev_pubkey <$> auth)) in
  dret record)%D.

(** Steps 9b to 12: the bytes are in the temporary file and hashed. *)
Definition upload_finish (now : Z) (cfg : NConfig) (r : NReq) (a : UploadAdmission) (tmpPath hash : string) (size : Z)
  : D (nresp NDescriptor) := (
  match (match ad_auth a, truthy_str (ad_xSha256 a) with
         | Some e, None => requireXTag e hash
         | _, _ => Ok tt
         end) with
  | Throw e => do* _ := abortWrite tmpPath in dthrow e
  | Ok _ =>
      do* record := store_blob now (ad_auth a) (ad_mime a) tmpPath hash size in
      dret (NRes 201 (descriptor cfg r record []))
  end)%D.

(** Steps 7 to 12: a worker receives the body. *)
Definition upload_work (now : Z) (cfg : NConfig) (r : NReq) (a : UploadAdmission) : D (nresp NDescriptor) := (
  match nq_body r with
  | None => dret (NErr 400 "Request body is empty")
  | Some body =>
      if negb (nq_poolAvailable r) then
        dret (NErr 503 "Server busy. All upload workers are occupied. Try again shortly.")
      else
        do* tmpPath := beginWrite (nq_ulid r) in
        if negb (nq_dispatched r) then
          do* _ := abortWrite tmpPath in
          dret (NErr 503 "Server busy. All upload workers are occupied. Try again shortly.")
        else
          do* result := runJob body tmpPath (ad_xSha256 a) in
          match result with
          | JobError error errorType =>
              do* _ := abortWrite tmpPath in
              dret (NErr (if String.eqb errorType "HASH_MISMATCH" then 409 else 400) error)
          | JobSuccess hash size => upload_finish now cfg r a tmpPath hash size
          end
  end)%D.

(** PUT /upload *)
Definition putUpload (now : Z) (cfg : NConfig) (ctx : auth_ctx) (r : NReq) : D (nresp NDescriptor) := (
  do* checked := dlift (upload_checks cfg ctx r) in
  match checked with
  | inl resp => dret resp
  | inr a =>
      do* dup := upload_dedup cfg r a in
      match dup with Some resp => dret resp | None => upload_work now cfg r a end
  end)%D.

(** ** routes/delete.ts *)

(** [filename.match(/([0-9a-f]{64})/)?.[1] ?? ""] *)
Fixpoint find_hash (s : string) : option string :=
  let h := String.substring 0 64 s in
  if is_hex64 h then Some h
  else match s with "" => None | String _ s' => find_hash s' end.

(** [m().catch(...)]: failures are logged. *)
Definition quietly {A} (m : D A) : D unit :=
  dcatch (do* _ := m in dret tt)%D (fun _ => dret tt).

Fixpoint drop_thumbnails (l : list BlobRecord) : D unit :=
  match l with
  | [] => dret tt
  | t :: l => (
      do* _ := quietly (deleteBlob (br_sha256 t)) in
      do* _ := quietly (st_remove (br_sha256 t) (mimeToExt (br_type t))) in
      drop_thumbnails l)%D
  end.

(** Purge the blob: the row first, then the file, then its thumbnails. *)
Definition purge_blob (hash : string) (type : option string) : D (nresp unit) := (
  do* thumbnails := getMediaThumbnailsForParent hash in
  do* _ := deleteBlob hash in
  do* _ := quietly (st_remove hash (mimeToExt type)) in
  do* _ := drop_thumbnails thumbnails in
  dret (NRes 204 tt))%D.

Definition deleteRoute (cfg : NConfig) (ctx : auth_ctx) (r : NReq) : D (nresp unit) := (
  match find_hash (nq_filename r) with
  | None => dret (NErr 400 "Invalid sha256 hash")
  | Some hash =>
      do* found := getBlob hash in
      match found with
      | None => dret (NErr 404 "Blob not found")
      | Some blob =>
          if cf_deleteRequireAuth cfg then
            do* auth := dlift (requireAuth ctx "delete") in
            do* _ := dlift (requireXTag auth hash) in
            do* own := isOwner hash (ev_pubkey auth) in
            if negb own then dret (NErr 403 "You are not an owner of this blob") else
            do* _ := removeOwner hash (ev_pubkey auth) in
            do* remaining := countOwners hash in
            if 0 <? remaining then dret (NRes 204 tt) else purge_blob hash (br_type blob)
          else purge_blob hash (br_type blob)
      end
  end)%D.

(** ** routes/blobs.ts *)

(** A header bytes=a-b with two optional runs of digits, and the two numbers. *)
Definition match_range (header : string) : option (option Z * option Z) :=
  if starts_with "bytes=" header then
    let (a, r) := span is_digit (String.substring 6 (String.length header - 6) header) in
    match r with
    | String c r' =>
        let (b, rest) := span is_digit r' in
        if (code c =? 45) && String.eqb rest "" then Some (parseInt10 a, parseInt10 b) else None
    | _ => None
    end
  else None.

Definition parseRange (header : string) (totalSize : Z) : option (Z * Z) :=
  match match_range header with
  | None | Some (None, None) => None
  | Some (s, e) =>
      let '(start, stop) :=
        match s, e with
        | None, Some e => (totalSize - e, totalSize - 1)
        | Some s, None => (s, totalSize - 1)
        | Some s, Some e => (s, e)
        | None, None => (0, -1)
        end in
      if (start <? 0) || (totalSize <=? stop) || (stop <? start) then None else Some (start, stop)
  end.

(** [byteLimitTransform(limit)] of utils/streams.ts over the chunks of a stream. *)
Fixpoint byteLimit (remaining : nat) (chunks : list string) : list string :=
  match chunks with
  | [] => []
  | chunk :: rest =>
      if (remaining =? 0)%nat then []
      else if (String.length chunk <=? remaining)%nat then
        let remaining := (remaining - String.length chunk)%nat in
        if (remaining =? 0)%nat then [chunk] else chunk :: byteLimit remaining rest
      else [String.substring 0 remaining chunk]
  end.

Definition drop_bytes (n : nat) (s : string) : string := String.substring n (String.length s - n) s.

(** The fallback of [readRange]: slice the full stream. [skip] bytes are still
    to be skipped, [want] to be sent. *)
Fixpoint stream_slice (skip want : nat) (chunks : list string) : list string :=
  match chunks with
  | [] => []
  | value :: rest =>
      if (0 <? skip)%nat && (String.length value <=? skip)%nat then
        stream_slice (skip - String.length value)%nat want rest
      else
        let slice := if (0 <? skip)%nat then drop_bytes skip value else value in
        let toRead := Nat.min (String.length slice) want in
        let sent := String.substring 0 toRead slice in
        let want := (want - toRead)%nat in
        if (want =? 0)%nat then [sent] else sent :: stream_slice 0 want rest
  end.

(** [native]: whether the adapter implements [readRange] (LocalStorage does). *)
Definition readRange (native : bool) (hash ext : string) (start stop : Z) : D (option (list string)) :=
  let length := Z.to_nat (stop - start + 1) in
  if native then
    dgets (fun n => (fun content => byteLimit length (chop (drop_bytes (Z.to_nat start) content)))
                    <$> nd_files n !! blobPath hash ext)
  else
    (do* full := st_read hash ext in
     dret (stream_slice (Z.to_nat start) length <$> full))%D.

Record BlobBody := {
  bb_type : string;
  bb_length : Z;
  bb_contentRange : option (Z * Z * Z);
  bb_bytes : string
}.

(** A trimmed entity tag without the quotes around it. *)
Definition unquote (t : string) : string :=
  let t := trim t in
  match t with
  | String q rest =>
      if is_quote q then
        match strip_suffix (String (ascii_of_nat 34) "") rest with Some inner => inner | None => t end
      else t
  | _ => t
  end.

Definition none_match (header hash : string) : bool :=
  existsb (fun t => String.eqb (unquote t) hash || String.eqb (unquote t) "*") (split_on "," header).

(** GET and HEAD /:sha256[.ext]; [None] passes the request on. *)
Definition blobRoute (native : bool) (now : Z) (r : NReq) : D (option (nresp BlobBody)) := (
  match find_hash (nq_filename r) with
  | None => dret None
  | Some hash =>
      do* found := getBlob hash in
      match found with
      | None => dret (Some (NErr 404 "Blob not found"))
      | Some blob =>
          let ext := mimeToExt (br_type blob) in
          do* present := st_has hash ext in
          if negb present then dret (Some (NErr 404 "Blob not found in storage")) else
          do* _ := quietly (touchBlob hash now) in
          let reply st range len bytes :=
            dret (Some (NRes st {| bb_type := default "application/octet-stream" (br_type blob);
                                   bb_length := len; bb_contentRange := range; bb_bytes := bytes |})) in
          if match truthy_str (nq_ifNoneMatch r) with Some h => none_match h hash | None => false end then
            reply 304 None 0 ""
          else if nq_head r then reply 200 None (br_size blob) ""
          else
            match truthy_str (nq_range r) with
            | Some h =>
                match parseRange h (br_size blob) with
                | None => dret (Some (NErr 416 ""))
                | Some (start, stop) =>
                    do* stream := readRange native hash ext start stop in
                    match stream with
                    | None => dret (Some (NErr 404 "Blob not found in storage"))
                    | Some chunks =>
                        reply 206 (Some (start, stop, br_size blob)) (stop - start + 1) (String.concat "" chunks)
                    end
                end
            | None =>
                do* stream := st_read hash ext in
                match stream with
                | None => dret (Some (NErr 404 "Blob not found in storage"))
                | Some chunks => reply 200 None (br_size blob) (String.concat "" chunks)
                end
            end
      end
  end)%D.

(** ** routes/list.ts *)

(** A numeric query parameter: absent, not a number, or its value. *)
Definition int_param (q : option string) : option (option Z) :=
  match q with
  | None => Some None
  | Some s => match parseInt10 s with Some z => Some (Some z) | None => None end
  end.

Fixpoint with_thumbnails (cfg : NConfig) (r : NReq) (l : list BlobRecord) : D (list NDescriptor) :=
  match l with
  | [] => dret []
  | b :: l => (
      do* thumbnail := getMediaThumbnail (br_sha256 b) in
      let tag := match thumbnail with
                 | Some t => [["thumb"; getBlobUrl (br_sha256 t) (br_type t) (getBaseUrl cfg r); br_sha256 t]]
                 | None => []
                 end in
      do* rest := with_thumbnails cfg r l in
      dret (descriptor cfg r b tag :: rest))%D
  end.

(** GET /list/:pubkey *)
Definition listRoute (cfg : NConfig) (ctx : auth_ctx) (r : NReq) : D (nresp (list NDescriptor)) := (
  if negb (cf_listEnabled cfg) then dret (NErr 404 "List endpoint is disabled on this server") else
  do* required := dlift (auth_if (cf_listRequireAuth cfg) ctx "list") in
  let auth := if cf_listRequireAuth cfg then required else optionalAuth ctx in
  let pubkey := toLowerCase (nq_filename r) in
  if negb (is_hex64 pubkey) then
    dret (NErr 400 "Invalid pubkey: must be a 64-character lowercase hex string")
  else if negb (cf_allowListOthers cfg) && match auth with None => true | Some _ => false end then
    dret (NErr 401 "Authorization required to list blobs")
  else if negb (cf_allowListOthers cfg) && bool_decide (ev_pubkey <$> auth <> Some pubkey) then
    dret (NErr 403 "You may only list your own blobs")
  else
    match int_param (nq_limit r) with
    | None => dret (NErr 400 "Invalid limit: must be a positive integer")
    | Some limit =>
        if match limit with Some l => l <? 1 | None => false end then
          dret (NErr 400 "Invalid limit: must be a positive integer")
        else
          match int_param (nq_since r) with
          | None => dret (NErr 400 "Invalid since: must be a Unix timestamp")
          | Some since =>
              match int_param (nq_until r) with
              | None => dret (NErr 400 "Invalid until: must be a Unix timestamp")
              | Some until =>
                  if match nq_cursor r with Some c => negb (is_hex64 c) | None => false end then
                    dret (NErr 400 "Invalid cursor: must be a 64-character sha256 hex string")
                  else
                    do* blobs := listBlobsByPubkey pubkey
                      {| lo_limit := limit; lo_cursor := nq_cursor r; lo_since := since; lo_until := until |} in
                    do* descriptors := with_thumbnails cfg r blobs in
                    dret (NRes 200 descriptors)
              end
          end
    end)%D.

End Api.
