(* ===== verification/NodePool.v ===== *)
(** * The worker pool of a storage node (storage-client/blossom/src/workers/pool.ts)

    The pool as the event loop of the main thread sees it: calls of [dispatch]
    and messages of the workers, one after the other. A promise is named by the
    id of its job; [pl_posted] and [pl_settled] record the messages sent to the
    workers and the promises settled. A heartbeat is a whole number of bytes
    per second. *)

From S2P Require Import Prelude Js Nip98 NodeRules NodeDb NodeApi.

Record WorkerState := { ws_jobCount : Z; ws_throughputBps : Z }.

Inductive WorkerMessage :=
| ThroughputMessage (bytesPerSec : Z)
| JobResultMessage (id : string) (result : JobResult).

Record Pool := {
  pl_workers : list WorkerState;
  pl_pending : gset string;
  pl_jobCounter : Z;
  pl_posted : list (nat * string);
  pl_settled : list (string * JobResult)
}.

(** The constructor: [size] idle workers. *)
Definition new_pool (size : nat) : Pool :=
  {| pl_workers := replicate size {| ws_jobCount := 0; ws_throughputBps := 0 |}; pl_pending := ∅;
     pl_jobCounter := 0; pl_posted := []; pl_settled := [] |}.

Definition set_workers (f : list WorkerState -> list WorkerState) (p : Pool) : Pool :=
  {| pl_workers := f (pl_workers p); pl_pending := pl_pending p; pl_jobCounter := pl_jobCounter p;
     pl_posted := pl_posted p; pl_settled := pl_settled p |}.

Definition add_jobs (k : Z) (w : WorkerState) : WorkerState :=
  {| ws_jobCount := ws_jobCount w + k; ws_throughputBps := ws_throughputBps w |}.

Section Pool.
Context (maxJobsPerWorker : Z).

Definition has_room (w : WorkerState) : bool := ws_jobCount w <? maxJobsPerWorker.

Definition available (p : Pool) : nat := length (filter (fun w => has_room w = true) (pl_workers p)).

(** The head of the workers with room, stably sorted by throughput: the first
    of the least busy ones. *)
Fixpoint lightest (i : nat) (ws : list WorkerState) : option (nat * WorkerState) :=
  match ws with
  | [] => None
  | w :: ws =>
      let rest := lightest (S i) ws in
      if has_room w then
        match rest with
        | Some (j, w') => if ws_throughputBps w' <? ws_throughputBps w then rest else Some (i, w)
        | None => Some (i, w)
        end
      else rest
  end.

(** [dispatch]: the id of the job whose promise is returned, or [None]. *)
Definition dispatch (p : Pool) : option string * Pool :=
  match lightest 0 (pl_workers p) with
  | None => (None, p)
  | Some (i, _) =>
      let counter := pl_jobCounter p + 1 in
      let id := Z_to_string counter in
      (Some id,
       {| pl_workers := alter (add_jobs 1) i (pl_workers p);
          pl_pending := {[id]} ∪ pl_pending p;
          pl_jobCounter := counter;
          pl_posted := pl_posted p ++ [(i, id)];
          pl_settled := pl_settled p |})
  end.

(** [worker.onmessage] *)
Definition onmessage (i : nat) (msg : WorkerMessage) (p : Pool) : Pool :=
  match msg with
  | ThroughputMessage bps =>
      set_workers (alter (fun w => {| ws_jobCount := ws_jobCount w; ws_throughputBps := bps |}) i) p
  | JobResultMessage id result =>
      if decide (id ∈ pl_pending p) then
        {| pl_workers := alter (add_jobs (-1)) i (pl_workers p);
           pl_pending := pl_pending p ∖ {[id]};
           pl_jobCounter := pl_jobCounter p;
           pl_posted := pl_posted p;
           pl_settled := pl_settled p ++ [(id, result)] |}
      else p
  end.

(** [worker.onerror] *)
Definition onerror (i : nat) (p : Pool) : Pool :=
  set_workers (alter (fun w => if 0 <? ws_jobCount w then add_jobs (-1) w else w) i) p.

Definition shutdown (p : Pool) : Pool :=
  {| pl_workers := []; pl_pending := ∅; pl_jobCounter := pl_jobCounter p;
     pl_posted := pl_posted p; pl_settled := pl_settled p |}.

(** ** Runs *)

Inductive pool_event := Dispatch | Message (i : nat) (msg : WorkerMessage).

(** A worker reports on jobs it was given; none of them dies. *)
Inductive pool_run (size : nat) : list pool_event -> Pool -> Prop :=
| run_new : pool_run size [] (new_pool size)
| run_dispatch es p : pool_run size es p -> pool_run size (es ++ [Dispatch]) (dispatch p).2
| run_heartbeat es p i bps :
    pool_run size es p -> pool_run size (es ++ [Message i (ThroughputMessage bps)]) (onmessage i (ThroughputMessage bps) p)
| run_result es p i id result :
    pool_run size es p -> (i, id) ∈ pl_posted p ->
    pool_run size (es ++ [Message i (JobResultMessage id result)]) (onmessage i (JobResultMessage id result) p).

(** The jobs of worker [i] that are neither done nor failed. *)
Definition in_flight (i : nat) (p : Pool) : list string :=
  (filter (fun q : nat * string => q.1 = i /\ q.2 ∈ pl_pending p) (pl_posted p)).*2.

Record pool_ok (size : nat) (p : Pool) : Prop := {
  po_size : length (pl_workers p) = size;
  po_count : forall i w, pl_workers p !! i = Some w -> ws_jobCount w = Z.of_nat (length (in_flight i p));
  po_max : forall i w, pl_workers p !! i = Some w -> ws_jobCount w <= Z.max 0 maxJobsPerWorker;
  po_ids : forall id, id ∈ (pl_posted p).*2 -> exists k, 1 <= k <= pl_jobCounter p /\ id = Z_to_string k;
  po_posted : NoDup (pl_posted p).*2;
  po_workers : forall i id, (i, id) ∈ pl_posted p -> (i < size)%nat;
  po_counter : 0 <= pl_jobCounter p;
  po_settled : NoDup (pl_settled p).*1;
  po_split : forall id, id ∈ (pl_posted p).*2 <-> id ∈ pl_pending p \/ id ∈ (pl_settled p).*1;
  po_disjoint : forall id, id ∈ (pl_settled p).*1 -> id ∉ pl_pending p
}.

(** ** The least busy worker *)

Lemma lightest_spec i ws j w :
  lightest i ws = Some (j, w) ->
  exists k, j = (i + k)%nat /\ ws !! k = Some w /\ has_room w = true /\
    forall k' w', ws !! k' = Some w' -> has_room w' = true ->
      ws_throughputBps w <= ws_throughputBps w' /\ ((k' < k)%nat -> ws_throughputBps w < ws_throughputBps w').
Proof.
  revert i j w. induction ws as [|v ws IH]; intros i j w; simpl; [done|].
  destruct (lightest (S i) ws) as [[j' w']|] eqn:E.
  - destruct (IH _ _ _ E) as (k & -> & Hk & Hr & Hmin). destruct (has_room v) eqn:Ev; [case_match eqn:Elt|]; intros [= <- <-].
    + exists (S k). split_and!; [lia|done|done|]. intros [|k'] w0; simpl; [intros [= <-] _; lia|].
      intros Hk' Hr'. destruct (Hmin k' w0 Hk' Hr'). split; [done|]. intros. naive_solver lia.
    + exists O. split_and!; [lia|done|done|]. intros [|k'] w0; simpl; [intros [= <-] _; lia|].
      intros Hk' Hr'. destruct (Hmin k' w0 Hk' Hr'). split; lia.
    + exists (S k). split_and!; [lia|done|done|]. intros [|k'] w0; simpl; [intros [= <-]; congruence|].
      intros Hk' Hr'. destruct (Hmin k' w0 Hk' Hr'). split; [done|]. intros. naive_solver lia.
  - destruct (has_room v) eqn:Ev; intros [= <- <-]. exists O. split_and!; [lia|done|done|].
    intros [|k'] w0; simpl; [intros [= <-] _; lia|]. intros Hk' Hr'. exfalso.
    assert (forall i, lightest i ws <> None) as Hn; [|by apply (Hn (S i))].
    clear -Hk' Hr'. revert k' Hk'. induction ws as [|v ws IH]; intros [|k'] Hk' i; simplify_eq/=.
    + rewrite Hr'. by repeat case_match.
    + specialize (IH k' Hk' (S i)). by repeat case_match.
Qed.

Lemma lightest_none i ws : lightest i ws = None <-> Forall (fun w => has_room w = false) ws.
Proof.
  revert i. induction ws as [|v ws IH]; intros i; simpl; [done|]. rewrite Forall_cons, <- (IH (S i)).
  destruct (has_room v), (lightest (S i) ws) as [[j w]|]; split; try done; try naive_solver.
  by case_match.
Qed.

(** [dispatch] finds a worker exactly when one is available. *)
Lemma dispatch_available p : (dispatch p).1 = None <-> available p = 0%nat.
Proof.
  unfold dispatch, available. rewrite length_zero_iff_nil. destruct (lightest 0 (pl_workers p)) as [[i w]|] eqn:E; simpl.
  - split; [done|]. destruct (lightest_spec _ _ _ _ E) as (k & -> & Hk & Hr & _). intros Hf.
    assert (w ∈ filter (fun w => has_room w = true) (pl_workers p)) as Hin
      by (apply list_elem_of_filter; split; [done|by eapply list_elem_of_lookup_2]).
    rewrite Hf in Hin. by apply elem_of_nil in Hin.
  - split; [|done]. intros _. apply lightest_none in E. apply filter_none. intros w Hw.
    rewrite Forall_forall in E. by rewrite E.
Qed.

(** ** The invariant *)

Lemma filter_same {A} (P Q : A -> Prop) `{!forall x, Decision (P x), !forall x, Decision (Q x)} (l : list A) :
  (forall x, x ∈ l -> P x <-> Q x) -> filter P l = filter Q l.
Proof.
  induction l as [|x l IH]; intros HPQ; [done|]. rewrite !filter_cons, IH by set_solver.
  destruct (HPQ x); [set_solver|]. repeat case_decide; tauto.
Qed.

Lemma new_pool_ok size : pool_ok size (new_pool size).
Proof.
  split; simpl; try done; try apply NoDup_nil_2; try (intros; set_solver).
  - by rewrite length_replicate.
  - intros i w [-> _]%lookup_replicate. done.
  - intros i w [-> _]%lookup_replicate. simpl. lia.
Qed.

Lemma in_flight_app i j id p q :
  pl_posted q = pl_posted p ++ [(j, id)] -> pl_pending q = {[id]} ∪ pl_pending p -> id ∉ (pl_posted p).*2 ->
  in_flight i q = in_flight i p ++ (if decide (j = i) then [id] else []).
Proof.
  intros Hp Hq Hid. unfold in_flight. rewrite Hp, Hq, filter_app, fmap_app. f_equal.
  - f_equal. apply filter_same. intros [k x] Hin. simpl. apply (list_elem_of_fmap_2 snd) in Hin. set_solver.
  - rewrite filter_cons, filter_nil. simpl. repeat case_decide; try done; set_solver.
Qed.

Lemma dispatch_ok size p : pool_ok size p -> pool_ok size (dispatch p).2.
Proof.
  intros [Hs Hc Hm Hids Hnd Hw Hk Hse Hsp Hd]. unfold dispatch. destruct (lightest 0 _) as [[j w]|] eqn:E; [|done].
  destruct (lightest_spec _ _ _ _ E) as (k & -> & Hl & Hr & _). simpl in Hl |- *.
  set (id := Z_to_string (pl_jobCounter p + 1)).
  assert (id ∉ (pl_posted p).*2) as Hfresh.
  { intros (c & Hle & Heq)%Hids. apply (f_equal parseInt10) in Heq. unfold id in Heq.
    rewrite !parseInt10_show in Heq by lia. simplify_eq. lia. }
  set (q := {| pl_workers := _ |}).
  assert (forall i, in_flight i q = in_flight i p ++ (if decide (k = i) then [id] else [])) as Hfl
    by (intros i; by apply in_flight_app).
  split; simpl.
  - by rewrite length_alter.
  - intros i w' Hi. rewrite Hfl, length_app. destruct (decide (k = i)) as [->|Hne]; simpl.
    + rewrite list_lookup_alter_eq, Hl in Hi. simpl in Hi. simplify_eq. simpl. rewrite (Hc _ _ Hl). lia.
    + rewrite list_lookup_alter_ne in Hi by done. rewrite (Hc _ _ Hi). lia.
  - intros i w' Hi. destruct (decide (k = i)) as [->|Hne].
    + rewrite list_lookup_alter_eq, Hl in Hi. simpl in Hi. simplify_eq. simpl. unfold has_room in Hr. lia.
    + rewrite list_lookup_alter_ne in Hi by done. by apply (Hm i).
  - intros x. rewrite fmap_app, elem_of_app. intros [(c & ? & ->)%Hids|Hx]; [exists c; split; [lia|done]|].
    simpl in Hx. apply list_elem_of_singleton in Hx as ->. exists (pl_jobCounter p + 1). split; [lia|done].
  - rewrite fmap_app. apply NoDup_app. split_and!; [done|set_solver|apply NoDup_singleton].
  - intros i x [Hin|Hin]%elem_of_app; [by apply (Hw i x)|]. apply list_elem_of_singleton in Hin as [= -> ->].
    rewrite <- Hs. by apply lookup_lt_Some in Hl.
  - lia.
  - done.
  - intros x. rewrite fmap_app, elem_of_app, Hsp. set_solver.
  - intros x Hx. specialize (Hd x Hx). assert (x <> id); [|set_solver]. intros ->. apply Hfresh, Hsp. by right.
Qed.

Lemma heartbeat_ok size p i bps : pool_ok size p -> pool_ok size (onmessage i (ThroughputMessage bps) p).
Proof.
  intros [Hs Hc Hm Hids Hnd Hw Hk Hse Hsp Hd]. split; simpl; try done.
  - by rewrite length_alter.
  - intros k w. change (in_flight k _) with (in_flight k p). destruct (decide (i = k)) as [->|Hne].
    + rewrite list_lookup_alter_eq. destruct (pl_workers p !! k) as [v|] eqn:E; intros [= <-]. exact (Hc _ _ E).
    + rewrite list_lookup_alter_ne by done. apply Hc.
  - intros k w. destruct (decide (i = k)) as [->|Hne].
    + rewrite list_lookup_alter_eq. destruct (pl_workers p !! k) as [v|] eqn:E; intros [= <-]. exact (Hm _ _ E).
    + rewrite list_lookup_alter_ne by done. apply Hm.
Qed.

(** A job settles on the worker it was given to, and on no other. *)
Lemma in_flight_settle i k id p q :
  pl_posted q = pl_posted p -> pl_pending q = pl_pending p ∖ {[id]} -> NoDup (pl_posted p).*2 ->
  (i, id) ∈ pl_posted p -> id ∈ pl_pending p ->
  length (in_flight k p) = ((if decide (i = k) then 1 else 0) + length (in_flight k q))%nat.
Proof.
  intros Hp Hq Hnd Hin Hid. unfold in_flight. rewrite Hp, Hq, !length_fmap. clear Hp Hq.
  induction (pl_posted p) as [|[j x] l IH]; [by apply elem_of_nil in Hin|]. simpl in Hnd.
  apply NoDup_cons in Hnd as [Hx Hnd]. rewrite !filter_cons. simpl. apply elem_of_cons in Hin as [[= <- <-]|Hin].
  - assert (filter (fun q : nat * string => q.1 = k /\ q.2 ∈ pl_pending p ∖ {[id]}) l =
            filter (fun q : nat * string => q.1 = k /\ q.2 ∈ pl_pending p) l) as ->.
    { apply filter_same. intros [j y] Hy. apply (list_elem_of_fmap_2 snd) in Hy. simpl in *. set_solver. }
    repeat case_decide; simpl; try done; try lia; set_solver.
  - specialize (IH Hnd Hin). assert (x <> id) by (intros ->; by apply (list_elem_of_fmap_2 snd) in Hin).
    destruct (decide (j = k /\ x ∈ pl_pending p)) as [Hd|Hd],
      (decide (j = k /\ x ∈ pl_pending p ∖ {[id]})) as [He|He]; simpl; try lia; set_solver.
Qed.

Lemma result_ok size p i id result :
  pool_ok size p -> (i, id) ∈ pl_posted p -> pool_ok size (onmessage i (JobResultMessage id result) p).
Proof.
  intros Hok Hin. pose proof Hok as [Hs Hc Hm Hids Hnd Hw Hk Hse Hsp Hd]. simpl. case_decide as Hid; [|done].
  set (q := {| pl_workers := _ |}).
  assert (forall k, length (in_flight k p) = ((if decide (i = k) then 1 else 0) + length (in_flight k q))%nat) as Hfl
    by (intros k; by eapply (in_flight_settle i k id)).
  split; simpl; try done.
  - by rewrite length_alter.
  - intros k w. destruct (decide (i = k)) as [->|Hne].
    + rewrite list_lookup_alter_eq. destruct (pl_workers p !! k) as [v|] eqn:E; intros [= <-]. simpl.
      rewrite (Hc _ _ E), (Hfl k), decide_True by done. lia.
    + rewrite list_lookup_alter_ne by done. intros E. by rewrite (Hc _ _ E), (Hfl k), decide_False.
  - intros k w. destruct (decide (i = k)) as [->|Hne].
    + rewrite list_lookup_alter_eq. destruct (pl_workers p !! k) as [v|] eqn:E; intros [= <-]. simpl. specialize (Hm _ _ E). lia.
    + rewrite list_lookup_alter_ne by done. apply Hm.
  - rewrite fmap_app. apply NoDup_app. split_and!; [done| |apply NoDup_singleton]. intros x Hx. simpl. specialize (Hd x Hx). set_solver.
  - intros x. rewrite Hsp, fmap_app, elem_of_app. simpl. rewrite list_elem_of_singleton.
    destruct (decide (x = id)); set_solver.
  - intros x. rewrite fmap_app, elem_of_app. simpl. rewrite list_elem_of_singleton. intros [Hx| ->]; [|set_solver].
    specialize (Hd x Hx). set_solver.
Qed.

Lemma pool_run_ok size es p : pool_run size es p -> pool_ok size p.
Proof. induction 1; eauto using new_pool_ok, dispatch_ok, heartbeat_ok, result_ok. Qed.

(** What was settled is what the worker reported, and a job is settled as soon
    as there is a report. *)
Definition reported (es : list pool_event) (i : nat) (id : string) (result : JobResult) : Prop :=
  Message i (JobResultMessage id result) ∈ es.

Lemma settled_reported size es p :
  pool_run size es p ->
  (forall id result, (id, result) ∈ pl_settled p -> exists i, (i, id) ∈ pl_posted p /\ reported es i id result) /\
  (forall i id result, reported es i id result -> id ∈ (pl_settled p).*1).
Proof.
  unfold reported. induction 1 as [|es p Hr [IH1 IH2]|es p i bps Hr [IH1 IH2]|es p i id result Hr [IH1 IH2] Hin].
  - split; intros; set_solver.
  - unfold dispatch. case_match; [destruct_and?; case_match|]; simpl; split.
    + intros id result (j & ? & ?)%IH1. exists j. set_solver.
    + intros j id result. rewrite elem_of_app, list_elem_of_singleton. intros [?|?]; [by eapply IH2|done].
    + intros id result (j & ? & ?)%IH1. exists j. set_solver.
    + intros j id result. rewrite elem_of_app, list_elem_of_singleton. intros [?|?]; [by eapply IH2|done].
  - simpl. split.
    + intros id result (j & ? & ?)%IH1. exists j. set_solver.
    + intros j id result. rewrite elem_of_app, list_elem_of_singleton. intros [?|?]; [by eapply IH2|done].
  - pose proof (pool_run_ok _ _ _ Hr) as Hok. simpl. case_decide as Hp; simpl; split.
    + intros x r. rewrite elem_of_app, list_elem_of_singleton. intros [(j & ? & ?)%IH1|[= -> ->]]; [exists j; set_solver|].
      exists i. set_solver.
    + intros j x r. rewrite fmap_app, !elem_of_app, list_elem_of_singleton. intros [?|[= -> -> ->]]; [left; by eapply IH2|right; set_solver].
    + intros x r (j & ? & ?)%IH1. exists j. set_solver.
    + intros j x r. rewrite elem_of_app, list_elem_of_singleton. intros [?|[= -> -> ->]]; [by eapply IH2|].
      assert (id ∈ (pl_posted p).*2) as [?|?]%(po_split _ _ Hok) by (by apply (list_elem_of_fmap_2 snd) in Hin); done.
Qed.

(** C12: The pool keeps its books. After any calls and messages, while no worker
    dies: a worker's job count is the number of its unfinished jobs and never
    more than the limit; a job is refused exactly when every worker is at the
    limit; every promise is settled at most once, with what the worker that got
    the job reported; and a job is unfinished exactly until there is a report. *)
Theorem pool_capacity size es p :
  0 < maxJobsPerWorker -> pool_run size es p ->
  (forall i w, pl_workers p !! i = Some w ->
     ws_jobCount w = Z.of_nat (length (in_flight i p)) /\ ws_jobCount w <= maxJobsPerWorker) /\
  ((dispatch p).1 = None <-> forall i, (i < size)%nat -> Z.of_nat (length (in_flight i p)) = maxJobsPerWorker) /\
  NoDup (pl_settled p).*1 /\
  (forall id result, (id, result) ∈ pl_settled p -> exists i, (i, id) ∈ pl_posted p /\ reported es i id result) /\
  (forall id, id ∈ pl_pending p <-> id ∈ (pl_posted p).*2 /\ ~ exists i result, reported es i id result).
Proof.
  intros Hmax Hrun. pose proof (pool_run_ok _ _ _ Hrun) as Hok. destruct (settled_reported _ _ _ Hrun) as [Hs1 Hs2].
  split_and!; [|..|apply Hok|done|].
  - intros i w Hi. split; [by apply Hok|]. pose proof (po_max _ _ Hok i w Hi). lia.
  - unfold dispatch. destruct (lightest 0 (pl_workers p)) as [[i w]|] eqn:E; simpl.
    + split; [done|]. intros Hall. destruct (lightest_spec _ _ _ _ E) as (k & -> & Hk & Hr & _).
      assert (k < size)%nat as Hlt by (rewrite <- (po_size _ _ Hok); by apply lookup_lt_Some in Hk).
      specialize (Hall k Hlt). rewrite <- (po_count _ _ Hok k w Hk) in Hall. unfold has_room in Hr. lia.
    + split; [|done]. intros _ i Hi. rewrite <- (po_size _ _ Hok) in Hi. destruct (lookup_lt_is_Some_2 _ _ Hi) as [w Hw].
      apply lightest_none, Forall_forall with (x := w) in E; [|by eapply list_elem_of_lookup_2].
      rewrite <- (po_count _ _ Hok i w Hw). pose proof (po_max _ _ Hok i w Hw). unfold has_room in E. lia.
  - intros id. split.
    + intros Hp. split; [apply (po_split _ _ Hok); by left|]. intros (i & r & Hr).
      by apply (po_disjoint _ _ Hok id (Hs2 _ _ _ Hr)).
    + intros [[?|Hse]%(po_split _ _ Hok) Hno]; [done|]. destruct Hno.
      apply list_elem_of_fmap in Hse as ([x r] & -> & Hin). destruct (Hs1 x r Hin) as (i & _ & Hr). eauto.
Qed.
End Pool.

(** ** Two workers with one job each *)

Module PoolExamples.
Definition es2 : list pool_event := [Dispatch; Dispatch; Dispatch; Message 0 (JobResultMessage "1" (JobSuccess "h" 3))].
Definition p2 : Pool :=
  {| pl_workers := [{| ws_jobCount := 0; ws_throughputBps := 0 |}; {| ws_jobCount := 1; ws_throughputBps := 0 |}];
     pl_pending := {["2"]}; pl_jobCounter := 2; pl_posted := [(0%nat, "1"); (1%nat, "2")];
     pl_settled := [("1", JobSuccess "h" 3)] |}.

Lemma p2_run : pool_run 1 2 es2 p2.
Proof.
  change es2 with ((([] ++ [Dispatch]) ++ [Dispatch] ++ [Dispatch]) ++ [Message 0 (JobResultMessage "1" (JobSuccess "h" 3))]).
  rewrite (app_assoc _ [Dispatch] [Dispatch]).
  set (p := (dispatch 1 (dispatch 1 (dispatch 1 (new_pool 2)).2).2).2).
  replace p2 with (onmessage 0 (JobResultMessage "1" (JobSuccess "h" 3)) p) by (vm_compute; reflexivity).
  apply run_result; [repeat constructor|]. refine (bool_decide_unpack _ _). vm_compute. exact I.
Qed.

Lemma pool_capacity_witness :
  pool_run 1 2 es2 p2 /\ ~ ((dispatch 1 p2).1 = None) /\ NoDup (pl_settled p2).*1.
Proof.
  split; [apply p2_run|].
  assert (0 < 1) as H1 by lia.
  destruct (pool_capacity 1 2 es2 p2 H1 p2_run) as (_ & Hd & Hn & _). split; [|exact Hn].
  rewrite Hd. intros Hall. specialize (Hall 0%nat ltac:(lia)). vm_compute in Hall. discriminate.
Defined.
End PoolExamples.
