(* ===== verification/NodeMirror.v ===== *)
(** * Mirroring a blob from another server (storage-client/blossom/src/routes/mirror.ts)

    PUT /mirror: the guard against requests to private addresses, the checks of
    the origin's answer, and the path of the bytes into the store. What the
    origin answers, or why it does not (a refused connection, the connect
    timeout), is part of the request; a transfer that the body timeout or the
    origin breaks off is a body that ends early. *)

From Stdlib Require Import Ascii.
From S2P Require Import Prelude Js Nip98 NodeRules NodeDb NodeApi.

(** ** Private addresses *)

Definition bad_octet (p : num) : bool :=
  match p with NaN => true | _ => num_lt p 0 || num_gt p 255 end.

Definition isPrivateIPv4 (ip : string) : bool :=
  match Number_string <$> split_on "." ip with
  | [a; b; c; d] =>
      if existsb bad_octet [a; b; c; d] then false else
      num_eqZ a 127 || num_eqZ a 10 ||
      (num_eqZ a 172 && num_ge b 16 && num_le b 31) ||
      (num_eqZ a 192 && num_eqZ b 168) ||
      (num_eqZ a 169 && num_eqZ b 254) ||
      num_eqZ a 0
  | _ => false
  end.

(** [ip.replace(/^\[|\]$/g, "")] *)
Definition strip_brackets (ip : string) : string :=
  let ip := match ip with String c s => if code c =? 91 then s else ip | EmptyString => ip end in
  let n := String.length ip in
  match String.get (n - 1) ip with
  | Some c => if code c =? 93 then String.substring 0 (n - 1) ip else ip
  | None => ip
  end.

Definition isPrivateIPv6 (ip : string) : bool :=
  let bare := strip_brackets ip in
  String.eqb bare "::1" || String.eqb bare "::" || String.eqb (toLowerCase bare) "0:0:0:0:0:0:0:1".

Definition checkSsrf (hostname : string) : option string :=
  if isPrivateIPv4 hostname then Some ("Mirror URL points to a private IPv4 address: " +:+ hostname)
  else if isPrivateIPv6 hostname then Some ("Mirror URL points to a loopback IPv6 address: " +:+ hostname)
  else None.

(** ** The route *)

(** The answer of the origin. *)
Record Origin := {
  or_status : Z;
  or_statusText : string;
  or_contentLength : option string;
  or_contentType : option string;
  or_body : option (list string * bool)
}.

Inductive fetched := FetchFailed (reason : string) | Fetched (o : Origin).

(** [mq_json] is [None] when the body is not JSON. *)
Record MirrorReq := { mq_req : NReq; mq_json : option jsval; mq_fetch : fetched }.

Definition no_url_field : string :=
  "Request body must be a JSON object with a " +:+ String "034"%char ("url" +:+ String "034"%char " string field").

Section Mirror.
Context `{Nostr} `{NodeLib}.

(** Step 3: the URL of the body, as protocol and hostname. *)
Definition mirror_url (json : option jsval) : nresp NDescriptor + (string * string) :=
  let invalid := inl (NErr 400 "Invalid request body: expected JSON { url: string }") in
  match json with
  | None => invalid
  | Some v =>
      if nullish v then invalid else
      match jget v "url" with
      | JStr s =>
          if String.eqb s "" then inl (NErr 400 no_url_field)
          else match newURL s with Some u => inr u | None => invalid end
      | _ => inl (NErr 400 no_url_field)
      end
  end.

(** Steps 1 to 6: the event, if any, of a request that may go out. *)
Definition mirror_admit (cfg : NConfig) (ctx : auth_ctx) (q : MirrorReq) : exc nerr (nresp NDescriptor + option Event) :=
  if negb (cf_mirrorEnabled cfg) then Ok (inl (NErr 403 "Mirroring is disabled on this server")) else
  match (if cf_mirrorRequireAuth cfg then auth_if true ctx "upload" else Ok (optionalAuth ctx)) with
  | Throw e => Throw e
  | Ok auth =>
      match mirror_url (mq_json q) with
      | inl e => Ok (inl e)
      | inr (protocol, hostname) =>
          if negb (String.eqb protocol "http:") && negb (String.eqb protocol "https:") then
            Ok (inl (NErr 400 ("Unsupported URL scheme: " +:+ protocol +:+ ". Only http and https are allowed")))
          else
            match checkSsrf hostname with
            | Some e => Ok (inl (NErr 400 e))
            | None =>
                if negb (nq_poolAvailable (mq_req q)) then
                  Ok (inl (NErr 503 "Server busy. All upload workers are occupied. Try again shortly."))
                else Ok (inr auth)
            end
      end
  end.

(** Steps 8 to 10: the MIME type of an acceptable answer. *)
Definition check_origin (cfg : NConfig) (auth : option Event) (o : Origin) : nresp NDescriptor + string :=
  if negb ((200 <=? or_status o) && (or_status o <=? 299)) then
    inl (NErr 502 ("Origin server returned " +:+ Z_to_string (or_status o) +:+ " " +:+ or_statusText o))
  else if match truthy_str (or_contentLength o) with
          | Some h => match parseInt10 h with Some size => cf_maxSize cfg <? size | None => false end
          | None => false
          end then inl (NErr 413 "Remote blob too large.")
  else
    let rawContentType := default "application/octet-stream" (or_contentType o) in
    let mimeType := default "application/octet-stream"
                      (truthy_str (Some (trim (default "" (head (split_on ";" rawContentType)))))) in
    match getFileRule (Some mimeType) (ev_pubkey <$> auth) (cf_rules cfg) (cf_requirePubkeyInRule cfg) with
    | None => inl (no_rule cfg mimeType)
    | Some _ => inr mimeType
    end.

(** Step 13: unlike [requireXTag], a token without x tags is refused. *)
Definition mirror_scope (auth : option Event) (hash : string) : option (nresp NDescriptor) :=
  match auth with
  | None => None
  | Some e =>
      let xTags := filter (fun t => has_name "x" t = true) (ev_tags e) in
      if bool_decide (xTags = []) then Some (NErr 403 "Auth event is missing required x tag for PUT /mirror")
      else if negb (existsb (fun t => bool_decide (t !! 1%nat = Some hash)) xTags) then
        Some (NErr 403 ("Auth token does not authorize mirroring blob " +:+ hash))
      else None
  end.

(** Steps 13 to 17: the bytes are in the temporary file and hashed. *)
Definition mirror_finish (now : Z) (cfg : NConfig) (r : NReq) (auth : option Event) (mimeType tmpPath hash : string) (size : Z)
  : D (nresp NDescriptor) := (
  match mirror_scope auth hash with
  | Some e => do* _ := abortWrite tmpPath in dret e
  | None =>
      do* known := hasBlob hash in
      do* existing := (if known : bool then do* _ := abortWrite tmpPath in getBlob hash else dret None) in
      match existing with
      | Some b =>
          do* _ := add_owner auth hash b in
          dret (NRes 200 (descriptor cfg r b []))
      | None =>
          do* record := store_blob now auth mimeType tmpPath hash size in
          dret (NRes 200 (descriptor cfg r record []))
      end
  end)%D.

(** Steps 11 and 12: a worker receives the origin's body. *)
Definition mirror_work (now : Z) (cfg : NConfig) (r : NReq) (auth : option Event) (mimeType : string)
    (body : option (list string * bool)) : D (nresp NDescriptor) := (
  match body with
  | None => dret (NErr 502 "Origin server returned an empty body")
  | Some body =>
      do* tmpPath := beginWrite (nq_ulid r) in
      if negb (nq_dispatched r) then
        do* _ := abortWrite tmpPath in
        dret (NErr 503 "Server busy. All upload workers are occupied. Try again shortly.")
      else
        do* result := runJob body tmpPath None in
        match result with
        | JobError error _ =>
            do* _ := abortWrite tmpPath in
            dret (NErr 502 (if String.eqb error "" then "WorkerJobError" else error))
        | JobSuccess hash size => mirror_finish now cfg r auth mimeType tmpPath hash size
        end
  end)%D.

(** PUT /mirror *)
Definition mirrorRoute (now : Z) (cfg : NConfig) (ctx : auth_ctx) (q : MirrorReq) : D (nresp NDescriptor) := (
  do* admitted := dlift (mirror_admit cfg ctx q) in
  match admitted with
  | inl resp => dret resp
  | inr auth =>
      match mq_fetch q with
      | FetchFailed reason => dret (NErr 502 reason)
      | Fetched o =>
          match check_origin cfg auth o with
          | inl resp => dret resp
          | inr mimeType => mirror_work now cfg (mq_req q) auth mimeType (or_body o)
          end
      end
  end)%D.
End Mirror.
