(* ===== verification/NodePrune.v ===== *)
(** * Pruning a storage node (storage-client/blossom/src/prune/prune.ts)

    One prune cycle: expiry by the storage rules, then blobs without owners. *)

From S2P Require Import Prelude Js Nip98 NodeRules NodeDb NodeApi.

Record PruneResult := { pn_deleted : Z; pn_errors : Z }.

(** The counters and the set of hashes already looked at. *)
Record PruneState := { ps_result : PruneResult; ps_checked : gset string }.

Definition count_deleted (k : Z) (s : PruneState) : PruneState :=
  {| ps_result := {| pn_deleted := pn_deleted (ps_result s) + k; pn_errors := pn_errors (ps_result s) |};
     ps_checked := ps_checked s |}.
Definition count_error (s : PruneState) : PruneState :=
  {| ps_result := {| pn_deleted := pn_deleted (ps_result s); pn_errors := pn_errors (ps_result s) + 1 |};
     ps_checked := ps_checked s |}.
Definition check (sha : string) (s : PruneState) : PruneState :=
  {| ps_result := ps_result s; ps_checked := {[sha]} ∪ ps_checked s |}.

Section Prune.
Context `{Nostr} `{NodeLib}.

(** The loop over the thumbnails; the result is how many were removed before
    an error, if any. *)
Fixpoint remove_thumbnails (l : list BlobRecord) (removed : Z) : D (Z * bool) :=
  match l with
  | [] => dret (removed, true)
  | t :: l => (
      do* ok := dcatch (do* _ := deleteBlob (br_sha256 t) in
                        do* _ := st_remove (br_sha256 t) (mimeToExt (br_type t)) in dret true)%D
                       (fun _ => dret false) in
      if ok : bool then remove_thumbnails l (removed + 1) else dret (removed, false))%D
  end.

(** Delete one blob: its row, its file, then its thumbnails; an error ends the
    deletion and is counted. *)
Definition prune_blob (sha : string) (type : option string) (s : PruneState) : D PruneState := (
  do* started := dcatch (do* thumbnails := getMediaThumbnailsForParent sha in
                         do* _ := deleteBlob sha in
                         do* _ := st_remove sha (mimeToExt type) in dret (Some thumbnails))%D
                        (fun _ => dret None) in
  match started with
  | None => dret (count_error s)
  | Some thumbnails =>
      do* done := remove_thumbnails thumbnails 0 in
      dret (if snd done : bool then count_deleted (fst done + 1) s
            else count_error (count_deleted (fst done) s))
  end)%D.

(** [lastSeen < cutoffSeconds]; a comparison with NaN is false. *)
Definition expired (cutoff : num) (row : BlobPruneRecord) : bool :=
  num_gt cutoff (default (br_uploaded (pr_blob row)) (pr_accessed row)).

Fixpoint expire_rows (cutoff : num) (rows : list BlobPruneRecord) (s : PruneState) : D PruneState :=
  match rows with
  | [] => dret s
  | row :: rows =>
      let sha := br_sha256 (pr_blob row) in
      if decide (sha ∈ ps_checked s) then expire_rows cutoff rows s
      else
        (do* s := (if expired cutoff row then prune_blob sha (br_type (pr_blob row)) (check sha s)
                   else dret (check sha s)) in
         expire_rows cutoff rows s)%D
  end.

(** [now - parseDuration(...)] *)
Definition cutoff_of (now : Z) (duration : num) : num :=
  match duration with
  | Fin q => Fin (QArith_base.Qplus (QArith_base.inject_Z now) (QArith_base.Qopp q))
  | NaN => NaN
  | PInf => NInf
  | NInf => PInf
  end.

(** One rule: an invalid duration or a failing query skips it. *)
Definition prune_rule (now : Z) (rule : StorageRule) (s : PruneState) : D PruneState :=
  match parseDuration (ru_expiration rule) with
  | Throw _ => dret s
  | Ok duration => (
      do* rows := dcatch (do* rows := getBlobsForPrune (mimeToSqlLike (ru_type rule)) (ru_pubkeys rule) in
                          dret (Some rows))%D (fun _ => dret None) in
      match rows with
      | None => dret s
      | Some rows => expire_rows (cutoff_of now duration) rows s
      end)%D
  end.

Fixpoint prune_rules (now : Z) (rules : list StorageRule) (s : PruneState) : D PruneState :=
  match rules with
  | [] => dret s
  | rule :: rules => (do* s := prune_rule now rule s in prune_rules now rules s)%D
  end.

Fixpoint prune_ownerless (rows : list (string * option string)) (s : PruneState) : D PruneState :=
  match rows with
  | [] => dret s
  | (sha, type) :: rows =>
      if decide (sha ∈ ps_checked s) then prune_ownerless rows s
      else (do* s := prune_blob sha type (check sha s) in prune_ownerless rows s)%D
  end.

Definition pruneStorage (now : Z) (rules : list StorageRule) (removeWhenNoOwners : bool) : D PruneResult := (
  do* s := prune_rules now rules {| ps_result := {| pn_deleted := 0; pn_errors := 0 |}; ps_checked := ∅ |} in
  if removeWhenNoOwners then
    do* rows := dcatch getOwnerlessBlobSha256s (fun _ => dret []) in
    do* s := prune_ownerless rows s in
    dret (ps_result s)
  else dret (ps_result s))%D.

End Prune.
