(* ===== verification/NodeFacts.v ===== *)
(** * A storage node keeps rows and files together

    The consistency of a node's tables and files under every handler and every
    prune cycle, with database statements failing at any point. *)

From Stdlib Require Import Ascii.
From S2P Require Import Prelude Js Nip98 NodeRules NodeDb NodeApi NodePrune.

(** The documented shape of a SHA-256 digest in hex, and of reading a file in
    pieces. *)
Class NodeLaws `{Nostr} `{NodeLib} := {
  sha256_hex : forall s, is_hex64 (sha256 s) = true;
  chop_concat : forall s, String.concat "" (chop s) = s
}.

(** ** Paths *)

Lemma is_hex64_length h : is_hex64 h = true -> String.length h = 64%nat.
Proof. unfold is_hex64. rewrite andb_true_iff, Nat.eqb_eq. tauto. Qed.

(** Different hashes have different files, whatever the extensions. *)
Lemma blobPath_inj h h' e e' :
  is_hex64 h = true -> is_hex64 h' = true -> blobPath h e = blobPath h' e' -> h = h' /\ e = e'.
Proof.
  intros Hh%is_hex64_length Hh'%is_hex64_length. unfold blobPath.
  assert (forall x, x <> "" -> h' <> h +:+ "." +:+ x /\ h <> h' +:+ "." +:+ x) as Hne.
  { intros x Hx. split; intros Heq%(f_equal String.length); rewrite sapp_length in Heq; simpl in Heq; lia. }
  destruct (String.eqb_spec e "") as [->|He], (String.eqb_spec e' "") as [->|He']; intros Heq.
  - done.
  - by destruct (Hne e' He') as [_ []].
  - by destruct (Hne e He) as [[] _].
  - apply sapp_inj in Heq as [-> Heq]; [|by rewrite Hh]. split; [done|].
    by apply (sapp_inj "." ".") in Heq as [_ ->].
Qed.

Lemma find_hash_hex s h : find_hash s = Some h -> is_hex64 h = true.
Proof.
  induction s as [|c s IH]; intros Hf; [done|]. cbn [find_hash] in Hf.
  destruct (is_hex64 (String.substring 0 64 (String c s))) eqn:E; [by simplify_eq|by apply IH].
Qed.

Lemma Forall_tails {A} (P : A -> Prop) k (l : list A) : Forall P l -> Forall P (Nat.iter k (@tail A) l).
Proof. intros Hl. induction k as [|k IH]; [done|]. simpl. by destruct IH. Qed.

(** ** Computations that keep an invariant *)

Section Keeps.
Context (I : Node -> Prop).

Definition dkeeps {A} (m : D A) : Prop := forall n, I n -> I (m n).2.

Lemma dkeeps_ret {A} (a : A) : dkeeps (dret a).
Proof. by intros n. Qed.
Lemma dkeeps_throw {A} e : dkeeps (@dthrow A e).
Proof. by intros n. Qed.
Lemma dkeeps_gets {A} (f : Node -> A) : dkeeps (dgets f).
Proof. by intros n. Qed.
Lemma dkeeps_bind {A B} (m : D A) (k : A -> D B) : dkeeps m -> (forall a, dkeeps (k a)) -> dkeeps (dbind m k).
Proof.
  intros Hm Hk n Hn. unfold dbind. specialize (Hm n Hn). destruct (m n) as [[a|e] n']; [by apply Hk | done].
Qed.
Lemma dkeeps_catch {A} (m : D A) h : dkeeps m -> (forall e, dkeeps (h e)) -> dkeeps (dcatch m h).
Proof.
  intros Hm Hk n Hn. unfold dcatch. specialize (Hm n Hn). destruct (m n) as [[a|e] n']; [done | by apply Hk].
Qed.
Lemma dkeeps_lift {A} (m : exc nerr A) : dkeeps (dlift m).
Proof. destruct m; [apply dkeeps_ret | apply dkeeps_throw]. Qed.
Lemma dkeeps_quietly {A} (m : D A) : dkeeps m -> dkeeps (quietly m).
Proof. intros Hm. apply dkeeps_catch; [|intros; apply dkeeps_ret]. apply dkeeps_bind; [done|intros; apply dkeeps_ret]. Qed.
Lemma dkeeps_onError {A} (m : D (nresp A)) : dkeeps m -> dkeeps (onError m).
Proof. intros Hm. apply dkeeps_catch; [done|]. intros; apply dkeeps_ret. Qed.

(** The faults to come and the temporary files do not matter to [I]. *)
Hypothesis I_faults : forall l n, I n -> I (set_nd_faults l n).

Lemma dkeeps_execute {A} (f : NodeDb -> option (A * NodeDb)) :
  (forall n a d, I n -> f (nd_db n) = Some (a, d) -> I (set_nd_db d n)) -> dkeeps (execute f).
Proof.
  intros Hf n Hn. unfold execute. apply (I_faults (tail (nd_faults n))) in Hn.
  destruct (match nd_faults n with b :: _ => b | [] => false end); [done|].
  simpl. destruct (f (nd_db n)) as [[a d]|] eqn:Hfn; [|done]. by eapply Hf in Hn; [|exact Hfn].
Qed.
Lemma dkeeps_query {A} (f : NodeDb -> A) : dkeeps (query f).
Proof. apply dkeeps_execute. intros n a d Hn [= _ <-]. by destruct n. Qed.
End Keeps.

Create HintDb dkeeps discriminated.
#[export] Hint Resolve dkeeps_ret dkeeps_throw dkeeps_gets dkeeps_bind dkeeps_catch dkeeps_lift dkeeps_quietly : dkeeps.
#[export] Hint Extern 1 (forall _, dkeeps _ _) => intros : dkeeps.

(** ** Consistency *)

Section Consistent.
Context `{NodeLaws}.
(** The byte strings in play, among which no two share a digest. *)
Context (genuine : string -> Prop).

Record consistent (d : NodeDb) (files : gmap string string) : Prop := {
  co_files : forall path data, files !! path = Some data ->
    genuine data /\ exists ext, path = blobPath (sha256 data) ext;
  co_rows : forall h r, t_blobs d !! h = Some r -> is_hex64 h = true /\
    exists data, files !! blobPath h (mimeToExt (r_type r)) = Some data /\
      sha256 data = h /\ r_size r = Z.of_nat (String.length data);
  co_owners : forall h p, (h, p) ∈ t_owners d -> is_Some (t_blobs d !! h);
  co_accessed : forall h t, t_accessed d !! h = Some t -> is_Some (t_blobs d !! h);
  co_derivatives : forall o h, t_derivatives d !! o = Some h -> is_Some (t_blobs d !! h);
  co_thumbnails : forall p h, t_thumbnails d !! p = Some h -> is_Some (t_blobs d !! p) /\ is_Some (t_blobs d !! h)
}.

Definition node_ok (n : Node) : Prop := consistent (nd_db n) (nd_files n).

Lemma node_ok_faults l n : node_ok n -> node_ok (set_nd_faults l n).
Proof. done. Qed.
Lemma node_ok_tmp f n : node_ok n -> node_ok (set_nd_tmp f n).
Proof. done. Qed.

Lemma file_hash h ext data d files :
  consistent d files -> is_hex64 h = true -> files !! blobPath h ext = Some data -> genuine data /\ sha256 data = h.
Proof.
  intros Hc Hh Hf. destruct (co_files _ _ Hc _ _ Hf) as [Hg [ext' Hp]]. split; [done|].
  symmetry. by apply blobPath_inj in Hp as [? _]; [|done|apply sha256_hex].
Qed.

(** Deleting a row with its cascades keeps everything that is left in place. *)
Lemma cascade_consistent h d files : consistent d files -> consistent (cascade h d) files.
Proof.
  intros [Hf Hr Ho Ha Hd Ht]. unfold cascade. split; simpl.
  - done.
  - intros h' r [_ Hl]%lookup_delete_Some. by apply Hr.
  - intros h' p Hin. apply elem_of_filter in Hin as [Hne Hin]. simpl in Hne.
    rewrite lookup_delete_ne by done. by eapply Ho.
  - intros h' t [Hne Hl]%lookup_delete_Some. rewrite lookup_delete_ne by done. by eapply Ha.
  - intros o h' [Hl Hne]%map_lookup_filter_Some. simpl in Hne. rewrite lookup_delete_ne by done. by eapply Hd.
  - intros p h' [Hl [Hp Hh]]%map_lookup_filter_Some. simpl in *.
    rewrite !lookup_delete_ne by done. by eapply Ht.
Qed.

(** A file may go when no row needs it. *)
Lemma drop_file_consistent h ext d files :
  is_hex64 h = true -> t_blobs d !! h = None -> consistent d files ->
  consistent d (delete (blobPath h ext) files).
Proof.
  intros Hh Hnone [Hf Hr Ho Ha Hd Ht]. split; try done.
  - intros path data [_ Hl]%lookup_delete_Some. by apply Hf.
  - intros h' r Hl. destruct (Hr h' r Hl) as (Hh' & data & Hfile & ? & ?). split; [done|].
    exists data. split_and!; [|done|done]. rewrite lookup_delete_ne; [done|].
    intros Heq. apply blobPath_inj in Heq as [-> _]; [|done..]. by rewrite Hnone in Hl.
Qed.

Lemma add_file_consistent data ext d files :
  genuine data -> files !! blobPath (sha256 data) ext = None -> consistent d files ->
  consistent d (<[blobPath (sha256 data) ext := data]> files).
Proof.
  intros Hg Hnone [Hf Hr Ho Ha Hd Ht]. split; try done.
  - intros path data' [[<- <-]|[_ Hl]]%lookup_insert_Some; [|by apply Hf]. eauto.
  - intros h r Hl. destruct (Hr h r Hl) as (Hh & data' & Hfile & ? & ?). split; [done|].
    exists data'. split_and!; [|done|done]. rewrite lookup_insert_ne; [done|].
    intros Heq. by rewrite Heq, Hfile in Hnone.
Qed.

(** A row may be added when its file is there. *)
Definition backed (b : BlobRecord) (d : NodeDb) (files : gmap string string) : Prop :=
  is_Some (t_blobs d !! br_sha256 b) \/
  (is_hex64 (br_sha256 b) = true /\
   exists data, files !! blobPath (br_sha256 b) (mimeToExt (br_type b)) = Some data /\
     sha256 data = br_sha256 b /\ br_size b = Z.of_nat (String.length data)).

Lemma insert_row_keeps b d h row :
  t_blobs d !! h = Some row -> t_blobs (insert_row b d) !! h = Some row.
Proof.
  intros Hl. unfold insert_row. case_match eqn:E; [done|]. simpl. rewrite lookup_insert_ne; [done|].
  intros Heq. by rewrite Heq, Hl in E.
Qed.

Lemma insert_row_mono b d h : is_Some (t_blobs d !! h) -> is_Some (t_blobs (insert_row b d) !! h).
Proof. intros [row Hr]. exists row. by apply insert_row_keeps. Qed.

Lemma insert_row_present b d : is_Some (t_blobs (insert_row b d) !! br_sha256 b).
Proof. unfold insert_row. case_match eqn:E; [by rewrite E|]. simpl. by rewrite lookup_insert_eq. Qed.

Lemma insert_row_fields b d :
  t_owners (insert_row b d) = t_owners d /\ t_accessed (insert_row b d) = t_accessed d /\
  t_derivatives (insert_row b d) = t_derivatives d /\ t_thumbnails (insert_row b d) = t_thumbnails d.
Proof. unfold insert_row. by case_match. Qed.

Lemma insert_row_consistent b d files :
  backed b d files -> consistent d files -> consistent (insert_row b d) files.
Proof.
  intros Hb [Hf Hr Ho Ha Hd Ht]. pose proof (insert_row_mono b d) as Hm.
  destruct (insert_row_fields b d) as (E1 & E2 & E3 & E4). split; rewrite ?E1, ?E2, ?E3, ?E4; eauto.
  - intros h r Hl. unfold insert_row in Hl. destruct (t_blobs d !! br_sha256 b) eqn:E; [by apply Hr|].
    simpl in Hl. apply lookup_insert_Some in Hl as [[<- <-]|[_ Hl]]; [|by apply Hr].
    destruct Hb as [[x Hx]|(Hh & data & Hfile & Hsha & Hsz)]; [by rewrite Hx in E|].
    split; [done|]. by exists data.
  - intros p h Hl. destruct (Ht p h Hl). eauto.
Qed.

Lemma insertBlob_consistent b pk d files :
  backed b d files -> consistent d files ->
  consistent (set_t_accessed (<[br_sha256 b := br_uploaded b]>)
    (set_t_owners (fun o => {[(br_sha256 b, pk)]} ∪ o) (insert_row b d))) files.
Proof.
  intros Hb Hc. pose proof (insert_row_present b d) as Hp.
  destruct (insert_row_consistent b d files Hb Hc) as [Hf Hr Ho Ha Hd Ht]. split; simpl; try done.
  - intros h p [[= -> ->]%elem_of_singleton|Hin]%elem_of_union; [done|by eapply Ho].
  - intros h t [[<- _]|[_ Hl]]%lookup_insert_Some; [done|by eapply Ha].
Qed.

(** ** The invariant under the statements *)

Hypothesis no_collision : forall a b, genuine a -> genuine b -> sha256 a = sha256 b -> a = b.

(** Whether the node has no thumbnails at all (media processing is off). *)
Context (no_thumbs : bool).

Definition inv (n : Node) : Prop := node_ok n /\ (no_thumbs = true -> t_thumbnails (nd_db n) = ∅).

Lemma inv_faults l n : inv n -> inv (set_nd_faults l n).
Proof. done. Qed.
Lemma inv_tmp f n : inv n -> inv (set_nd_tmp f n).
Proof. done. Qed.

Lemma dkeeps_tmp f : dkeeps inv (dmodify (set_nd_tmp f)).
Proof. by intros n. Qed.
Lemma dkeeps_inv_query {A} (f : NodeDb -> A) : dkeeps inv (query f).
Proof. apply dkeeps_query. by intros. Qed.

Lemma dkeeps_deleteBlob h : dkeeps inv (deleteBlob h).
Proof.
  apply dkeeps_execute; [by intros|]. intros n a d [Hc Ht] [= _ <-]. split.
  - by apply cascade_consistent.
  - intros Hn. simpl. rewrite (Ht Hn). apply map_filter_empty.
Qed.

Lemma dkeeps_removeOwner h p : dkeeps inv (removeOwner h p).
Proof.
  apply dkeeps_execute; [by intros|]. intros n a d [Hc Ht] [= _ <-]. split; [|done].
  destruct Hc. split; simpl; try done. intros h' p' [Hin _]%elem_of_difference. by eapply co_owners0.
Qed.

Lemma dkeeps_touchBlob h t : dkeeps inv (touchBlob h t).
Proof.
  apply dkeeps_execute; [by intros|]. intros n a d [Hc Ht] Hx. destruct (t_blobs (nd_db n) !! h) eqn:E; [|done].
  injection Hx as _ <-. split; [|done]. destruct Hc. split; simpl; try done.
  intros h' t' [[<- _]|[_ Hl]]%lookup_insert_Some; [by rewrite E|by eapply co_accessed0].
Qed.

Lemma insertBlob_inv b pk n :
  backed b (nd_db n) (nd_files n) -> inv n -> inv (insertBlob b pk n).2.
Proof.
  intros Hb Hn. unfold insertBlob.
  assert (forall m, m = set_nd_faults (tail (nd_faults n)) n -> inv m -> inv (set_nd_db
    (set_t_accessed (<[br_sha256 b := br_uploaded b]>)
      (set_t_owners (fun o => {[(br_sha256 b, pk)]} ∪ o) (insert_row b (nd_db n)))) m)) as Hset.
  { intros m -> [Hc Ht]. split; [by apply insertBlob_consistent|]. simpl.
    destruct (insert_row_fields b (nd_db n)) as (_ & _ & _ & ->). done. }
  unfold execute. simpl. case_match; [done|]. by apply Hset.
Qed.

(** Row first, then file: the only order in which a file may be removed. *)
Lemma dkeeps_drop {B} h ext (k : D B) :
  is_hex64 h = true -> dkeeps inv k ->
  dkeeps inv (dbind (deleteBlob h) (fun _ => dbind (st_remove h ext) (fun _ => k))).
Proof.
  intros Hh Hk n Hn. unfold dbind at 1. pose proof (dkeeps_deleteBlob h n Hn) as Hd.
  unfold deleteBlob, execute in *. simpl in *.
  destruct (match nd_faults n with b :: _ => b | [] => false end); [done|].
  unfold dbind at 1. simpl. apply Hk. destruct Hd as [Hc Ht]. split; [|done]. simpl in *.
  apply drop_file_consistent; [done| |done]. simpl. apply lookup_delete_eq.
Qed.

Lemma st_remove_quietly h ext n : quietly (st_remove h ext) n = (Ok tt, (st_remove h ext n).2).
Proof. done. Qed.

Lemma dkeeps_drop_quietly {B} h ext (k : D B) :
  is_hex64 h = true -> dkeeps inv k ->
  dkeeps inv (dbind (deleteBlob h) (fun _ => dbind (quietly (st_remove h ext)) (fun _ => k))).
Proof.
  intros Hh Hk n Hn. pose proof (dkeeps_drop h ext k Hh Hk n Hn) as HX. unfold dbind in *.
  destruct (deleteBlob h n) as [[a|e] n']; [|done]. by rewrite st_remove_quietly.
Qed.

(** The thumbnails a query returns are rows of the table. *)
Lemma thumbnails_of_hex h n t :
  node_ok n -> t ∈ thumbnails_of h (nd_db n) -> is_hex64 (br_sha256 t) = true.
Proof.
  intros Hc. unfold thumbnails_of. repeat case_match; rewrite ?elem_of_nil; [|done|done].
  intros ->%list_elem_of_singleton. simpl. by apply (co_rows _ _ Hc) in H3 as [? _].
Qed.

(** ** Uploading *)

Lemma query_cases {A} (f : NodeDb -> A) n :
  exists r, query f n = (r, set_nd_faults (tail (nd_faults n)) n) /\
    (r = Ok (f (nd_db n)) \/ exists e, r = Throw e).
Proof.
  unfold query, execute. destruct (match nd_faults n with b :: _ => b | [] => false end); destruct n; simpl; eauto.
Qed.

(** Whatever becomes of it, the tables stay backed when the record's row is there. *)
Lemma add_owner_inv auth h b n :
  is_Some (t_blobs (nd_db n) !! br_sha256 b) -> inv n -> inv (add_owner auth h b n).2.
Proof.
  intros Hb Hn. unfold add_owner. destruct auth as [ev|]; [|done]. unfold isOwner, dbind.
  edestruct (query_cases (A := bool)) as (r3 & -> & [->|(e & ->)]); [|done]. simpl.
  case_bool_decide; [done|]. apply insertBlob_inv; [by left|done].
Qed.

Lemma dkeeps_dedup cfg r a : dkeeps inv (upload_dedup cfg r a).
Proof.
  intros n Hn. unfold upload_dedup. destruct (truthy_str (ad_xSha256 a)) as [x|]; [|done].
  unfold hasBlob, getBlob, dbind.
  edestruct (query_cases (A := bool)) as (r1 & -> & [->|(e & ->)]); [|done].
  destruct (negb _); [done|].
  edestruct (query_cases (A := option BlobRecord)) as (r2 & -> & [->|(e & ->)]); [|done]. simpl.
  destruct (t_blobs (nd_db n) !! x) as [row|] eqn:E; simpl; [|done].
  match goal with |- context [add_owner ?au ?h ?b ?m] =>
    pose proof (add_owner_inv au h b m) as Hi; destruct (add_owner au h b m) as [[?|?] ?] end.
  all: simpl in *; apply Hi; [by rewrite E|done].
Qed.

Lemma mimeToExt_blob_type m : mimeToExt (blob_type m) = mimeToExt (Some m).
Proof.
  unfold blob_type. destruct (String.eqb_spec m "application/octet-stream") as [->|]; [done|done].
Qed.

(** After a commit the file is there with exactly these bytes. *)
Lemma commitWrite_spec tmpPath data ext n :
  inv n -> genuine data -> nd_tmp n !! tmpPath = Some data ->
  exists n', commitWrite tmpPath (sha256 data) ext n = (Ok tt, n') /\ inv n' /\
    nd_db n' = nd_db n /\ nd_files n' !! blobPath (sha256 data) ext = Some data.
Proof.
  intros [Hc Ht] Hg Htmp. unfold commitWrite, st_has, dbind, dgets. simpl.
  case_bool_decide as Hp; simpl.
  - destruct Hp as [data' Hf]. eexists. split_and!; [done|by split|done|]. simpl. rewrite Hf. f_equal.
    destruct (file_hash _ _ _ _ _ Hc (sha256_hex data) Hf) as [Hg' Hs]. by apply no_collision.
  - rewrite Htmp. simpl. eexists. split_and!; [done| |done|simpl; by rewrite lookup_insert_eq].
    split; [|done]. apply add_file_consistent; [done| |done]. by apply eq_None_not_Some.
Qed.

Lemma store_blob_inv now auth mime tmpPath data n :
  inv n -> genuine data -> nd_tmp n !! tmpPath = Some data ->
  inv (store_blob now auth mime tmpPath (sha256 data) (Z.of_nat (String.length data)) n).2.
Proof.
  intros Hn Hg Htmp. unfold store_blob, dbind at 1, dgets at 1. simpl. unfold dbind at 1, dcatch.
  destruct (commitWrite_spec tmpPath data (mimeToExt (Some mime)) n Hn Hg Htmp) as (n' & -> & Hn' & Hdb & Hf).
  unfold dbind. match goal with |- context [insertBlob ?b ?pk n'] =>
    pose proof (insertBlob_inv b pk n') as Hi; destruct (insertBlob b pk n') as [[?|?] ?] end.
  all: simpl in *; apply Hi; [right; simpl|done]; split; [apply sha256_hex|].
  all: exists data; by rewrite mimeToExt_blob_type.
Qed.

Lemma upload_finish_inv now cfg r a tmpPath data n :
  inv n -> genuine data -> nd_tmp n !! tmpPath = Some data ->
  inv (upload_finish now cfg r a tmpPath (sha256 data) (Z.of_nat (String.length data)) n).2.
Proof.
  intros Hn Hg Htmp. unfold upload_finish. case_match; [|done]. unfold dbind.
  pose proof (store_blob_inv now (ad_auth a) (ad_mime a) tmpPath data n Hn Hg Htmp) as Hi.
  by destruct (store_blob _ _ _ _ _ _ _) as [[?|?] ?].
Qed.

(** The bytes of a complete body. *)
Definition body_ok (r : NReq) : Prop :=
  forall chunks, nq_body r = Some (chunks, false) -> genuine (String.concat "" chunks).

Lemma putUpload_inv now cfg ctx r : body_ok r -> dkeeps inv (putUpload now cfg ctx r).
Proof.
  intros Hb. unfold putUpload, upload_work. apply dkeeps_bind; [apply dkeeps_lift|]. intros [resp|a]; [apply dkeeps_ret|].
  apply dkeeps_bind; [apply dkeeps_dedup|]. intros [resp|]; [apply dkeeps_ret|].
  destruct (nq_body r) as [[chunks broken]|] eqn:Eb; [|apply dkeeps_ret].
  destruct (negb _); [apply dkeeps_ret|]. intros n Hn.
  unfold beginWrite, dbind, dmodify, dret. cbn [fst snd].
  destruct (negb _); [done|]. unfold runJob. cbn [fst snd]. destruct broken.
  - done.
  - unfold dbind, dmodify, dret. cbn [fst snd].
    destruct (match ad_xSha256 a with Some x => _ | None => _ end); [done|].
    apply upload_finish_inv; [done|by apply Hb|]. simpl. apply lookup_insert_eq.
Qed.

(** ** Deleting *)

(** No statement fails. *)
Definition quiet (n : Node) : Prop := Forall (fun b => b = false) (nd_faults n).

Lemma quiet_tail n : quiet n -> Forall (fun b => b = false) (tail (nd_faults n)).
Proof. unfold quiet. destruct (nd_faults n); [done|]. by inversion 1. Qed.

(** The next statement does not fail. *)
Definition answers (n : Node) : Prop := match nd_faults n with true :: _ => False | _ => True end.

Lemma quiet_answers n : quiet n -> answers n.
Proof. unfold quiet, answers. destruct (nd_faults n) as [|[] l]; [done| |done]. by inversion 1. Qed.

Lemma execute_answers {A} (f : NodeDb -> option (A * NodeDb)) n :
  answers n -> execute f n = match f (nd_db n) with
                           | Some (a, d) => (Ok a, set_nd_db d (set_nd_faults (tail (nd_faults n)) n))
                           | None => (Throw (NError "constraint failed"), set_nd_faults (tail (nd_faults n)) n)
                           end.
Proof.
  intros Hq. unfold execute, answers in *. by destruct (nd_faults n) as [|[] l].
Qed.

Lemma execute_quiet {A} (f : NodeDb -> option (A * NodeDb)) n :
  quiet n -> execute f n = match f (nd_db n) with
                           | Some (a, d) => (Ok a, set_nd_db d (set_nd_faults (tail (nd_faults n)) n))
                           | None => (Throw (NError "constraint failed"), set_nd_faults (tail (nd_faults n)) n)
                           end.
Proof. intros Hq. by apply execute_answers, quiet_answers. Qed.

Lemma drop_thumbnails_quiet l n :
  quiet n -> inv n -> Forall (fun t => is_hex64 (br_sha256 t) = true) l -> inv (drop_thumbnails l n).2.
Proof.
  revert n. induction l as [|t l IH]; intros n Hq Hn Hl; [done|]. inversion Hl as [|?? Ht Hl']; subst.
  cbn [drop_thumbnails].
  pose proof (dkeeps_drop (br_sha256 t) (mimeToExt (br_type t)) (dret tt) Ht (dkeeps_ret _ _) n Hn) as Hd.
  unfold deleteBlob, quietly, dcatch, dbind, dret in *. rewrite execute_quiet in * by done. cbn [fst snd] in *.
  apply IH; [|done|done]. by apply quiet_tail.
Qed.

Lemma drop_thumbnails_inv l n :
  l = [] \/ quiet n -> inv n -> Forall (fun t => is_hex64 (br_sha256 t) = true) l -> inv (drop_thumbnails l n).2.
Proof. intros [->|Hq] Hn Hl; [done|]. by apply drop_thumbnails_quiet. Qed.

Lemma thumbnails_off h d : t_thumbnails d = ∅ -> thumbnails_of h d = [].
Proof. intros E. unfold thumbnails_of. by rewrite E, lookup_empty. Qed.

Lemma execute_faults {A} (f : NodeDb -> option (A * NodeDb)) n :
  nd_faults (execute f n).2 = tail (nd_faults n).
Proof.
  unfold execute. destruct (match nd_faults n with b :: _ => b | [] => false end); simpl; [done|].
  by destruct (f (nd_db n)) as [[??]|].
Qed.

Lemma purge_blob_inv h type n :
  no_thumbs = true \/ quiet n -> is_hex64 h = true -> inv n -> inv (purge_blob h type n).2.
Proof.
  intros Hq Hh Hn. unfold purge_blob, getMediaThumbnailsForParent. unfold dbind at 1.
  edestruct (query_cases (A := list BlobRecord)) as (r1 & -> & [->|(e & ->)]); [|done].
  set (l := thumbnails_of h (nd_db n)). set (n1 := set_nd_faults (tail (nd_faults n)) n).
  assert (l = [] \/ quiet n) as Hl.
  { destruct Hq as [E|]; [left|by right]. apply thumbnails_off, (proj2 Hn), E. }
  assert (Forall (fun t => is_hex64 (br_sha256 t) = true) l) as Hhex.
  { apply Forall_forall. intros t. apply thumbnails_of_hex, Hn. }
  assert (inv n1) as Hn1 by apply inv_faults, Hn.
  pose proof (dkeeps_drop_quietly h (mimeToExt type) (dret tt) Hh (dkeeps_ret _ _) n1 Hn1) as Hd.
  unfold dbind in *. destruct (deleteBlob h n1) as [[b|e] n2] eqn:E; [|done].
  rewrite st_remove_quietly in *. cbn [fst snd] in *.
  assert (nd_faults n2 = tail (nd_faults n1)) as Hf.
  { unfold deleteBlob in E. pose proof (execute_faults (fun d => Some (bool_decide (is_Some (t_blobs d !! h)), cascade h d)) n1) as HX.
    by rewrite E in HX. }
  pose proof (drop_thumbnails_inv l (st_remove h (mimeToExt type) n2).2) as HX.
  destruct (drop_thumbnails l (st_remove h (mimeToExt type) n2).2) as [[?|?] ?]; simpl in *; apply HX; try done.
  all: destruct Hl as [|Hl]; [by left|right]; unfold quiet; simpl; rewrite Hf; simpl.
  all: destruct (nd_faults n) as [|b0 [|b1 fs]] eqn:En; simpl; [done..|]; unfold quiet in Hl; rewrite En in Hl.
  all: by do 2 (apply Forall_cons in Hl as [_ Hl]).
Qed.

Lemma deleteRoute_inv cfg ctx r n :
  no_thumbs = true \/ quiet n -> inv n -> inv (deleteRoute cfg ctx r n).2.
Proof.
  intros Hq Hn. unfold deleteRoute. destruct (find_hash (nq_filename r)) as [h|] eqn:Eh; [|done].
  assert (is_hex64 h = true) as Hh by by eapply find_hash_hex.
  assert (forall k, no_thumbs = true \/ quiet (set_nd_faults (Nat.iter k (@tail bool) (nd_faults n)) n)) as Hk.
  { intros k. destruct Hq as [|Hq]; [by left|right]. unfold quiet in *. simpl. by apply Forall_tails. }
  unfold getBlob, dbind at 1.
  edestruct (query_cases (A := option BlobRecord)) as (r1 & -> & [->|(e & ->)]); [|done].
  destruct (record_of h <$> t_blobs (nd_db n) !! h) as [blob|]; [|done].
  destruct (cf_deleteRequireAuth cfg); [|apply purge_blob_inv; [apply (Hk 1%nat)|done|done]].
  unfold dbind at 1, dlift. destruct (requireAuth ctx "delete") as [auth|]; [|done]. unfold dret at 1.
  unfold dbind at 1. destruct (requireXTag auth h) as [u|]; [|done]. unfold dret at 1.
  unfold isOwner, dbind at 1. edestruct (query_cases (A := bool)) as (r2 & -> & [->|(e & ->)]); [|done].
  destruct (negb _); [done|]. unfold dbind at 1. simpl set_nd_faults.
  match goal with |- context [removeOwner ?a ?b ?m] =>
    pose proof (dkeeps_removeOwner a b m Hn) as Hro;
    pose proof (execute_faults (fun d => Some (bool_decide ((a, b) ∈ t_owners d), set_t_owners (fun o => o ∖ {[(a, b)]}) d)) m) as Hfo;
    change (execute _ m) with (removeOwner a b m) in Hfo;
    destruct (removeOwner a b m) as [[?|?] n3] end; [|done].
  unfold countOwners, dbind. edestruct (query_cases (A := Z)) as (r3 & -> & [->|(e & ->)]); [|done].
  destruct (0 <? _); [done|]. apply purge_blob_inv; [|done|done].
  destruct (Hk 4%nat) as [|H4]; [by left|right]. unfold quiet in *. simpl in *. by rewrite Hfo.
Qed.

(** ** Reading *)

#[local] Hint Resolve dkeeps_inv_query dkeeps_touchBlob : dkeeps.
#[local] Hint Unfold getBlob hasBlob isOwner getMediaThumbnail listBlobsByPubkey : dkeeps.

Ltac dkeeps_step :=
  first
    [ apply dkeeps_ret | apply dkeeps_throw | apply dkeeps_gets | apply dkeeps_lift | apply dkeeps_inv_query
    | apply dkeeps_quietly | apply dkeeps_touchBlob
    | apply dkeeps_bind; [|intros]
    | apply dkeeps_catch; [|intros]
    | case_match ].
Ltac dkeeps_tac := repeat dkeeps_step.

Lemma dkeeps_headUpload cfg ctx r : dkeeps inv (headUpload cfg ctx r).
Proof. unfold headUpload, hasBlob. dkeeps_tac. Qed.

Lemma dkeeps_readRange native h ext a b : dkeeps inv (readRange native h ext a b).
Proof. unfold readRange, st_read. dkeeps_tac. Qed.

Lemma dkeeps_blobRoute native now r : dkeeps inv (blobRoute native now r).
Proof.
  unfold blobRoute, getBlob, st_has, st_read. repeat first [apply dkeeps_readRange | dkeeps_step].
Qed.

Lemma dkeeps_with_thumbnails cfg r l : dkeeps inv (with_thumbnails cfg r l).
Proof.
  induction l as [|b l IH]; cbn [with_thumbnails]; unfold getMediaThumbnail; repeat first [apply IH | dkeeps_step].
Qed.

Lemma dkeeps_listRoute cfg ctx r : dkeeps inv (listRoute cfg ctx r).
Proof.
  unfold listRoute, listBlobsByPubkey. repeat first [apply dkeeps_with_thumbnails | dkeeps_step].
Qed.

(** ** Pruning *)

Lemma dkeeps_remove_thumbnails l k :
  Forall (fun t => is_hex64 (br_sha256 t) = true) l -> dkeeps inv (remove_thumbnails l k).
Proof.
  revert k. induction l as [|t l IH]; intros k Hl; cbn [remove_thumbnails]; [apply dkeeps_ret|].
  apply Forall_cons in Hl as [Ht Hl]. apply dkeeps_bind.
  - apply dkeeps_catch; [|intros; apply dkeeps_ret]. apply dkeeps_drop; [done|apply dkeeps_ret].
  - intros [|]; [by apply IH | apply dkeeps_ret].
Qed.

Lemma dkeeps_prune_blob h type s : is_hex64 h = true -> dkeeps inv (prune_blob h type s).
Proof.
  intros Hh n Hn. unfold prune_blob, getMediaThumbnailsForParent. unfold dbind at 1, dcatch, dbind at 1.
  edestruct (query_cases (A := list BlobRecord)) as (r1 & -> & [->|(e & ->)]); [|done].
  set (l := thumbnails_of h (nd_db n)). set (n1 := set_nd_faults (tail (nd_faults n)) n).
  assert (Forall (fun t => is_hex64 (br_sha256 t) = true) l) as Hhex.
  { apply Forall_forall. intros t. apply thumbnails_of_hex, Hn. }
  pose proof (dkeeps_drop h (mimeToExt type) (dret (Some l)) Hh (dkeeps_ret _ _) n1 Hn) as Hd.
  destruct (dbind (deleteBlob h) _ n1) as [[o|e] n2] eqn:E; [|done]. simpl in Hd.
  assert (o = Some l) as ->.
  { unfold dbind in E. destruct (deleteBlob h n1) as [[?|?] ?]; [|done]. by injection E. }
  apply (dkeeps_bind inv (remove_thumbnails l 0)); [by apply dkeeps_remove_thumbnails| |done].
  intros. apply dkeeps_ret.
Qed.

Lemma dkeeps_expire_rows cutoff rows s :
  Forall (fun p => is_hex64 (br_sha256 (pr_blob p)) = true) rows -> dkeeps inv (expire_rows cutoff rows s).
Proof.
  revert s. induction rows as [|p rows IH]; intros s Hl; cbn [expire_rows]; [apply dkeeps_ret|].
  apply Forall_cons in Hl as [Hp Hl]. case_decide; [by apply IH|].
  apply dkeeps_bind; [case_match; [by apply dkeeps_prune_blob | apply dkeeps_ret] | intros; by apply IH].
Qed.

Lemma blob_records_hex n b : node_ok n -> b ∈ blob_records (nd_db n) -> is_hex64 (br_sha256 b) = true.
Proof.
  intros Hc. unfold blob_records. intros ([h r] & -> & Hin%elem_of_map_to_list)%list_elem_of_fmap.
  by apply (co_rows _ _ Hc) in Hin as [? _].
Qed.

Lemma prune_rows_hex n pattern keys p :
  node_ok n -> p ∈ prune_rows pattern keys (nd_db n) -> is_hex64 (br_sha256 (pr_blob p)) = true.
Proof.
  intros Hc. unfold prune_rows. intros (b & -> & Hin)%list_elem_of_fmap. simpl.
  apply (blob_records_hex n); [done|].
  assert (b ∈ prune_candidates pattern (nd_db n)) as Hb.
  { destruct (default [] keys) as [|k ks]; [done|]. apply list_elem_of_join in Hin as (l & Hin & Hl).
    apply list_elem_of_fmap in Hl as (b' & -> & Hb'). by apply list_elem_of_fmap in Hin as (? & -> & _). }
  unfold prune_candidates in Hb. by apply list_elem_of_filter in Hb as [_ ?].
Qed.

Lemma dkeeps_prune_rule now rule s : dkeeps inv (prune_rule now rule s).
Proof.
  intros n Hn. unfold prune_rule. case_match; [|done]. unfold getBlobsForPrune, dbind, dcatch.
  edestruct (query_cases (A := list BlobPruneRecord)) as (r1 & -> & [->|(e & ->)]); [|done].
  apply dkeeps_expire_rows; [|done]. apply Forall_forall. intros p. by apply prune_rows_hex, Hn.
Qed.

Lemma dkeeps_prune_ownerless rows s :
  Forall (fun p => is_hex64 p.1 = true) rows -> dkeeps inv (prune_ownerless rows s).
Proof.
  revert s. induction rows as [|[h ty] rows IH]; intros s Hl; cbn [prune_ownerless]; [apply dkeeps_ret|].
  apply Forall_cons in Hl as [Hp Hl]. case_decide; [by apply IH|].
  apply dkeeps_bind; [by apply dkeeps_prune_blob | intros; by apply IH].
Qed.

Lemma dkeeps_pruneStorage now rules b : dkeeps inv (pruneStorage now rules b).
Proof.
  unfold pruneStorage. apply dkeeps_bind.
  { generalize ({| ps_result := {| pn_deleted := 0; pn_errors := 0 |}; ps_checked := ∅ |}).
    induction rules as [|rule rules IH]; intros s; cbn [prune_rules]; [apply dkeeps_ret|].
    apply dkeeps_bind; [apply dkeeps_prune_rule | apply IH]. }
  intros s. destruct b; [|apply dkeeps_ret]. intros n Hn.
  unfold getOwnerlessBlobSha256s, dcatch. unfold dbind at 1.
  edestruct (query_cases (A := list (string * option string))) as (r1 & -> & [->|(e & ->)]).
  - apply (dkeeps_bind inv (prune_ownerless _ s)); [|intros; apply dkeeps_ret|done].
    apply dkeeps_prune_ownerless, Forall_forall. intros p (b & -> & Hb)%list_elem_of_fmap. simpl.
    apply (blob_records_hex n); [apply Hn|]. unfold ownerless in Hb. by apply list_elem_of_filter in Hb as [_ ?].
  - apply (dkeeps_bind inv (prune_ownerless _ s)); [|intros; apply dkeeps_ret|done]. by apply dkeeps_prune_ownerless.
Qed.
End Consistent.
