(* ===== verification/NodeMirrorFacts.v ===== *)
(** * What mirroring guarantees

    The guard is exactly the CIDR ranges it names on dotted IPv4 addresses; a
    mirrored blob was authorised by its hash and is recorded; and mirroring
    keeps rows and files together. *)

From Stdlib Require Import Ascii QArith.
From S2P Require Import Prelude Js Nip98 NodeRules NodeDb NodeApi NodeMirror NodePrune NodeFacts.
#[local] Open Scope Z_scope.

(** ** IPv4 addresses as 32-bit numbers *)

Definition octet (k : Z) (addr : Z) : Z := Z.land (Z.shiftr addr (8 * k)) 255.

(** The dotted form of an address. *)
Definition dotted (addr : Z) : string :=
  Z_to_string (octet 3 addr) +:+ "." +:+ Z_to_string (octet 2 addr) +:+ "." +:+
  Z_to_string (octet 1 addr) +:+ "." +:+ Z_to_string (octet 0 addr).

(** [addr] is in [net]/[len]. *)
Definition in_cidr (net len addr : Z) : bool := Z.shiftr addr (32 - len) =? Z.shiftr net (32 - len).

Definition ipv4 (a b c d : Z) : Z := Z.lor (Z.shiftl a 24) (Z.lor (Z.shiftl b 16) (Z.lor (Z.shiftl c 8) d)).

Definition private_ranges : list (Z * Z) :=
  [(ipv4 127 0 0 0, 8); (ipv4 10 0 0 0, 8); (ipv4 172 16 0 0, 12); (ipv4 192 168 0 0, 16);
   (ipv4 169 254 0 0, 16); (ipv4 0 0 0 0, 8)].

Lemma octet_div k addr : 0 <= k -> octet k addr = (addr / 2 ^ (8 * k)) mod 256.
Proof.
  intros Hk. unfold octet. rewrite Z.shiftr_div_pow2 by lia. change 255 with (Z.ones 8). by rewrite Z.land_ones by lia.
Qed.

Lemma octet_range k addr : 0 <= k -> 0 <= octet k addr <= 255.
Proof. intros Hk. rewrite octet_div by done. pose proof (Z.mod_pos_bound (addr / 2 ^ (8 * k)) 256). lia. Qed.

(** Splitting at a dot that follows digits. *)
Lemma split_digits s t : sall is_digit s = true -> split_on "." (s +:+ "." +:+ t) = s :: split_on "." t.
Proof.
  induction s as [|c s IH]; [done|]. cbn [sall]. intros [Hc Hs]%andb_true_iff. rewrite sapp_cons. cbn [split_on].
  rewrite IH by done. destruct (Ascii.eqb_spec c ".") as [->|]; [by vm_compute in Hc|done].
Qed.

Lemma split_last s : sall is_digit s = true -> split_on "." s = [s].
Proof.
  induction s as [|c s IH]; [done|]. cbn [sall split_on]. intros [Hc Hs]%andb_true_iff. rewrite IH by done.
  destruct (Ascii.eqb_spec c ".") as [->|]; [by vm_compute in Hc|done].
Qed.

(** [Number] reads an octet back. *)
Definition reads_back (z : Z) : bool :=
  match Number_string (Z_to_string z) with Fin q => Qnum q =? z * QDen q | _ => false end.

Lemma octet_reads_back z : 0 <= z <= 255 -> exists q, Number_string (Z_to_string z) = Fin q /\ Qnum q = z * QDen q.
Proof.
  intros Hz. assert (forallb reads_back (seqZ 0 256) = true) as Hall by (vm_compute; reflexivity).
  rewrite forallb_forall in Hall. specialize (Hall z). unfold reads_back in Hall.
  destruct (Number_string (Z_to_string z)) as [| | |q]; try (assert (false = true) by (apply Hall, list_elem_of_In, elem_of_seqZ; lia); done).
  exists q. split; [done|]. apply Z.eqb_eq, Hall, list_elem_of_In, elem_of_seqZ. lia.
Qed.

Lemma octet_digits z : 0 <= z -> sall is_digit (Z_to_string z) = true.
Proof. intros Hz. pose proof (all_digits_Z z Hz) as [_ Hd]%andb_true_iff. done. Qed.

(** Comparing what was read with an integer. *)
Lemma num_read q z k :
  Qnum q = z * QDen q ->
  num_eqZ (Fin q) k = (z =? k) /\ num_ge (Fin q) k = (k <=? z) /\ num_le (Fin q) k = (z <=? k) /\
  num_lt (Fin q) k = (z <? k) /\ num_gt (Fin q) k = (k <? z).
Proof.
  intros Hq. unfold num_eqZ, num_ge, num_le, num_lt, num_gt. rewrite Hq.
  assert (0 < QDen q) as Hd by done. split_and!; apply eq_bool_prop_intro; split; intros Hx; apply Is_true_true in Hx; apply Is_true_true; nia.
Qed.

Lemma isPrivateIPv4_octets a b c d :
  0 <= a <= 255 -> 0 <= b <= 255 -> 0 <= c <= 255 -> 0 <= d <= 255 ->
  isPrivateIPv4 (Z_to_string a +:+ "." +:+ Z_to_string b +:+ "." +:+ Z_to_string c +:+ "." +:+ Z_to_string d) =
  (a =? 127) || (a =? 10) || ((a =? 172) && (16 <=? b) && (b <=? 31)) || ((a =? 192) && (b =? 168)) ||
  ((a =? 169) && (b =? 254)) || (a =? 0).
Proof.
  intros Ha Hb Hc Hd. unfold isPrivateIPv4.
  rewrite !split_digits, split_last by (apply octet_digits; lia). cbn [fmap list_fmap].
  destruct (octet_reads_back a Ha) as (qa & -> & Hqa), (octet_reads_back b Hb) as (qb & -> & Hqb),
    (octet_reads_back c Hc) as (qc & -> & Hqc), (octet_reads_back d Hd) as (qd & -> & Hqd).
  assert (forall z q, 0 <= z <= 255 -> Qnum q = z * QDen q -> bad_octet (Fin q) = false) as Hok.
  { intros z q Hz Hq. unfold bad_octet. destruct (num_read q z 0 Hq) as (_ & _ & _ & -> & _).
    destruct (num_read q z 255 Hq) as (_ & _ & _ & _ & ->). lia. }
  cbn [existsb]. rewrite (Hok a qa), (Hok b qb), (Hok c qc), (Hok d qd) by done. cbn [orb].
  assert (forall k, num_eqZ (Fin qa) k = (a =? k)) as Ea by (intros k; by destruct (num_read qa a k Hqa)).
  assert (forall k, num_eqZ (Fin qb) k = (b =? k) /\ num_ge (Fin qb) k = (k <=? b) /\ num_le (Fin qb) k = (b <=? k)) as Eb
    by (intros k; destruct (num_read qb b k Hqb) as (? & ? & ? & _); done).
  rewrite !Ea. destruct (Eb 16) as (_ & -> & _), (Eb 31) as (_ & _ & ->), (Eb 168) as (-> & _), (Eb 254) as (-> & _). done.
Qed.

Lemma shiftr_octets addr :
  0 <= addr < 2 ^ 32 ->
  Z.shiftr addr 24 = octet 3 addr /\ Z.shiftr addr 16 = 256 * octet 3 addr + octet 2 addr /\
  Z.shiftr addr 20 = 16 * octet 3 addr + octet 2 addr / 16.
Proof.
  intros Ha. rewrite !octet_div, !Z.shiftr_div_pow2 by lia.
  change (8 * 3) with 24. change (8 * 2) with 16.
  change (2 ^ 32) with 4294967296 in Ha. change (2 ^ 24) with 16777216. change (2 ^ 16) with 65536. change (2 ^ 20) with 1048576.
  split_and!; Z.to_euclidean_division_equations; lia.
Qed.

(** A dotted address is no IPv6 address. *)
Definition dot_digit (c : ascii) : bool := is_digit c || Ascii.eqb c ".".

Lemma dotted_chars addr : sall dot_digit (dotted addr) = true.
Proof.
  assert (forall k, 0 <= k -> sall dot_digit (Z_to_string (octet k addr)) = true) as Ho.
  { intros k Hk. apply (sall_impl is_digit); [|apply octet_digits, octet_range; lia].
    intros c Hc. unfold dot_digit. by rewrite Hc. }
  unfold dotted. rewrite !sall_app, !Ho by lia. done.
Qed.

Lemma dot_digit_code c : dot_digit c = true -> code c <> 91 /\ code c <> 93 /\ code (lower_char c) <> 58 /\ code c <> 58.
Proof.
  unfold dot_digit. intros [Hc%is_digit_code|Hc%Ascii.eqb_eq]%orb_true_iff; [|subst c; by vm_compute].
  unfold lower_char. replace (is_upper c) with false by (unfold is_upper; lia). lia.
Qed.

Lemma sall_get p s i c : sall p s = true -> String.get i s = Some c -> p c = true.
Proof.
  revert i. induction s as [|d s IH]; intros [|i]; simpl; [done|done|..].
  - intros [? _]%andb_true_iff [= <-]. done.
  - intros [_ ?]%andb_true_iff ?. by eapply IH.
Qed.

Lemma strip_brackets_dotted s : sall dot_digit s = true -> strip_brackets s = s.
Proof.
  intros Hs. unfold strip_brackets.
  assert (match s with String c s' => if code c =? 91 then s' else s | EmptyString => s end = s) as ->.
  { destruct s as [|c s]; [done|]. cbn [sall] in Hs. apply andb_true_iff in Hs as [Hc _].
    apply dot_digit_code in Hc. by replace (code c =? 91) with false by lia. }
  destruct (String.get _ s) as [c|] eqn:E; [|done]. apply (sall_get _ _ _ _ Hs), dot_digit_code in E.
  by replace (code c =? 93) with false by lia.
Qed.

Lemma dotted_not_IPv6 addr : isPrivateIPv6 (dotted addr) = false.
Proof.
  pose proof (dotted_chars addr) as Hd. unfold isPrivateIPv6. rewrite strip_brackets_dotted by done.
  assert (sall (fun c => negb (code c =? 58)) (dotted addr) = true) as Hc.
  { eapply sall_impl; [|exact Hd]. intros c Hc%dot_digit_code. lia. }
  assert (sall (fun c => negb (code c =? 58)) (toLowerCase (dotted addr)) = true) as Hl.
  { unfold toLowerCase. eapply sall_smap; [|exact Hd]. intros c Hc'%dot_digit_code. lia. }
  destruct (String.eqb_spec (dotted addr) "::1") as [E|_]; [by rewrite E in Hc|].
  destruct (String.eqb_spec (dotted addr) "::") as [E|_]; [by rewrite E in Hc|].
  destruct (String.eqb_spec (toLowerCase (dotted addr)) "0:0:0:0:0:0:0:1") as [E|_]; [by rewrite E in Hl|done].
Qed.

(** The guard of PUT /mirror refuses, among the dotted IPv4 addresses, exactly
    those in the loopback, private, link-local and zero networks it names:
    127.0.0.0/8, 10.0.0.0/8, 172.16.0.0/12, 192.168.0.0/16, 169.254.0.0/16 and
    0.0.0.0/8. *)
Theorem ipv4_guard_exact addr :
  0 <= addr < 2 ^ 32 ->
  isPrivateIPv4 (dotted addr) = existsb (fun r => in_cidr r.1 r.2 addr) private_ranges /\
  (checkSsrf (dotted addr) = None <-> existsb (fun r => in_cidr r.1 r.2 addr) private_ranges = false).
Proof.
  intros Ha. assert (isPrivateIPv4 (dotted addr) = existsb (fun r => in_cidr r.1 r.2 addr) private_ranges) as Heq.
  { unfold dotted. rewrite isPrivateIPv4_octets by (apply octet_range; lia).
    pose proof (octet_range 3 addr ltac:(lia)) as H3. pose proof (octet_range 2 addr ltac:(lia)) as H2.
    destruct (shiftr_octets addr Ha) as (E24 & E16 & E20). unfold private_ranges, in_cidr. cbn [existsb fst snd].
    change (32 - 8) with 24. change (32 - 12) with 20. change (32 - 16) with 16. rewrite E24, E16, E20.
    repeat match goal with |- context [Z.shiftr (ipv4 ?a ?b ?c ?d) ?k] =>
      let v := eval vm_compute in (Z.shiftr (ipv4 a b c d) k) in change (Z.shiftr (ipv4 a b c d) k) with v end.
    apply eq_bool_prop_intro; split; intros Hx; apply Is_true_true in Hx; apply Is_true_true;
      Z.to_euclidean_division_equations; lia. }
  split; [done|]. rewrite <- Heq. unfold checkSsrf. destruct (isPrivateIPv4 (dotted addr)); [done|].
  by rewrite dotted_not_IPv6.
Qed.

(** ** What an acknowledged mirror means *)

Section Acknowledged.
Context `{Nostr} `{NodeLib}.

Lemma insertBlob_row b pk n n' :
  insertBlob b pk n = (Ok tt, n') ->
  is_Some (t_blobs (nd_db n') !! br_sha256 b) /\ (br_sha256 b, pk) ∈ t_owners (nd_db n').
Proof.
  unfold insertBlob, execute. case_match; [done|]. intros [= <-]. simpl. split; [|set_solver].
  unfold insert_row. destruct (t_blobs (nd_db n) !! br_sha256 b) eqn:E; simpl; [by rewrite E|by rewrite lookup_insert_eq].
Qed.

Lemma store_blob_row now auth mime tmpPath hash size n b n' :
  store_blob now auth mime tmpPath hash size n = (Ok b, n') ->
  br_sha256 b = hash /\ is_Some (t_blobs (nd_db n') !! hash) /\
  (hash, default "anonymous" (ev_pubkey <$> auth)) ∈ t_owners (nd_db n').
Proof.
  unfold store_blob, dbind. simpl. destruct (dcatch _ _ n) as [[[]|e] n1]; [|done].
  destruct (insertBlob _ _ n1) as [[[]|e] n2] eqn:Ei; [|done]. intros [= <- <-].
  by apply insertBlob_row in Ei as [? ?].
Qed.

Lemma add_owner_row auth b n n' :
  add_owner auth (br_sha256 b) b n = (Ok tt, n') -> is_Some (t_blobs (nd_db n) !! br_sha256 b) ->
  is_Some (t_blobs (nd_db n') !! br_sha256 b) /\
  forall e, auth = Some e -> (br_sha256 b, ev_pubkey e) ∈ t_owners (nd_db n').
Proof.
  unfold add_owner. destruct auth as [e|]; [|intros [= <-]; done]. unfold isOwner, dbind.
  edestruct (query_cases (A := bool)) as (r & -> & [->|(x & ->)]); [|done]. case_bool_decide as Ho.
  - intros [= <-] Hb. split; [done|]. by intros ? [= <-].
  - intros Hi _. apply insertBlob_row in Hi as [? ?]. split; [done|]. by intros ? [= <-].
Qed.

Lemma mirror_url_err json e : mirror_url json = inl e -> exists st m, e = NErr st m.
Proof. unfold mirror_url. repeat case_match; intros [= <-]; eauto. Qed.

Lemma mirror_admit_cases cfg ctx q :
  match mirror_admit cfg ctx q with
  | Ok (inl resp) => exists st m, resp = NErr st m
  | Ok (inr auth) => auth = optionalAuth ctx /\ (cf_mirrorRequireAuth cfg = true -> is_Some ctx) /\
      exists protocol hostname, mirror_url (mq_json q) = inr (protocol, hostname) /\
        (protocol = "http:" \/ protocol = "https:") /\ checkSsrf hostname = None
  | Throw _ => True
  end.
Proof.
  unfold mirror_admit. destruct (negb (cf_mirrorEnabled cfg)); [eauto|].
  assert (forall auth, (if cf_mirrorRequireAuth cfg then auth_if true ctx "upload" else Ok (optionalAuth ctx)) = Ok auth ->
    auth = optionalAuth ctx /\ (cf_mirrorRequireAuth cfg = true -> is_Some ctx)) as Hauth.
  { intros auth. unfold auth_if, requireAuth. destruct (cf_mirrorRequireAuth cfg); [|by intros [= <-]].
    destruct ctx as [[ev ty]|]; [|done]. case_bool_decide; [|done]. intros [= <-]. done. }
  destruct (if cf_mirrorRequireAuth cfg then _ else _) as [auth|e]; [|done].
  destruct (Hauth auth eq_refl) as [-> Hreq].
  destruct (mirror_url (mq_json q)) as [e|[protocol hostname]] eqn:Eu; [by apply mirror_url_err in Eu|].
  destruct (negb _ && negb _) eqn:Ep; [eauto|]. destruct (checkSsrf hostname) eqn:Es; [eauto|].
  destruct (negb (nq_poolAvailable _)); [eauto|]. split_and!; [done|done|]. exists protocol, hostname. split_and!; [done| |done].
  apply andb_false_iff in Ep as [Ep|Ep]; apply negb_false_iff, String.eqb_eq in Ep; [by left|by right].
Qed.

Lemma check_origin_err cfg auth o e : check_origin cfg auth o = inl e -> exists st m, e = NErr st m.
Proof. unfold check_origin, no_rule. repeat case_match; intros [= <-]; eauto. Qed.

Lemma mirror_scope_cases auth hash :
  match mirror_scope auth hash with
  | Some resp => exists st m, resp = NErr st m
  | None => forall e, auth = Some e -> exists t, t ∈ ev_tags e /\ head t = Some "x" /\ t !! 1%nat = Some hash
  end.
Proof.
  unfold mirror_scope. destruct auth as [e|]; [|done]. case_bool_decide; [eauto|].
  destruct (existsb _ _) eqn:Ex; [|simpl; eauto]. simpl. intros ? [= <-].
  apply existsb_exists in Ex as (t & Hin%list_elem_of_In & Ht). apply bool_decide_eq_true in Ht.
  apply list_elem_of_filter in Hin as [Hn%bool_decide_eq_true Hin]. eauto.
Qed.

(** A finished mirror is recorded for its hash and owned by the caller. *)
Definition recorded (auth : option Event) (hash : string) (n : Node) : Prop :=
  is_Some (t_blobs (nd_db n) !! hash) /\ forall e, auth = Some e ->
    (hash, ev_pubkey e) ∈ t_owners (nd_db n) /\
    exists t, t ∈ ev_tags e /\ head t = Some "x" /\ t !! 1%nat = Some hash.

Lemma mirror_finish_recorded now cfg r auth mime tmpPath hash size n st d n' :
  mirror_finish now cfg r auth mime tmpPath hash size n = (Ok (NRes st d), n') ->
  st = 200 /\ nds_sha256 d = hash /\ recorded auth hash n'.
Proof.
  unfold mirror_finish. pose proof (mirror_scope_cases auth hash) as Hsc.
  destruct (mirror_scope auth hash) as [e|]; [destruct Hsc as (? & ? & ->); done|].
  assert (forall m, (do* record := store_blob now auth mime tmpPath hash size in dret (NRes 200 (descriptor cfg r record [])))%D m
    = (Ok (NRes st d), n') -> st = 200 /\ nds_sha256 d = hash /\ recorded auth hash n') as Hstore.
  { intros m. unfold dbind. destruct (store_blob _ _ _ _ _ _ m) as [[b|e] m'] eqn:Es; [|done]. intros [= <- <- <-].
    apply store_blob_row in Es as (Hb & Hrow & Ho). split_and!; [done|done|]. split; [done|]. intros e ->. eauto. }
  unfold hasBlob, getBlob. unfold dbind at 1.
  edestruct (query_cases (A := bool)) as (r1 & -> & [->|(x & ->)]); [|done]. case_bool_decide as Hk; [|apply Hstore].
  unfold dbind at 1, dbind at 1. simpl.
  edestruct (query_cases (A := option BlobRecord)) as (r2 & -> & [->|(x & ->)]); [|done]. simpl.
  destruct (t_blobs (nd_db n) !! hash) as [row|] eqn:Er; simpl; [|apply Hstore].
  unfold dbind. match goal with |- context [add_owner auth hash ?b ?m] => destruct (add_owner auth hash b m) as [[[]|e] m'] eqn:Ea end; [|done].
  intros [= <- <- <-]. apply (add_owner_row auth (record_of hash row)) in Ea as [Hrow Ho]; [|simpl; by rewrite Er].
  split_and!; [done|done|]. split; [done|]. intros e He. split; [by apply Ho|by apply Hsc].
Qed.

(** C13: A mirror that answers with a descriptor fetched an http or https URL whose
    host is no address the guard knows, received the origin's whole body, and
    recorded its hash; a caller that showed a token, which is everyone where
    authorization is required, is now an owner of the blob, and one of the
    token's x tags names exactly this hash. *)
Theorem mirror_acknowledged now cfg ctx q n st d n' :
  mirrorRoute now cfg ctx q n = (Ok (NRes st d), n') ->
  st = 200 /\ (cf_mirrorRequireAuth cfg = true -> is_Some ctx) /\ recorded (optionalAuth ctx) (nds_sha256 d) n' /\
  (exists protocol hostname, mirror_url (mq_json q) = inr (protocol, hostname) /\
     (protocol = "http:" \/ protocol = "https:") /\ checkSsrf hostname = None) /\
  exists o chunks, mq_fetch q = Fetched o /\ or_body o = Some (chunks, false) /\
    nds_sha256 d = sha256 (String.concat "" chunks).
Proof.
  unfold mirrorRoute, dbind at 1, dlift. pose proof (mirror_admit_cases cfg ctx q) as Ha.
  destruct (mirror_admit cfg ctx q) as [[resp|auth]|e]; simpl; [destruct Ha as (? & ? & ->); done| |done].
  destruct Ha as (-> & Hreq & Hurl). destruct (mq_fetch q) as [reason|o]; [done|].
  destruct (check_origin cfg _ o) as [resp|mime] eqn:Eo; [apply check_origin_err in Eo as (? & ? & ->); done|].
  unfold mirror_work. destruct (or_body o) as [[chunks broken]|] eqn:Eb; [|done].
  unfold beginWrite, dbind, dmodify, dret. cbn [fst snd]. destruct (negb _); [done|].
  unfold runJob. cbn [fst snd]. destruct broken; [done|]. unfold dbind, dmodify, dret. cbn [fst snd].
  intros Hf. apply mirror_finish_recorded in Hf as (-> & Hh & Hrec). rewrite Hh.
  split_and!; [done..|]. by exists o, chunks.
Qed.
End Acknowledged.

(** ** Rows keep their files *)

Section Keeps.
Context `{NodeLaws} (genuine : string -> Prop) (no_thumbs : bool).
Context (no_collision : forall a b, genuine a -> genuine b -> sha256 a = sha256 b -> a = b).

Definition origin_ok (q : MirrorReq) : Prop :=
  forall o chunks, mq_fetch q = Fetched o -> or_body o = Some (chunks, false) -> genuine (String.concat "" chunks).

Lemma mirror_finish_inv now cfg r auth mime tmpPath data n :
  inv genuine no_thumbs n -> genuine data -> nd_tmp n !! tmpPath = Some data ->
  inv genuine no_thumbs (mirror_finish now cfg r auth mime tmpPath (sha256 data) (Z.of_nat (String.length data)) n).2.
Proof.
  intros Hn Hg Htmp. unfold mirror_finish. destruct (mirror_scope auth _); [done|].
  unfold hasBlob, getBlob. unfold dbind at 1.
  edestruct (query_cases (A := bool)) as (r1 & -> & [->|(x & ->)]); [|done]. case_bool_decide as Hk.
  - unfold dbind at 1, dbind at 1. simpl.
    edestruct (query_cases (A := option BlobRecord)) as (r2 & -> & [->|(x & ->)]); [|done]. simpl.
    destruct Hk as [row Hrow]. rewrite Hrow. simpl. unfold dbind.
    match goal with |- context [add_owner ?au ?h ?b ?m] =>
      pose proof (add_owner_inv genuine no_thumbs au h b m) as Hi; destruct (add_owner au h b m) as [[?|?] ?] end.
    all: simpl in *; apply Hi; [by rewrite Hrow|done].
  - unfold dbind. simpl.
    match goal with |- context [store_blob ?t ?au ?mi ?tp _ _ ?m] =>
      pose proof (store_blob_inv genuine no_collision no_thumbs t au mi tp data m) as Hi;
      destruct (store_blob t au mi tp _ _ m) as [[?|?] ?] end.
    all: simpl in *; by apply Hi.
Qed.

Lemma mirrorRoute_inv now cfg ctx q : origin_ok q -> dkeeps (inv genuine no_thumbs) (mirrorRoute now cfg ctx q).
Proof.
  intros Ho. unfold mirrorRoute. apply dkeeps_bind; [apply dkeeps_lift|]. intros [resp|auth]; [apply dkeeps_ret|].
  destruct (mq_fetch q) as [reason|o] eqn:Ef; [apply dkeeps_ret|]. destruct (check_origin cfg auth o); [apply dkeeps_ret|].
  unfold mirror_work. destruct (or_body o) as [[chunks broken]|] eqn:Eb; [|apply dkeeps_ret]. intros n Hn.
  unfold beginWrite, dbind, dmodify, dret. cbn [fst snd]. destruct (negb _); [done|].
  unfold runJob. cbn [fst snd]. destruct broken; [done|]. unfold dbind, dmodify, dret. cbn [fst snd].
  apply mirror_finish_inv; [done|by eapply Ho|]. simpl. apply lookup_insert_eq.
Qed.
End Keeps.
