(* ===== verification/NodeMedia.v ===== *)
(** * Media uploads of a storage node (storage-client/blossom/src)

    routes/media.ts with optimize/index.ts, image.ts, video.ts and thumbnail.ts:
    a client uploads an image or a video, the node runs it through sharp or
    ffmpeg, stores the result, and remembers which original it came from. The
    two tools, the detection of types and what an extension stands for are the
    class [MediaLib]. The names [Deno.makeTempFile] makes up are part of the
    request; the files it makes are in the system's temporary directory. *)

From Stdlib Require Import Ascii QArith.
From S2P Require Import Prelude Js Nip98 NodeRules NodeDb NodeApi.
#[local] Open Scope Z_scope.

(** ** Requests *)

Record MediaReq := {
  md_req : NReq;
  md_optName : string;
  md_thumbName : string
}.

(** ** The tools *)

(** The pipeline handed to sharp. *)
Record SharpJob := {
  sj_animated : bool;
  sj_keepExif : option bool;        (* [withMetadata] is not called for thumbnails *)
  sj_width : Z;
  sj_height : Z;
  sj_format : string;
  sj_quality : Z;
  sj_progressive : option bool;
  sj_delay : option Z
}.

(** The arguments of ffmpeg apart from the two paths. *)
Record TranscodeJob := {
  tj_vcodec : string;
  tj_acodec : string;
  tj_maxHeight : Z;
  tj_crf : Z;
  tj_fps : num;
  tj_extra : list string
}.
Record FrameJob := {
  fj_seek : num;
  fj_maxWidth : Z;
  fj_maxHeight : Z;
  fj_quality : option Z
}.

Class MediaLib := {
  typeByExtension : string -> option string;
  fileTypeFromBuffer : string -> option string;
  (** the bytes of the output, or the message of the error *)
  sharp : SharpJob -> string -> exc string string;
  (** [None] when the exit status is not zero *)
  ffmpegTranscode : TranscodeJob -> string -> option string;
  ffmpegFrame : FrameJob -> string -> option string
}.

(** [Math.round(1000 / fps)] *)
Definition gif_delay (fps : Z) : Z := (2000 + fps) / (2 * fps).
(** [Math.round(51 - (quality / 100) * 51)]; the only tie is exact. *)
Definition crf_of (quality : Z) : Z := (5150 - 51 * quality) / 100.
(** [Math.min(31, Math.max(2, Math.round(31 - (quality / 100) * 29)))] *)
Definition ffmpegQuality (format : string) (quality : Z) : option Z :=
  if String.eqb format "png" then None
  else Some (Z.min 31 (Z.max 2 ((3150 - 29 * quality) / 100))).

(** The longest decimal literal at the start of [s], split off. *)
Definition decimal_prefix (s : string) : string :=
  let (ip, r1) := span is_digit s in
  let frac := match r1 with
              | String c r => if code c =? 46 then let (fp, r2) := span is_digit r in (String c fp, r2) else ("", r1)
              | _ => ("", r1)
              end in
  let mant := ip +:+ fst frac in
  if negb (sany is_digit mant) then "" else
  match snd frac with
  | String e r =>
      if code (lower_char e) =? 101 then
        let (sgn, ds) := match r with
                         | String c r' => if (code c =? 45) || (code c =? 43) then (String c "", r') else ("", r)
                         | _ => ("", r)
                         end in
        let (digits, _) := span is_digit ds in
        if String.eqb digits "" then mant else mant +:+ String e (sgn +:+ digits)
      else mant
  | _ => mant
  end.

(** [parseFloat(s)] *)
Definition parseFloat (s : string) : num :=
  let (neg, body) := take_sign (trim_left s) in
  if starts_with "Infinity" body then (if neg then NInf else PInf)
  else decimal_literal neg (decimal_prefix body).

(** [a / b] *)
Definition num_div (a b : num) : num :=
  match a, b with
  | Fin p, Fin q =>
      if Qnum q =? 0 then (if Qnum p =? 0 then NaN else if 0 <? Qnum p then PInf else NInf)
      else let r := (p / q)%Q in double_of (Qnum r <? 0) (Z.abs (Qnum r)) (QDen r)
  | Fin _, (PInf | NInf) => num_Z 0
  | PInf, Fin q => if 0 <=? Qnum q then PInf else NInf
  | NInf, Fin q => if 0 <=? Qnum q then NInf else PInf
  | _, _ => NaN
  end.

(** The frame rate "30/1" or "24000/1001" of a stream. *)
Definition parse_rate (r : string) : option num :=
  let parts := split_on "/" r in
  let n := parseFloat (default "" (head parts)) in
  let d := parseFloat (default "1" (parts !! 1%nat)) in
  match n, d with
  | NaN, _ | _, NaN => None
  | _, _ => if num_eqZ d 0 then None else Some (num_div n d)
  end.

(** [Math.min(fps, max)] *)
Definition num_min (v : num) (n : Z) : num :=
  match v with
  | NaN => NaN
  | _ => if num_gt v n then num_Z n else v
  end.

Definition FORMAT_EXTRA_ARGS (format : string) : list string :=
  if String.eqb format "mp4" then ["-movflags"; "+faststart"] else [].

(** ** Temporary files *)

Definition tmp_remove (path : string) : D unit := dmodify (set_nd_tmp (delete path)).
Definition tmp_write (path data : string) : D unit := dmodify (set_nd_tmp (<[path := data]>)).
Definition tmp_read (path : string) : D string := (
  do* c := dgets (fun n => nd_tmp n !! path) in
  match c with Some c => dret c | None => dthrow (NError "No such file or directory") end)%D.

(** [/\.(\[^.\]+)$/]: what follows the last dot. *)
Definition dot_ext (path : string) : option string :=
  match rev (split_on "." path) with
  | e :: _ :: _ => if String.eqb e "" then None else Some e
  | _ => None
  end.
(** [extname(path)] without its dot; a name that only starts with one has none. *)
Definition extname (path : string) : string :=
  match path with "" => "" | String _ rest => default "" (dot_ext (String "x" rest)) end.

Definition err_message (e : nerr) : string :=
  match e with HTTPException _ m => m | NError m => m end.

Section Media.
Context `{Nostr} `{NodeLib} `{MediaLib}.

(** ** optimize/image.ts, video.ts, thumbnail.ts *)

(** Make the output file, run the tool on the input and write its result; the
    output file stays when the tool fails. *)
Definition run_tool (outputPath inputPath : string) (tool : string -> exc string string) : D string := (
  do* _ := tmp_write outputPath "" in
  do* content := tmp_read inputPath in
  match tool content with
  | Throw e => dthrow (NError e)
  | Ok out => do* _ := tmp_write outputPath out in dret outputPath
  end)%D.

Definition encoded (format : string) (progressive : bool) : option bool :=
  if String.eqb format "webp" then None else Some progressive.

Definition optimizeImage (name inputPath : string) (o : ImageOpts) : D string :=
  run_tool (name +:+ "." +:+ io_outputFormat o) inputPath
    (sharp {| sj_animated := false; sj_keepExif := Some (io_keepExif o);
              sj_width := io_maxWidth o; sj_height := io_maxHeight o;
              sj_format := io_outputFormat o; sj_quality := io_quality o;
              sj_progressive := encoded (io_outputFormat o) (io_progressive o); sj_delay := None |}).

Definition optimizeGif (name inputPath : string) (o : ImageOpts) : D string :=
  run_tool (name +:+ "." +:+ io_outputFormat o) inputPath
    (sharp {| sj_animated := true; sj_keepExif := Some (io_keepExif o);
              sj_width := io_maxWidth o; sj_height := io_maxHeight o;
              sj_format := io_outputFormat o; sj_quality := io_quality o;
              sj_progressive := encoded (io_outputFormat o) (io_progressive o);
              sj_delay := if String.eqb (io_outputFormat o) "webp" then Some (gif_delay (io_fps o)) else None |}).

Definition probeFps (content : string) : option num :=
  json ← ffprobe content;
  v ← video_stream json;
  match jget v "r_frame_rate" with
  | JStr "" => None
  | JStr r => parse_rate r
  | _ => None
  end.

Definition transcode_job (o : VideoOpts) (content : string) : TranscodeJob :=
  {| tj_vcodec := vo_videoCodec o; tj_acodec := vo_audioCodec o; tj_maxHeight := vo_maxHeight o;
     tj_crf := crf_of (vo_quality o);
     tj_fps := match probeFps content with Some f => num_min f (vo_maxFps o) | None => num_Z (vo_maxFps o) end;
     tj_extra := FORMAT_EXTRA_ARGS (vo_format o) |}.

Definition optimizeVideo (name inputPath : string) (o : VideoOpts) : D string :=
  run_tool (name +:+ "." +:+ vo_format o) inputPath
    (fun content => match ffmpegTranscode (transcode_job o content) content with
                    | Some out => Ok out
                    | None => Throw "ffmpeg exited with non-zero status"
                    end).

Definition thumbnailImage (name inputPath : string) (o : ThumbOpts) : D string :=
  run_tool (name +:+ "." +:+ th_outputFormat o) inputPath
    (sharp {| sj_animated := false; sj_keepExif := None;
              sj_width := th_maxWidth o; sj_height := th_maxHeight o;
              sj_format := th_outputFormat o; sj_quality := th_quality o;
              sj_progressive := encoded (th_outputFormat o) true; sj_delay := None |}).

Definition thumbnailVideo (name inputPath : string) (o : ThumbOpts) : D string :=
  run_tool (name +:+ "." +:+ th_outputFormat o) inputPath
    (fun content => match ffmpegFrame {| fj_seek := th_videoSeek o; fj_maxWidth := th_maxWidth o;
                                         fj_maxHeight := th_maxHeight o;
                                         fj_quality := ffmpegQuality (th_outputFormat o) (th_quality o) |} content with
                    | Some out => Ok out
                    | None => Throw "ffmpeg thumbnail extraction failed"
                    end).

Definition mime_starts (pre : string) (mime : option string) : bool :=
  match mime with Some m => starts_with pre m | None => false end.

Definition createThumbnail (name inputPath : string) (mime : option string) (o : ThumbOpts) : D string :=
  if negb (th_enabled o) then dthrow (NError "Thumbnail generation is disabled")
  else if mime_starts "image/" mime then thumbnailImage name inputPath o
  else if mime_starts "video/" mime then thumbnailVideo name inputPath o
  else dthrow (NError ("Unsupported thumbnail MIME type: " +:+ default "unknown" mime)).

(** ** optimize/index.ts *)

(** The extension first, then the first 4096 bytes. *)
Definition detectMimeType (filePath : string) : D (option string) := (
  let ext := extname filePath in
  match (if String.eqb ext "" then None else typeByExtension ext) with
  | Some m => dret (Some m)
  | None =>
      do* content := tmp_read filePath in
      if String.eqb content "" then dret None
      else dret (fileTypeFromBuffer (String.substring 0 4096 content))
  end)%D.

(** [inputPath] is null when the caller has dropped its file. *)
Definition optimizeMedia (name : string) (inputPath : option string) (c : MConfig) : D string := (
  match inputPath with
  | None => dthrow (NError "Path must be a string")
  | Some inputPath =>
      do* mime := detectMimeType inputPath in
      match truthy_str mime with
      | None => dthrow (NError "Unsupported file type: could not determine MIME type")
      | Some mime =>
          dcatch
            (if String.eqb mime "image/gif" then optimizeGif name inputPath (mc_image c)
             else if String.eqb mime "image/jpeg" || String.eqb mime "image/png" || String.eqb mime "image/webp"
             then optimizeImage name inputPath (mc_image c)
             else if starts_with "video/" mime then optimizeVideo name inputPath (mc_video c)
             else dthrow (NError ("Unsupported file type: " +:+ mime)))
            (fun e => dthrow (NError ("Optimization failed: " +:+ err_message e)))
      end
  end)%D.

(** ** routes/media.ts: helpers *)

Definition hashFile (filePath : string) : D (string * Z) := (
  do* content := tmp_read filePath in
  dret (sha256 content, Z.of_nat (String.length content)))%D.

Definition detectOptimizedMime (filePath : string) : string :=
  match dot_ext filePath with
  | None => "application/octet-stream"
  | Some e => default "application/octet-stream" (typeByExtension e)
  end.

(** The dimensions of a file that may be gone. *)
Definition file_dimensions (filePath : string) (type : option string) : D (option string) :=
  dgets (fun n => content ← nd_tmp n !! filePath; extractDimensions content type).

Definition thumb_tag (sha : string) (type : option string) (baseUrl : string) : list string :=
  ["thumb"; getBlobUrl sha type baseUrl; sha].

Definition getThumbnailTag (parentSha256 baseUrl : string) : D (option (list string)) := (
  do* thumbnail := getMediaThumbnail parentSha256 in
  dret ((fun t => thumb_tag (br_sha256 t) (br_type t) baseUrl) <$> thumbnail))%D.

Record PreparedThumbnail := {
  pt_path : string;
  pt_sha256 : string;
  pt_size : Z;
  pt_type : option string;
  pt_ext : string;
  pt_dim : option string
}.

Definition prepareThumbnail (name inputPath : string) (inputType : option string) (c : MConfig)
  : D (option PreparedThumbnail) := (
  if negb (th_enabled (mc_thumbnail c)) then dret None else
  do* path := createThumbnail name inputPath inputType (mc_thumbnail c) in
  dcatch
    (do* (hash, size) := hashFile path in
     let type := detectOptimizedMime path in
     let storedType := blob_type type in
     do* dim := file_dimensions path storedType in
     dret (Some {| pt_path := path; pt_sha256 := hash; pt_size := size; pt_type := storedType;
                   pt_ext := mimeToExt (Some type); pt_dim := dim |}))
    (fun e => do* _ := tmp_remove path in dthrow e))%D.

(** [commitFile] of storage/local.ts *)
Definition commitFile (c : MConfig) (srcPath hash ext : string) : D unit := (
  do* present := st_has hash ext in
  if present : bool then tmp_remove srcPath
  else if negb (mc_sameFs c) then dthrow (NError "Invalid cross-device link")
  else
    do* content := tmp_read srcPath in
    dmodify (fun n => set_nd_tmp (delete srcPath) (set_nd_files (<[blobPath hash ext := content]>) n)))%D.

Definition storePreparedThumbnail (c : MConfig) (t : PreparedThumbnail) (parentSha256 : string) (now : Z)
    (baseUrl : string) : D (list string) := (
  do* _ := commitFile c (pt_path t) (pt_sha256 t) (pt_ext t) in
  do* _ := insertBlobRecord {| br_sha256 := pt_sha256 t; br_size := pt_size t; br_type := pt_type t;
                               br_uploaded := now; br_nip94 := optionalNip94Tags None (pt_dim t) None |} in
  do* _ := insertMediaThumbnail parentSha256 (pt_sha256 t) in
  dret (thumb_tag (pt_sha256 t) (pt_type t) baseUrl))%D.

(** Store a prepared thumbnail, best effort: a failure removes its file. *)
Definition store_thumbnail (c : MConfig) (t : PreparedThumbnail) (parentSha256 : string) (now : Z)
    (baseUrl : string) : D (option (list string)) := (
  dcatch (do* tag := storePreparedThumbnail c t parentSha256 now baseUrl in dret (Some tag))
         (fun _ => do* _ := tmp_remove (pt_path t) in dret None))%D.

Definition createAndStoreThumbnail (c : MConfig) (name inputPath : string) (inputType : option string)
    (parentSha256 : string) (now : Z) (baseUrl : string) : D (option (list string)) := (
  do* prepared := dcatch (prepareThumbnail name inputPath inputType c) (fun _ => dret None) in
  match prepared with
  | None => dret None
  | Some t => store_thumbnail c t parentSha256 now baseUrl
  end)%D.

(** ** routes/media.ts: the routes *)

Definition media_disabled {A} : nresp A := NErr 403 "Media endpoint is disabled on this server".
Definition media_busy {A} : nresp A :=
  NErr 503 "Server busy. All upload workers are occupied. Try again shortly.".

(** [value.split(";")\[0\].trim()] *)
Definition mime_of (contentType : string) : string := trim (default "" (head (split_on ";" contentType))).

(** GET and HEAD /media *)
Definition headMedia (cfg : NConfig) (c : MConfig) (ctx : auth_ctx) (r : NReq) : nresp unit :=
  if negb (mc_enabled c) then media_disabled else
  match auth_if (mc_requireAuth c) ctx "media" with
  | Throw (HTTPException st m) => NErr st m
  | Throw (NError m) => NErr 500 m
  | Ok _ =>
      if negb (nq_poolAvailable r) then media_busy else
      let xContentLength := match nq_xContentLength r with Some h => Some h | None => nq_contentLength r end in
      if match truthy_str xContentLength ≫= parseInt10 with Some size => mc_maxSize c <? size | None => false end
      then NErr 413 "File too large."
      else
        let xContentType := match nq_xContentType r with Some h => Some h | None => nq_contentType r end in
        match truthy_str xContentType with
        | None => NRes 200 tt
        | Some t =>
            match getFileRule (Some (mime_of t)) (ev_pubkey <$> optionalAuth ctx)
                    (cf_rules cfg) (cf_requirePubkeyInRule cfg) with
            | None => no_rule cfg (mime_of t)
            | Some _ => NRes 200 tt
            end
        end
  end.

Record MediaAdmission := {
  ma_auth : option Event;
  ma_xSha256 : option string;
  ma_body : list string * bool
}.

(** Steps 1 to 7 of PUT /media. *)
Definition media_checks (cfg : NConfig) (c : MConfig) (ctx : auth_ctx) (r : NReq)
  : nresp NDescriptor + MediaAdmission :=
  if negb (mc_enabled c) then inl media_disabled else
  match auth_if (mc_requireAuth c) ctx "media" with
  | Throw (HTTPException st m) => inl (NErr st m)
  | Throw (NError m) => inl (NErr 500 m)
  | Ok required =>
      let auth := if mc_requireAuth c then required else optionalAuth ctx in
      match truthy_str (nq_contentLength r) with
      | None => inl (NErr 411 "Content-Length header required")
      | Some h =>
          match parseInt10 h with
          | None => inl (NErr 400 "Invalid Content-Length header")
          | Some contentLength =>
              if contentLength <? 0 then inl (NErr 400 "Invalid Content-Length header")
              else if mc_maxSize c <? contentLength then inl (NErr 413 "File too large.")
              else
                let mimeType := mime_of (default "application/octet-stream" (nq_contentType r)) in
                match getFileRule (Some mimeType) (ev_pubkey <$> auth) (cf_rules cfg) (cf_requirePubkeyInRule cfg) with
                | None => inl (no_rule cfg mimeType)
                | Some _ =>
                    let xSha256 := toLowerCase <$> nq_xSha256 r in
                    if match truthy_str xSha256 with Some x => negb (is_hex64 x) | None => false end
                    then inl (NErr 400 "Invalid X-SHA-256 header format")
                    else
                      match nq_body r with
                      | None => inl (NErr 400 "Request body is empty")
                      | Some body =>
                          if negb (nq_poolAvailable r) then inl media_busy
                          else inr {| ma_auth := auth; ma_xSha256 := xSha256; ma_body := body |}
                      end
                end
          end
      end
  end.

(** Step 10: the x tags of the token, which /media requires. *)
Definition media_x_tags (auth : option Event) (originalHash : string) : option (nresp NDescriptor) :=
  match auth with
  | None => None
  | Some e =>
      let xTags := filter (fun t => has_name "x" t = true) (ev_tags e) in
      if bool_decide (xTags = []) then
        Some (NErr 403 "Auth event is missing required x tag for PUT /media")
      else if negb (existsb (fun t => bool_decide (t !! 1%nat = Some originalHash)) xTags) then
        Some (NErr 403 ("Auth token does not authorize uploading blob " +:+ originalHash))
      else None
  end.

(** The answer for a stored blob: its own tags, then the original, then the thumbnail. *)
Definition media_reply (cfg : NConfig) (r : NReq) (b : BlobRecord) (originalHash : option string)
    (thumbnail : option (list string)) : nresp NDescriptor :=
  NRes 201 (descriptor cfg r b
    (match originalHash with Some o => [["ox"; o]] | None => [] end ++
     match thumbnail with Some t => [t] | None => [] end)).

(** Step 11: the original was optimised before. [None]: go on. *)
Definition media_known (cfg : NConfig) (r : NReq) (auth : option Event) (originalHash optimizedHash : string)
  : D (option (nresp NDescriptor)) := (
  do* existing := getBlob optimizedHash in
  match existing with
  | None => dret None
  | Some b =>
      do* _ := add_owner auth optimizedHash b in
      do* thumbnail := getThumbnailTag (br_sha256 b) (getBaseUrl cfg r) in
      dret (Some (media_reply cfg r b (Some originalHash) thumbnail))
  end)%D.

(** Step 16: the optimised bytes are stored already. [None]: go on, without the
    file. *)
Definition media_dedup (now : Z) (cfg : NConfig) (c : MConfig) (q : MediaReq) (auth : option Event)
    (originalHash optimizedHash optPath : string) : D (option (nresp NDescriptor)) := (
  do* known := hasBlob optimizedHash in
  if negb known then dret None else
  do* existing := getBlob optimizedHash in
  match existing with
  | None => do* _ := tmp_remove optPath in dret None
  | Some b =>
      do* _ := insertMediaDerivative originalHash optimizedHash in
      do* _ := add_owner auth optimizedHash b in
      let baseUrl := getBaseUrl cfg (md_req q) in
      do* tag := getThumbnailTag (br_sha256 b) baseUrl in
      do* tag := match tag with
                 | Some t => dret (Some t)
                 | None => createAndStoreThumbnail c (md_thumbName q) optPath (br_type b) (br_sha256 b) now baseUrl
                 end in
      do* _ := tmp_remove optPath in
      dret (Some (media_reply cfg (md_req q) b (Some originalHash) tag))
  end)%D.

(** Steps 17 to 19. *)
Definition media_store (now : Z) (cfg : NConfig) (c : MConfig) (q : MediaReq) (auth : option Event)
    (originalHash optimizedHash : string) (optimizedSize : Z) (optPath : string) : D (nresp NDescriptor) := (
  let optimizedMime := detectOptimizedMime optPath in
  let optimizedType := blob_type optimizedMime in
  do* dim := file_dimensions optPath optimizedType in
  do* prepared := dcatch (prepareThumbnail (md_thumbName q) optPath optimizedType c) (fun _ => dret None) in
  do* _ := dcatch (commitFile c optPath optimizedHash (mimeToExt (Some optimizedMime)))
    (fun e => do* _ := tmp_remove optPath in
              do* _ := match prepared with Some t => tmp_remove (pt_path t) | None => dret tt end in
              dthrow e) in
  let record := {| br_sha256 := optimizedHash; br_size := optimizedSize; br_type := optimizedType;
                   br_uploaded := now; br_nip94 := optionalNip94Tags (Some originalHash) dim None |} in
  do* _ := insertBlob record (default "anonymous" (ev_pubkey <$> auth)) in
  do* _ := insertMediaDerivative originalHash optimizedHash in
  let baseUrl := getBaseUrl cfg (md_req q) in
  do* tag := match prepared with
             | Some t => store_thumbnail c t optimizedHash now baseUrl
             | None => dret None
             end in
  dret (media_reply cfg (md_req q) record None tag))%D.

(** [if (path) await Deno.remove(path)] of the outer catch. *)
Definition removing_on_throw {A} (path : string) (m : D A) : D A :=
  dcatch m (fun e => do* _ := tmp_remove path in dthrow e)%D.

(** Steps 14 to 19: the output of the tool is at [optPath]. *)
Definition media_optimized (now : Z) (cfg : NConfig) (c : MConfig) (q : MediaReq) (auth : option Event)
    (originalHash optPath : string) : D (nresp NDescriptor) := (
  do* hashed := dcatch (do* h := hashFile optPath in dret (inl h)) (fun e => dret (inr e)) in
  match hashed with
  | inr e => dret (NErr 500 ("Failed to hash optimized output: " +:+ err_message e))
  | inl (optimizedHash, optimizedSize) =>
      removing_on_throw optPath (
        do* dup := media_dedup now cfg c q auth originalHash optimizedHash optPath in
        match dup with
        | Some resp => dret resp
        | None => media_store now cfg c q auth originalHash optimizedHash optimizedSize optPath
        end)
  end)%D.

(** Steps 12 to 19; [tmpPath] is null when step 11 has removed the upload. *)
Definition media_optimize (now : Z) (cfg : NConfig) (c : MConfig) (q : MediaReq) (auth : option Event)
    (originalHash : string) (tmpPath : option string) : D (nresp NDescriptor) := (
  do* optimized := dcatch (do* p := optimizeMedia (md_optName q) tmpPath c in dret (inl p))
                          (fun e => dret (inr e)) in
  match optimized with
  | inr e => dret (NErr 422 (err_message e))
  | inl optPath =>
      do* _ := match tmpPath with Some p => tmp_remove p | None => dret tt end in
      media_optimized now cfg c q auth originalHash optPath
  end)%D.

(** Steps 10 to 19: the upload is in [tmpPath] and hashed. *)
Definition media_hashed (now : Z) (cfg : NConfig) (c : MConfig) (q : MediaReq) (auth : option Event)
    (tmpPath originalHash : string) : D (nresp NDescriptor) := (
  match media_x_tags auth originalHash with
  | Some resp => do* _ := tmp_remove tmpPath in dret resp
  | None =>
      do* derivative := removing_on_throw tmpPath (getMediaDerivative originalHash) in
      match truthy_str derivative with
      | Some optimizedHash =>
          do* _ := tmp_remove tmpPath in
          do* known := media_known cfg (md_req q) auth originalHash optimizedHash in
          match known with
          | Some resp => dret resp
          | None => media_optimize now cfg c q auth originalHash None
          end
      | None => media_optimize now cfg c q auth originalHash (Some tmpPath)
      end
  end)%D.

(** Steps 8 to 19. *)
Definition media_work (now : Z) (cfg : NConfig) (c : MConfig) (q : MediaReq) (a : MediaAdmission)
  : D (nresp NDescriptor) := (
  do* tmpPath := beginWrite (nq_ulid (md_req q)) in
  if negb (nq_dispatched (md_req q)) then
    do* _ := abortWrite tmpPath in dret media_busy
  else
    do* result := runJob (ma_body a) tmpPath (ma_xSha256 a) in
    match result with
    | JobError error errorType => dret (NErr (if String.eqb errorType "HASH_MISMATCH" then 409 else 400) error)
    | JobSuccess originalHash _ => media_hashed now cfg c q (ma_auth a) tmpPath originalHash
    end)%D.

(** PUT /media *)
Definition putMedia (now : Z) (cfg : NConfig) (c : MConfig) (ctx : auth_ctx) (q : MediaReq)
  : D (nresp NDescriptor) :=
  match media_checks cfg c ctx (md_req q) with
  | inl resp => dret resp
  | inr a => dcatch (media_work now cfg c q a) (fun e => dret (NErr 500 (err_message e)))
  end.
End Media.
