(* ===== verification/NodeMediaFacts.v ===== *)
(** * Media uploads: what is stored and what is acknowledged

    Triples for the computations of a node, the invariant of [NodeFacts] under
    PUT /media, what a 201 means, and the temporary files a refusal leaves
    behind. *)

From Stdlib Require Import Ascii QArith.
From S2P Require Import Prelude Js Nip98 NodeRules NodeDb NodeApi NodePrune NodeFacts NodeMedia.
#[local] Open Scope Z_scope.

(** ** Triples *)

(** From [P], the computation ends in [Q] with its value, or throws in [E]. *)
Definition triple {A} (P : Node -> Prop) (m : D A) (Q : A -> Node -> Prop) (E : Node -> Prop) : Prop :=
  forall n, P n -> match m n with (Ok a, n') => Q a n' | (Throw _, n') => E n' end.

Lemma triple_ret {A} (P : Node -> Prop) (a : A) Q E : (forall n, P n -> Q a n) -> triple P (dret a) Q E.
Proof. intros Hq n Hn. by apply Hq. Qed.
Lemma triple_throw {A} (P : Node -> Prop) e (Q : A -> Node -> Prop) (E : Node -> Prop) :
  (forall n, P n -> E n) -> triple P (dthrow e) Q E.
Proof. intros Hq n Hn. by apply Hq. Qed.
Lemma triple_bind {A B} P (m : D A) (k : A -> D B) R Q E :
  triple P m R E -> (forall a, triple (R a) (k a) Q E) -> triple P (dbind m k) Q E.
Proof.
  intros Hm Hk n Hn. specialize (Hm n Hn). unfold dbind. destruct (m n) as [[a|e] n']; [|done].
  by apply Hk.
Qed.
Lemma triple_catch {A} P (m : D A) h Q R E :
  triple P m Q R -> (forall e, triple R (h e) Q E) -> triple P (dcatch m h) Q E.
Proof.
  intros Hm Hh n Hn. specialize (Hm n Hn). unfold dcatch. destruct (m n) as [[a|e] n']; [done|].
  by apply Hh.
Qed.
Lemma triple_gets {A} (P : Node -> Prop) (f : Node -> A) E : triple P (dgets f) (fun a n => P n /\ a = f n) E.
Proof. by intros n Hn. Qed.
Lemma triple_modify (P : Node -> Prop) f (Q : () -> Node -> Prop) E :
  (forall n, P n -> Q tt (f n)) -> triple P (dmodify f) Q E.
Proof. intros Hq n Hn. by apply Hq. Qed.
Lemma triple_weaken {A} (P P' : Node -> Prop) (m : D A) (Q Q' : A -> Node -> Prop) (E E' : Node -> Prop) :
  triple P' m Q' E' -> (forall n, P n -> P' n) -> (forall a n, Q' a n -> Q a n) -> (forall n, E' n -> E n) ->
  triple P m Q E.
Proof.
  intros Hm HP HQ HE n Hn. specialize (Hm n (HP n Hn)). destruct (m n) as [[a|e] n']; auto.
Qed.
Lemma triple_pure {A} (φ : Prop) (P : Node -> Prop) (m : D A) Q E :
  (φ -> triple P m Q E) -> triple (fun n => P n /\ φ) m Q E.
Proof. intros Hm n [Hn Hφ]. by apply Hm. Qed.

(** [P] does not depend on the faults to come. *)
Definition fault_free (P : Node -> Prop) : Prop := forall l n, P n -> P (set_nd_faults l n).

Lemma triple_execute {A} (P : Node -> Prop) (f : NodeDb -> option (A * NodeDb)) (Q : A -> Node -> Prop) (E : Node -> Prop) :
  fault_free P -> (forall n, P n -> E n) ->
  (forall n a d, P n -> f (nd_db n) = Some (a, d) -> Q a (set_nd_db d n)) ->
  triple P (execute f) Q E.
Proof.
  intros HP HE HQ n Hn. unfold execute. apply (HP (tail (nd_faults n))) in Hn.
  destruct (match nd_faults n with b :: _ => b | [] => false end); [by apply HE|]. simpl.
  destruct (f (nd_db n)) as [[a d]|] eqn:Hf; [|by apply HE]. exact (HQ _ a d Hn Hf).
Qed.

Lemma triple_query {A} (P : Node -> Prop) (f : NodeDb -> A) :
  fault_free P -> triple P (query f) (fun a n => P n /\ a = f (nd_db n)) P.
Proof.
  intros HP. apply triple_execute; [done|done|]. intros n a d Hn [= <- <-]. split; [by destruct n|done].
Qed.

Lemma triple_keeps {A} (I : Node -> Prop) (m : D A) : dkeeps I m -> triple I m (fun _ n => I n) I.
Proof. intros Hm n Hn. specialize (Hm n Hn). by destruct (m n) as [[?|?] ?]. Qed.

(** Nothing of the node but its temporary files. *)
Lemma triple_tmp_remove (P : Node -> Prop) p (Q : () -> Node -> Prop) E :
  (forall n, P n -> Q tt (set_nd_tmp (delete p) n)) -> triple P (tmp_remove p) Q E.
Proof. apply triple_modify. Qed.
Lemma triple_tmp_write (P : Node -> Prop) p data (Q : () -> Node -> Prop) E :
  (forall n, P n -> Q tt (set_nd_tmp (<[p := data]>) n)) -> triple P (tmp_write p data) Q E.
Proof. apply triple_modify. Qed.
Lemma triple_tmp_read (P : Node -> Prop) p (E : Node -> Prop) :
  (forall n, P n -> E n) ->
  triple P (tmp_read p) (fun c n => P n /\ nd_tmp n !! p = Some c) E.
Proof. intros HE n Hn. unfold tmp_read, dbind, dgets. destruct (nd_tmp n !! p) eqn:Ep; simpl; auto. Qed.

(** ** The invariant *)

Section Facts.
Context `{NodeLaws} `{MediaLib}.
Context (genuine : string -> Prop).
Hypothesis no_collision : forall a b, genuine a -> genuine b -> sha256 a = sha256 b -> a = b.
Context (no_thumbs : bool) (c : MConfig) (q : MediaReq).

(** What the tools make of bytes in play is in play. *)
Record tools_ok : Prop := {
  ok_sharp : forall j x y, genuine x -> sharp j x = Ok y -> genuine y;
  ok_transcode : forall j x y, genuine x -> ffmpegTranscode j x = Some y -> genuine y;
  ok_frame : forall j x y, genuine x -> ffmpegFrame j x = Some y -> genuine y
}.
Hypothesis tools : tools_ok.

Definition img_path : string := md_optName q +:+ "." +:+ io_outputFormat (mc_image c).
Definition vid_path : string := md_optName q +:+ "." +:+ vo_format (mc_video c).
Definition thumb_path : string := md_thumbName q +:+ "." +:+ th_outputFormat (mc_thumbnail c).
Definition tmp_path : string := nq_ulid (md_req q).
Definition is_opt_path (p : string) : Prop := p = img_path \/ p = vid_path.

(** The names made up for the temporary files are different. *)
Definition names_ok : Prop :=
  forall p, is_opt_path p -> p <> thumb_path /\ p <> tmp_path.
Hypothesis names : names_ok.

(** Thumbnails are made only on a node that may have them. *)
Hypothesis thumbs : th_enabled (mc_thumbnail c) = true -> no_thumbs = false.

Notation inv := (inv genuine no_thumbs).

(** [data] is in the temporary file [p], and the tables satisfy [F]. *)
Definition holds (F : NodeDb -> Prop) (p data : string) (n : Node) : Prop :=
  (inv n /\ F (nd_db n)) /\ nd_tmp n !! p = Some data /\ genuine data.

Section Frame.
Context (F : NodeDb -> Prop).
#[local] Notation holds := (holds F).

Lemma inv_fault_free : fault_free inv.
Proof. by intros l n. Qed.
Lemma holds_fault_free p data : fault_free (holds p data).
Proof. intros l n Hn. exact Hn. Qed.
Lemma holds_inv p data n : holds p data n -> inv n.
Proof. by intros [[? _] _]. Qed.
Lemma holds_other p p' x data n : p <> p' -> holds p data n -> holds p data (set_nd_tmp (<[p' := x]>) n).
Proof. intros Hne (Hi & Hp & Hg). split; [exact Hi|]. split; [|done]. simpl. by rewrite lookup_insert_ne. Qed.
Lemma holds_remove p p' data n : p <> p' -> holds p data n -> holds p data (set_nd_tmp (delete p') n).
Proof. intros Hne (Hi & Hp & Hg). split; [exact Hi|]. split; [|done]. simpl. by rewrite lookup_delete_ne. Qed.

(** A tool: the input stays, and the output is what it made. *)
Lemma run_tool_spec out inp tool data :
  out <> inp -> (forall o, tool data = Ok o -> genuine o) ->
  triple (holds inp data) (run_tool out inp tool)
    (fun p n => p = out /\ holds inp data n /\ exists o, holds out o n) (holds inp data).
Proof.
  intros Hne Hg. unfold run_tool. eapply triple_bind.
  { apply (triple_tmp_write _ _ _ (fun _ n => holds inp data n)). intros n. by apply holds_other. }
  intros []. eapply triple_bind; [by apply triple_tmp_read|].
  intros content n [Hh Hc]. assert (content = data) as -> by (destruct Hh as (_ & Hd & _); congruence).
  destruct (tool data) as [o|e] eqn:Et; [|done]. simpl. split; [done|].
  split; [by apply holds_other|]. exists o. destruct Hh as (Hi & _ & _).
  split; [exact Hi|]. split; [|by apply Hg]. simpl. by rewrite lookup_insert_eq.
Qed.

Lemma transcode_genuine o data out :
  genuine data ->
  match ffmpegTranscode (transcode_job o data) data with Some x => Ok x | None => Throw "ffmpeg exited with non-zero status" end = Ok out ->
  genuine out.
Proof. intros Hg. case_match eqn:E; [|done]. intros [= <-]. by eapply (ok_transcode tools). Qed.

Lemma detectMimeType_spec p data :
  triple (holds p data) (detectMimeType p) (fun _ n => holds p data n) (holds p data).
Proof.
  unfold detectMimeType. destruct (if String.eqb _ _ then None else _); [by apply triple_ret|].
  eapply triple_bind; [by apply triple_tmp_read|]. intros content.
  destruct (String.eqb content ""); apply triple_ret; by intros n [? _].
Qed.

Lemma optimizeMedia_spec data :
  genuine data ->
  triple (holds tmp_path data) (optimizeMedia (md_optName q) (Some tmp_path) c)
    (fun p n => is_opt_path p /\ holds tmp_path data n /\ exists o, holds p o n) (holds tmp_path data).
Proof.
  intros Hg. unfold optimizeMedia. eapply triple_bind; [apply detectMimeType_spec|].
  intros mime. case_match; [|by apply triple_throw].
  apply (triple_catch _ _ _ _ (holds tmp_path data)); [|intros e; by apply triple_throw].
  assert (Hi : img_path <> tmp_path) by (apply (names img_path); by left).
  assert (Hv : vid_path <> tmp_path) by (apply (names vid_path); by right).
  repeat case_match; [..|by apply triple_throw].
  all: eapply triple_weaken; [apply run_tool_spec; [|] | done | | done].
  all: try (by intros p n (-> & ? & ?); split; [by (left + right)|]).
  all: try done.
  all: try (intros o; by apply (ok_sharp tools)).
  intros o. by apply transcode_genuine.
Qed.

(** ** Thumbnails *)

(** A prepared thumbnail describes the file it is in. *)
Definition prepared_ok (t : PreparedThumbnail) (n : Node) : Prop :=
  exists data m, holds thumb_path data n /\ pt_path t = thumb_path /\ pt_sha256 t = sha256 data /\
    pt_size t = Z.of_nat (String.length data) /\ pt_type t = blob_type m /\ pt_ext t = mimeToExt (Some m).

Lemma createThumbnail_spec p data mime :
  p <> thumb_path ->
  triple (holds p data) (createThumbnail (md_thumbName q) p mime (mc_thumbnail c))
    (fun t n => t = thumb_path /\ holds p data n /\ exists o, holds thumb_path o n) (holds p data).
Proof.
  intros Hne. unfold createThumbnail. repeat case_match; try by apply triple_throw.
  all: intros n Hn; eapply run_tool_spec; [done| |done].
  all: destruct Hn as (_ & _ & Hg); intros o.
  - by apply (ok_sharp tools).
  - case_match eqn:E; [|done]. intros [= <-]. by eapply (ok_frame tools).
Qed.

Lemma prepareThumbnail_spec p data mime :
  p <> thumb_path ->
  triple (holds p data) (prepareThumbnail (md_thumbName q) p mime c)
    (fun r n => holds p data n /\ forall t, r = Some t -> th_enabled (mc_thumbnail c) = true /\ prepared_ok t n)
    (holds p data).
Proof.
  intros Hne. unfold prepareThumbnail. destruct (th_enabled (mc_thumbnail c)) eqn:Een; simpl;
    [|apply triple_ret; by intros n Hn].
  eapply triple_bind; [by apply createThumbnail_spec|]. intros path.
  intros n (-> & Hh & (o & Ho)). pose proof Ho as (Hi & Ht & Hg).
  unfold dcatch, dbind, hashFile, tmp_read, dbind, dgets. simpl. rewrite Ht. simpl.
  split; [done|]. intros t [= <-]. split; [done|]. exists o, (detectOptimizedMime thumb_path). done.
Qed.

Lemma thumb_holds_remove t p n :
  p <> thumb_path -> prepared_ok t n -> prepared_ok t (set_nd_tmp (delete p) n).
Proof.
  intros Hne (data & m & Hh & ?). exists data, m. split; [|done]. by apply holds_remove.
Qed.
End Frame.

(** ** Committing *)

(** A file moves into place under its hash, or nothing happens to the blobs. *)
Lemma commitFile_cases F src data ext n :
  holds F src data n ->
  exists r n', commitFile c src (sha256 data) ext n = (r, n') /\ inv n' /\ nd_db n' = nd_db n /\
    (nd_tmp n' = nd_tmp n \/ nd_tmp n' = delete src (nd_tmp n)) /\
    (is_ok r = true -> nd_files n' !! blobPath (sha256 data) ext = Some data).
Proof.
  intros ([[Hc Ht] _] & Htmp & Hg). unfold commitFile, st_has, dbind, dgets. simpl.
  case_bool_decide as Hp; simpl.
  - destruct Hp as [data' Hf]. do 2 eexists. split_and!; [done|by split|done|by right|]. simpl. intros _.
    rewrite Hf. f_equal. destruct (file_hash genuine _ _ _ _ _ Hc (sha256_hex data) Hf) as [Hg' Hs].
    by apply no_collision.
  - destruct (mc_sameFs c); simpl.
    2:{ do 2 eexists. split_and!; [done|by split|done|by left|done]. }
    unfold tmp_read, dbind, dgets. rewrite Htmp. simpl. do 2 eexists.
    split_and!; [done| |done|by right|]; simpl; [|intros _; by rewrite lookup_insert_eq].
    split; [|done]. apply add_file_consistent; [done| |done]. by apply eq_None_not_Some.
Qed.

Lemma insertBlobRecord_spec F b :
  (forall d, F d -> F (set_t_accessed (<[br_sha256 b := br_uploaded b]>) (insert_row b d))) ->
  triple (fun n => (inv n /\ F (nd_db n)) /\ backed b (nd_db n) (nd_files n)) (insertBlobRecord b)
    (fun _ n => (inv n /\ F (nd_db n)) /\ is_Some (t_blobs (nd_db n) !! br_sha256 b)) (fun n => inv n /\ F (nd_db n)).
Proof.
  intros HF. apply triple_execute; [by intros l n|by intros n [? _]|].
  intros n [] d [[[Hc Ht] Hf] Hb] [= <-].
  pose proof (insert_row_present b (nd_db n)) as Hp. split; [|done]. split; [split|by apply HF].
  - destruct (insert_row_consistent genuine b _ _ Hb Hc) as [Hfi Hr Ho Ha Hd Hth]. split; simpl; try done.
    intros h t [[<- _]|[_ Hl]]%lookup_insert_Some; [done|by eapply Ha].
  - simpl. destruct (insert_row_fields b (nd_db n)) as (_ & _ & _ & ->). done.
Qed.

Lemma insertMediaThumbnail_spec (F : NodeDb -> Prop) p h :
  no_thumbs = false -> (forall g d, F d -> F (set_t_thumbnails g d)) ->
  triple (fun n => inv n /\ F (nd_db n)) (insertMediaThumbnail p h)
    (fun _ n => inv n /\ F (nd_db n)) (fun n => inv n /\ F (nd_db n)).
Proof.
  intros Hnt HF. apply triple_execute; [by intros l n|done|].
  intros n [] d [[Hc Ht] Hf] Hx. destruct (t_blobs (nd_db n) !! p) eqn:Ep; [|done].
  destruct (t_blobs (nd_db n) !! h) eqn:Eh; [|done]. injection Hx as <-.
  split; [|by apply HF]. split; [|intros; congruence].
  destruct Hc. split; simpl; try done.
  intros p' h' [[<- <-]|[_ Hl]]%lookup_insert_Some; [by rewrite Ep, Eh|by eapply co_thumbnails].
Qed.

(** Facts about the tables that storing a thumbnail does not disturb. *)
Definition thumb_stable (F : NodeDb -> Prop) : Prop :=
  (forall b u d, F d -> F (set_t_accessed (<[br_sha256 b := u]>) (insert_row b d))) /\
  (forall g d, F d -> F (set_t_thumbnails g d)).

Lemma store_thumbnail_spec F t parent now base :
  thumb_stable F -> th_enabled (mc_thumbnail c) = true ->
  triple (prepared_ok F t) (store_thumbnail c t parent now base)
    (fun _ n => inv n /\ F (nd_db n)) (fun n => inv n /\ F (nd_db n)).
Proof.
  intros [HF1 HF2] Hen. unfold store_thumbnail.
  apply (triple_catch _ _ _ _ (fun n => inv n /\ F (nd_db n))).
  2:{ intros e. eapply triple_bind; [by apply (triple_tmp_remove _ _ (fun _ n => inv n /\ F (nd_db n)))|].
      intros []. by apply triple_ret. }
  unfold storePreparedThumbnail.
  apply (triple_bind _ _ _ (fun _ n => inv n /\ F (nd_db n))); [|intros tag; by apply triple_ret].
  apply (triple_bind _ _ _ (fun _ n => (inv n /\ F (nd_db n)) /\
    backed {| br_sha256 := pt_sha256 t; br_size := pt_size t; br_type := pt_type t;
              br_uploaded := now; br_nip94 := optionalNip94Tags None (pt_dim t) None |} (nd_db n) (nd_files n))).
  { intros n (data & m & Hh & Hpath & Hsha & Hsz & Hty & Hext). rewrite Hpath, Hsha, Hext.
    destruct (commitFile_cases F _ _ (mimeToExt (Some m)) _ Hh) as (r & n' & -> & Hi & Hdb & _ & Hf).
    destruct Hh as ([_ HFn] & _ & Hg). destruct r as [[]|e]; rewrite ?Hdb; [|done].
    split; [done|]. right. cbn [br_sha256 br_type br_size]. rewrite ?Hsha, Hty, Hsz, mimeToExt_blob_type.
    split; [apply sha256_hex|]. exists data. by rewrite (Hf eq_refl). }
  intros []. eapply triple_bind; [by apply insertBlobRecord_spec; intros; apply HF1|]. intros [].
  apply (triple_bind _ _ _ (fun _ n => inv n /\ F (nd_db n))); [|intros []; by apply triple_ret].
  eapply triple_weaken; [apply (insertMediaThumbnail_spec F); [by apply thumbs|done]|by intros n [? _]|done|done].
Qed.

Lemma createAndStoreThumbnail_spec F p data mime parent now base :
  p <> thumb_path -> thumb_stable F ->
  triple (holds F p data) (createAndStoreThumbnail c (md_thumbName q) p mime parent now base)
    (fun _ n => inv n /\ F (nd_db n)) (fun n => inv n /\ F (nd_db n)).
Proof.
  intros Hne HF. unfold createAndStoreThumbnail. eapply triple_bind.
  { apply (triple_catch _ _ _ (fun r n => holds F p data n /\
      forall t, r = Some t -> th_enabled (mc_thumbnail c) = true /\ prepared_ok F t n) (holds F p data)).
    - by apply prepareThumbnail_spec.
    - intros e. by apply triple_ret. }
  intros [t|]; [|apply triple_ret; by intros n [[? _] _]].
  intros n [_ Ht]. destruct (Ht t eq_refl) as [Hen Hp]. by apply store_thumbnail_spec.
Qed.

(** ** What an acknowledged upload leaves in the tables *)

Definition row_sized (h : string) (size : Z) (d : NodeDb) : Prop :=
  exists r, t_blobs d !! h = Some r /\ r_size r = size.
Definition has_owner (auth : option Event) (h : string) (d : NodeDb) : Prop :=
  forall e, auth = Some e -> (h, ev_pubkey e) ∈ t_owners d.
Definition derived (orig h : string) (d : NodeDb) : Prop := t_derivatives d !! orig = Some h.

Definition media_stored (orig : string) (auth : option Event) (h : string) (size : Z) (d : NodeDb) : Prop :=
  row_sized h size d /\ derived orig h d /\ has_owner auth h d.

Lemma insert_row_sized b h size d : row_sized h size d -> row_sized h size (insert_row b d).
Proof. intros (r & Hr & Hs). exists r. split; [by apply insert_row_keeps|done]. Qed.

Lemma stored_stable orig auth h size : thumb_stable (media_stored orig auth h size).
Proof.
  split; [|by intros g d].
  intros b u d (Hr & Hd & Ho). destruct (insert_row_fields b d) as (E1 & _ & E3 & _).
  split_and!.
  - by apply (insert_row_sized b) in Hr.
  - unfold derived in *. simpl. by rewrite E3.
  - intros e He. simpl. rewrite E1. by apply Ho.
Qed.

(** An owner is added to a row that is there. *)
Lemma add_owner_spec (G : Node -> Prop) auth b orig size :
  (forall n d, G n -> G (set_nd_db d n)) -> fault_free G ->
  triple (fun n => (inv n /\ row_sized (br_sha256 b) size (nd_db n) /\ derived orig (br_sha256 b) (nd_db n)) /\ G n)
    (add_owner auth (br_sha256 b) b)
    (fun _ n => (inv n /\ media_stored orig auth (br_sha256 b) size (nd_db n)) /\ G n) inv.
Proof.
  intros HG HGf. unfold add_owner. destruct auth as [e|].
  2:{ apply triple_ret. intros n [(Hi & Hr & Hd) Hg]. by split_and!. }
  eapply triple_bind.
  { eapply triple_weaken; [apply (triple_query (fun n => (inv n /\ row_sized (br_sha256 b) size (nd_db n) /\
      derived orig (br_sha256 b) (nd_db n)) /\ G n))|done|done|by intros n [[? _] _]].
    intros l n [Hn Hg]. split; [exact Hn|by apply HGf]. }
  intros own n [[(Hi & Hr & Hd) Hg] ->]. case_bool_decide as Ho.
  { simpl. split; [|done]. split; [done|]. split_and!; [done|done|]. by intros ? [= <-]. }
  destruct Hr as (row & Hrow & Hsize).
  pose proof (insertBlob_inv genuine no_thumbs b (ev_pubkey e) n) as Hin. unfold insertBlob, execute in *.
  destruct (match nd_faults n with b :: _ => b | [] => false end); [done|]. simpl in *.
  destruct (insert_row_fields b (nd_db n)) as (E1 & _ & E3 & _). split.
  - split; [apply Hin; [left; by rewrite Hrow|done]|]. split_and!.
    + apply (insert_row_sized b). by exists row.
    + unfold derived. simpl. by rewrite E3.
    + intros ? [= <-]. simpl. set_solver.
  - apply (HG (set_nd_faults (tail (nd_faults n)) n)), HGf, Hg.
Qed.

Lemma insertMediaDerivative_spec (G : Node -> Prop) orig h size :
  (forall n d, G n -> G (set_nd_db d n)) -> fault_free G ->
  triple (fun n => (inv n /\ row_sized h size (nd_db n) /\ t_derivatives (nd_db n) !! orig = None) /\ G n)
    (insertMediaDerivative orig h)
    (fun _ n => (inv n /\ row_sized h size (nd_db n) /\ derived orig h (nd_db n)) /\ G n) inv.
Proof.
  intros HG HGf. apply triple_execute; [intros l n [Hn Hg]; split; [exact Hn|by apply HGf] | by intros n [[? _] _] |].
  intros n [] d [(Hi & (r & Hr & Hs) & Hn) Hg] Hx. rewrite Hn, Hr in Hx. injection Hx as <-.
  split; [|by apply HG]. split_and!.
  - destruct Hi as [Hc Ht]. split; [|done]. destruct Hc. split; simpl; try done.
    intros o h' [[<- <-]|[_ Hl]]%lookup_insert_Some; [by rewrite Hr|by eapply co_derivatives].
  - by exists r.
  - unfold derived. simpl. by rewrite lookup_insert_eq.
Qed.

(** ** The steps of the route *)

(** The answer keeps the invariant, and a 201 says what is stored. *)
Definition answered (orig : string) (auth : option Event) (resp : nresp NDescriptor) (n : Node) : Prop :=
  inv n /\ forall st d, resp = NRes st d -> media_stored orig auth (nds_sha256 d) (nds_size d) (nd_db n).

Lemma answered_error orig auth st m n : inv n -> answered orig auth (NErr st m) n.
Proof. by split. Qed.

Lemma answered_reply orig auth cfg r b o t n :
  inv n /\ media_stored orig auth (br_sha256 b) (br_size b) (nd_db n) -> answered orig auth (media_reply cfg r b o t) n.
Proof. intros [Hi Hs]. split; [done|]. by intros st d [= _ <-]. Qed.

Lemma getThumbnailTag_spec (P : Node -> Prop) parent base :
  fault_free P -> triple P (getThumbnailTag parent base) (fun _ n => P n) P.
Proof.
  intros HP. unfold getThumbnailTag, getMediaThumbnail. eapply triple_bind; [by apply triple_query|].
  intros t. apply triple_ret. by intros n [? _].
Qed.

Lemma getBlob_spec (P : Node -> Prop) h :
  fault_free P ->
  triple P (getBlob h)
    (fun r n => P n /\ match r with
                       | Some b => br_sha256 b = h /\ row_sized h (br_size b) (nd_db n)
                       | None => t_blobs (nd_db n) !! h = None
                       end) P.
Proof.
  intros HP. eapply triple_weaken; [by apply triple_query|done| |done].
  intros r n [Hn ->]. split; [done|]. destruct (t_blobs (nd_db n) !! h) as [row|] eqn:Er; [|done].
  simpl. split; [done|]. by exists row.
Qed.

(** A known original: its derivative is answered. *)
Lemma media_known_spec cfg r auth orig h :
  triple (fun n => inv n /\ derived orig h (nd_db n)) (media_known cfg r auth orig h)
    (fun res n => inv n /\ forall resp, res = Some resp -> answered orig auth resp n) inv.
Proof.
  unfold media_known. eapply triple_bind.
  { eapply triple_weaken; [apply (getBlob_spec (fun n => inv n /\ derived orig h (nd_db n)))|done|done|by intros n [? _]].
    intros l n Hn. exact Hn. }
  intros [b|]; [|apply triple_ret; by intros n [[? _] _]].
  intros n [[Hi Hd] [<- Hrow]]. revert n Hi Hd Hrow.
  cut (triple (fun n => (inv n /\ row_sized (br_sha256 b) (br_size b) (nd_db n) /\ derived orig (br_sha256 b) (nd_db n)) /\ True)
    (do* _ := add_owner auth (br_sha256 b) b in
     do* thumbnail := getThumbnailTag (br_sha256 b) (getBaseUrl cfg r) in
     dret (Some (media_reply cfg r b (Some orig) thumbnail)))%D
    (fun res n => inv n /\ forall resp, res = Some resp -> answered orig auth resp n) inv).
  { intros Ht n Hi Hd Hrow. by apply (Ht n). }
  eapply triple_bind; [by apply (add_owner_spec (fun _ => True))|]. intros [].
  eapply triple_bind.
  { eapply triple_weaken; [apply (getThumbnailTag_spec (fun n => (inv n /\ media_stored orig auth (br_sha256 b) (br_size b) (nd_db n)) /\ True))|done|done|by intros n [[? _] _]].
    intros l n Hn. exact Hn. }
  intros t. apply triple_ret. intros n [Hs _]. split; [by destruct Hs|].
  intros resp [= <-]. by apply answered_reply.
Qed.

(** The optimised bytes are stored already: the mapping, the owner and perhaps a
    thumbnail are added. *)
Lemma media_dedup_spec now cfg auth orig p data :
  p <> thumb_path ->
  triple (holds (fun d => t_derivatives d !! orig = None) p data)
    (media_dedup now cfg c q auth orig (sha256 data) p)
    (fun res n => match res with
                  | Some resp => answered orig auth resp n
                  | None => holds (fun d => t_derivatives d !! orig = None) p data n
                  end) inv.
Proof.
  intros Hne. unfold media_dedup. set (Hold := holds (fun d => t_derivatives d !! orig = None) p data).
  assert (Hff : fault_free Hold) by (intros l n Hn; exact Hn).
  assert (HE : forall n, Hold n -> inv n) by (by intros n [[? _] _]).
  eapply triple_bind; [eapply triple_weaken; [by apply (triple_query Hold)|done|done|done]|].
  intros known. destruct known; simpl negb.
  2:{ apply triple_ret. by intros n [? _]. }
  eapply triple_bind.
  { eapply triple_weaken; [apply (getBlob_spec (fun n => Hold n /\ is_Some (t_blobs (nd_db n) !! sha256 data)))| |done|intros n [? _]; by apply HE].
    - intros l n Hn. exact Hn.
    - intros n [Hn Hk]. split; [done|]. symmetry in Hk. by apply bool_decide_eq_true in Hk. }
  intros [b|].
  2:{ intros n [[_ [? Hs]] Hnone]. by rewrite Hnone in Hs. }
  intros n [[Hn _] [Hbh Hrow]]. rewrite <- Hbh in *. revert n Hn Hrow.
  set (G := fun n : Node => nd_tmp n !! p = Some data /\ genuine data).
  cut (triple (fun n => (inv n /\ row_sized (br_sha256 b) (br_size b) (nd_db n) /\ t_derivatives (nd_db n) !! orig = None) /\ G n)
    (do* _ := insertMediaDerivative orig (br_sha256 b) in
     do* _ := add_owner auth (br_sha256 b) b in
     let baseUrl := getBaseUrl cfg (md_req q) in
     do* tag := getThumbnailTag (br_sha256 b) baseUrl in
     do* tag := match tag with
                | Some t => dret (Some t)
                | None => createAndStoreThumbnail c (md_thumbName q) p (br_type b) (br_sha256 b) now baseUrl
                end in
     do* _ := tmp_remove p in
     dret (Some (media_reply cfg (md_req q) b (Some orig) tag)))%D
    (fun res n => match res with
                  | Some resp => answered orig auth resp n
                  | None => holds (fun d => t_derivatives d !! orig = None) p data n
                  end) inv).
  { intros Ht n ([Hi Hd] & Hp & Hg) Hrow. by apply (Ht n). }
  eapply triple_bind; [apply (insertMediaDerivative_spec G); intros ? ? Hx; exact Hx|]. intros [].
  eapply triple_bind; [apply (add_owner_spec G); intros ? ? Hx; exact Hx|]. intros []. cbv zeta.
  set (F := media_stored orig auth (br_sha256 b) (br_size b)).
  eapply triple_bind.
  { eapply triple_weaken; [apply (getThumbnailTag_spec (holds F p data))|done|done|by intros n [[? _] _]].
    intros l n Hn. exact Hn. }
  intros tag. apply (triple_bind _ _ _ (fun _ n => inv n /\ F (nd_db n))).
  { destruct tag as [t|]; [apply triple_ret; by intros n [? _]|].
    eapply triple_weaken; [apply (createAndStoreThumbnail_spec F p data); [done|apply stored_stable]|done|done|by intros n [? _]]. }
  intros tag'. apply (triple_bind _ _ _ (fun _ n => inv n /\ F (nd_db n))).
  { apply triple_tmp_remove. intros n Hn. exact Hn. }
  intros []. apply triple_ret. intros n Hn. by apply answered_reply.
Qed.

(** The record of a committed file is inserted. *)
Lemma insert_committed_spec (G : Node -> Prop) auth orig b data n :
  inv n -> t_derivatives (nd_db n) !! orig = None -> G n -> genuine data ->
  (forall n d, G n -> G (set_nd_db d n)) -> fault_free G ->
  br_sha256 b = sha256 data -> br_size b = Z.of_nat (String.length data) ->
  nd_files n !! blobPath (br_sha256 b) (mimeToExt (br_type b)) = Some data ->
  match insertBlob b (default "anonymous" (ev_pubkey <$> auth)) n with
  | (Ok _, n') => (inv n' /\ row_sized (br_sha256 b) (br_size b) (nd_db n') /\ t_derivatives (nd_db n') !! orig = None) /\
                  G n' /\ has_owner auth (br_sha256 b) (nd_db n')
  | (Throw _, n') => inv n'
  end.
Proof.
  intros Hi Hd HG Hg HGdb HGf Hsha Hsz Hfile.
  pose proof (insertBlob_inv genuine no_thumbs b (default "anonymous" (ev_pubkey <$> auth)) n) as Hin.
  assert (Hb : backed b (nd_db n) (nd_files n)).
  { right. rewrite Hsha. split; [apply sha256_hex|]. exists data. by rewrite <- Hsha. }
  specialize (Hin Hb Hi). unfold insertBlob, execute in *.
  destruct (match nd_faults n with b :: _ => b | [] => false end); [done|]. simpl in *.
  destruct (insert_row_fields b (nd_db n)) as (E1 & _ & E3 & _). split_and!.
  - done.
  - unfold row_sized. simpl. unfold insert_row. destruct (t_blobs (nd_db n) !! br_sha256 b) as [r|] eqn:Er.
    + exists r. split; [done|]. destruct Hi as [Hc _].
      destruct (co_rows _ _ _ Hc _ _ Er) as (_ & data' & Hf & Hs & Hr).
      rewrite Hsha in Hf. destruct (file_hash genuine _ _ _ _ _ Hc (sha256_hex data) Hf) as [Hg' Hs'].
      rewrite Hr, Hsz. by rewrite (no_collision data' data).
    + exists (row_of b). simpl. by rewrite lookup_insert_eq.
  - simpl. by rewrite E3.
  - apply (HGdb (set_nd_faults (tail (nd_faults n)) n)), HGf, HG.
  - intros e ->. simpl. set_solver.
Qed.

(** The part of [prepared_ok] that is about the temporary file. *)
Definition prepared_tmp (t : PreparedThumbnail) (n : Node) : Prop :=
  exists data m, (nd_tmp n !! thumb_path = Some data /\ genuine data) /\ pt_path t = thumb_path /\
    pt_sha256 t = sha256 data /\ pt_size t = Z.of_nat (String.length data) /\
    pt_type t = blob_type m /\ pt_ext t = mimeToExt (Some m).

Lemma prepared_ok_tmp F t n : prepared_ok F t n <-> (inv n /\ F (nd_db n)) /\ prepared_tmp t n.
Proof.
  split.
  - intros (data & m & (Hi & Ht) & Hrest). split; [done|]. exists data, m. exact (conj Ht Hrest).
  - intros (Hi & data & m & Ht & Hrest). exists data, m. exact (conj (conj Hi Ht) Hrest).
Qed.

Definition pending (prepared : option PreparedThumbnail) (n : Node) : Prop :=
  forall t, prepared = Some t -> th_enabled (mc_thumbnail c) = true /\ prepared_tmp t n.

Lemma pending_tmp prepared n n' :
  nd_tmp n' !! thumb_path = nd_tmp n !! thumb_path -> pending prepared n -> pending prepared n'.
Proof.
  intros Heq Hp t Ht. destruct (Hp t Ht) as [Hen (data & m & [Hd Hg] & Hrest)]. split; [done|].
  exists data, m. rewrite Heq. done.
Qed.

(** The tail of the route, from the committed file on. *)
Lemma media_record_spec now cfg auth orig b base prepared :
  triple (fun n => (inv n /\ row_sized (br_sha256 b) (br_size b) (nd_db n) /\ t_derivatives (nd_db n) !! orig = None) /\
                   pending prepared n /\ has_owner auth (br_sha256 b) (nd_db n))
    (do* _ := insertMediaDerivative orig (br_sha256 b) in
     do* tag := match prepared with
                | Some t => store_thumbnail c t (br_sha256 b) now base
                | None => dret None
                end in
     dret (media_reply cfg (md_req q) b None tag))%D
    (answered orig auth) inv.
Proof.
  set (F := media_stored orig auth (br_sha256 b) (br_size b)).
  apply (triple_bind _ _ _ (fun _ n => (inv n /\ F (nd_db n)) /\ pending prepared n)).
  { apply triple_execute.
    - intros l n Hn. exact Hn.
    - by intros n [[? _] _].
    - intros n [] d [(Hi & (r & Hr & Hs) & Hn) [Hp Ho]] Hx. rewrite Hn, Hr in Hx. injection Hx as <-.
      split; [split|exact Hp].
      + destruct Hi as [Hc Ht]. split; [|done]. destruct Hc. split; simpl; try done.
        intros o h' [[<- <-]|[_ Hl]]%lookup_insert_Some; [by rewrite Hr|by eapply co_derivatives].
      + split_and!; [by exists r| |done]. unfold derived. simpl. by rewrite lookup_insert_eq. }
  intros []. apply (triple_bind _ _ _ (fun _ n => inv n /\ F (nd_db n))).
  { destruct prepared as [t|]; [|apply triple_ret; by intros n [? _]].
    intros n [Hn Hp]. destruct (Hp t eq_refl) as [Hen Ht].
    pose proof (store_thumbnail_spec F t (br_sha256 b) now base (stored_stable _ _ _ _) Hen n) as Hst.
    rewrite prepared_ok_tmp in Hst. specialize (Hst (conj Hn Ht)).
    destruct (store_thumbnail _ _ _ _ _ _) as [[?|?] ?]; [done|]. by destruct Hst. }
  intros tag. apply triple_ret. intros n Hn. by apply answered_reply.
Qed.

Lemma media_store_spec now cfg auth orig p data :
  p <> thumb_path ->
  triple (holds (fun d => t_derivatives d !! orig = None) p data)
    (media_store now cfg c q auth orig (sha256 data) (Z.of_nat (String.length data)) p)
    (answered orig auth) inv.
Proof.
  intros Hne. unfold media_store. set (F := fun d => t_derivatives d !! orig = None).
  eapply triple_bind; [apply (triple_gets (holds F p data))|]. intros dim.
  eapply triple_bind.
  { apply (triple_catch _ _ _ (fun r n => holds F p data n /\
      forall t, r = Some t -> th_enabled (mc_thumbnail c) = true /\ prepared_ok F t n) (holds F p data)).
    - eapply triple_weaken; [by apply prepareThumbnail_spec|by intros n [? _]|done|done].
    - intros e. by apply triple_ret. }
  intros prepared n [Hh Hp].
  assert (Hpend : pending prepared n).
  { intros t Ht. destruct (Hp t Ht) as [? [_ ?]%prepared_ok_tmp]. done. }
  destruct (commitFile_cases F _ _ (mimeToExt (Some (detectOptimizedMime p))) _ Hh)
    as (r & n' & Hc & Hi & Hdb & Htmp & Hf).
  assert (Hpend' : pending prepared n').
  { eapply pending_tmp; [|done]. destruct Htmp as [->| ->]; [done|]. by rewrite lookup_delete_ne. }
  destruct Hh as ([_ HF] & _ & Hg). unfold F in HF. rewrite <- Hdb in HF.
  unfold dbind at 1, dcatch. rewrite Hc. destruct r as [[]|e].
  2:{ unfold dbind, tmp_remove, dmodify, dthrow. by destruct prepared. }
  specialize (Hf eq_refl).
  set (b := {| br_sha256 := sha256 data; br_size := Z.of_nat (String.length data);
               br_type := blob_type (detectOptimizedMime p); br_uploaded := now;
               br_nip94 := optionalNip94Tags (Some orig) dim None |}).
  pose proof (insert_committed_spec (pending prepared) auth orig b data n' Hi HF Hpend' Hg
    (fun _ _ Hx => Hx) (fun _ _ Hx => Hx) eq_refl eq_refl) as Hins.
  cbn [b br_sha256 br_type] in Hins. rewrite mimeToExt_blob_type in Hins. specialize (Hins Hf).
  unfold dbind at 1. destruct (insertBlob b _ n') as [[[]|e] n2]; [|exact Hins].
  by apply (media_record_spec now cfg auth orig b (getBaseUrl cfg (md_req q)) prepared n2).
Qed.

Lemma removing_spec {A} (P : Node -> Prop) p (m : D A) Q : triple P m Q inv -> triple P (removing_on_throw p m) Q inv.
Proof.
  intros Hm. apply (triple_catch _ _ _ _ inv); [done|]. intros e.
  apply (triple_bind _ _ _ (fun _ n => inv n)); [by apply triple_tmp_remove|]. intros []. by apply triple_throw.
Qed.

Lemma media_optimized_spec now cfg auth orig p data :
  p <> thumb_path ->
  triple (holds (fun d => t_derivatives d !! orig = None) p data) (media_optimized now cfg c q auth orig p)
    (answered orig auth) inv.
Proof.
  intros Hne n Hn. unfold media_optimized. unfold dbind at 1, dcatch at 1, dbind at 1, hashFile, tmp_read.
  unfold dbind at 1, dbind at 1, dgets. pose proof (proj1 (proj2 Hn)) as Ht. rewrite Ht. simpl. revert n Hn Ht.
  cut (triple (holds (fun d => t_derivatives d !! orig = None) p data)
    (removing_on_throw p (
        do* dup := media_dedup now cfg c q auth orig (sha256 data) p in
        match dup with
        | Some resp => dret resp
        | None => media_store now cfg c q auth orig (sha256 data) (Z.of_nat (String.length data)) p
        end)%D) (answered orig auth) inv).
  { intros Hr n Hn _. by apply Hr. }
  apply removing_spec. eapply triple_bind; [by apply media_dedup_spec|].
  intros [resp|]; [by apply triple_ret|]. by apply media_store_spec.
Qed.

Lemma media_optimize_spec now cfg auth orig data :
  genuine data ->
  triple (holds (fun d => t_derivatives d !! orig = None) tmp_path data)
    (media_optimize now cfg c q auth orig (Some tmp_path)) (answered orig auth) inv.
Proof.
  intros Hg. set (F := fun d => t_derivatives d !! orig = None). unfold media_optimize.
  apply (triple_bind _ _ _ (fun r n => match r with
    | inl p => is_opt_path p /\ holds F tmp_path data n /\ exists o, holds F p o n
    | inr _ => inv n
    end)).
  { apply (triple_catch _ _ _ _ inv); [|intros e; by apply triple_ret].
    apply (triple_bind _ _ _ (fun p n => is_opt_path p /\ holds F tmp_path data n /\ exists o, holds F p o n));
      [|intros p; by apply triple_ret].
    eapply triple_weaken; [by apply optimizeMedia_spec|done|done|by intros n [[? _] _]]. }
  intros [p|e]; [|apply triple_ret; by intros; apply answered_error].
  intros n (Hp & Hh & o & Ho). destruct (names p Hp) as [Hpt Hpm].
  unfold dbind, tmp_remove, dmodify.
  apply (media_optimized_spec now cfg auth orig p o Hpt (set_nd_tmp (delete tmp_path) n)).
  by apply holds_remove.
Qed.

Lemma media_hashed_spec now cfg auth data :
  genuine data ->
  triple (holds (fun _ => True) tmp_path data) (media_hashed now cfg c q auth tmp_path (sha256 data))
    (answered (sha256 data) auth) inv.
Proof.
  intros Hg. unfold media_hashed. set (orig := sha256 data). destruct (media_x_tags auth orig) as [resp|] eqn:Ex.
  { apply (triple_bind _ _ _ (fun _ n => inv n)); [apply triple_tmp_remove; by intros n [[? _] _]|].
    intros []. apply triple_ret. intros n Hn. unfold media_x_tags in Ex.
    destruct auth as [e|]; [|done]. repeat case_match; try done; injection Ex as <-; by apply answered_error. }
  eapply triple_bind.
  { apply removing_spec. eapply triple_weaken; [apply (triple_query (holds (fun _ => True) tmp_path data))|done|done|by intros n [[? _] _]].
    intros l n Hn. exact Hn. }
  intros der n [Hn Hder]. destruct (truthy_str der) as [h|] eqn:Et.
  - assert (der = Some h) as -> by (destruct der; cbn in Et; [case_match; by simplify_eq|done]).
    unfold dbind at 1, tmp_remove at 1, dmodify at 1.
    pose proof (media_known_spec cfg (md_req q) auth orig h (set_nd_tmp (delete tmp_path) n)) as Hk.
    specialize (Hk (conj (proj1 (proj1 Hn)) (eq_sym Hder))). unfold dbind at 1.
    destruct (media_known _ _ _ _ _ _) as [[[resp|]|e] n']; [|simpl|done].
    + by apply Hk.
    + destruct Hk as [Hi _]. by apply answered_error.
  - apply (media_optimize_spec now cfg auth orig data Hg n). destruct Hn as ([[Hc Ht] _] & Hp & _).
    split; [|done]. split; [done|]. destruct der as [h|]; [|done].
    cbn in Et. destruct (String.eqb_spec h "") as [->|]; [|done]. symmetry in Hder.
    destruct (co_derivatives _ _ _ Hc _ _ Hder) as [r Hr]. by destruct (co_rows _ _ _ Hc _ _ Hr) as [? _].
Qed.

Lemma media_work_spec now cfg a :
  (forall chunks, ma_body a = (chunks, false) -> genuine (String.concat "" chunks)) ->
  triple inv (media_work now cfg c q a)
    (fun resp n => inv n /\ forall st d, resp = NRes st d -> exists chunks, ma_body a = (chunks, false) /\
       media_stored (sha256 (String.concat "" chunks)) (ma_auth a) (nds_sha256 d) (nds_size d) (nd_db n)) inv.
Proof.
  intros Hb n Hn. unfold media_work, beginWrite, dbind, dmodify, dret. cbn [fst snd].
  destruct (negb _); [done|]. unfold runJob. destruct (ma_body a) as [chunks broken] eqn:Eb. cbn [fst snd].
  destruct broken; [done|]. unfold dbind, dmodify, dret. cbn [fst snd].
  destruct (match ma_xSha256 a with Some x => _ | None => _ end); [done|].
  specialize (Hb chunks eq_refl).
  pose proof (media_hashed_spec now cfg (ma_auth a) (String.concat "" chunks) Hb
    (set_nd_tmp (<[nq_ulid (md_req q) := String.concat "" chunks]>) (set_nd_tmp (<[nq_ulid (md_req q) := ""]>) n))) as Hm.
  cbn [set_nd_tmp nd_db nd_files nd_tmp nd_faults] in *.
  match type of Hm with ?P -> _ => assert P as HP end.
  { split; [done|]. split; [|done]. simpl. by rewrite lookup_insert_eq. }
  specialize (Hm HP). destruct (media_hashed _ _ _ _ _ _ _ _) as [[resp|e] n']; [|done].
  destruct Hm as [Hi Hs]. split; [done|]. intros st d ->. exists chunks. split; [done|]. by eapply Hs.
Qed.

Lemma media_checks_auth cfg ctx r a :
  media_checks cfg c ctx r = inr a -> ma_auth a = optionalAuth ctx /\ nq_body r = Some (ma_body a).
Proof.
  unfold media_checks, auth_if, requireAuth. destruct (mc_enabled c); simpl; [|done].
  destruct (mc_requireAuth c), ctx as [[e t]|]; simpl; repeat case_match; intros Heq; simplify_eq; done.
Qed.

Lemma media_checks_refuses cfg ctx r st d : media_checks cfg c ctx r <> inl (NRes st d).
Proof.
  unfold media_checks. assert (Hn : forall m, no_rule cfg m <> NRes st d) by (intros m; unfold no_rule; by case_match).
  unfold media_disabled, media_busy. repeat case_match; intros [= Heq]; by (try apply Hn in Heq).
Qed.

Lemma putMedia_spec now cfg ctx :
  body_ok genuine (md_req q) ->
  triple inv (putMedia now cfg c ctx q)
    (fun resp n => inv n /\ forall st d, resp = NRes st d -> exists chunks, nq_body (md_req q) = Some (chunks, false) /\
       media_stored (sha256 (String.concat "" chunks)) (optionalAuth ctx) (nds_sha256 d) (nds_size d) (nd_db n)) inv.
Proof.
  intros Hb. unfold putMedia. destruct (media_checks cfg c ctx (md_req q)) as [resp|a] eqn:Ec.
  { apply triple_ret. intros n Hn. split; [done|]. intros st d ->. by apply media_checks_refuses in Ec. }
  apply media_checks_auth in Ec as [Ha Hbody]. rewrite <- Ha, Hbody.
  apply (triple_catch _ _ _ _ inv); [|intros e; apply triple_ret; by split].
  eapply triple_weaken; [apply media_work_spec|done| |done].
  - intros chunks Hc. apply Hb. by rewrite Hbody, Hc.
  - intros resp n [Hi Hs]. split; [done|]. intros st d Hr. destruct (Hs st d Hr) as (chunks & Hc & Hst).
    exists chunks. by rewrite Hc.
Qed.
End Facts.

(** A media upload within the assumptions: bytes, tools and names. *)
Record media_ok `{NodeLaws} `{MediaLib} (genuine : string -> Prop) (no_thumbs : bool) (c : MConfig) (q : MediaReq) : Prop := {
  mo_body : body_ok genuine (md_req q);
  mo_tools : tools_ok genuine;
  mo_names : names_ok c q;
  mo_thumbs : th_enabled (mc_thumbnail c) = true -> no_thumbs = false
}.

Section Results.
Context `{NodeLaws} `{MediaLib}.
Context (genuine : string -> Prop).
Hypothesis no_collision : forall a b, genuine a -> genuine b -> sha256 a = sha256 b -> a = b.

Lemma putMedia_inv no_thumbs now cfg c ctx q :
  media_ok genuine no_thumbs c q -> dkeeps (inv genuine no_thumbs) (putMedia now cfg c ctx q).
Proof.
  intros [Hb Ht Hn Hth] n Hi.
  pose proof (putMedia_spec genuine no_collision no_thumbs c q Ht Hn Hth now cfg ctx Hb n Hi) as Hs.
  destruct (putMedia now cfg c ctx q n) as [[resp|e] n']; [|done]. by destruct Hs.
Qed.

(** C25: an acknowledged media upload is stored and remembered. When PUT /media
    answers with a descriptor, the blob it names is in the table with its size,
    its file holds bytes with that hash, the original is recorded as its source,
    so that the same upload finds it again, and an authenticated uploader owns
    it. This holds whatever statements failed on the way. *)
Theorem media_acknowledged no_thumbs now cfg c ctx q n st d n' :
  media_ok genuine no_thumbs c q ->
  node_ok genuine n -> (no_thumbs = true -> t_thumbnails (nd_db n) = ∅) ->
  putMedia now cfg c ctx q n = (Ok (NRes st d), n') ->
  exists chunks row data,
    nq_body (md_req q) = Some (chunks, false) /\
    t_blobs (nd_db n') !! nds_sha256 d = Some row /\
    nd_files n' !! blobPath (nds_sha256 d) (mimeToExt (r_type row)) = Some data /\
    sha256 data = nds_sha256 d /\ nds_size d = Z.of_nat (String.length data) /\
    t_derivatives (nd_db n') !! sha256 (String.concat "" chunks) = Some (nds_sha256 d) /\
    forall e, optionalAuth ctx = Some e -> (nds_sha256 d, ev_pubkey e) ∈ t_owners (nd_db n').
Proof.
  intros [Hb Ht Hn Hth] Hok Hnt Hput.
  pose proof (putMedia_spec genuine no_collision no_thumbs c q Ht Hn Hth now cfg ctx Hb n (conj Hok Hnt)) as Hs.
  rewrite Hput in Hs. destruct Hs as [[Hc _] Hs].
  destruct (Hs st d eq_refl) as (chunks & Hbody & (row & Hrow & Hsz) & Hder & Hown).
  destruct (co_rows _ _ _ Hc _ _ Hrow) as (_ & data & Hf & Hsha & Hlen).
  exists chunks, row, data. split_and!; try done. congruence.
Qed.
End Results.

(** ** Arguments of the tools *)

Lemma crf_bounds quality : 0 <= quality <= 100 -> 0 <= crf_of quality <= 51.
Proof. intros Hq. unfold crf_of. dlia. Qed.

Lemma crf_antitone q1 q2 : q1 <= q2 -> crf_of q2 <= crf_of q1.
Proof. intros Hq. unfold crf_of. apply Z.div_le_mono; lia. Qed.

Lemma ffmpegQuality_bounds format quality v :
  ffmpegQuality format quality = Some v -> 2 <= v <= 31.
Proof. unfold ffmpegQuality. case_match; [done|]. intros [= <-]. lia. Qed.
