(* ===== verification/NodeReports.v ===== *)
(** * Reports about blobs (storage-client/blossom/src/routes/report.ts, db/reports.ts)

    PUT /report takes a signed event with the hashes of the blobs it is about
    and writes one row per hash. Whether the event is validly signed is
    [verifyJson], the library's [verifyEvent] on an untyped object (false when
    it throws). SQLite does not say what an ignored insertion does to the
    AUTOINCREMENT counter; it is [seq_after_ignore]. *)

From Stdlib Require Import Ascii.
From S2P Require Import Prelude Js Nip98 NodeRules NodeDb NodeApi NodePrune NodeFacts.

Class ReportLib := {
  verifyJson : jsval -> bool;
  seq_after_ignore : Z -> Z
}.
Class ReportLaws `{ReportLib} := {
  seq_grows : forall s, s <= seq_after_ignore s
}.

Definition REPORT_TYPES : list string :=
  ["nudity"; "malware"; "profanity"; "illegal"; "spam"; "impersonation"; "other"].

(** A row without its id. *)
Record NewReport := {
  nr_event_id : string;
  nr_reporter : string;
  nr_blob : string;
  nr_type : option string;
  nr_content : string;
  nr_created : num
}.

Definition report_row (id : Z) (r : NewReport) : ReportRecord :=
  {| rp_id := id; rp_event_id := nr_event_id r; rp_reporter := nr_reporter r; rp_blob := nr_blob r;
     rp_type := nr_type r; rp_content := nr_content r; rp_created := nr_created r |}.

(** The UNIQUE constraint. *)
Definition report_key (r : ReportRecord) : string * string := (rp_event_id r, rp_blob r).

Record ReportReq := { rq_req : NReq; rq_json : option jsval }.

(** The body of an accepted report: event id, reporter, text, date and the
    reported hashes with their types. *)
Record ReportEvent := {
  re_id : string;
  re_pubkey : string;
  re_content : string;
  re_created : num;
  re_x : list (string * option string)
}.

Section Reports.
Context `{ReportLib}.

(** ** db/reports.ts *)

(** INSERT OR IGNORE *)
Definition insert_report (r : NewReport) (d : NodeDb) : NodeDb :=
  if decide ((nr_event_id r, nr_blob r) ∈ report_key <$> t_reports d)
  then set_t_reports id (seq_after_ignore (t_report_seq d)) d
  else set_t_reports (fun l => l ++ [report_row (t_report_seq d + 1) r]) (t_report_seq d + 1) d.

Definition insertReport (r : NewReport) : D unit := execute (fun d => Some (tt, insert_report r d)).

Definition getReport (id : Z) : D (option ReportRecord) :=
  query (fun d => head (filter (fun r => rp_id r = id) (t_reports d))).

Definition deleteReport (id : Z) : D bool :=
  execute (fun d =>
    Some (bool_decide (Exists (fun r => rp_id r = id) (t_reports d)),
          set_t_reports (filter (fun r => rp_id r <> id)) (t_report_seq d) d)).

Definition deleteReportsByBlob (blob : string) : D unit :=
  execute (fun d => Some (tt, set_t_reports (filter (fun r => rp_blob r <> blob)) (t_report_seq d) d)).

(** The filter of the dashboard: a piece of hash or reporter, a hash, a type. *)
Record ReportFilter := { rf_q : option string; rf_blob : option string; rf_type : option string }.

Definition report_matches (f : ReportFilter) (r : ReportRecord) : bool :=
  match truthy_str (rf_q f) with
  | Some q => sql_like (Some (rp_blob r)) ("%" +:+ q +:+ "%") || sql_like (Some (rp_reporter r)) ("%" +:+ q +:+ "%")
  | None => true
  end &&
  match truthy_str (rf_blob f) with Some b => String.eqb (rp_blob r) b | None => true end &&
  match truthy_str (rf_type f) with Some t => bool_decide (rp_type r = Some t) | None => true end.

Definition countReports (f : ReportFilter) : D Z :=
  query (fun d => Z.of_nat (length (filter (fun r => report_matches f r = true) (t_reports d)))).

(** ** routes/report.ts *)

(** A tag [["x", hash, type?]] of the event; a type that is not listed is none. *)
Definition x_tag (t : jsval) : option (string * option string) :=
  match t with
  | JArr (JStr name :: JStr hash :: rest) =>
      if String.eqb name "x" then
        Some (hash, match rest with
                    | JStr ty :: _ => if decide (ty ∈ REPORT_TYPES) then Some ty else None
                    | _ => None
                    end)
      else None
  | _ => None
  end.

(** Steps 1 to 7 up to the insertions. *)
Definition parse_report (json : option jsval) : nresp unit + ReportEvent :=
  match json with
  | None => inl (NErr 400 "Request body must be valid JSON")
  | Some (JObj fields) =>
      let event := JObj fields in
      match jget event "kind" with
      | JNum kind =>
          if negb (num_eqZ kind 1984) then inl (NErr 400 "Report event must be kind 1984") else
          match jget event "id", jget event "pubkey", jget event "created_at", jget event "sig", jget event "tags" with
          | JStr eventId, JStr reporter, JNum created, JStr _, JArr tags =>
              if negb (verifyJson event) then inl (NErr 400 "Report event signature is invalid") else
              match omap x_tag tags with
              | [] => inl (NErr 400 "Report event must contain at least one x tag")
              | xTags =>
                  match filter (fun t => is_hex64 t.1 = false) xTags with
                  | t :: _ => inl (NErr 400 ("Invalid blob hash in x tag: " +:+ t.1))
                  | [] =>
                      inr {| re_id := eventId; re_pubkey := reporter;
                             re_content := match jget event "content" with JStr s => s | _ => "" end;
                             re_created := created; re_x := xTags |}
                  end
              end
          | _, _, _, _, _ => inl (NErr 400 "Report event is missing required fields")
          end
      | _ => inl (NErr 400 "Report event must be kind 1984")
      end
  | Some _ => inl (NErr 400 "Request body must be a JSON object")
  end.

Definition new_report (e : ReportEvent) (x : string * option string) : NewReport :=
  {| nr_event_id := re_id e; nr_reporter := re_pubkey e; nr_blob := x.1; nr_type := x.2;
     nr_content := re_content e; nr_created := re_created e |}.

Fixpoint insert_all (l : list NewReport) : D unit :=
  match l with
  | [] => dret tt
  | r :: l => (do* _ := insertReport r in insert_all l)%D
  end.

(** PUT /report *)
Definition reportRoute (q : ReportReq) : D (nresp unit) := (
  match parse_report (rq_json q) with
  | inl e => dret e
  | inr e => do* _ := insert_all (new_report e <$> re_x e) in dret (NRes 200 tt)
  end)%D.

(** ** Nothing but reports changes *)

Lemma insert_all_other (I : NodeDb -> Prop) l n :
  (forall f s d, I d -> I (set_t_reports f s d)) -> I (nd_db n) -> I (nd_db (insert_all l n).2).
Proof.
  intros HI. revert n. induction l as [|r l IH]; intros n Hn; [done|]. cbn [insert_all].
  unfold dbind, insertReport, execute. destruct (match nd_faults n with b :: _ => b | [] => false end); [done|]. simpl. apply IH. simpl. unfold insert_report. case_decide; by apply HI.
Qed.

Lemma insert_all_files l n : nd_files (insert_all l n).2 = nd_files n.
Proof.
  revert n. induction l as [|r l IH]; intros n; [done|]. cbn [insert_all]. unfold dbind, insertReport, execute.
  destruct (match nd_faults n with b :: _ => b | [] => false end); [done|]. simpl. by rewrite IH.
Qed.

Lemma reportRoute_other (I : NodeDb -> Prop) q n :
  (forall f s d, I d -> I (set_t_reports f s d)) -> I (nd_db n) -> I (nd_db (reportRoute q n).2).
Proof.
  intros HI Hn. unfold reportRoute. destruct (parse_report (rq_json q)) as [e|r]; [done|]. unfold dbind.
  pose proof (insert_all_other I (new_report r <$> re_x r) n HI Hn) as Hi. by destruct (insert_all _ n) as [[?|?] ?].
Qed.

Lemma reportRoute_files q n : nd_files (reportRoute q n).2 = nd_files n.
Proof.
  unfold reportRoute. destruct (parse_report (rq_json q)) as [e|r]; [done|]. unfold dbind.
  pose proof (insert_all_files (new_report r <$> re_x r) n) as Hi. by destruct (insert_all _ n) as [[?|?] ?].
Qed.

(** ** One row per event and hash *)

Record reports_ok (d : NodeDb) : Prop := {
  ro_key : NoDup (report_key <$> t_reports d);
  ro_id : NoDup (rp_id <$> t_reports d);
  ro_seq : Forall (fun r => rp_id r <= t_report_seq d) (t_reports d)
}.

(** Rows of this event about one of these blobs. *)
Definition reports_of (l : list NewReport) (r : ReportRecord) : Prop := exists x id, x ∈ l /\ r = report_row id x.

Context `{!ReportLaws}.

Lemma insert_report_ok r d : reports_ok d -> reports_ok (insert_report r d).
Proof.
  intros [Hk Hi Hs]. unfold insert_report. case_decide as Hin.
  - split; simpl; [done..|]. eapply Forall_impl; [exact Hs|]. intros x Hx. simpl in Hx. pose proof (seq_grows (t_report_seq d)). lia.
  - split; simpl.
    + rewrite fmap_app. apply NoDup_app. split_and!; [done| |apply NoDup_singleton]. intros k Hk' ->%list_elem_of_singleton. done.
    + rewrite fmap_app. apply NoDup_app. split_and!; [done| |apply NoDup_singleton].
      intros k (x & -> & Hx)%list_elem_of_fmap E%list_elem_of_singleton. rewrite Forall_forall in Hs. specialize (Hs x Hx). simpl in *. lia.
    + apply Forall_app. split; [|constructor; [simpl; lia|constructor]]. eapply Forall_impl; [exact Hs|]. intros x Hx. simpl in Hx. lia.
Qed.

Lemma insert_report_rows r d :
  exists new, t_reports (insert_report r d) = t_reports d ++ new /\ Forall (reports_of [r]) new /\
    (nr_event_id r, nr_blob r) ∈ report_key <$> t_reports (insert_report r d) /\
    ((nr_event_id r, nr_blob r) ∈ report_key <$> t_reports d -> new = []).
Proof.
  unfold insert_report. case_decide as Hin.
  - exists []. simpl. unfold id. rewrite app_nil_r. by split_and!.
  - exists [report_row (t_report_seq d + 1) r]. simpl. split_and!; [done| | |done].
    + constructor; [|done]. exists r. eexists. split; [set_solver|done].
    + rewrite fmap_app. set_solver.
Qed.

(** The rows after a list of insertions, each answered. *)
Lemma insert_all_rows l n :
  quiet n -> reports_ok (nd_db n) ->
  exists n' new, insert_all l n = (Ok tt, n') /\ quiet n' /\ reports_ok (nd_db n') /\
    t_reports (nd_db n') = t_reports (nd_db n) ++ new /\ Forall (reports_of l) new /\
    (forall x, x ∈ l -> (nr_event_id x, nr_blob x) ∈ report_key <$> t_reports (nd_db n')) /\
    ((forall x, x ∈ l -> (nr_event_id x, nr_blob x) ∈ report_key <$> t_reports (nd_db n)) -> new = []).
Proof.
  revert n. induction l as [|r l IH]; intros n Hq Hok; cbn [insert_all].
  { exists n, []. split_and!; try done; [by rewrite app_nil_r|intros x ?%elem_of_nil; done]. }
  unfold dbind, insertReport. rewrite execute_quiet by done.
  destruct (insert_report_rows r (nd_db n)) as (new1 & Ht1 & Hf1 & Hin1 & He1).
  destruct (IH (set_nd_db (insert_report r (nd_db n)) (set_nd_faults (tail (nd_faults n)) n)))
    as (n' & new & Hrun & Hq' & Hok' & Ht & Hf & Hin & He); [by apply quiet_tail|by apply insert_report_ok|].
  simpl in *. exists n', (new1 ++ new). rewrite Ht1 in *. split_and!; [done..| | | |].
  - by rewrite Ht, app_assoc.
  - apply Forall_app. split; (eapply Forall_impl; [eassumption|]); intros x (y & i & Hy & ->); exists y, i; set_solver.
  - intros x [->|Hx]%elem_of_cons; [|by apply Hin]. rewrite Ht, fmap_app. set_solver.
  - intros Hall. rewrite He1 in * by (apply Hall; set_solver). rewrite He; [done|]. intros x Hx. rewrite app_nil_r. apply Hall. set_solver.
Qed.

(** Reporting is exact and can be repeated. When the database answers, an
    acceptable report is acknowledged; the rows before it stay, every new row is
    the reporter's about one of the reported hashes, each reported hash has its
    row for this event, there is still at most one row per event and hash, and
    submitting the same report again is acknowledged and adds nothing. *)
Theorem report_exact q e n :
  quiet n -> reports_ok (nd_db n) -> parse_report (rq_json q) = inr e ->
  exists n' new, reportRoute q n = (Ok (NRes 200 tt), n') /\ reports_ok (nd_db n') /\
    t_reports (nd_db n') = t_reports (nd_db n) ++ new /\
    Forall (fun r => rp_event_id r = re_id e /\ rp_reporter r = re_pubkey e /\ (rp_blob r, rp_type r) ∈ re_x e) new /\
    (forall x, x ∈ re_x e -> (re_id e, x.1) ∈ report_key <$> t_reports (nd_db n')) /\
    exists n2, reportRoute q n' = (Ok (NRes 200 tt), n2) /\ t_reports (nd_db n2) = t_reports (nd_db n').
Proof.
  intros Hq Hok He. unfold reportRoute. rewrite He. unfold dbind.
  destruct (insert_all_rows (new_report e <$> re_x e) n Hq Hok) as (n' & new & -> & Hq' & Hok' & Ht & Hf & Hin & _).
  destruct (insert_all_rows (new_report e <$> re_x e) n' Hq' Hok') as (n2 & new2 & Hr2 & _ & _ & Ht2 & _ & _ & Hnone).
  exists n', new. split_and!; [done..| | |].
  - eapply Forall_impl; [exact Hf|]. intros r (x & i & Hx & ->). apply list_elem_of_fmap in Hx as (y & -> & Hy).
    simpl. by destruct y.
  - intros x Hx. apply (Hin (new_report e x)). by apply list_elem_of_fmap_2.
  - exists n2. rewrite Hr2. split; [done|]. rewrite Ht2, Hnone, app_nil_r; [done|]. done.
Qed.
End Reports.

(** ** A report about one blob *)

Module ReportExamples.
#[local] Instance anyReports : ReportLib := {| verifyJson := fun _ => true; seq_after_ignore := fun s => s |}.
#[local] Instance anyLaws : ReportLaws.
Proof. split. intros s. simpl. lia. Qed.

Definition h0 : string := "aaaaaaaaaaaaaaaaaaaaaaaaaaaaaaaaaaaaaaaaaaaaaaaaaaaaaaaaaaaaaaaa".
Definition spam_event : jsval :=
  JObj [("kind", JNum (num_Z 1984)); ("id", JStr "e1"); ("pubkey", JStr "carol"); ("created_at", JNum (num_Z 7));
        ("sig", JStr "s"); ("tags", JArr [JArr [JStr "x"; JStr h0; JStr "spam"]; JArr [JStr "p"; JStr "q"]])].
Definition spam_req : ReportReq :=
  {| rq_req := {| nq_authorization := None; nq_host := None; nq_head := false; nq_filename := "report";
       nq_contentLength := None; nq_contentType := None; nq_xSha256 := None; nq_xContentType := None;
       nq_xContentLength := None; nq_ifNoneMatch := None; nq_range := None; nq_limit := None; nq_since := None;
       nq_until := None; nq_cursor := None; nq_forwardedProto := None; nq_forwarded := None;
       nq_urlProtocol := "http:"; nq_urlHost := "node"; nq_body := None; nq_poolAvailable := true;
       nq_dispatched := true; nq_ulid := "u" |};
     rq_json := Some spam_event |}.
Definition e0 : ReportEvent :=
  {| re_id := "e1"; re_pubkey := "carol"; re_content := ""; re_created := num_Z 7; re_x := [(h0, Some "spam")] |}.
Definition blank_node : Node :=
  {| nd_db := {| t_blobs := ∅; t_owners := ∅; t_accessed := ∅; t_derivatives := ∅; t_thumbnails := ∅;
                 t_reports := []; t_report_seq := 0 |};
     nd_files := ∅; nd_tmp := ∅; nd_faults := [] |}.

Lemma report_exact_witness :
  parse_report (rq_json spam_req) = inr e0 /\
  exists n', reportRoute spam_req blank_node = (Ok (NRes 200 tt), n') /\
    ("e1", h0) ∈ report_key <$> t_reports (nd_db n').
Proof.
  assert (parse_report (rq_json spam_req) = inr e0) as Hp by (vm_compute; reflexivity). split; [exact Hp|].
  destruct (report_exact spam_req e0 blank_node) as (n' & new & Hr & _ & _ & _ & Hin & _);
    [by constructor|split; try apply NoDup_nil_2; constructor|exact Hp|].
  exists n'. split; [exact Hr|]. apply (Hin (h0, Some "spam")). apply list_elem_of_singleton. reflexivity.
Defined.
End ReportExamples.
