(* ===== verification/NodeAdmin.v ===== *)
(** * The dashboard of a storage node (storage-client/blossom/src)

    The listing and counting queries of db/blobs.ts and db/reports.ts that only
    the dashboard uses, what its pages load (admin/*-page.tsx), and the actions
    of routes/admin-router.tsx. Rows a query does not order come in some order
    the database chooses; here it is the order of the map. The HTML around the
    data is not modelled. *)

From Stdlib Require Import Ascii QArith.
From S2P Require Import Prelude Js Http Nip98 NodeRules NodeDb NodeApi NodeReports.
#[local] Open Scope Z_scope.

(** ** ORDER BY, LIMIT and OFFSET *)

(** The values SQLite sorts: NULL before numbers before text. *)
Inductive sqlval := SNull | SNum (n : Q) | SText (s : string).

Definition sql_leb (a b : sqlval) : bool :=
  match a, b with
  | SNull, _ => true
  | _, SNull => false
  | SNum m, SNum n => Qnum m * QDen n <=? Qnum n * QDen m
  | SNum _, SText _ => true
  | SText _, SNum _ => false
  | SText s, SText t => String.leb s t
  end.

Definition row_le {A} (key : A -> sqlval) (asc : bool) (a b : A) : Prop :=
  (if asc then sql_leb (key a) (key b) else sql_leb (key b) (key a)) = true.
#[export] Instance row_le_dec {A} (key : A -> sqlval) asc : RelDecision (row_le key asc).
Proof. intros a b. unfold row_le. apply _. Defined.

Definition order_by {A} (key : A -> sqlval) (asc : bool) (l : list A) : list A :=
  merge_sort (row_le key asc) l.

(** A negative LIMIT is none, a negative OFFSET is 0; OFFSET needs a LIMIT. *)
Definition sql_page {A} (limit offset : option Z) (l : list A) : option (list A) :=
  match limit, offset with
  | None, None => Some l
  | None, Some _ => None
  | Some n, o =>
      let l := drop (Z.to_nat (default 0 o)) l in
      Some (if n <? 0 then l else take (Z.to_nat n) l)
  end.

(** [GROUP_CONCAT(x, ',')] and [text ? text.split(",") : \[\]]. *)
Definition group_concat (l : list string) : string := String.concat "," l.
Definition split_group (s : string) : list string := if String.eqb s "" then [] else split_on "," s.

Definition truthy_list (l : list string) : option (list string) :=
  match l with [] => None | _ => Some l end.

Section Admin.
Context `{Nostr} `{NodeLib}.

(** ** db/blobs.ts: blobs *)

Record AdminBlobRecord := { ab_blob : BlobRecord; ab_owners : list string }.

Record BlobFilter := {
  bf_q : option string;
  (** one type or several; [None] is undefined *)
  bf_types : option (list string)
}.

Definition like_q (q : string) (x : option string) : bool := sql_like x ("%" +:+ q +:+ "%").

Definition blob_matches (f : BlobFilter) (b : BlobRecord) : bool :=
  match truthy_str (bf_q f) with
  | Some q => like_q q (Some (br_sha256 b)) || like_q q (br_type b)
  | None => true
  end &&
  match bf_types f ≫= truthy_list with
  | Some types => match br_type b with Some t => bool_decide (t ∈ types) | None => false end
  | None => true
  end.

Definition text_key (x : option string) : sqlval := match x with Some s => SText s | None => SNull end.

(** The allowlist of columns; anything else sorts by [uploaded]. *)
Definition blob_column (col : string) (b : BlobRecord) : sqlval :=
  if String.eqb col "sha256" then SText (br_sha256 b)
  else if String.eqb col "type" then text_key (br_type b)
  else if String.eqb col "size" then SNum (inject_Z (br_size b))
  else SNum (inject_Z (br_uploaded b)).

Definition is_asc (dir : string) : bool := String.eqb dir "ASC".

Definition matching_blobs (f : BlobFilter) (d : NodeDb) : list BlobRecord :=
  filter (fun b => blob_matches f b = true) (blob_records d).

Definition admin_blob (d : NodeDb) (b : BlobRecord) : AdminBlobRecord :=
  {| ab_blob := b; ab_owners := split_group (group_concat ((owners_of (br_sha256 b) d).*2)) |}.

Definition all_blobs (f : BlobFilter) (sort : option (string * string)) (d : NodeDb) : list AdminBlobRecord :=
  let (col, dir) := default ("uploaded", "DESC") sort in
  admin_blob d <$> order_by (blob_column col) (is_asc dir) (matching_blobs f d).

Definition listAllBlobs (f : BlobFilter) (sort : option (string * string)) (limit offset : option Z)
  : D (list AdminBlobRecord) :=
  execute (fun d => (fun l => (l, d)) <$> sql_page limit offset (all_blobs f sort d)).

Definition countBlobs (f : BlobFilter) : D Z :=
  query (fun d => Z.of_nat (length (matching_blobs f d))).

(** ** db/blobs.ts: users *)

Record AdminUserRecord := { au_pubkey : string; au_blobs : list string }.

Record UserFilter := { uf_q : option string; uf_pubkey : option string }.

Definition user_matches (f : UserFilter) (pubkey : string) : bool :=
  match truthy_str (uf_q f) with Some q => like_q q (Some pubkey) | None => true end &&
  match truthy_str (uf_pubkey f) with Some p => String.eqb pubkey p | None => true end.

(** The rows of [owners] that match, grouped by key. *)
Definition matching_users (f : UserFilter) (d : NodeDb) : list string :=
  filter (fun p => user_matches f p = true) (elements (set_map snd (t_owners d) : gset string)).

Definition blobs_of (pubkey : string) (d : NodeDb) : list string :=
  (filter (fun o => o.2 = pubkey) (elements (t_owners d))).*1.

Definition admin_user (d : NodeDb) (pubkey : string) : AdminUserRecord :=
  {| au_pubkey := pubkey; au_blobs := split_group (group_concat (blobs_of pubkey d)) |}.

(** [pubkey] is the only column to sort by. *)
Definition admin_users (f : UserFilter) (sort : option (string * string)) (d : NodeDb) : list AdminUserRecord :=
  let (_, dir) := default ("pubkey", "ASC") sort in
  admin_user d <$> order_by SText (is_asc dir) (matching_users f d).

Definition listAllUsers (f : UserFilter) (sort : option (string * string)) (limit offset : option Z)
  : D (list AdminUserRecord) :=
  execute (fun d => (fun l => (l, d)) <$> sql_page limit offset (admin_users f sort d)).

(** [COUNT(DISTINCT pubkey)] *)
Definition countUsers (f : UserFilter) : D Z :=
  query (fun d => Z.of_nat (length (matching_users f d))).

Definition pubkey_blobs (pubkey : string) (d : NodeDb) : list BlobRecord :=
  merge_sort newest_first (owned_records pubkey d).

Definition listBlobsByPubkeyAdmin (pubkey : string) (limit offset : option Z) : D (list BlobRecord) :=
  query (fun d =>
    let l := drop (Z.to_nat (default 0 offset)) (pubkey_blobs pubkey d) in
    let n := default 50 limit in
    if n <? 0 then l else take (Z.to_nat n) l).

Definition countBlobsByPubkey (pubkey : string) : D Z :=
  query (fun d => Z.of_nat (length (blobs_of pubkey d))).

(** ** db/reports.ts *)

Definition report_column (col : string) (r : ReportRecord) : sqlval :=
  if String.eqb col "id" then SNum (inject_Z (rp_id r))
  else if String.eqb col "blob" then SText (rp_blob r)
  else if String.eqb col "reporter" then SText (rp_reporter r)
  else if String.eqb col "type" then text_key (rp_type r)
  else match rp_created r with Fin q => SNum q | _ => SNull end.

Definition matching_reports (f : ReportFilter) (d : NodeDb) : list ReportRecord :=
  filter (fun r => report_matches f r = true) (t_reports d).

Definition all_reports (f : ReportFilter) (sort : option (string * string)) (d : NodeDb) : list ReportRecord :=
  let (col, dir) := default ("created", "DESC") sort in
  order_by (report_column col) (is_asc dir) (matching_reports f d).

Definition listAllReports (f : ReportFilter) (sort : option (string * string)) (limit offset : option Z)
  : D (list ReportRecord) :=
  execute (fun d => (fun l => (l, d)) <$> sql_page limit offset (all_reports f sort d)).

(** ** The pages *)

Definition ADMIN_PAGE_SIZE : Z := 50.
Definition page_offset (page : Z) : Z := (page - 1) * ADMIN_PAGE_SIZE.

(** [Math.max(1, parseInt(query ?? "1", 10))]; [None] is NaN. *)
Definition page_param (q : option string) : option Z :=
  Z.max 1 <$> parseInt10 (default "1" q).

(** [Math.max(1, Math.ceil(total / pageSize))] *)
Definition totalPages (total pageSize : Z) : Z := Z.max 1 ((total + pageSize - 1) / pageSize).

Definition blobsPage (page : Z) (q : string) : D (list AdminBlobRecord * Z) := (
  let filter := {| bf_q := Some q; bf_types := None |} in
  do* blobs := listAllBlobs filter (Some ("uploaded", "DESC")) (Some ADMIN_PAGE_SIZE) (Some (page_offset page)) in
  do* total := countBlobs filter in
  dret (blobs, total))%D.

Definition usersPage (page : Z) (q : string) : D (list AdminUserRecord * Z) := (
  let filter := {| uf_q := Some q; uf_pubkey := None |} in
  do* users := listAllUsers filter None (Some ADMIN_PAGE_SIZE) (Some (page_offset page)) in
  do* total := countUsers filter in
  dret (users, total))%D.

Definition reportsPage (page : Z) (typeFilter : string) : D (list ReportRecord * Z) := (
  let filter := {| rf_q := None; rf_blob := None; rf_type := Some typeFilter |} in
  do* reports := listAllReports filter (Some ("created", "DESC")) (Some ADMIN_PAGE_SIZE) (Some (page_offset page)) in
  do* total := countReports filter in
  dret (reports, total))%D.

Definition userDetailPage (pubkey : string) (page : Z) : D (list BlobRecord * Z) := (
  do* blobs := listBlobsByPubkeyAdmin pubkey (Some ADMIN_PAGE_SIZE) (Some (page_offset page)) in
  do* total := countBlobsByPubkey pubkey in
  dret (blobs, total))%D.

(** ** routes/admin-router.tsx: actions *)

(** Row first, then the file under the extension of the row, if there was one. *)
Definition admin_remove (sha : string) : D unit := (
  do* blob := getBlob sha in
  let ext := match blob with Some b => mimeToExt (br_type b) | None => "" end in
  do* _ := deleteBlob sha in
  quietly (st_remove sha ext))%D.

(** DELETE /admin/api/blobs/:sha256 *)
Definition adminDeleteBlob (sha : string) : D (nresp unit) := (
  do* _ := admin_remove sha in dret (NRes 200 tt))%D.

Fixpoint delete_all (l : list BlobRecord) (deleted : Z) : D Z :=
  match l with
  | [] => dret deleted
  | b :: l => (
      do* _ := deleteBlob (br_sha256 b) in
      do* _ := quietly (st_remove (br_sha256 b) (mimeToExt (br_type b))) in
      delete_all l (deleted + 1))%D
  end.

(** DELETE /admin/api/users/:pubkey *)
Definition adminDeleteUser (pubkey : string) : D (nresp Z) := (
  do* blobs := listBlobsByPubkeyAdmin pubkey (Some 10000) None in
  do* deleted := delete_all blobs 0 in
  dret (NRes 200 deleted))%D.

(** POST /admin/api/reports/:id/dismiss *)
Definition adminDismissReport (param : string) : D (nresp unit) := (
  match parseInt10 param with
  | None => dret (NErr 400 "Invalid report id")
  | Some id =>
      do* deleted := deleteReport id in
      if negb deleted then dret (NErr 404 "Report not found") else dret (NRes 200 tt)
  end)%D.

(** POST /admin/api/reports/:id/delete-blob *)
Definition adminDeleteReported (param : string) : D (nresp unit) := (
  match parseInt10 param with
  | None => dret (NErr 400 "Invalid report id")
  | Some id =>
      do* report := getReport id in
      match report with
      | None => dret (NErr 404 "Report not found")
      | Some r =>
          do* _ := admin_remove (rp_blob r) in
          do* _ := deleteReportsByBlob (rp_blob r) in
          dret (NRes 200 tt)
      end
  end)%D.
End Admin.

(** An action of the dashboard, and whether the Basic credentials are right. *)
Inductive admin_action :=
| AdminDeleteBlob (sha : string)
| AdminDeleteUser (pubkey : string)
| AdminDismiss (id : string)
| AdminDeleteReported (id : string).

Section Route.
Context `{Nostr} `{NodeLib}.

Definition adminRoute (authorized : bool) (a : admin_action) : D (nresp unit) := (
  if negb authorized then dret (NErr 401 "Unauthorized") else
  match a with
  | AdminDeleteBlob sha => adminDeleteBlob sha
  | AdminDeleteUser p => do* r := adminDeleteUser p in
                         dret (match r with NRes st _ => NRes st tt | NErr st m => NErr st m end)
  | AdminDismiss id => adminDismissReport id
  | AdminDeleteReported id => adminDeleteReported id
  end)%D.
End Route.
