(* ===== verification/NodeAdminFacts.v ===== *)
(** * The dashboard shows everything once, and its actions keep rows and files
    together when they are given a hash *)

From Stdlib Require Import Ascii QArith.
From S2P Require Import Prelude Js Http Nip98 NodeRules NodeDb NodeApi NodePrune NodeFacts NodeReports NodeAdmin.
#[local] Open Scope Z_scope.

(** ** Paging *)

Lemma sql_page_at {A} p (l : list A) :
  1 <= p ->
  sql_page (Some ADMIN_PAGE_SIZE) (Some (page_offset p)) l = Some (slice (page_at 50 (Z.to_nat (p - 1))) l).
Proof.
  intros Hp. unfold sql_page, page_offset, ADMIN_PAGE_SIZE, slice, page_at. cbn [default take_n skip].
  replace (50 <? 0) with false by reflexivity. cbn [id]. do 3 f_equal. lia.
Qed.

(** The pages up to the last one, put together, are the whole list. *)
Lemma total_pages_cover {A} (l : list A) :
  concat ((fun i => slice (page_at 50 i) l) <$>
    seq 0 (Z.to_nat (totalPages (Z.of_nat (length l)) ADMIN_PAGE_SIZE))) = l.
Proof.
  apply pages_cover. unfold totalPages, ADMIN_PAGE_SIZE.
  set (t := Z.of_nat (length l)).
  assert (t <= (t + 50 - 1) / 50 * 50) by dlia. lia.
Qed.

Lemma order_by_perm {A} (key : A -> sqlval) asc (l : list A) : order_by key asc l ≡ₚ l.
Proof. apply merge_sort_Permutation. Qed.

(** ** GROUP_CONCAT and split *)

Definition comma_free (s : string) : bool := sall (fun x => negb (Ascii.eqb x ",")) s.

Lemma split_on_free s : comma_free s = true -> split_on "," s = [s].
Proof.
  unfold comma_free. induction s as [|x s IH]; [done|]. cbn [sall split_on].
  rewrite andb_true_iff, negb_true_iff. intros [Hx Hs]. by rewrite Hx, IH.
Qed.

Lemma split_on_cons s t : comma_free s = true -> split_on "," (s +:+ "," +:+ t) = s :: split_on "," t.
Proof.
  unfold comma_free. induction s as [|x s IH]; [done|]. rewrite sapp_cons. cbn [sall split_on].
  rewrite andb_true_iff, negb_true_iff. intros [Hx Hs]. by rewrite Hx, IH.
Qed.

(** Splitting undoes the concatenation of values without commas. *)
Lemma split_group_concat l :
  Forall (fun s => comma_free s = true /\ s <> "") l -> split_group (group_concat l) = l.
Proof.
  intros Hl. unfold split_group, group_concat. destruct l as [|s l]; [done|].
  assert (Hne : String.eqb (String.concat "," (s :: l)) "" = false).
  { inversion Hl as [|? ? [_ Hs] _]; subst. destruct s as [|x s]; [done|]. by destruct l. }
  rewrite Hne. clear Hne. revert s Hl. induction l as [|t l IH]; intros s Hl.
  - inversion Hl as [|? ? [Hc _] _]; subst. cbn. by apply split_on_free.
  - inversion Hl as [|? ? [Hc _] Hl']; subst.
    change (String.concat "," (s :: t :: l)) with (s +:+ "," +:+ String.concat "," (t :: l)).
    rewrite split_on_cons by done. by rewrite IH.
Qed.

Section Facts.
Context `{NodeLaws}.

(** ** What the pages show *)

(** Page [p] holds its part of [l] and the number of all rows, and the pages
    cover [l]. *)
Definition pages_exact {A} (pg : Z -> D (list A * Z)) (l : list A) (d : NodeDb) : Prop :=
  (forall p n, 1 <= p -> quiet n -> nd_db n = d ->
     exists n', pg p n = (Ok (slice (page_at 50 (Z.to_nat (p - 1))) l, Z.of_nat (length l)), n') /\ nd_db n' = d) /\
  concat ((fun i => slice (page_at 50 i) l) <$>
    seq 0 (Z.to_nat (totalPages (Z.of_nat (length l)) ADMIN_PAGE_SIZE))) = l.

(** Two reads after each other. *)
Lemma two_reads_exact {A} (m1 : Z -> D (list A)) (m2 : D Z) l d :
  (forall p n, 1 <= p -> quiet n -> nd_db n = d ->
     m1 p n = (Ok (slice (page_at 50 (Z.to_nat (p - 1))) l), set_nd_faults (tail (nd_faults n)) n)) ->
  (forall n, quiet n -> nd_db n = d -> m2 n = (Ok (Z.of_nat (length l)), set_nd_faults (tail (nd_faults n)) n)) ->
  pages_exact (fun p => do* x := m1 p in do* t := m2 in dret (x, t))%D l d.
Proof.
  intros H1' H2'. split; [|apply total_pages_cover]. intros p n Hp Hq Hd. unfold dbind.
  rewrite H1' by done. rewrite H2' by (done || by apply quiet_tail). eexists. split; [done|done].
Qed.

Lemma query_quiet {A} (f : NodeDb -> A) n :
  quiet n -> query f n = (Ok (f (nd_db n)), set_nd_faults (tail (nd_faults n)) n).
Proof. intros Hq. unfold query. rewrite execute_quiet by done. by destruct n. Qed.

Lemma paged_quiet {A} (f : NodeDb -> list A) p n :
  1 <= p -> quiet n ->
  execute (fun d => (fun l => (l, d)) <$> sql_page (Some ADMIN_PAGE_SIZE) (Some (page_offset p)) (f d)) n =
  (Ok (slice (page_at 50 (Z.to_nat (p - 1))) (f (nd_db n))), set_nd_faults (tail (nd_faults n)) n).
Proof. intros Hp Hq. rewrite execute_quiet by done. rewrite sql_page_at by done. simpl. by destruct n. Qed.

Lemma all_blobs_perm f sort d : ab_blob <$> all_blobs f sort d ≡ₚ matching_blobs f d.
Proof.
  unfold all_blobs. destruct (default _ sort) as [col dir].
  rewrite <- list_fmap_compose. rewrite list_fmap_id. apply order_by_perm.
Qed.

Lemma all_users_perm f sort d : au_pubkey <$> admin_users f sort d ≡ₚ matching_users f d.
Proof.
  unfold admin_users. destruct (default _ sort) as [col dir].
  rewrite <- list_fmap_compose. rewrite list_fmap_id. apply order_by_perm.
Qed.

(** The blobs of a key are the rows of [owners], when these refer to blobs. *)
Lemma owned_perm pubkey d :
  (forall h p, (h, p) ∈ t_owners d -> is_Some (t_blobs d !! h)) ->
  br_sha256 <$> owned_records pubkey d ≡ₚ blobs_of pubkey d.
Proof.
  intros Ho. apply NoDup_Permutation.
  - unfold owned_records, blob_records.
    assert (Hnd : NoDup (br_sha256 <$> ((fun p => record_of p.1 p.2) <$> map_to_list (t_blobs d)))).
    { rewrite <- list_fmap_compose. apply (NoDup_fst_map_to_list (t_blobs d)). }
    revert Hnd. generalize ((fun p => record_of p.1 p.2) <$> map_to_list (t_blobs d)).
    induction l as [|b l IH]; intros Hnd; [constructor|]. apply NoDup_cons in Hnd as [Hni Hnd].
    rewrite filter_cons. case_decide; [|by apply IH]. cbn. constructor; [|by apply IH].
    intros (x & Hx & Hin)%list_elem_of_fmap. apply Hni, list_elem_of_fmap. exists x.
    split; [done|]. by apply list_elem_of_filter in Hin as [_ ?].
  - unfold blobs_of. apply NoDup_fmap_2_strong; [|apply NoDup_filter, NoDup_elements].
    intros [h p] [h' p'] [E1 _]%list_elem_of_filter [E2 _]%list_elem_of_filter. cbn in *. congruence.
  - intros h. unfold owned_records, blobs_of, blob_records. rewrite !list_elem_of_fmap. split.
    + intros (b & -> & [Hin (x & -> & Hx)%list_elem_of_fmap]%list_elem_of_filter).
      exists (x.1, pubkey). split; [done|]. apply list_elem_of_filter. split; [done|]. by apply elem_of_elements.
    + intros ([h' p] & -> & [Hp Hin%elem_of_elements]%list_elem_of_filter). cbn in Hp. subst p.
      destruct (Ho _ _ Hin) as [r Hr]. exists (record_of h' r). split; [done|].
      apply list_elem_of_filter. split; [done|]. apply list_elem_of_fmap. exists (h', r).
      split; [done|]. by apply elem_of_map_to_list.
Qed.

(** The dashboard shows everything once. Every page holds fifty rows or the
    rest, with the right total; the pages up to the last one the pagination
    offers, put together, are all blobs (users, reports, blobs of a key) that
    match the search, none twice and none left out; and the totals are those of
    the listings, the blobs of a key included, as long as owners refer to
    existing blobs. *)
Theorem dashboard_pages_exact q pubkey d :
  (forall h p, (h, p) ∈ t_owners d -> is_Some (t_blobs d !! h)) ->
  let blobs := all_blobs {| bf_q := Some q; bf_types := None |} (Some ("uploaded", "DESC")) d in
  let users := admin_users {| uf_q := Some q; uf_pubkey := None |} None d in
  let reports := all_reports {| rf_q := None; rf_blob := None; rf_type := Some q |} (Some ("created", "DESC")) d in
  (pages_exact (fun p => blobsPage p q) blobs d /\ ab_blob <$> blobs ≡ₚ matching_blobs {| bf_q := Some q; bf_types := None |} d) /\
  (pages_exact (fun p => usersPage p q) users d /\ au_pubkey <$> users ≡ₚ matching_users {| uf_q := Some q; uf_pubkey := None |} d) /\
  (pages_exact (fun p => reportsPage p q) reports d /\
     reports ≡ₚ matching_reports {| rf_q := None; rf_blob := None; rf_type := Some q |} d) /\
  (pages_exact (userDetailPage pubkey) (pubkey_blobs pubkey d) d /\
     br_sha256 <$> pubkey_blobs pubkey d ≡ₚ blobs_of pubkey d).
Proof.
  intros Ho blobs users reports.
  pose proof (all_blobs_perm {| bf_q := Some q; bf_types := None |} (Some ("uploaded", "DESC")) d) as Hb.
  pose proof (all_users_perm {| uf_q := Some q; uf_pubkey := None |} None d) as Hu.
  assert (Hr : reports ≡ₚ matching_reports {| rf_q := None; rf_blob := None; rf_type := Some q |} d)
    by apply order_by_perm.
  assert (Hp : br_sha256 <$> pubkey_blobs pubkey d ≡ₚ blobs_of pubkey d).
  { rewrite <- (owned_perm pubkey d Ho). apply fmap_Permutation, merge_sort_Permutation. }
  split_and!; try done; apply two_reads_exact; intros.
  all: try (by unfold listAllBlobs, listAllUsers, listAllReports; rewrite paged_quiet by done; subst).
  - unfold countBlobs. rewrite query_quiet by done. subst. by rewrite <- Hb, length_fmap.
  - unfold countUsers. rewrite query_quiet by done. subst. by rewrite <- Hu, length_fmap.
  - unfold countReports. rewrite query_quiet by done. subst. by rewrite Hr.
  - unfold listBlobsByPubkeyAdmin. rewrite query_quiet by done. subst. cbn [default].
    unfold slice, page_at, page_offset, ADMIN_PAGE_SIZE. cbn [id take_n skip].
    replace (50 <? 0) with false by reflexivity. do 4 f_equal. lia.
  - unfold countBlobsByPubkey. rewrite query_quiet by done. subst. by rewrite <- Hp, length_fmap.
Qed.

(** ** Actions *)

Context (genuine : string -> Prop) (no_thumbs : bool).
#[local] Notation inv := (inv genuine no_thumbs).

Lemma admin_remove_inv sha : is_hex64 sha = true -> dkeeps inv (admin_remove sha).
Proof.
  intros Hh. unfold admin_remove. apply dkeeps_bind; [apply dkeeps_inv_query|]. intros blob n Hn. cbv zeta.
  pose proof (dkeeps_drop_quietly genuine no_thumbs sha
    (match blob with Some b => mimeToExt (br_type b) | None => "" end) (dret tt) Hh (dkeeps_ret _ _) n Hn) as Hd.
  unfold dbind in *. destruct (deleteBlob sha n) as [[a|e] n']; [|done]. by rewrite st_remove_quietly in *.
Qed.

Lemma delete_all_inv l k : Forall (fun b => is_hex64 (br_sha256 b) = true) l -> dkeeps inv (delete_all l k).
Proof.
  revert k. induction l as [|b l IH]; intros k Hl; cbn [delete_all]; [apply dkeeps_ret|].
  apply Forall_cons in Hl as [Hb Hl]. apply dkeeps_drop_quietly; [done|]. by apply IH.
Qed.

Lemma dismiss_inv {A} (g : NodeDb -> A) f (s : NodeDb -> Z) :
  dkeeps inv (execute (fun d => Some (g d, set_t_reports f (s d) d))).
Proof. apply dkeeps_execute; [by intros|]. intros n a d [[] Ht] [= _ <-]. by split. Qed.

Lemma pubkey_blobs_hex p n :
  inv n -> Forall (fun b => is_hex64 (br_sha256 b) = true) (pubkey_blobs p (nd_db n)).
Proof.
  intros [Hc _]. unfold pubkey_blobs. rewrite merge_sort_Permutation.
  apply Forall_forall. intros b [_ (x & -> & Hx)%list_elem_of_fmap]%list_elem_of_filter.
  destruct x as [h r]. apply elem_of_map_to_list in Hx. by apply (co_rows _ _ _ Hc) in Hx as [? _].
Qed.

Lemma adminDeleteUser_inv p : dkeeps inv (adminDeleteUser p).
Proof.
  intros n Hn. unfold adminDeleteUser, listBlobsByPubkeyAdmin. unfold dbind at 1.
  edestruct (query_cases (A := list BlobRecord)) as (r & -> & [->|(e & ->)]); [|done].
  apply (dkeeps_bind inv); [|intros; apply dkeeps_ret|done]. apply delete_all_inv. cbn [default id].
  replace (10000 <? 0) with false by reflexivity. apply Forall_take, Forall_drop. by apply pubkey_blobs_hex.
Qed.

Lemma adminDeleteReported_inv id n :
  Forall (fun r => is_hex64 (rp_blob r) = true) (t_reports (nd_db n)) ->
  inv n -> inv (adminDeleteReported id n).2.
Proof.
  intros Hr Hn. unfold adminDeleteReported, getReport. destruct (parseInt10 id) as [i|]; [|done].
  unfold dbind at 1. edestruct (query_cases (A := option ReportRecord)) as (r & -> & [->|(e & ->)]); [|done].
  destruct (head _) as [rep|] eqn:Eh; [|done].
  assert (Hh : is_hex64 (rp_blob rep) = true).
  { rewrite Forall_forall in Hr. apply Hr. destruct (filter _ (t_reports _)) as [|x l] eqn:Ef; [done|].
    injection Eh as ->. apply (list_elem_of_filter (fun r => rp_id r = i)). rewrite Ef. by left. }
  apply (dkeeps_bind inv); [by apply admin_remove_inv| |done]. intros _.
  apply dkeeps_bind; [apply dismiss_inv|intros; apply dkeeps_ret].
Qed.

(** The hashes an action names are hashes. *)
Definition action_ok (a : admin_action) (d : NodeDb) : Prop :=
  match a with
  | AdminDeleteBlob sha => is_hex64 sha = true
  | AdminDeleteReported _ => Forall (fun r => is_hex64 (rp_blob r) = true) (t_reports d)
  | _ => True
  end.

Lemma adminRoute_inv authorized a n :
  inv n -> action_ok a (nd_db n) -> inv (adminRoute authorized a n).2.
Proof.
  intros Hn Ha. unfold adminRoute. destruct authorized; [|done]. cbn [negb].
  destruct a as [sha|p|id|id]; unfold adminDeleteBlob, adminDismissReport.
  - apply (dkeeps_bind inv); [by apply admin_remove_inv|intros; apply dkeeps_ret|done].
  - apply (dkeeps_bind inv); [apply adminDeleteUser_inv|intros; apply dkeeps_ret|done].
  - destruct (parseInt10 id); [|done]. apply (dkeeps_bind inv); [apply dismiss_inv|intros []; apply dkeeps_ret|done].
  - by apply adminDeleteReported_inv.
Qed.

End Facts.
