(* ===== verification/NodeBridge.v ===== *)
(** * Workers and the database (storage-client/blossom/src/db/bridge.ts, proxy.ts, direct.ts)

    A worker reaches the database through a message channel: [DbProxy] numbers
    its calls and waits, [installDbBridge] runs each request on the main thread
    and posts the answer. With a remote database a worker holds a client of its
    own, [DirectDbHandle]. Requests are served in any order; answers arrive in
    the order they were posted. *)

From S2P Require Import Prelude Js Nip98 NodeRules NodeDb NodeApi NodeMirror NodeMedia NodeReports NodeAdmin.

(** ** Requests and answers *)

Record PageOpts := { po_sort : option (string * string); po_limit : option Z; po_offset : option Z }.

Inductive DbRequest :=
| ReqHasBlob (sha256 : string)
| ReqGetBlob (sha256 : string)
| ReqInsertBlob (blob : BlobRecord) (uploaderPubkey : string)
| ReqIsOwner (sha256 pubkey : string)
| ReqGetStats
| ReqListAllBlobs (filter : BlobFilter) (opts : PageOpts)
| ReqCountBlobs (filter : BlobFilter)
| ReqListAllUsers (filter : UserFilter) (opts : PageOpts)
| ReqCountUsers (filter : UserFilter)
| ReqListAllReports (filter : ReportFilter) (opts : PageOpts)
| ReqCountReports (filter : ReportFilter)
| ReqGetReport (id : Z)
| ReqDeleteBlob (sha256 : string)
| ReqDeleteReport (id : Z)
| ReqDeleteReportsByBlob (blob : string)
| ReqListBlobsByPubkeyAdmin (pubkey : string) (limit offset : option Z)
| ReqCountBlobsByPubkey (pubkey : string).

Inductive DbResult :=
| ResBool (b : bool)
| ResBlob (b : option BlobRecord)
| ResUnit
| ResStats (s : BlobStats)
| ResAdminBlobs (l : list AdminBlobRecord)
| ResNumber (n : Z)
| ResUsers (l : list AdminUserRecord)
| ResReports (l : list ReportRecord)
| ResReport (r : option ReportRecord)
| ResBlobs (l : list BlobRecord).

(** A response carries a result or an error message. *)
Record DbResponse := { rs_reqId : Z; rs_body : exc string DbResult }.

Section Bridge.
Context `{Nostr} `{NodeLib}.

Definition as_result {A} (f : A -> DbResult) (m : D A) : D DbResult := (do* a := m in dret (f a))%D.

(** The switch of the bridge; [now] is the clock [getBlobStats] reads. *)
Definition bridge_exec (now : Z) (r : DbRequest) : D DbResult :=
  match r with
  | ReqHasBlob h => as_result ResBool (hasBlob h)
  | ReqGetBlob h => as_result ResBlob (getBlob h)
  | ReqInsertBlob b pk => as_result (fun _ => ResUnit) (insertBlob b pk)
  | ReqIsOwner h pk => as_result ResBool (isOwner h pk)
  | ReqGetStats => as_result ResStats (getBlobStats now)
  | ReqListAllBlobs f o => as_result ResAdminBlobs (listAllBlobs f (po_sort o) (po_limit o) (po_offset o))
  | ReqCountBlobs f => as_result ResNumber (countBlobs f)
  | ReqListAllUsers f o => as_result ResUsers (listAllUsers f (po_sort o) (po_limit o) (po_offset o))
  | ReqCountUsers f => as_result ResNumber (countUsers f)
  | ReqListAllReports f o => as_result ResReports (listAllReports f (po_sort o) (po_limit o) (po_offset o))
  | ReqCountReports f => as_result ResNumber (countReports f)
  | ReqGetReport i => as_result ResReport (getReport i)
  | ReqDeleteBlob h => as_result ResBool (deleteBlob h)
  | ReqDeleteReport i => as_result ResBool (deleteReport i)
  | ReqDeleteReportsByBlob b => as_result (fun _ => ResUnit) (deleteReportsByBlob b)
  | ReqListBlobsByPubkeyAdmin pk l o => as_result ResBlobs (listBlobsByPubkeyAdmin pk l o)
  | ReqCountBlobsByPubkey pk => as_result ResNumber (countBlobsByPubkey pk)
  end.

(** The message handler: an error is answered with its message. *)
Definition bridge_serve (now reqId : Z) (r : DbRequest) (n : Node) : DbResponse * Node :=
  match bridge_exec now r n with
  | (Ok v, n') => ({| rs_reqId := reqId; rs_body := Ok v |}, n')
  | (Throw e, n') => ({| rs_reqId := reqId; rs_body := Throw (err_message e) |}, n')
  end.

(** ** The worker's side *)

Record DbProxy := { px_pending : gset Z; px_counter : Z; px_settled : gmap Z (exc string DbResult) }.

(** [call]: the number of the request, to be posted. *)
Definition px_call (p : DbProxy) : Z * DbProxy :=
  let reqId := px_counter p + 1 in
  (reqId, {| px_pending := {[reqId]} ∪ px_pending p; px_counter := reqId; px_settled := px_settled p |}).

(** [port.onmessage]: the call resolves or rejects; an unknown number is ignored. *)
Definition px_onmessage (m : DbResponse) (p : DbProxy) : DbProxy :=
  if bool_decide (rs_reqId m ∈ px_pending p) then
    {| px_pending := px_pending p ∖ {[rs_reqId m]}; px_counter := px_counter p;
       px_settled := <[rs_reqId m := rs_body m]> (px_settled p) |}
  else p.

(** ** direct.ts: the same call on a client of one's own *)

Definition direct_exec (now : Z) (r : DbRequest) : D DbResult :=
  match r with
  | ReqHasBlob h => as_result ResBool (hasBlob h)
  | ReqGetBlob h => as_result ResBlob (getBlob h)
  | ReqInsertBlob b pk => as_result (fun _ => ResUnit) (insertBlob b pk)
  | ReqIsOwner h pk => as_result ResBool (isOwner h pk)
  | ReqGetStats => as_result ResStats (getBlobStats now)
  | ReqListAllBlobs f o => as_result ResAdminBlobs (listAllBlobs f (po_sort o) (po_limit o) (po_offset o))
  | ReqCountBlobs f => as_result ResNumber (countBlobs f)
  | ReqListAllUsers f o => as_result ResUsers (listAllUsers f (po_sort o) (po_limit o) (po_offset o))
  | ReqCountUsers f => as_result ResNumber (countUsers f)
  | ReqListAllReports f o => as_result ResReports (listAllReports f (po_sort o) (po_limit o) (po_offset o))
  | ReqCountReports f => as_result ResNumber (countReports f)
  | ReqGetReport i => as_result ResReport (getReport i)
  | ReqDeleteBlob h => as_result ResBool (deleteBlob h)
  | ReqDeleteReport i => as_result ResBool (deleteReport i)
  | ReqDeleteReportsByBlob b => as_result (fun _ => ResUnit) (deleteReportsByBlob b)
  | ReqListBlobsByPubkeyAdmin pk l o => as_result ResBlobs (listBlobsByPubkeyAdmin pk l o)
  | ReqCountBlobsByPubkey pk => as_result ResNumber (countBlobsByPubkey pk)
  end.

Definition direct_call (now : Z) (r : DbRequest) (n : Node) : exc string DbResult * Node :=
  match direct_exec now r n with
  | (Ok v, n') => (Ok v, n')
  | (Throw e, n') => (Throw (err_message e), n')
  end.

(** ** The channel as a system *)

(** [ch_calls] remembers what each call asked, [ch_log] what was served, in
    order, with its answer. *)
Record Channel := {
  ch_node : Node;
  ch_proxy : DbProxy;
  ch_requests : list (Z * DbRequest);
  ch_responses : list DbResponse;
  ch_calls : gmap Z DbRequest;
  ch_log : list (Z * Z * DbRequest * exc string DbResult)
}.

Inductive ch_event :=
| Call (r : DbRequest)
| Serve (now : Z) (i : nat)
| Deliver.

Definition ch_step (e : ch_event) (c : Channel) : Channel :=
  match e with
  | Call r =>
      let (id, p) := px_call (ch_proxy c) in
      {| ch_node := ch_node c; ch_proxy := p; ch_requests := ch_requests c ++ [(id, r)]; ch_responses := ch_responses c;
         ch_calls := <[id := r]> (ch_calls c); ch_log := ch_log c |}
  | Serve now i =>
      match ch_requests c !! i with
      | Some (id, r) =>
          let (m, n) := bridge_serve now id r (ch_node c) in
          {| ch_node := n; ch_proxy := ch_proxy c; ch_requests := delete i (ch_requests c);
             ch_responses := ch_responses c ++ [m]; ch_calls := ch_calls c;
             ch_log := ch_log c ++ [(now, id, r, rs_body m)] |}
      | None => c
      end
  | Deliver =>
      match ch_responses c with
      | m :: rest =>
          {| ch_node := ch_node c; ch_proxy := px_onmessage m (ch_proxy c); ch_requests := ch_requests c;
             ch_responses := rest; ch_calls := ch_calls c; ch_log := ch_log c |}
      | [] => c
      end
  end.

Definition ch_run (evs : list ch_event) (c : Channel) : Channel := fold_left (fun c e => ch_step e c) evs c.

Definition ch_start (n : Node) : Channel :=
  {| ch_node := n; ch_proxy := {| px_pending := empty; px_counter := 0; px_settled := empty |};
     ch_requests := []; ch_responses := []; ch_calls := empty; ch_log := [] |}.

(** The calls of a log made one after the other by a direct handle, with the
    answers they get. *)
Fixpoint direct_log (log : list (Z * Z * DbRequest * exc string DbResult)) (n n' : Node) : Prop :=
  match log with
  | [] => n' = n
  | (now, _, r, x) :: log => exists n1, direct_call now r n = (x, n1) /\ direct_log log n1 n'
  end.

Definition log_ids (log : list (Z * Z * DbRequest * exc string DbResult)) : list Z :=
  map (fun '(_, id, _, _) => id) log.

(** ** Facts *)

Lemma exec_same now r : bridge_exec now r = direct_exec now r.
Proof. by destruct r. Qed.

Lemma serve_direct now id r n :
  bridge_serve now id r n =
  ({| rs_reqId := id; rs_body := (direct_call now r n).1 |}, (direct_call now r n).2).
Proof. unfold bridge_serve, direct_call. rewrite exec_same. by destruct (direct_exec now r n) as [[v|e] n']. Qed.

Lemma direct_log_snoc log now id r n n' :
  direct_log log n n' -> direct_log (log ++ [(now, id, r, (direct_call now r n').1)]) n (direct_call now r n').2.
Proof.
  revert n. induction log as [|[[[t i] q] x] log IH]; intros n; cbn.
  - intros ->. eexists. split; [apply surjective_pairing|done].
  - intros (n1 & Hc & Hl). exists n1. auto.
Qed.

Lemma log_ids_app a b : log_ids (a ++ b) = log_ids a ++ log_ids b.
Proof. apply map_app. Qed.

(** The invariant: every number given out is in one place only - waiting to be
    served, answered but not delivered, or settled - and an answer under a
    number is the one the log has for it. *)
Record ch_ok (n0 : Node) (c : Channel) : Prop := {
  co_log : direct_log (ch_log c) n0 (ch_node c);
  co_fresh : forall id, (id ∈ (ch_requests c).*1 \/ id ∈ log_ids (ch_log c)) -> id <= px_counter (ch_proxy c);
  co_nodup : NoDup ((ch_requests c).*1 ++ log_ids (ch_log c));
  co_asked : forall id r, (id, r) ∈ ch_requests c -> ch_calls c !! id = Some r;
  co_logged : forall now id r x, (now, id, r, x) ∈ ch_log c -> ch_calls c !! id = Some r;
  co_pending : forall id, id ∈ px_pending (ch_proxy c) <->
    id ∈ (ch_requests c).*1 \/ id ∈ map rs_reqId (ch_responses c);
  co_responses : forall m, m ∈ ch_responses c -> exists now r, (now, rs_reqId m, r, rs_body m) ∈ ch_log c;
  co_settled : forall id x, px_settled (ch_proxy c) !! id = Some x -> exists now r, (now, id, r, x) ∈ ch_log c;
  co_done : forall id r, ch_calls c !! id = Some r ->
    id ∈ px_pending (ch_proxy c) \/ is_Some (px_settled (ch_proxy c) !! id);
  co_once : NoDup (map rs_reqId (ch_responses c))
}.

Lemma log_id now id r x (log : list (Z * Z * DbRequest * exc string DbResult)) :
  (now, id, r, x) ∈ log -> id ∈ log_ids log.
Proof. intros Hin. apply list_elem_of_fmap. by exists (now, id, r, x). Qed.

Lemma req_id (id : Z) (r : DbRequest) (l : list (Z * DbRequest)) : (id, r) ∈ l -> id ∈ l.*1.
Proof. intros Hin. apply list_elem_of_fmap. by exists (id, r). Qed.

Lemma ch_call_ok n0 r c : ch_ok n0 c -> ch_ok n0 (ch_step (Call r) c).
Proof.
  intros [Hl Hf Hn Ha Hg Hp Hr Hs Hd Ho]. set (id := px_counter (ch_proxy c) + 1).
  assert (forall i, i ∈ (ch_requests c).*1 \/ i ∈ log_ids (ch_log c) -> i <> id) as Hnew.
  { intros i Hi%Hf. unfold id. lia. }
  constructor; cbn; fold id; try done.
  - intros i. rewrite fmap_app, elem_of_app. intros [[Hi| ->%list_elem_of_singleton]|Hi]; [|unfold id; cbn; lia|];
      specialize (Hf i); unfold id; intuition lia.
  - rewrite fmap_app, <- (assoc_L app). cbn. apply (NoDup_Permutation_proper _ _ (Permutation_middle _ _ _)).
    constructor; [|done]. intros Hi%elem_of_app. by apply (Hnew id Hi).
  - intros i q [Hi|[= -> ->]%list_elem_of_singleton]%elem_of_app; [|apply lookup_insert_eq].
    rewrite lookup_insert_ne; [by apply Ha|]. apply not_eq_sym, Hnew. left. by eapply req_id.
  - intros now i q x Hi. rewrite lookup_insert_ne; [by eapply Hg|]. apply not_eq_sym, Hnew. right. by eapply log_id.
  - intros i. rewrite fmap_app, !elem_of_app, elem_of_union, Hp. cbn. set_solver.
  - intros i q. destruct (decide (i = id)) as [->|Hne]; [left; set_solver|].
    rewrite lookup_insert_ne by done. intros [Hi|Hi]%Hd; [left; set_solver|by right].
Qed.

Lemma ch_serve_ok n0 now i c : ch_ok n0 c -> ch_ok n0 (ch_step (Serve now i) c).
Proof.
  intros Hok. cbn [ch_step]. destruct (ch_requests c !! i) as [[id r]|] eqn:Ei; [|done].
  destruct Hok as [Hl Hf Hn Ha Hg Hp Hr Hs Hd Ho]. rewrite serve_direct. cbn [rs_body].
  pose proof (delete_Permutation _ _ _ Ei) as Hperm. pose proof (fmap_Permutation fst _ _ Hperm) as Hids. cbn in Hids.
  assert (forall y, y ∈ (ch_requests c).*1 <-> y = id \/ y ∈ (delete i (ch_requests c)).*1) as Hmem.
  { intros y. rewrite Hids. apply elem_of_cons. }
  rewrite Hids in Hn. cbn in Hn. apply NoDup_cons in Hn as [Hnin Hn]. rewrite elem_of_app in Hnin.
  constructor; cbn; try done.
  - by apply direct_log_snoc.
  - intros y. rewrite log_ids_app, elem_of_app. cbn. intros Hy. apply Hf. rewrite Hmem. set_solver.
  - rewrite log_ids_app, (assoc_L app). cbn. apply NoDup_app. split_and!; [done| |apply NoDup_singleton].
    intros y Hy ->%list_elem_of_singleton. apply Hnin. by apply elem_of_app.
  - intros y q Hy. apply Ha. rewrite Hperm. by right.
  - intros t y q x [Hy|[= -> -> -> ->]%list_elem_of_singleton]%elem_of_app; [by eapply Hg|].
    apply Ha. eapply list_elem_of_lookup_2, Ei.
  - intros y. rewrite map_app, elem_of_app, Hp, Hmem. cbn. set_solver.
  - intros m [Hm| ->%list_elem_of_singleton]%elem_of_app.
    + destruct (Hr m Hm) as (t & q & Hin). exists t, q. apply elem_of_app. by left.
    + exists now, r. apply elem_of_app. right. left.
  - intros y x Hy. destruct (Hs y x Hy) as (t & q & Hin). exists t, q. apply elem_of_app. by left.
  - rewrite map_app. cbn. apply NoDup_app. split_and!; [done| |apply NoDup_singleton].
    intros y (m & -> & Hm)%list_elem_of_fmap He%list_elem_of_singleton. apply Hnin. right.
    destruct (Hr m Hm) as (t & q & Hin). rewrite He in Hin. by eapply log_id.
Qed.

Lemma ch_deliver_ok n0 c : ch_ok n0 c -> ch_ok n0 (ch_step Deliver c).
Proof.
  intros Hok. cbn [ch_step]. destruct (ch_responses c) as [|m rest] eqn:Er; [done|].
  destruct Hok as [Hl Hf Hn Ha Hg Hp Hr Hs Hd Ho]. rewrite Er in *. cbn in Ho. apply NoDup_cons in Ho as [Hnin Ho].
  destruct (Hr m) as (t & q & Hin); [left|].
  assert (rs_reqId m ∈ px_pending (ch_proxy c)) as Hm by (apply Hp; right; left).
  assert (rs_reqId m ∉ (ch_requests c).*1) as Hreq.
  { intros Hq. apply NoDup_app in Hn as (_ & Hdis & _). apply (Hdis _ Hq). by eapply log_id. }
  unfold px_onmessage. rewrite bool_decide_eq_true_2 by done. constructor; cbn; try done.
  - intros y. rewrite elem_of_difference, Hp, elem_of_singleton. cbn. rewrite elem_of_cons. split.
    + intros [[?|[?|?]] ?]; auto; done.
    + intros [Hy|Hy]; (split; [auto|]); intros ->; done.
  - intros m' Hm'. apply Hr. by right.
  - intros y x. destruct (decide (y = rs_reqId m)) as [->|Hne].
    + rewrite lookup_insert_eq. intros [= <-]. eauto.
    + rewrite lookup_insert_ne by done. apply Hs.
  - intros y r Hy. destruct (decide (y = rs_reqId m)) as [->|Hne]; [right; rewrite lookup_insert_eq; eauto|].
    rewrite lookup_insert_ne by done. destruct (Hd y r Hy) as [?|?]; [left; set_solver|by right].
Qed.

Lemma ch_run_ok n0 evs : ch_ok n0 (ch_run evs (ch_start n0)).
Proof.
  assert (ch_ok n0 (ch_start n0)) as Hok.
  { constructor; cbn; try done; try set_solver. constructor. constructor. }
  revert Hok. generalize (ch_start n0). induction evs as [|e evs IH]; intros c Hok; [done|]. cbn. apply IH.
  destruct e; auto using ch_call_ok, ch_serve_ok, ch_deliver_ok.
Qed.

(** C29: a worker's calls through the channel are calls on the database one
    after the other. However requests, answers and their deliveries interleave,
    there is an order of the served calls in which a direct handle gives every
    settled call the value or error it has, and leaves the same database; each
    call is served at most once; and a call that is not settled is still on its
    way, so an empty channel leaves none waiting. *)
Theorem bridge_refines_direct n0 evs :
  let c := ch_run evs (ch_start n0) in
  exists log, direct_log log n0 (ch_node c) /\ NoDup (log_ids log) /\
    (forall id x, px_settled (ch_proxy c) !! id = Some x ->
       exists now r, ch_calls c !! id = Some r /\ (now, id, r, x) ∈ log) /\
    (ch_requests c = [] -> ch_responses c = [] -> forall id r, ch_calls c !! id = Some r ->
       is_Some (px_settled (ch_proxy c) !! id)).
Proof.
  intros c. pose proof (ch_run_ok n0 evs) as Hok. fold c in Hok. exists (ch_log c). split_and!.
  - apply Hok.
  - by pose proof (co_nodup _ _ Hok) as (_ & _ & ?)%NoDup_app.
  - intros id x Hx. destruct (co_settled _ _ Hok _ _ Hx) as (now & r & Hin). exists now, r.
    split; [by eapply (co_logged _ _ Hok)|done].
  - intros Hq Hr id r Hid. destruct (co_done _ _ Hok _ _ Hid) as [Hp|]; [|done].
    apply (co_pending _ _ Hok) in Hp. rewrite Hq, Hr in Hp. set_solver.
Qed.
End Bridge.
