(* ===== verification/NodeList.v ===== *)
(** * Paging through a listing

    A client that follows the cursor of GET /list/:pubkey (the hash of the last
    blob of a page) sees every blob of the key once, newest first. *)

From Stdlib Require Import Ascii.
From S2P Require Import Prelude Js Nip98 NodeRules NodeDb NodeApi NodePrune NodeFacts.

Definition with_cursor (c : string) (o : ListOpts) : ListOpts :=
  {| lo_limit := lo_limit o; lo_cursor := Some c; lo_since := lo_since o; lo_until := lo_until o |}.

Section Walk.
Context `{Nostr} `{NodeLib}.

(** Ask for pages until one is empty. *)
Fixpoint walk (fuel : nat) (pubkey : string) (o : ListOpts) : D (list BlobRecord) :=
  match fuel with
  | O => dret []
  | S fuel => (
      do* page := listBlobsByPubkey pubkey o in
      match last page with
      | None => dret []
      | Some b => do* rest := walk fuel pubkey (with_cursor (br_sha256 b) o) in dret (page ++ rest)
      end)%D
  end.

(** ** The order *)

Lemma ltb_of_leb a b : String.leb a b = true -> a <> b -> String.ltb a b = true.
Proof.
  unfold String.leb, String.ltb. destruct (String.compare a b) eqn:E; [|done..].
  by apply String.compare_eq_iff in E.
Qed.
Lemma ltb_not_leb a b : String.ltb a b = true -> String.leb b a = false.
Proof.
  unfold String.leb, String.ltb. rewrite (String.compare_antisym a b). by destruct (String.compare b a).
Qed.

#[local] Instance newest_first_trans : Transitive newest_first.
Proof. intros a b c [?|[? ?]] [?|[? ?]]; [left; lia..|]. right. split; [lia|]. by eapply leb_trans. Qed.
#[local] Instance newest_first_total : Total newest_first.
Proof.
  intros a b. unfold newest_first. destruct (Z.lt_trichotomy (br_uploaded a) (br_uploaded b)) as [?|[E|?]]; [by right; left| |by left; left].
  destruct (String.leb_total (br_sha256 a) (br_sha256 b)); [left; right|right; right]; done.
Qed.

Lemma after_newest x b : newest_first x b -> br_sha256 x <> br_sha256 b -> after_cursor (br_uploaded x) (br_sha256 x) b.
Proof. intros [?|[? ?]] Hne; [by left|right]. split; [lia|]. by apply ltb_of_leb. Qed.
Lemma not_after_newest x b : newest_first b x -> ~ after_cursor (br_uploaded x) (br_sha256 x) b.
Proof.
  intros [?|[? Hl]] [?|[? Hlt]]; try lia. apply ltb_not_leb in Hlt. congruence.
Qed.

(** ** One page *)

Context (pubkey : string) (o : ListOpts) (d : NodeDb).

(** All blobs the listing is about. *)
Definition listed : list BlobRecord := filter (selected o None) (owned_records pubkey d).
Definition in_order : list BlobRecord := merge_sort newest_first listed.

Lemma owned_functional a b :
  a ∈ owned_records pubkey d -> b ∈ owned_records pubkey d -> br_sha256 a = br_sha256 b -> a = b.
Proof.
  unfold owned_records, blob_records. intros [_ Ha]%list_elem_of_filter [_ Hb]%list_elem_of_filter.
  apply list_elem_of_fmap in Ha as ([h r] & -> & Ha%elem_of_map_to_list).
  apply list_elem_of_fmap in Hb as ([h' r'] & -> & Hb%elem_of_map_to_list). simpl. intros <-. by simplify_eq.
Qed.

Lemma in_order_perm : in_order ≡ₚ listed.
Proof. apply merge_sort_Permutation. Qed.
Lemma in_order_sorted : StronglySorted newest_first in_order.
Proof. apply StronglySorted_merge_sort; apply _. Qed.
Lemma in_order_owned b : b ∈ in_order -> b ∈ owned_records pubkey d.
Proof. rewrite in_order_perm. unfold listed. by intros [_ ?]%list_elem_of_filter. Qed.

Lemma in_order_nodup : NoDup (br_sha256 <$> in_order).
Proof.
  rewrite in_order_perm. unfold listed. apply NoDup_fmap_2_strong.
  - intros a b [_ Ha]%list_elem_of_filter [_ Hb]%list_elem_of_filter. by apply owned_functional.
  - apply NoDup_filter. unfold owned_records, blob_records. apply NoDup_filter.
    assert (NoDup (br_sha256 <$> ((fun p => record_of p.1 p.2) <$> map_to_list (t_blobs d)))) as Hn; [|by apply NoDup_fmap_1 in Hn].
    rewrite <- list_fmap_compose. apply NoDup_fst_map_to_list.
Qed.

(** The query behind a cursor returns what follows the cursor's blob. *)
Lemma after_split l1 x l2 :
  in_order = l1 ++ x :: l2 ->
  merge_sort newest_first (filter (selected o (Some (br_uploaded x, br_sha256 x))) (owned_records pubkey d)) = l2.
Proof.
  intros Hsplit. pose proof in_order_sorted as Hs. pose proof in_order_nodup as Hnd. rewrite Hsplit in Hs, Hnd.
  apply StronglySorted_app in Hs as (H1 & _ & H2). rewrite fmap_app in Hnd. apply NoDup_app in Hnd as (_ & Hdis & Hnd).
  simpl in Hnd. apply NoDup_cons in Hnd as [Hx _]. apply StronglySorted_inv in H2 as [Hs2 Hall]. rewrite Forall_forall in Hall.
  assert (filter (selected o (Some (br_uploaded x, br_sha256 x))) (owned_records pubkey d) ≡ₚ l2) as Hp.
  { transitivity (filter (after_cursor (br_uploaded x) (br_sha256 x)) in_order).
    - rewrite in_order_perm. unfold listed. rewrite list_filter_filter. apply reflexive_eq, list_filter_iff.
      intros b. unfold selected. tauto.
    - rewrite Hsplit, filter_app, filter_cons. rewrite decide_False by (apply not_after_newest; right; split; [done|by destruct (String.leb_total (br_sha256 x) (br_sha256 x))]).
      rewrite (filter_none _ l1) by (intros b Hb; apply not_after_newest, H1; [done|set_solver]).
      simpl. apply reflexive_eq. apply filter_all. intros b Hb. apply after_newest; [by apply Hall|].
      intros E. apply Hx. rewrite E. by apply list_elem_of_fmap_2. }
  apply (StronglySorted_unique_strong newest_first).
  - intros a b Ha Hb [?|[? Hab]] [?|[? Hba]]; try lia. apply owned_functional.
    + rewrite merge_sort_Permutation in Ha. apply list_elem_of_filter in Ha. tauto.
    + apply in_order_owned. rewrite Hsplit. set_solver.
    + by apply String.leb_antisym.
  - apply StronglySorted_merge_sort; apply _.
  - done.
  - by rewrite merge_sort_Permutation.
Qed.

Definition page_limit : nat := Z.to_nat (Z.min (default 100 (lo_limit o)) 1000).

Context (Hlimit : match lo_limit o with Some l => 1 <= l | None => True end) (Hempty : t_blobs d !! "" = None).

Lemma page_limit_pos : (0 < page_limit)%nat.
Proof. unfold page_limit. destruct (lo_limit o); simpl; lia. Qed.

Lemma owned_key b : b ∈ owned_records pubkey d -> exists row, b = record_of (br_sha256 b) row /\ t_blobs d !! br_sha256 b = Some row.
Proof.
  unfold owned_records, blob_records. intros [_ Ha]%list_elem_of_filter.
  apply list_elem_of_fmap in Ha as ([h r] & -> & Ha%elem_of_map_to_list). by exists r.
Qed.

(** The options of a page behind [prefix]. *)
Definition opts_after (l1 : list BlobRecord) : ListOpts :=
  match last l1 with Some b => with_cursor (br_sha256 b) o | None => o end.

Lemma page_after l1 l2 n :
  lo_cursor o = None -> in_order = l1 ++ l2 -> quiet n -> nd_db n = d ->
  exists n', listBlobsByPubkey pubkey (opts_after l1) n = (Ok (take page_limit l2), n') /\ quiet n' /\ nd_db n' = d.
Proof.
  intros Hc Hsplit Hq Hdb. unfold listBlobsByPubkey, opts_after, query.
  assert ((Z.min (default 100 (lo_limit o)) 1000 <? 0) = false) as Hpos by (destruct (lo_limit o); simpl; lia).
  destruct (last l1) as [b|] eqn:El.
  - apply last_Some in El as [l0 ->]. rewrite <- app_assoc in Hsplit. simpl in Hsplit.
    assert (b ∈ in_order) as Hb by (rewrite Hsplit; set_solver).
    destruct (owned_key b (in_order_owned b Hb)) as (row & Eb & Hrow). simpl.
    destruct (String.eqb_spec (br_sha256 b) "") as [E|_]; [by rewrite E, Hempty in Hrow|].
    unfold dbind. rewrite execute_quiet by done. rewrite Hdb, Hrow. simpl.
    assert (quiet (set_nd_db d (set_nd_faults (tail (nd_faults n)) n))) as Hq1 by by apply quiet_tail.
    rewrite execute_quiet by done. simpl.
    match goal with |- exists n', (_, ?m) = _ /\ _ => exists m end. split; [|split; [exact (quiet_tail _ Hq1)|done]].
    f_equal. f_equal. unfold list_page. simpl. rewrite Hpos. unfold page_limit. f_equal.
    replace (r_uploaded row) with (br_uploaded b) by by rewrite Eb.
    by rewrite <- (after_split l0 b l2 Hsplit).
  - apply last_None in El as ->. rewrite Hc. unfold dbind. simpl. rewrite execute_quiet by done. rewrite Hdb.
    match goal with |- exists n', (_, ?m) = _ /\ _ => exists m end. split; [|split; [by apply quiet_tail|done]].
    f_equal. f_equal. unfold list_page. rewrite Hpos.
    simpl in Hsplit. unfold page_limit. by rewrite <- Hsplit.
Qed.

Lemma walk_rest fuel l1 l2 n :
  lo_cursor o = None -> in_order = l1 ++ l2 -> quiet n -> nd_db n = d -> (length l2 < fuel)%nat ->
  exists n', walk fuel pubkey (opts_after l1) n = (Ok l2, n') /\ nd_db n' = d.
Proof.
  intros Hc. revert l1 l2 n. induction fuel as [|fuel IH]; intros l1 l2 n Hsplit Hq Hdb Hf; [lia|]. cbn [walk].
  destruct (page_after l1 l2 n Hc Hsplit Hq Hdb) as (n1 & Hp & Hq1 & Hdb1). unfold dbind at 1. rewrite Hp.
  pose proof page_limit_pos as Hpl. destruct (last (take page_limit l2)) as [b|] eqn:El.
  - assert (opts_after (l1 ++ take page_limit l2) = with_cursor (br_sha256 b) (opts_after l1)) as Ho.
    { unfold opts_after. rewrite last_app, El. by destruct (last l1). }
    rewrite <- Ho. destruct (IH (l1 ++ take page_limit l2) (drop page_limit l2) n1) as (n2 & Hw & Hdb2);
      [by rewrite <- app_assoc, take_drop|done|done| |].
    { apply last_Some in El as [l0 El]. destruct l2; [by destruct l0, page_limit|]. rewrite length_drop. simpl in *. lia. }
    unfold dbind. rewrite Hw. exists n2. split; [|done]. unfold dret. by rewrite take_drop.
  - apply last_None in El. destruct l2 as [|x l2]; [eauto|]. destruct page_limit; [lia|done].
Qed.
End Walk.

(** Following the cursor lists everything once. While the tables do not change
    and the database answers, a client that asks for pages of any size, each
    time with the hash of the last blob it got, receives exactly the blobs of
    the key in the given period, newest first and none twice, and the last page
    is empty. *)
Theorem list_walk_exact `{Nostr} `{NodeLib} fuel pubkey o n :
  quiet n -> t_blobs (nd_db n) !! "" = None -> lo_cursor o = None ->
  match lo_limit o with Some l => 1 <= l | None => True end ->
  (length (listed pubkey o (nd_db n)) < fuel)%nat ->
  exists l n', walk fuel pubkey o n = (Ok l, n') /\ nd_db n' = nd_db n /\
    l ≡ₚ listed pubkey o (nd_db n) /\ StronglySorted newest_first l /\ NoDup (br_sha256 <$> l).
Proof.
  intros Hq He Hc Hl Hf. destruct (walk_rest pubkey o (nd_db n) Hl He fuel [] (in_order pubkey o (nd_db n)) n)
    as (n' & Hw & Hdb); [done..|by rewrite in_order_perm|].
  eexists _, n'. split_and!; [exact Hw|done|apply in_order_perm|apply in_order_sorted|apply in_order_nodup].
Qed.
