(* ===== verification/NodeSystem.v ===== *)
(** * A storage node under any sequence of requests

    The requests and prune cycles a node serves, one after the other, and what
    holds of its tables and files after all of them. *)

From Stdlib Require Import Ascii.
From S2P Require Import Prelude Js Nip98 NodeRules NodeDb NodeApi NodeMirror NodePrune NodeFacts NodeMirrorFacts NodeReports NodeMedia NodeMediaFacts.

(** ** Requests *)

Inductive node_op :=
| PutOp (r : NReq)
| HeadUploadOp (r : NReq)
| DeleteOp (r : NReq)
| BlobOp (r : NReq)
| ListOp (r : NReq)
| MirrorOp (q : MirrorReq)
| ReportOp (q : ReportReq)
| MediaOp (q : MediaReq)
| HeadMediaOp (r : NReq)
| PruneOp.

(** When it is served, and which of its statements fail. *)
Record node_req := { no_now : Z; no_faults : list bool; no_op : node_op }.

Section System.
Context `{NodeLaws} `{ReportLib} `{MediaLib}.
Context (cfg : NConfig) (native : bool).

(** The global middleware, then the route, with the error handler around both. *)
Definition with_auth {A} (now : Z) (r : NReq) (k : auth_ctx -> D (nresp A)) : D (nresp A) :=
  onError (do* ctx := dlift (authMiddleware now cfg r) in k ctx)%D.

Definition serve_put (now : Z) (r : NReq) : D (nresp NDescriptor) :=
  with_auth now r (fun ctx => putUpload now cfg ctx r).
Definition serve_delete (now : Z) (r : NReq) : D (nresp unit) :=
  with_auth now r (fun ctx => deleteRoute cfg ctx r).
(** A path without a hash falls through all routes. *)
Definition serve_blob (now : Z) (r : NReq) : D (nresp BlobBody) :=
  with_auth now r (fun _ =>
    do* resp := blobRoute native now r in dret (default (NErr 404 "404 Not Found") resp))%D.

(** The route exists only when reports are enabled. *)
Definition serve_report (now : Z) (q : ReportReq) : D (nresp unit) :=
  with_auth now (rq_req q) (fun _ => if cf_reportEnabled cfg then reportRoute q else dret (NErr 404 "404 Not Found")).

Definition serve_media (now : Z) (q : MediaReq) : D (nresp NDescriptor) :=
  with_auth now (md_req q) (fun ctx => putMedia now cfg (cf_media cfg) ctx q).

Definition serve_node (q : node_req) : D unit := (
  let now := no_now q in
  match no_op q with
  | PutOp r => do* _ := serve_put now r in dret tt
  | HeadUploadOp r => do* _ := with_auth now r (fun ctx => headUpload cfg ctx r) in dret tt
  | DeleteOp r => do* _ := serve_delete now r in dret tt
  | BlobOp r => do* _ := serve_blob now r in dret tt
  | ListOp r => do* _ := with_auth now r (fun ctx => listRoute cfg ctx r) in dret tt
  | MirrorOp m => do* _ := with_auth now (mq_req m) (fun ctx => mirrorRoute now cfg ctx m) in dret tt
  | ReportOp m => do* _ := serve_report now m in dret tt
  | MediaOp m => do* _ := serve_media now m in dret tt
  | HeadMediaOp r => do* _ := with_auth now r (fun ctx => dret (headMedia cfg (cf_media cfg) ctx r)) in dret tt
  | PruneOp => do* _ := pruneStorage now (cf_rules cfg) (cf_removeWhenNoOwners cfg) in dret tt
  end)%D.

Definition run_node_req (n : Node) (q : node_req) : Node := (serve_node q (set_nd_faults (no_faults q) n)).2.
Definition run_node (qs : list node_req) (n : Node) : Node := foldl run_node_req n qs.

(** ** Rows keep their files *)

Context (genuine : string -> Prop) (no_thumbs : bool).

(** Uploaded and mirrored bytes and what the media tools make of them are among
    those in play; the names of temporary files are different; thumbnails are
    made only on a node that may have them; a deletion meets failing statements
    only on a node without thumbnails. *)
Definition op_ok (q : node_req) : Prop :=
  match no_op q with
  | PutOp r => body_ok genuine r
  | MirrorOp m => origin_ok genuine m
  | MediaOp m => media_ok genuine no_thumbs (cf_media cfg) m
  | DeleteOp _ => no_thumbs = true \/ Forall (fun b => b = false) (no_faults q)
  | _ => True
  end.

Lemma dkeeps_with_auth {A} I now r (k : auth_ctx -> D (nresp A)) :
  (forall ctx, dkeeps I (k ctx)) -> dkeeps I (with_auth now r k).
Proof. intros Hk. apply dkeeps_onError, dkeeps_bind; [apply dkeeps_lift | done]. Qed.

Lemma with_auth_inv {A} (I : Node -> Prop) now r (k : auth_ctx -> D (nresp A)) n :
  (forall ctx, I (k ctx n).2) -> I n -> I (with_auth now r k n).2.
Proof.
  intros Hk Hn. unfold with_auth, onError, dcatch, dbind, dlift.
  destruct (authMiddleware now cfg r) as [ctx|e]; [|done]. simpl. specialize (Hk ctx).
  by destruct (k ctx n) as [[?|?] ?].
Qed.

Lemma drop_result {A} (I : Node -> Prop) (m : D A) n : I (m n).2 -> I ((do* _ := m in dret tt)%D n).2.
Proof. unfold dbind. by destruct (m n) as [[?|?] ?]. Qed.

Lemma run_node_req_inv q n :
  (forall a b, genuine a -> genuine b -> sha256 a = sha256 b -> a = b) ->
  op_ok q -> inv genuine no_thumbs n -> inv genuine no_thumbs (run_node_req n q).
Proof.
  intros Hnc Hq Hn. unfold run_node_req. set (n' := set_nd_faults (no_faults q) n).
  assert (inv genuine no_thumbs n') as Hn' by done. unfold serve_node, op_ok in *.
  destruct (no_op q) as [r|r|r|r|r|m|m|m|r|]; apply drop_result.
  - apply (dkeeps_with_auth (inv genuine no_thumbs)); [intros; by apply putUpload_inv|done].
  - apply (dkeeps_with_auth (inv genuine no_thumbs)); [intros; apply dkeeps_headUpload|done].
  - apply (with_auth_inv (inv genuine no_thumbs)); [|done]. intros ctx. by apply deleteRoute_inv.
  - apply (dkeeps_with_auth (inv genuine no_thumbs)); [|done]. intros. apply dkeeps_bind; [apply dkeeps_blobRoute | intros; apply dkeeps_ret].
  - apply (dkeeps_with_auth (inv genuine no_thumbs)); [intros; apply dkeeps_listRoute|done].
  - apply (dkeeps_with_auth (inv genuine no_thumbs)); [intros; by apply mirrorRoute_inv|done].
  - apply (with_auth_inv (inv genuine no_thumbs)); [|done]. intros ctx. case_match; [|done].
    destruct Hn' as [Hc Ht]. split.
    + unfold node_ok. rewrite reportRoute_files.
      apply (reportRoute_other (fun d => consistent genuine d (nd_files n'))); [|exact Hc]. by intros f s d [].
    + intros Hnt. apply (reportRoute_other (fun d => t_thumbnails d = ∅)); [done|by apply Ht].
  - apply (dkeeps_with_auth (inv genuine no_thumbs)); [intros; by apply putMedia_inv|done].
  - apply (dkeeps_with_auth (inv genuine no_thumbs)); [intros; apply dkeeps_ret|done].
  - by apply dkeeps_pruneStorage.
Qed.

Lemma run_node_inv qs n :
  (forall a b, genuine a -> genuine b -> sha256 a = sha256 b -> a = b) ->
  Forall op_ok qs -> inv genuine no_thumbs n -> inv genuine no_thumbs (run_node qs n).
Proof.
  intros Hnc Hqs. unfold run_node. revert n. induction Hqs as [|q qs Hq _ IH]; intros n Hn; [done|].
  apply IH. by apply run_node_req_inv.
Qed.

(** Whatever the Blossom routes are asked and however often the node prunes,
    with statements of the database failing at any point, every row has its
    file, and no reference a missing row. The dashboard's actions are added in
    [NodeServer]. *)
Theorem node_rows_have_files qs n :
  (forall a b, genuine a -> genuine b -> sha256 a = sha256 b -> a = b) ->
  Forall op_ok qs -> node_ok genuine n -> (no_thumbs = true -> t_thumbnails (nd_db n) = ∅) ->
  node_ok genuine (run_node qs n).
Proof. intros Hnc Hqs Hn Ht. by apply run_node_inv. Qed.
End System.
