(* ===== verification/NodeServe.v ===== *)
(** * What a storage node serves

    Range headers, the two ways of reading a range, and the answer to a
    download. *)

From Stdlib Require Import Ascii.
From S2P Require Import Prelude Js Nip98 NodeRules NodeDb NodeApi NodeMirror NodePrune NodeFacts NodeMirrorFacts NodeReports NodeMedia NodeSystem.

(** ** Substrings *)

Lemma substring_whole s n : (String.length s <= n)%nat -> String.substring 0 n s = s.
Proof.
  revert n. induction s as [|c s IH]; intros [|n] Hn; simpl in *; [done..|lia|]. f_equal. apply IH. lia.
Qed.

Lemma substring_none s : String.substring 0 0 s = "".
Proof. by destruct s. Qed.

Lemma substring_app n a b :
  String.substring 0 n (a +:+ b) =
  if (String.length a <=? n)%nat then a +:+ String.substring 0 (n - String.length a) b
  else String.substring 0 n a.
Proof.
  revert n. induction a as [|c a IH]; intros n; [by rewrite Nat.sub_0_r|]. rewrite sapp_cons.
  destruct n as [|n]; [done|]. simpl. rewrite IH. by case_match.
Qed.

Lemma drop_bytes_0 s : drop_bytes 0 s = s.
Proof. unfold drop_bytes. rewrite Nat.sub_0_r. by apply substring_whole. Qed.

Lemma drop_bytes_S n c s : drop_bytes (S n) (String c s) = drop_bytes n s.
Proof. reflexivity. Qed.

Lemma drop_bytes_app n a b :
  drop_bytes n (a +:+ b) =
  if (String.length a <=? n)%nat then drop_bytes (n - String.length a) b else drop_bytes n a +:+ b.
Proof.
  revert n. induction a as [|c a IH]; intros n; [by rewrite Nat.sub_0_r|]. rewrite sapp_cons.
  destruct n as [|n]; [by rewrite !drop_bytes_0|]. rewrite !drop_bytes_S, IH. simpl. done.
Qed.

Lemma substring_drop a n s : String.substring a n s = String.substring 0 n (drop_bytes a s).
Proof.
  revert s. induction a as [|a IH]; intros s; [by rewrite drop_bytes_0|].
  destruct s as [|c s]; [by destruct n|]. by rewrite drop_bytes_S, <- IH.
Qed.

Lemma length_drop_bytes n s : String.length (drop_bytes n s) = (String.length s - n)%nat.
Proof.
  revert n. induction s as [|c s IH]; intros [|n]; [done|done| |]; [by rewrite drop_bytes_0|].
  by rewrite drop_bytes_S, IH.
Qed.

Lemma length_substring n s : String.length (String.substring 0 n s) = Nat.min n (String.length s).
Proof. revert n. induction s as [|c s IH]; intros [|n]; simpl; [done..|]. by rewrite IH. Qed.

Lemma sconcat_cons x l : String.concat "" (x :: l) = x +:+ String.concat "" l.
Proof. destruct l; simpl; [by rewrite sapp_nil_r|done]. Qed.

(** ** Reading a range *)

(** Limiting a stream of chunks limits its bytes. *)
Lemma byteLimit_concat n chunks :
  String.concat "" (byteLimit n chunks) = String.substring 0 n (String.concat "" chunks).
Proof.
  revert n. induction chunks as [|c chunks IH]; intros n; [by destruct n|].
  cbn [byteLimit]. rewrite sconcat_cons, substring_app. destruct (Nat.eqb_spec n 0) as [->|Hn].
  { destruct (Nat.leb_spec (String.length c) 0); [|by destruct c]. destruct c; [|simpl in *; lia].
    simpl. by rewrite substring_none. }
  destruct (Nat.leb_spec (String.length c) n); [|done].
  destruct (Nat.eqb_spec (n - String.length c) 0) as [->|]; [|by rewrite sconcat_cons, IH].
  by rewrite substring_none, sapp_nil_r.
Qed.

(** One chunk is cut to what is still wanted; [F] serves the rest, from [Y]. *)
Lemma slice_step (F : nat -> list string) (Y c : string) want :
  (forall w, (0 < w)%nat -> String.concat "" (F w) = String.substring 0 w Y) ->
  let toRead := Nat.min (String.length c) want in
  String.concat "" (if (want - toRead =? 0)%nat then [String.substring 0 toRead c]
                    else String.substring 0 toRead c :: F (want - toRead)%nat) =
  String.substring 0 want (c +:+ Y).
Proof.
  intros HF toRead. subst toRead. rewrite substring_app.
  destruct (Nat.leb_spec (String.length c) want).
  - rewrite Nat.min_l by done. rewrite (substring_whole c (String.length c)) by done.
    destruct (Nat.eqb_spec (want - String.length c) 0) as [->|].
    + by rewrite substring_none, sapp_nil_r.
    + by rewrite sconcat_cons, HF by lia.
  - rewrite Nat.min_r by lia. by rewrite Nat.sub_diag.
Qed.

(** Slicing a stream of chunks slices its bytes. *)
Lemma stream_slice_concat skip want chunks :
  (0 < want)%nat ->
  String.concat "" (stream_slice skip want chunks) = String.substring skip want (String.concat "" chunks).
Proof.
  revert skip want. induction chunks as [|v chunks IH]; intros skip want Hw.
  { by destruct skip, want. }
  cbn [stream_slice]. rewrite (sconcat_cons v chunks), (substring_drop skip want), drop_bytes_app.
  assert (forall c, String.concat "" (if (want - Nat.min (String.length c) want =? 0)%nat
             then [String.substring 0 (Nat.min (String.length c) want) c]
             else String.substring 0 (Nat.min (String.length c) want) c ::
                  stream_slice 0 (want - Nat.min (String.length c) want) chunks) =
           String.substring 0 want (c +:+ String.concat "" chunks)) as Hstep.
  { intros c. apply (slice_step (fun w => stream_slice 0 w chunks)). intros w Hpos. by apply IH. }
  destruct (Nat.ltb_spec 0 skip) as [Hs|Hs], (Nat.leb_spec (String.length v) skip) as [Hl|Hl]; cbn [andb].
  - by rewrite IH, substring_drop.
  - apply Hstep.
  - assert (skip = 0%nat) as -> by lia. rewrite Hstep. destruct v; [|simpl in Hl; lia]. by rewrite drop_bytes_0.
  - assert (skip = 0%nat) as -> by lia. rewrite drop_bytes_0. apply Hstep.
Qed.

Section Serve.
Context `{NodeLaws}.

Lemma touchBlob_files h t n : nd_files (touchBlob h t n).2 = nd_files n.
Proof.
  unfold touchBlob, execute. destruct (match nd_faults n with b :: _ => b | [] => false end); [done|]. simpl.
  by destruct (t_blobs (nd_db n) !! h).
Qed.

Lemma quietly_files {A} (m : D A) n :
  nd_files (m n).2 = nd_files n -> exists n', quietly m n = (Ok tt, n') /\ nd_files n' = nd_files n.
Proof.
  intros Hf. unfold quietly, dcatch, dbind. destruct (m n) as [[a|e] n']; simpl in *; eauto.
Qed.

(** Both ways of reading give the bytes of the range. *)
Lemma readRange_bytes native hash ext start stop data n :
  0 <= start <= stop -> nd_files n !! blobPath hash ext = Some data ->
  exists chunks, readRange native hash ext start stop n = (Ok (Some chunks), n) /\
    String.concat "" chunks = String.substring (Z.to_nat start) (Z.to_nat (stop - start + 1)) data.
Proof.
  intros Hr Hf. unfold readRange. destruct native.
  - unfold dgets. rewrite Hf. simpl. eexists. split; [done|].
    by rewrite byteLimit_concat, chop_concat, (substring_drop (Z.to_nat start)).
  - unfold dbind, st_read, dgets. rewrite Hf. simpl. eexists. split; [done|].
    rewrite stream_slice_concat by lia. by rewrite chop_concat.
Qed.

Lemma parseRange_bounds header total start stop :
  parseRange header total = Some (start, stop) -> 0 <= start <= stop /\ stop < total.
Proof.
  unfold parseRange. repeat case_match; intros; simplify_eq; zbool; lia.
Qed.

(** C11: what is downloaded is what the hash names. On a consistent node whose lookup is answered, a
    request for an unknown hash is a 404. For a known one, a plain download
    returns a byte string that hashes to the requested hash, with its length as
    Content-Length; a range request returns exactly the bytes of the range,
    whichever way the adapter reads it, or 416. *)
Theorem download_exact genuine native now r h n :
  node_ok genuine n -> answers n -> find_hash (nq_filename r) = Some h ->
  nq_head r = false -> truthy_str (nq_ifNoneMatch r) = None ->
  match t_blobs (nd_db n) !! h with
  | None => (blobRoute native now r n).1 = Ok (Some (NErr 404 "Blob not found"))
  | Some row =>
      exists data, sha256 data = h /\
        let reply st range bytes :=
          Ok (Some (NRes st {| bb_type := default "application/octet-stream" (r_type row);
                               bb_length := Z.of_nat (String.length bytes);
                               bb_contentRange := range; bb_bytes := bytes |})) in
        (blobRoute native now r n).1 =
          match truthy_str (nq_range r) with
          | None => reply 200 None data
          | Some header =>
              match parseRange header (Z.of_nat (String.length data)) with
              | None => Ok (Some (NErr 416 ""))
              | Some (start, stop) =>
                  reply 206 (Some (start, stop, Z.of_nat (String.length data)))
                    (String.substring (Z.to_nat start) (Z.to_nat (stop - start + 1)) data)
              end
          end
  end.
Proof.
  intros Hc Hq Hh Hhead Hinm.
  assert (getBlob h n = (Ok (record_of h <$> t_blobs (nd_db n) !! h),
    set_nd_db (nd_db n) (set_nd_faults (tail (nd_faults n)) n))) as Hg
    by (unfold getBlob, query; by rewrite execute_answers).
  destruct (t_blobs (nd_db n) !! h) as [row|] eqn:E.
  2:{ unfold blobRoute. rewrite Hh. unfold dbind at 1. by rewrite Hg. }
  destruct (co_rows _ _ _ Hc _ _ E) as (_ & data & Hf & Hs & Hsz). exists data. split; [done|].
  unfold blobRoute. rewrite Hh. unfold dbind at 1. rewrite Hg. simpl.
  unfold dbind at 1, st_has, dgets at 1. cbn [fst snd]. rewrite bool_decide_eq_true_2 by (simpl; by rewrite Hf).
  cbn [negb]. unfold dbind at 1. rewrite Hinm, Hhead.
  destruct (quietly_files (touchBlob h now) (set_nd_db (nd_db n) (set_nd_faults (tail (nd_faults n)) n)))
    as (n' & -> & Hn'); [apply touchBlob_files|]. simpl in Hn'.
  rewrite <- Hn' in Hf. rewrite Hsz. destruct (truthy_str (nq_range r)) as [header|].
  - destruct (parseRange header (Z.of_nat (String.length data))) as [[start stop]|] eqn:Er; [|done].
    apply parseRange_bounds in Er.
    destruct (readRange_bytes native h (mimeToExt (r_type row)) start stop data n') as (chunks & Hrr & Hbytes);
      [lia|done|].
    unfold dbind. rewrite Hrr, Hbytes. simpl. do 4 f_equal.
    rewrite (substring_drop (Z.to_nat start)), length_substring, length_drop_bytes. lia.
  - unfold dbind, st_read, dgets. rewrite Hf. simpl. by rewrite chop_concat.
Qed.
End Serve.
