(* ===== verification/NodeStorage.v ===== *)
(** * The storage interface and its two adapters (storage-client/blossom/src/storage)

    interface.ts as a class of operations over some state, with the laws both
    adapters keep; local.ts (whose operations [NodeApi] and [NodeMedia] have)
    and s3.ts as instances. The object store behind s3.ts is the class
    [S3Client]: any state and any answers, with the documented behaviour of a
    healthy store and the little that holds of a failing one as [S3Laws].
    [s3_run_safe] is about runs of the adapter on a store that may fail at any
    call. *)

From Stdlib Require Import Ascii.
From S2P Require Import Prelude Js Nip98 NodeRules NodeDb NodeApi NodePrune NodeFacts NodeMirror NodeMirrorFacts NodeReports NodeMedia NodeMediaFacts NodeSystem NodeServe.

(** ** interface.ts *)

(** [read] and [readRange] hand over the bytes of their stream. *)
Class BlobStorage (S : Type) := {
  bs_has : string -> string -> S -> bool * S;
  bs_read : string -> string -> S -> option string * S;
  bs_readRange : string -> string -> Z -> Z -> S -> option string * S;
  bs_size : string -> string -> S -> option Z * S;
  (** the name of the temporary file is given *)
  bs_beginWrite : string -> S -> string * S;
  bs_commitWrite : string -> string -> string -> S -> exc string unit * S;
  bs_abortWrite : string -> S -> S;
  bs_commitFile : string -> string -> string -> S -> exc string unit * S;
  bs_remove : string -> string -> S -> bool * S
}.

(** What the two adapters in working order have in common: blobs under their
    path, temporary files under their name. The interface promises of [remove]
    that it returns whether the blob existed; of that only one direction is here,
    since the S3 adapter answers true for a blob that was not there. *)
Record storage_laws {S} `{BlobStorage S} (blobs tmps : S -> gmap string string) (calm : S -> Prop) : Prop := {
  law_has : forall h e s, calm s -> exists s', bs_has h e s = (bool_decide (is_Some (blobs s !! blobPath h e)), s') /\
    blobs s' = blobs s /\ tmps s' = tmps s /\ calm s';
  law_read : forall h e s, calm s -> exists s', bs_read h e s = (blobs s !! blobPath h e, s') /\
    blobs s' = blobs s /\ tmps s' = tmps s /\ calm s';
  law_readRange : forall h e a b data s, calm s -> blobs s !! blobPath h e = Some data ->
    0 <= a <= b -> b < Z.of_nat (String.length data) ->
    exists s', bs_readRange h e a b s =
      (Some (String.substring (Z.to_nat a) (Z.to_nat (b - a + 1)) data), s') /\
    blobs s' = blobs s /\ tmps s' = tmps s /\ calm s';
  law_size : forall h e s, calm s -> exists s',
    bs_size h e s = ((fun d => Z.of_nat (String.length d)) <$> blobs s !! blobPath h e, s') /\
    blobs s' = blobs s /\ tmps s' = tmps s /\ calm s';
  law_begin : forall id s, calm s -> exists s', bs_beginWrite id s = (id, s') /\
    blobs s' = blobs s /\ tmps s' = <[id := ""]> (tmps s) /\ calm s';
  (** a blob that is there is kept, a new one takes the bytes; either way the
      temporary file is gone *)
  law_commit : forall p h e data s, calm s -> tmps s !! p = Some data -> exists s',
    bs_commitWrite p h e s = (Ok tt, s') /\ tmps s' = delete p (tmps s) /\ calm s' /\
    blobs s' = match blobs s !! blobPath h e with Some _ => blobs s | None => <[blobPath h e := data]> (blobs s) end;
  law_commitFile : forall p h e data s, calm s -> tmps s !! p = Some data -> exists s',
    bs_commitFile p h e s = (Ok tt, s') /\ tmps s' = delete p (tmps s) /\ calm s' /\
    blobs s' = match blobs s !! blobPath h e with Some _ => blobs s | None => <[blobPath h e := data]> (blobs s) end;
  law_commit_missing : forall p h e s, calm s -> tmps s !! p = None -> blobs s !! blobPath h e = None ->
    exists m s', bs_commitWrite p h e s = (Throw m, s') /\ blobs s' = blobs s /\ tmps s' = tmps s /\ calm s';
  law_abort : forall p s, calm s -> let s' := bs_abortWrite p s in
    blobs s' = blobs s /\ tmps s' = delete p (tmps s) /\ calm s';
  law_remove : forall h e s, calm s -> exists b s', bs_remove h e s = (b, s') /\
    blobs s' = delete (blobPath h e) (blobs s) /\ tmps s' = tmps s /\ calm s' /\
    (is_Some (blobs s !! blobPath h e) -> b = true)
}.

(** ** local.ts *)

Section Local.
Context `{Nostr} `{NodeLib} `{MediaLib}.

(** A computation of the node that does not throw. *)
Definition run_ok {A} (dflt : A) (m : D A) (n : Node) : A * Node :=
  match m n with (Ok a, n') => (a, n') | (Throw _, n') => (dflt, n') end.
Definition run_exc {A} (m : D A) (n : Node) : exc string A * Node :=
  match m n with (Ok a, n') => (Ok a, n') | (Throw e, n') => (Throw (err_message e), n') end.

Definition st_size (hash ext : string) : D (option Z) :=
  dgets (fun n => (fun d => Z.of_nat (String.length d)) <$> nd_files n !! blobPath hash ext).

Definition bytes_of (chunks : option (list string)) : option string := String.concat "" <$> chunks.

#[export] Instance localStorage (c : MConfig) : BlobStorage Node := {|
  bs_has h e := run_ok false (st_has h e);
  bs_read h e n := let (r, n') := run_ok None (st_read h e) n in (bytes_of r, n');
  bs_readRange h e a b n := let (r, n') := run_ok None (readRange true h e a b) n in (bytes_of r, n');
  bs_size h e := run_ok None (st_size h e);
  bs_beginWrite id := run_ok id (beginWrite id);
  bs_commitWrite p h e := run_exc (commitWrite p h e);
  bs_abortWrite p n := (abortWrite p n).2;
  bs_commitFile p h e := run_exc (commitFile c p h e);
  bs_remove h e := run_ok false (st_remove h e)
|}.
End Local.

(** ** s3.ts *)

(** The client of the object store; an error is its message. *)
Class S3Client := {
  bucket : Type;
  (** the size of an object *)
  statObject : string -> bucket -> exc string Z * bucket;
  getObject : string -> bucket -> exc string string * bucket;
  (** offset and length *)
  getPartialObject : string -> Z -> Z -> bucket -> exc string string * bucket;
  putObject : string -> string -> bucket -> exc string unit * bucket;
  deleteObject : string -> bucket -> exc string unit * bucket
}.

(** The documented behaviour of a healthy store, and of any: a call that fails
    may or may not have had its effect. *)
Class S3Laws `{S3Client} := {
  objects : bucket -> gmap string string;
  healthy : bucket -> Prop;
  stat_healthy : forall k b, healthy b -> exists m b',
    statObject k b = (match objects b !! k with Some c => Ok (Z.of_nat (String.length c)) | None => Throw m end, b') /\
    objects b' = objects b /\ healthy b';
  get_healthy : forall k b, healthy b -> exists m b',
    getObject k b = (match objects b !! k with Some c => Ok c | None => Throw m end, b') /\
    objects b' = objects b /\ healthy b';
  partial_healthy : forall k o l c b, healthy b -> objects b !! k = Some c ->
    0 <= o -> 0 < l -> o + l <= Z.of_nat (String.length c) -> exists b',
    getPartialObject k o l b = (Ok (String.substring (Z.to_nat o) (Z.to_nat l) c), b') /\
    objects b' = objects b /\ healthy b';
  put_healthy : forall k c b, healthy b -> exists b',
    putObject k c b = (Ok tt, b') /\ objects b' = <[k := c]> (objects b) /\ healthy b';
  delete_healthy : forall k b, healthy b -> exists b',
    deleteObject k b = (Ok tt, b') /\ objects b' = delete k (objects b) /\ healthy b';
  get_any : forall k b r b', getObject k b = (r, b') -> objects b' = objects b;
  partial_any : forall k o l b r b', getPartialObject k o l b = (r, b') -> objects b' = objects b;
  stat_any : forall k b r b', statObject k b = (r, b') -> objects b' = objects b /\
    (is_ok r = true -> is_Some (objects b !! k));
  put_any : forall k c b r b', putObject k c b = (r, b') ->
    objects b' = <[k := c]> (objects b) \/ (objects b' = objects b /\ is_ok r = false);
  delete_any : forall k b r b', deleteObject k b = (r, b') ->
    objects b' = delete k (objects b) \/ objects b' = objects b
}.

Record S3 `{S3Client} := { s3_bucket : bucket; s3_tmp : gmap string string }.

Section S3Adapter.
Context `{S3Client} (publicURL : option string).

Definition with_bucket (b : bucket) (s : S3) : S3 := {| s3_bucket := b; s3_tmp := s3_tmp s |}.
Definition with_tmp (f : gmap string string -> gmap string string) (s : S3) : S3 :=
  {| s3_bucket := s3_bucket s; s3_tmp := f (s3_tmp s) |}.

Definition objectKey (hash ext : string) : string :=
  if String.eqb ext "" then hash else hash +:+ "." +:+ ext.

Definition s3_has (hash ext : string) (s : S3) : bool * S3 :=
  let (r, b) := statObject (objectKey hash ext) (s3_bucket s) in (is_ok r, with_bucket b s).

Definition s3_read (hash ext : string) (s : S3) : option string * S3 :=
  if truthy_str publicURL then (None, s) else
  let (r, b) := getObject (objectKey hash ext) (s3_bucket s) in
  (match r with Ok c => Some c | Throw _ => None end, with_bucket b s).

Definition s3_readRange (hash ext : string) (start stop : Z) (s : S3) : option string * S3 :=
  if truthy_str publicURL then (None, s) else
  let (r, b) := getPartialObject (objectKey hash ext) start (stop - start + 1) (s3_bucket s) in
  (match r with Ok c => Some c | Throw _ => None end, with_bucket b s).

Definition s3_size (hash ext : string) (s : S3) : option Z * S3 :=
  let (r, b) := statObject (objectKey hash ext) (s3_bucket s) in
  (match r with Ok n => Some n | Throw _ => None end, with_bucket b s).

Definition s3_beginWrite (id : string) (s : S3) : string * S3 := (id, with_tmp (<[id := ""]>) s).

Definition s3_abortWrite (tmpPath : string) (s : S3) : S3 := with_tmp (delete tmpPath) s.

(** Send a file to the bucket under its hash; the file goes in any case. *)
Definition uploadToS3AndCleanup (srcPath hash ext : string) (s : S3) : exc string unit * S3 :=
  let (alreadyExists, s) := s3_has hash ext s in
  if alreadyExists then (Ok tt, with_tmp (delete srcPath) s) else
  match s3_tmp s !! srcPath with
  | None => (Throw "No such file or directory", s)
  | Some content =>
      let (r, b) := putObject (objectKey hash ext) content (s3_bucket s) in
      (r, with_tmp (delete srcPath) (with_bucket b s))
  end.

Definition s3_commitWrite : string -> string -> string -> S3 -> exc string unit * S3 := uploadToS3AndCleanup.
Definition s3_commitFile : string -> string -> string -> S3 -> exc string unit * S3 := uploadToS3AndCleanup.

Definition s3_remove (hash ext : string) (s : S3) : bool * S3 :=
  let (r, b) := deleteObject (objectKey hash ext) (s3_bucket s) in (is_ok r, with_bucket b s).

#[export] Instance s3Storage : BlobStorage S3 := {|
  bs_has := s3_has;
  bs_read := s3_read;
  bs_readRange := s3_readRange;
  bs_size := s3_size;
  bs_beginWrite := s3_beginWrite;
  bs_commitWrite := s3_commitWrite;
  bs_abortWrite := s3_abortWrite;
  bs_commitFile := s3_commitFile;
  bs_remove := s3_remove
|}.
End S3Adapter.

(** ** Both keep the promises *)

Section Laws.
Context `{NodeLaws} `{MediaLib}.

Lemma bytes_of_chop o : bytes_of (chop <$> o) = o.
Proof. destruct o as [d|]; [|done]. cbn. by rewrite chop_concat. Qed.

Lemma local_commit_laws c p h e data n :
  mc_sameFs c = true -> nd_tmp n !! p = Some data ->
  exists n', run_exc (commitWrite p h e) n = (Ok tt, n') /\ run_exc (commitFile c p h e) n = (Ok tt, n') /\
    nd_tmp n' = delete p (nd_tmp n) /\
    nd_files n' = match nd_files n !! blobPath h e with
                  | Some _ => nd_files n | None => <[blobPath h e := data]> (nd_files n) end.
Proof.
  intros Hfs Ht. unfold run_exc, commitWrite, commitFile, st_has, tmp_remove, tmp_read, dbind, dgets, dmodify.
  cbn [fst snd]. rewrite Hfs. destruct (nd_files n !! blobPath h e) as [x|] eqn:Ef.
  - rewrite bool_decide_eq_true_2 by eauto. eexists. by split_and!.
  - rewrite bool_decide_eq_false_2 by (by intros [? ?]). cbn [negb]. rewrite Ht. eexists. by split_and!.
Qed.

(** The local adapter keeps the promises of the storage interface, in
    every state, when the temporary files are on the file system of the blobs. *)
Theorem local_storage_laws c :
  mc_sameFs c = true -> @storage_laws Node (localStorage c) nd_files nd_tmp (fun _ => True).
Proof.
  intros Hfs. constructor; cbn [bs_has bs_read bs_readRange bs_size bs_beginWrite bs_commitWrite bs_abortWrite
    bs_commitFile bs_remove localStorage].
  - intros h e n _. by exists n.
  - intros h e n _. exists n. unfold run_ok, st_read, dgets. by rewrite bytes_of_chop.
  - intros h e a b data n _ Hd Ha Hb. exists n.
    destruct (readRange_bytes true h e a b data n) as (chunks & Hr & Hs); [lia|done|].
    unfold run_ok. rewrite Hr. unfold bytes_of. cbn. by rewrite Hs.
  - intros h e n _. by exists n.
  - intros id n _. eexists. by split_and!.
  - intros p h e data n _ Hp. destruct (local_commit_laws c p h e data n) as (n' & ? & _ & ? & ?); eauto.
  - intros p h e data n _ Hp. destruct (local_commit_laws c p h e data n) as (n' & _ & ? & ? & ?); eauto.
  - intros p h e n _ Hp Hb. unfold run_exc, commitWrite, st_has, dbind, dgets, dthrow. rewrite Hb. cbn. rewrite Hp. by eexists _, n.
  - done.
  - intros h e n _. eexists _, _. split; [reflexivity|]. split_and!; [done..|]. intros Hs. by rewrite bool_decide_eq_true_2.
Qed.
End Laws.

Section S3Facts.
Context `{S3Laws}.

Lemma objectKey_path h e : objectKey h e = blobPath h e.
Proof. reflexivity. Qed.

(** An upload to a store that answers. *)
Lemma s3_commit_laws p h e data s :
  healthy (s3_bucket s) -> s3_tmp s !! p = Some data ->
  exists s', uploadToS3AndCleanup p h e s = (Ok tt, s') /\ s3_tmp s' = delete p (s3_tmp s) /\
    healthy (s3_bucket s') /\
    objects (s3_bucket s') = (match objects (s3_bucket s) !! blobPath h e with
      | Some _ => objects (s3_bucket s)
      | None => <[blobPath h e := data]> (objects (s3_bucket s)) end).
Proof.
  intros Hh Ht. unfold uploadToS3AndCleanup, s3_has. rewrite objectKey_path.
  destruct (stat_healthy (blobPath h e) _ Hh) as (m & b & -> & Ho & Hb).
  destruct (objects (s3_bucket s) !! blobPath h e) as [x|] eqn:Ek; cbn.
  - eexists. by split_and!.
  - rewrite Ht. destruct (put_healthy (blobPath h e) data b Hb) as (b' & -> & Ho' & Hb').
    eexists. split_and!; [done..|]. cbn. by rewrite Ho', Ho.
Qed.

(** The S3 adapter keeps the laws while the store answers, when no public
    address is configured. *)
Theorem s3_storage_laws url :
  truthy_str url = None ->
  @storage_laws S3 (s3Storage url) (fun s => objects (s3_bucket s)) s3_tmp (fun s => healthy (s3_bucket s)).
Proof.
  intros Hu. constructor; cbn [bs_has bs_read bs_readRange bs_size bs_beginWrite bs_commitWrite bs_abortWrite
    bs_commitFile bs_remove s3Storage].
  - intros h e s Hh. unfold s3_has. rewrite objectKey_path.
    destruct (stat_healthy (blobPath h e) _ Hh) as (m & b & -> & Ho & Hb). exists (with_bucket b s). split_and!; [|done..].
    by destruct (objects (s3_bucket s) !! blobPath h e).
  - intros h e s Hh. unfold s3_read. rewrite Hu, objectKey_path.
    destruct (get_healthy (blobPath h e) _ Hh) as (m & b & -> & Ho & Hb). exists (with_bucket b s). split_and!; [|done..].
    by destruct (objects (s3_bucket s) !! blobPath h e).
  - intros h e a b data s Hh Hd Ha Hb. unfold s3_readRange. rewrite Hu, objectKey_path.
    destruct (partial_healthy (blobPath h e) a (b - a + 1) data _ Hh Hd) as (b' & -> & Ho & Hb'); [lia..|].
    eexists. by split_and!.
  - intros h e s Hh. unfold s3_size. rewrite objectKey_path.
    destruct (stat_healthy (blobPath h e) _ Hh) as (m & b & -> & Ho & Hb). exists (with_bucket b s). split_and!; [|done..].
    by destruct (objects (s3_bucket s) !! blobPath h e).
  - intros id s Hh. eexists. by split_and!.
  - intros p h e data s Hh Ht. destruct (s3_commit_laws p h e data s) as (s' & ? & ? & ? & ?); [done..|].
    by exists s'.
  - intros p h e data s Hh Ht. destruct (s3_commit_laws p h e data s) as (s' & ? & ? & ? & ?); [done..|].
    by exists s'.
  - intros p h e s Hh Ht Ho. unfold s3_commitWrite, uploadToS3AndCleanup, s3_has. rewrite objectKey_path.
    destruct (stat_healthy (blobPath h e) _ Hh) as (m & b & -> & Ho' & Hb). rewrite Ho. cbn. rewrite Ht.
    eexists _, _. by split_and!.
  - done.
  - intros h e s Hh. unfold s3_remove. rewrite objectKey_path.
    destruct (delete_healthy (blobPath h e) _ Hh) as (b & -> & Ho & Hb). eexists _, _. by split_and!.
Qed.

(** Whatever the store answers, an upload that reports success left an
    object under its key; success or failure, no other object changed, the
    object under the key is what it was or the bytes of the file, and the local
    file is gone. *)
Lemma s3_upload_safe p h e s r s' :
  uploadToS3AndCleanup p h e s = (r, s') ->
  let k := objectKey h e in
  (is_ok r = true -> is_Some (objects (s3_bucket s') !! k)) /\
  (forall k', k' <> k -> objects (s3_bucket s') !! k' = objects (s3_bucket s) !! k') /\
  (objects (s3_bucket s') !! k = objects (s3_bucket s) !! k \/
   (objects (s3_bucket s') !! k = s3_tmp s !! p /\ is_Some (s3_tmp s !! p))) /\
  s3_tmp s' = delete p (s3_tmp s).
Proof.
  unfold uploadToS3AndCleanup, s3_has. destruct (statObject (objectKey h e) (s3_bucket s)) as [q b] eqn:Es.
  destruct (stat_any _ _ _ _ Es) as [Ho Hq]. destruct (is_ok q) eqn:Eq; cbn.
  - intros [= <- <-]. cbn. rewrite Ho. split_and!; auto.
  - destruct (s3_tmp s !! p) as [data|] eqn:Ep; cbn.
    + destruct (putObject (objectKey h e) data b) as [r1 b'] eqn:Ew. intros [= <- <-]. cbn.
      destruct (put_any _ _ _ _ _ Ew) as [Hb|[Hb Hr]]; rewrite Hb, Ho.
      * rewrite lookup_insert_eq. split_and!; eauto. intros k' Hk. by rewrite lookup_insert_ne.
      * split_and!; auto. by rewrite Hr.
    + intros [= <- <-]. cbn. rewrite Ho. split_and!; auto. by rewrite delete_id.
Qed.

Lemma s3_upload_object p h e s r s' k :
  uploadToS3AndCleanup p h e s = (r, s') ->
  objects (s3_bucket s') !! k = objects (s3_bucket s) !! k \/
  (exists p', Some (p, objectKey h e) = Some (p', k) /\ objects (s3_bucket s') !! k = s3_tmp s !! p' /\ is_Some (s3_tmp s !! p')) \/
  False.
Proof.
  intros (_ & Hne & Hk & _)%s3_upload_safe. destruct (decide (k = objectKey h e)) as [->|Hd]; [|left; by apply Hne].
  destruct Hk as [?|[? ?]]; [by left|right; left]. by exists p.
Qed.

(** *** Runs on a store that may fail at any call *)

(** What the routes do with the adapter; [SFill] is a caller writing into a
    temporary file it was given. *)
Inductive storage_op :=
| SHas (hash ext : string)
| SRead (hash ext : string)
| SRange (hash ext : string) (start stop : Z)
| SSize (hash ext : string)
| SBegin (id : string)
| SFill (path data : string)
| SCommit (path hash ext : string)
| SCommitFile (path hash ext : string)
| SAbort (path : string)
| SRemove (hash ext : string).

(** The state after an operation, and whether it was a commit that succeeded. *)
Definition s3_step (url : option string) (o : storage_op) (s : S3) : bool * S3 :=
  match o with
  | SHas h e => (false, (s3_has h e s).2)
  | SRead h e => (false, (s3_read url h e s).2)
  | SRange h e a b => (false, (s3_readRange url h e a b s).2)
  | SSize h e => (false, (s3_size h e s).2)
  | SBegin id => (false, (s3_beginWrite id s).2)
  | SFill p d => (false, with_tmp (<[p := d]>) s)
  | SCommit p h e => let (r, s') := s3_commitWrite p h e s in (is_ok r, s')
  | SCommitFile p h e => let (r, s') := s3_commitFile p h e s in (is_ok r, s')
  | SAbort p => (false, s3_abortWrite p s)
  | SRemove h e => (false, (s3_remove h e s).2)
  end.
Definition s3_run (url : option string) (ops : list storage_op) (s : S3) : S3 :=
  fold_left (fun s o => (s3_step url o s).2) ops s.

(** The file and the key of a commit, the key of a removal. *)
Definition commit_of (o : storage_op) : option (string * string) :=
  match o with SCommit p h e | SCommitFile p h e => Some (p, objectKey h e) | _ => None end.
Definition removes (k : string) (o : storage_op) : Prop :=
  match o with SRemove h e => objectKey h e = k | _ => False end.

(** What an operation can do to the object under a key. *)
Lemma s3_step_object url o s k :
  let s' := (s3_step url o s).2 in
  objects (s3_bucket s') !! k = objects (s3_bucket s) !! k \/
  (exists p, commit_of o = Some (p, k) /\ objects (s3_bucket s') !! k = s3_tmp s !! p /\ is_Some (s3_tmp s !! p)) \/
  removes k o.
Proof.
  cbn zeta. destruct o; cbn [s3_step]; auto;
    unfold s3_has, s3_read, s3_readRange, s3_size, s3_remove, s3_commitWrite, s3_commitFile;
    try (destruct (truthy_str url); [by left|]).
  - destruct (statObject _ _) as [r b] eqn:Es. left. cbn. by destruct (stat_any _ _ _ _ Es) as [-> _].
  - destruct (getObject _ _) as [r b] eqn:Es. left. cbn. by rewrite (get_any _ _ _ _ Es).
  - destruct (getPartialObject _ _ _ _) as [r b] eqn:Es. left. cbn. by rewrite (partial_any _ _ _ _ _ _ Es).
  - destruct (statObject _ _) as [r b] eqn:Es. left. cbn. by destruct (stat_any _ _ _ _ Es) as [-> _].
  - destruct (uploadToS3AndCleanup _ _ _ _) as [r s'] eqn:Eu. by apply (s3_upload_object _ _ _ _ _ _ k) in Eu.
  - destruct (uploadToS3AndCleanup _ _ _ _) as [r s'] eqn:Eu. by apply (s3_upload_object _ _ _ _ _ _ k) in Eu.
  - destruct (deleteObject _ _) as [r b] eqn:Ed. destruct (decide (objectKey hash ext = k)) as [Hk|Hk]; [by right; right|].
    left. cbn. destruct (delete_any _ _ _ _ Ed) as [-> | ->]; [by rewrite lookup_delete_ne|done].
Qed.

Lemma s3_run_app url a b s : s3_run url (a ++ b) s = s3_run url b (s3_run url a s).
Proof. apply fold_left_app. Qed.

(** An object that is there stays until it is removed. *)
Lemma s3_run_keeps url k ops : forall s,
  is_Some (objects (s3_bucket s) !! k) -> Forall (fun o => ~ removes k o) ops ->
  is_Some (objects (s3_bucket (s3_run url ops s)) !! k).
Proof.
  induction ops as [|o ops IH]; intros s Hs Ho; [done|]. apply Forall_cons in Ho as [Ho Hos]. apply (IH (s3_step url o s).2); [|done].
  destruct (s3_step_object url o s k) as [->|[(p & _ & -> & Hp)|Hr]]; done.
Qed.

(** The file [p] with the bytes [c] was committed under the key [k]. *)
Definition committed_in (url : option string) (ops : list storage_op) (s : S3) (k c : string) : Prop :=
  exists i o p, ops !! i = Some o /\ commit_of o = Some (p, k) /\ s3_tmp (s3_run url (take i ops) s) !! p = Some c.

Lemma s3_run_origin url ops s k c :
  objects (s3_bucket (s3_run url ops s)) !! k = Some c ->
  objects (s3_bucket s) !! k = Some c \/ committed_in url ops s k c.
Proof.
  revert c. induction ops as [|o ops IH] using rev_ind; intros c Hc; [by left|].
  rewrite s3_run_app in Hc. cbn in Hc. set (s1 := s3_run url ops s) in *.
  assert (objects (s3_bucket s1) !! k = Some c -> objects (s3_bucket s) !! k = Some c \/ committed_in url (ops ++ [o]) s k c) as Hold.
  { intros [?|(i & o' & p & Ho & Hk & Ht)]%IH; [by left|right]. exists i, o', p.
    pose proof (lookup_lt_Some _ _ _ Ho) as Hlt. rewrite lookup_app_l by done. split_and!; [done|done|].
    rewrite take_app_le by lia. done. }
  destruct (s3_step_object url o s1 k) as [He|[(p & Hk & He & _)|Hr]]; [rewrite He in Hc; auto| |].
  - right. exists (length ops), o, p. rewrite lookup_app_r, Nat.sub_diag by lia. split_and!; [done|done|].
    rewrite take_app_length. by rewrite He in Hc.
  - destruct o as [| | | | | | | | |h e]; try done. cbn in Hr, Hc. unfold s3_remove in Hc.
    destruct (deleteObject _ _) as [r b] eqn:Ed. cbn in Hc. apply Hold.
    destruct (delete_any _ _ _ _ Ed) as [Hd|Hd]; rewrite Hd in Hc; [|done]. rewrite Hr, lookup_delete_eq in Hc. done.
Qed.

(** C27: the S3 adapter on a store that may fail at any call, before or after
    the call took effect. In every run of its operations, an object of the
    bucket was there before or has the bytes of a temporary file that was
    committed under exactly its key; when a commit is acknowledged there is an
    object under its key, and it stays there, whatever else is asked and
    whatever fails, until a removal names that key; and a commit leaves no
    temporary file behind, also when it fails (so a failed upload cannot be
    sent again from it). *)
Theorem s3_run_safe url ops s :
  (forall k c, objects (s3_bucket (s3_run url ops s)) !! k = Some c ->
     objects (s3_bucket s) !! k = Some c \/ committed_in url ops s k c) /\
  (forall i o p k, ops !! i = Some o -> commit_of o = Some (p, k) ->
     let (ok, after) := s3_step url o (s3_run url (take i ops) s) in
     s3_tmp after !! p = None /\
     (ok = true -> Forall (fun o => ~ removes k o) (drop (S i) ops) ->
      is_Some (objects (s3_bucket (s3_run url ops s)) !! k))).
Proof.
  split; [intros k c; apply s3_run_origin|]. intros i o p k Hi Hk.
  destruct (s3_step url o _) as [ok after] eqn:Es.
  assert (s3_tmp after !! p = None /\ (ok = true -> is_Some (objects (s3_bucket after) !! k))) as [Ht Hok].
  { destruct o; try done; injection Hk as <- <-; cbn in Es; unfold s3_commitWrite, s3_commitFile in Es;
      (destruct (uploadToS3AndCleanup _ _ _ _) as [r s'] eqn:Eu); injection Es as <- <-;
      apply s3_upload_safe in Eu as (Hok & _ & _ & ->); (split; [apply lookup_delete_eq|exact Hok]). }
  split; [done|]. intros Hok' Hr. rewrite <- (take_drop_middle ops i o Hi), s3_run_app. cbn. rewrite Es.
  apply s3_run_keeps; auto.
Qed.

End S3Facts.

(** ** A store in memory

    A list of objects and of the faults to come: [Some true] fails after the
    effect, [Some false] before it. *)

Module MemoryBucket.
Definition mem : Type := gmap string string * list (option bool).

Definition call {A} (read : gmap string string -> exc string A) (write : gmap string string -> gmap string string)
    (b : mem) : exc string A * mem :=
  match snd b with
  | Some late :: fs => (Throw "connection reset", (if late then write (fst b) else fst b, fs))
  | None :: fs => (read (fst b), (write (fst b), fs))
  | [] => (read (fst b), (write (fst b), []))
  end.

Definition found (k : string) (o : gmap string string) : exc string string :=
  match o !! k with Some c => Ok c | None => Throw "NoSuchKey" end.

#[export] Instance client : S3Client := {|
  bucket := mem;
  statObject k := call (fun o => match found k o with Ok c => Ok (Z.of_nat (String.length c)) | Throw m => Throw m end) id;
  getObject k := call (found k) id;
  getPartialObject k o l := call (fun os => match found k os with
    | Ok c => Ok (String.substring (Z.to_nat o) (Z.to_nat l) c) | Throw m => Throw m end) id;
  putObject k c := call (fun _ => Ok tt) (<[k := c]>);
  deleteObject k := call (fun _ => Ok tt) (delete k)
|}.

Lemma call_calm {A} (r : gmap string string -> exc string A) w o : call r w (o, []) = (r o, (w o, [])).
Proof. reflexivity. Qed.

Lemma call_any {A} (r : gmap string string -> exc string A) w b x b' :
  call r w b = (x, b') -> (x = r (fst b) /\ fst b' = w (fst b)) \/ (is_ok x = false /\ (fst b' = w (fst b) \/ fst b' = fst b)).
Proof.
  destruct b as [o [|[[]|] fs]]; cbn; intros [= <- <-]; cbn; auto.
Qed.

#[export] Program Instance laws : S3Laws := {| objects := fst; healthy b := snd b = [] |}.
Next Obligation.
  intros k [o f] Hf. cbn in Hf. subst f. exists "NoSuchKey". cbn [statObject client]. rewrite call_calm. unfold found.
  eexists. split_and!; [|done..]. cbn. by destruct (o !! k).
Qed.
Next Obligation.
  intros k [o f] Hf. cbn in Hf. subst f. exists "NoSuchKey". eexists. by split_and!.
Qed.
Next Obligation.
  intros k a l c [o f] Hf Hk. cbn in Hf, Hk. subst f. intros _ _ _. eexists. split_and!; [|done..].
  cbn [getPartialObject client]. rewrite call_calm. unfold found. by rewrite Hk.
Qed.
Next Obligation. intros k c [o f] Hf. cbn in Hf. subst f. eexists. by split_and!. Qed.
Next Obligation. intros k [o f] Hf. cbn in Hf. subst f. eexists. by split_and!. Qed.
Next Obligation. intros k b r b' Hc. by destruct (call_any _ _ _ _ _ Hc) as [[_ Hw]|[_ [Hw|Hw]]]. Qed.
Next Obligation. intros k o l b r b' Hc. by destruct (call_any _ _ _ _ _ Hc) as [[_ Hw]|[_ [Hw|Hw]]]. Qed.
Next Obligation.
  intros k b r b' Hc. destruct (call_any _ _ _ _ _ Hc) as [[-> Hw]|[Hr [Hw|Hw]]]; (split; [done|]); [|by rewrite Hr..].
  unfold found. by destruct (b.1 !! k).
Qed.
Next Obligation.
  intros k c b r b' Hc. destruct (call_any _ _ _ _ _ Hc) as [[-> Hw]|[Hr [Hw|Hw]]]; auto.
Qed.
Next Obligation.
  intros k b r b' Hc. destruct (call_any _ _ _ _ _ Hc) as [[-> Hw]|[Hr [Hw|Hw]]]; auto.
Qed.

Definition s3_stored (o : gmap string string) (f : list (option bool)) : S3 :=
  {| s3_bucket := (o, f); s3_tmp := {["t1" := "hello"]} |}.

(** A healthy store takes a file. *)
Example s3_stores : exists s',
  bs_commitWrite (BlobStorage := s3Storage None) "t1" "abc" "txt" (s3_stored empty []) = (Ok tt, s') /\
  objects (s3_bucket s') = {["abc.txt" := "hello"]}.
Proof.
  destruct (law_commit _ _ _ (s3_storage_laws None eq_refl) "t1" "abc" "txt" "hello" (s3_stored empty []))
    as (s' & H1 & _ & _ & H2); [reflexivity..|].
  exists s'. split; [exact H1|exact H2].
Qed.

(** The store took the object and the connection broke: the caller sees an
    error, the object is there, the file to send again is gone. *)
Example s3_lost_answer :
  let out := uploadToS3AndCleanup "t1" "abc" "" (s3_stored empty [None; Some true]) in
  out.1 = Throw "connection reset" /\ objects (s3_bucket out.2) !! "abc" = Some "hello" /\
  s3_tmp out.2 = delete "t1" {["t1" := "hello"]}.
Proof. split_and!; reflexivity. Qed.

(** A commit that succeeds, then a removal that fails and a commit of another
    file whose test for the object fails. *)
Definition stormy : list storage_op :=
  [SCommit "t1" "abc" ""; SRemove "xyz" ""; SBegin "t2"; SFill "t2" "hello"; SCommit "t2" "abc" ""; SRead "abc" ""].
Lemma s3_run_safe_witness :
  let s := s3_stored empty [None; None; Some false; Some false; Some true] in
  objects (s3_bucket (s3_run None stormy s)) = {["abc" := "hello"]} /\
  is_Some (objects (s3_bucket (s3_run None stormy s)) !! "abc").
Proof.
  intros s. split; [vm_compute; reflexivity|].
  destruct (s3_run_safe None stormy s) as [_ Hk]. apply (Hk 0%nat (SCommit "t1" "abc" "") "t1" "abc" eq_refl eq_refl).
  - reflexivity.
  - repeat constructor; cbn; try tauto. discriminate.
Defined.

(** With a public address a stored blob is not readable. *)
Example public_reads_nothing :
  let s := s3_stored {["abc" := "hello"]} [] in
  s3_has "abc" "" s = (true, s) /\ s3_read (Some "https://cdn") "abc" "" s = (None, s) /\
  s3_remove "zzz" "" s = (true, s).
Proof. split_and!; reflexivity. Qed.
End MemoryBucket.
