(* ===== verification/NodeMigrate.v ===== *)
(** * Migrating a legacy database at start (storage-client/blossom/src/db/legacy-migration.ts)

    The database files by path, the statements of the import with the faults
    they may meet, and the way the function ends: it returns, throws, or exits
    the process. *)

From Stdlib Require Import Ascii.
From S2P Require Import Prelude Js NodeDb.

(** ** Files *)

Record LegacyBlob := { lb_sha256 : string; lb_type : option string; lb_size : Z; lb_uploaded : Z }.

(** A file of the Node.js server (with the CREATE statement of its [owners]
    table, when it has one), of this server, or one that cannot be read. *)
Inductive DbFile :=
| Legacy (sql : option string) (blobs : list LegacyBlob) (owners : list (string * string)) (accessed : list (string * Z))
| Current (db : NodeDb)
| Corrupt.

(** What sqlite_master holds for [owners] after 001_initial.sql. *)
Definition OWNERS_SQL : string :=
  "CREATE TABLE owners ( blob TEXT(64) NOT NULL REFERENCES blobs(sha256) ON DELETE CASCADE, pubkey TEXT(64) NOT NULL, PRIMARY KEY (blob, pubkey) )".

(** [/\bid\b/.test(s)]; [after] tells whether a word character comes before. *)
Fixpoint has_id (after : bool) (s : string) : bool :=
  match s with
  | String i t =>
      match t with
      | String d rest => negb after && Ascii.eqb i "i" && Ascii.eqb d "d" &&
          match rest with String c _ => negb (is_word c) | "" => true end
      | "" => false
      end || has_id (is_word i) t
  | "" => false
  end.

(** The files, and the faults of the statements to come. *)
Record Disk := { dk_files : gmap string DbFile; dk_faults : list bool }.

Inductive outcome (A : Type) := Returns (a : A) | Throws (e : string) | Exits (code : Z).
Arguments Returns {A} a. Arguments Throws {A} e. Arguments Exits {A} code.

Definition M (A : Type) : Type := Disk -> outcome A * Disk.
Definition mret {A} (a : A) : M A := fun d => (Returns a, d).
Definition mbind' {A B} (m : M A) (k : A -> M B) : M B := fun d =>
  match m d with
  | (Returns a, d') => k a d'
  | (Throws e, d') => (Throws e, d')
  | (Exits c, d') => (Exits c, d')
  end.
Declare Scope mig_scope.
Delimit Scope mig_scope with mig.
Notation "'do*' x := m 'in' k" := (mbind' m (fun x => k))
  (at level 10, x pattern, m at level 100, k at level 200) : mig_scope.

(** A statement; a fault throws before it has an effect. *)
Definition sql_stmt {A} (m : M A) : M A := fun d =>
  match dk_faults d with
  | true :: fs => (Throws "SQLITE_ERROR", {| dk_files := dk_files d; dk_faults := fs |})
  | false :: fs => m {| dk_files := dk_files d; dk_faults := fs |}
  | [] => m d
  end.

Definition set_files (f : gmap string DbFile -> gmap string DbFile) (d : Disk) : Disk :=
  {| dk_files := f (dk_files d); dk_faults := dk_faults d |}.

(** [Deno.rename]: an existing target is replaced. *)
Definition rename (a b : string) : M unit := fun d =>
  match dk_files d !! a with
  | Some x => (Returns tt, set_files (fun fs => <[b := x]> (delete a fs)) d)
  | None => (Throws "No such file or directory", d)
  end.

Definition fresh_db : NodeDb :=
  {| t_blobs := empty; t_owners := empty; t_accessed := empty; t_derivatives := empty; t_thumbnails := empty;
     t_reports := []; t_report_seq := 0 |}.

(** ** Detection *)

Definition detectLegacySchema (path : string) (d : Disk) : bool :=
  match dk_files d !! path with
  | Some (Legacy sql _ _ _) => has_id false (default "" sql)
  | Some (Current _) => has_id false OWNERS_SQL
  | _ => false
  end.

(** ** The import *)

Definition normalizeType (raw : option string) : option string :=
  match raw with
  | None | Some "" => None
  | Some s =>
      match span (fun c => negb (Ascii.eqb c ";")) s with
      | (_, "") => raw
      | (before, _) => let bare := trim before in if String.eqb bare "" then None else Some bare
      end
  end.

(** The first of each [`${blob}:${pubkey}`]. *)
Fixpoint dedup_owners (seen : list string) (rows : list (string * string)) : list (string * string) :=
  match rows with
  | [] => []
  | (blob, pubkey) :: rows =>
      let key := blob +:+ ":" +:+ pubkey in
      if bool_decide (key ∈ seen) then dedup_owners seen rows
      else (blob, pubkey) :: dedup_owners (key :: seen) rows
  end.

(** The statements on the fresh file. Foreign keys are checked; OR IGNORE
    passes over a row with a key that is there, not over a missing parent. *)
Definition on_fresh {A} (path : string) (f : NodeDb -> exc string (A * NodeDb)) : M A := sql_stmt (fun d =>
  match dk_files d !! path with
  | Some (Current db) =>
      match f db with
      | Ok (a, db') => (Returns a, set_files (<[path := Current db']>) d)
      | Throw e => (Throws e, d)
      end
  | _ => (Throws "no such table", d)
  end).

Definition import_row (b : LegacyBlob) : BlobRow :=
  {| r_size := lb_size b; r_type := normalizeType (lb_type b); r_uploaded := lb_uploaded b; r_nip94 := None |}.

Definition import_blob (b : LegacyBlob) (db : NodeDb) : exc string (unit * NodeDb) :=
  Ok (tt, match t_blobs db !! lb_sha256 b with
               | Some _ => db
               | None => set_t_blobs (<[lb_sha256 b := import_row b]>) db
               end).

Definition import_owner (o : string * string) (db : NodeDb) : exc string (unit * NodeDb) :=
  if bool_decide (o ∈ t_owners db) then Ok (tt, db)
  else match t_blobs db !! fst o with
       | None => Throw "FOREIGN KEY constraint failed"
       | Some _ => Ok (tt, set_t_owners (fun s => {[o]} ∪ s) db)
       end.

Definition import_access (a : string * Z) (db : NodeDb) : exc string (unit * NodeDb) :=
  match t_accessed db !! fst a with
  | Some _ => Ok (tt, db)
  | None => match t_blobs db !! fst a with
            | None => Throw "FOREIGN KEY constraint failed"
            | Some _ => Ok (tt, set_t_accessed (<[fst a := snd a]>) db)
            end
  end.

Fixpoint each {A} (f : A -> M unit) (l : list A) : M unit :=
  match l with [] => mret tt | x :: l => (do* _ := f x in each f l)%mig end.

Definition count_rows (path : string) : M (nat * nat * nat) := (
  do* b := on_fresh path (fun db => Ok (size (t_blobs db), db)) in
  do* o := on_fresh path (fun db => Ok (size (t_owners db), db)) in
  do* a := on_fresh path (fun db => Ok (size (t_accessed db), db)) in
  mret (b, o, a))%mig.

Definition read_legacy (path : string) : M (list LegacyBlob * list (string * string) * list (string * Z)) := fun d =>
  match dk_files d !! path with
  | Some (Legacy _ b o a) => sql_stmt (sql_stmt (sql_stmt (mret (b, o, a)))) d
  | _ => (Throws "no such table", d)
  end.

(** [initDb] on a local file: a new one gets the tables; the statements leave
    the tables that are there. *)
Definition init_local (path : string) : M unit := sql_stmt (fun d =>
  match dk_files d !! path with
  | None => (Returns tt, set_files (<[path := Current fresh_db]>) d)
  | Some Corrupt => (Throws "file is not a database", d)
  | Some _ => (Returns tt, d)
  end).

Definition remove_file (path : string) : M unit := fun d => (Returns tt, set_files (delete path) d).

Definition backup_of (path : string) : string := path +:+ ".bak".

Definition runMigration (path : string) : M unit := (
  do* rows := read_legacy path in
  let '(blobs, ownersRs, accessed) := rows in
  let owners := dedup_owners [] ownersRs in
  do* _ := rename path (backup_of path) in
  do* _ := init_local path in
  do* _ := each (fun b => on_fresh path (import_blob b)) blobs in
  do* _ := each (fun o => on_fresh path (import_owner o)) owners in
  do* _ := each (fun a => on_fresh path (import_access a)) accessed in
  do* got := count_rows path in
  let '(gotBlobs, gotOwners, gotAccessed) := got in
  if Nat.eqb gotBlobs (length blobs) && Nat.eqb gotOwners (length owners) && Nat.eqb gotAccessed (length accessed)
  then mret tt
  else
    do* _ := remove_file path in
    do* _ := rename (backup_of path) path in
    fun d => (Exits 1, d))%mig.

Definition maybeMigrateLegacyDb (path : string) : M unit := fun d =>
  match dk_files d !! path with
  | None => (Returns tt, d)
  | Some _ => if detectLegacySchema path d then runMigration path d else (Returns tt, d)
  end.

(** main.ts with a local database: the migration, then initDb. *)
Definition open_local (path : string) : M unit := (
  do* _ := maybeMigrateLegacyDb path in init_local path)%mig.

(** ** Facts *)

Section Facts.

Lemma mbind_inv {A B} (m : M A) (k : A -> M B) d r d' :
  mbind' m k d = (r, d') ->
  (exists a d1, m d = (Returns a, d1) /\ k a d1 = (r, d')) \/
  (exists e, m d = (Throws e, d') /\ r = Throws e) \/ (exists c, m d = (Exits c, d') /\ r = Exits c).
Proof. unfold mbind'. destruct (m d) as [[a|e|c] d1]; intros Heq; simplify_eq; eauto 8. Qed.

Lemma backup_ne path : backup_of path <> path.
Proof.
  intros Hp. apply (f_equal String.length) in Hp. unfold backup_of in Hp. rewrite sapp_length in Hp. cbn in Hp. lia.
Qed.

(** A computation that does not exit and touches no file but the one at [path]. *)
Definition local {A} (path : string) (m : M A) : Prop :=
  forall d r d', m d = (r, d') -> (forall c, r <> Exits c) /\ forall p, p <> path -> dk_files d' !! p = dk_files d !! p.

Lemma local_ret {A} path (a : A) : local path (mret a).
Proof. by intros d r d' [= <- <-]. Qed.

Lemma local_bind {A B} path (m : M A) (k : A -> M B) :
  local path m -> (forall a, local path (k a)) -> local path (mbind' m k).
Proof.
  intros Hm Hk d r d' Hb.
  apply mbind_inv in Hb as [(a & d1 & H1 & H2)|[(e & H1 & ->)|(c & H1 & ->)]]; apply Hm in H1 as [Hx H1].
  - apply Hk in H2 as [Hx2 H2]. split; [done|]. intros p Hp. by rewrite H2, H1.
  - split; [done|]. auto.
  - by destruct (Hx c).
Qed.

Lemma local_sql {A} path (m : M A) : local path m -> local path (sql_stmt m).
Proof.
  intros Hm d r d' Hs. unfold sql_stmt in Hs. destruct (dk_faults d) as [|[] fs]; [by apply Hm|by simplify_eq|by apply Hm in Hs].
Qed.

Lemma local_on_fresh {A} path (f : NodeDb -> exc string (A * NodeDb)) : local path (on_fresh path f).
Proof.
  apply local_sql. intros d r d' Hd. split; [|intros p Hp]; repeat case_match; simplify_eq; cbn; try done.
  by rewrite lookup_insert_ne.
Qed.

Lemma local_each {A} path (f : A -> M unit) l : (forall a, local path (f a)) -> local path (each f l).
Proof. intros Hf. induction l as [|a l IH]; [apply local_ret|]. apply local_bind; auto. Qed.

Lemma local_init path : local path (init_local path).
Proof.
  apply local_sql. intros d r d' Hd. split; [|intros p Hp]; repeat case_match; simplify_eq; cbn; try done.
  by rewrite lookup_insert_ne.
Qed.

Lemma local_count path : local path (count_rows path).
Proof. repeat (apply local_bind; [apply local_on_fresh|intros ?]). apply local_ret. Qed.

Lemma read_legacy_files path d r d' :
  read_legacy path d = (r, d') -> (forall c, r <> Exits c) /\ dk_files d' = dk_files d.
Proof.
  unfold read_legacy, sql_stmt, mret. intros Hr. repeat case_match; simplify_eq; cbn in *; try done; simplify_eq; done.
Qed.

(** What is kept of a file [f] that was at [path]: [r] is how the run ended. *)
Definition kept (path : string) (f : DbFile) (files : gmap string DbFile) (r : outcome unit) (d' : Disk) : Prop :=
  (dk_files d' !! path = Some f \/ dk_files d' !! backup_of path = Some f) /\
  (forall c, r = Exits c -> dk_files d' !! path = Some f) /\
  (forall p, p <> path -> p <> backup_of path -> dk_files d' !! p = files !! p).

Lemma kept_local {A} path f files (m : M A) (k : A -> M unit) d r d' :
  local path m -> dk_files d !! backup_of path = Some f ->
  (forall p, p <> path -> p <> backup_of path -> dk_files d !! p = files !! p) ->
  mbind' m k d = (r, d') ->
  (forall a d1, dk_files d1 !! backup_of path = Some f ->
     (forall p, p <> path -> p <> backup_of path -> dk_files d1 !! p = files !! p) ->
     k a d1 = (r, d') -> kept path f files r d') ->
  kept path f files r d'.
Proof.
  intros Hl Hb Ho Hm Hk.
  apply mbind_inv in Hm as [(a & d1 & H1 & H2)|[(e & H1 & ->)|(c & H1 & ->)]]; apply Hl in H1 as [Hx H1].
  - apply (Hk a d1); [rewrite H1; auto using backup_ne| |done]. intros p Hp Hq. rewrite H1; auto.
  - split_and!; [right; rewrite H1; auto using backup_ne|done|]. intros p Hp Hq. rewrite H1; auto.
  - by destruct (Hx c).
Qed.

(** C28: whatever fails, nothing is lost. However the start-up migration ends,
    the file that was at the path is still there or is the backup, unchanged;
    when it gives up with an exit code it is back in place; no other file is
    touched. *)
Theorem migration_keeps_legacy path f d r d' :
  dk_files d !! path = Some f -> maybeMigrateLegacyDb path d = (r, d') ->
  (dk_files d' !! path = Some f \/ dk_files d' !! backup_of path = Some f) /\
  (forall c, r = Exits c -> dk_files d' !! path = Some f) /\
  (forall p, p <> path -> p <> backup_of path -> dk_files d' !! p = dk_files d !! p).
Proof.
  intros Hf Hm. change (kept path f (dk_files d) r d'). unfold maybeMigrateLegacyDb in Hm. rewrite Hf in Hm.
  destruct (detectLegacySchema path d); [|simplify_eq; by split_and!; [left| |]].
  unfold runMigration in Hm. apply mbind_inv in Hm as [(rows & d1 & H1 & Hm)|[(e & H1 & ->)|(c & H1 & ->)]];
    apply read_legacy_files in H1 as [Hx H1]; [|rewrite <- H1 in Hf |- *; by split_and!; [left| |]|by destruct (Hx c)].
  destruct rows as [[blobs ownersRs] accessed]. rewrite <- H1 in Hf |- *. unfold mbind' at 1, rename at 1 in Hm.
  rewrite Hf in Hm. remember (set_files _ d1) as d2 eqn:E2.
  assert (dk_files d2 !! backup_of path = Some f) as Hb by (subst d2; cbn; by rewrite lookup_insert_eq).
  assert (forall p, p <> path -> p <> backup_of path -> dk_files d2 !! p = dk_files d1 !! p) as Ho.
  { intros p Hp Hq. subst d2. cbn. by rewrite lookup_insert_ne, lookup_delete_ne. }
  clear E2. revert Hm Ho. generalize (dk_files d1). intros files Hm Ho. clear Hf H1 d1 d.
  eapply kept_local in Hm; [exact Hm|apply local_init|exact Hb|exact Ho|]. clear dependent d2. intros _ d2 Hb Ho Hm.
  do 3 (eapply kept_local in Hm; [exact Hm|apply local_each; intros; apply local_on_fresh|exact Hb|exact Ho|];
        clear dependent d2; intros _ d2 Hb Ho Hm).
  eapply kept_local in Hm; [exact Hm|apply local_count|exact Hb|exact Ho|]. clear dependent d2.
  intros [[gb go] ga] d2 Hb Ho Hm. destruct (_ && _); [unfold mret in Hm; simplify_eq; by split_and!; [right| |]|].
  unfold mbind', remove_file, rename in Hm. cbn in Hm. rewrite lookup_delete_ne in Hm by auto using backup_ne.
  rewrite Hb in Hm. cbn in Hm. simplify_eq. split_and!; cbn.
  - left. by rewrite lookup_insert_eq.
  - intros c _. by rewrite lookup_insert_eq.
  - intros p Hp Hq. rewrite lookup_insert_ne, !lookup_delete_ne; auto.
Qed.

(** ** What a migration without faults imports *)

Fixpoint imports {A} (f : A -> NodeDb -> exc string (unit * NodeDb)) (l : list A) (db : NodeDb) : option NodeDb :=
  match l with
  | [] => Some db
  | x :: l => match f x db with Ok (_, db') => imports f l db' | Throw _ => None end
  end.

Lemma on_fresh_calm {A} path (f : NodeDb -> exc string (A * NodeDb)) d db a db' :
  dk_faults d = [] -> dk_files d !! path = Some (Current db) -> f db = Ok (a, db') ->
  on_fresh path f d = (Returns a, set_files (<[path := Current db']>) d).
Proof. intros Hc Hd Hf. unfold on_fresh, sql_stmt. by rewrite Hc, Hd, Hf. Qed.

Lemma set_files_id path x d : dk_files d !! path = Some x -> set_files (<[path := x]>) d = d.
Proof. intros Hd. destruct d as [fs ft]. unfold set_files. cbn in *. by rewrite insert_id. Qed.

Lemma each_imports {A} path (f : A -> NodeDb -> exc string (unit * NodeDb)) l d db db' :
  dk_faults d = [] -> dk_files d !! path = Some (Current db) -> imports f l db = Some db' ->
  each (fun x => on_fresh path (f x)) l d = (Returns tt, set_files (<[path := Current db']>) d).
Proof.
  revert d db. induction l as [|x l IH]; intros d db Hc Hd Hi; cbn in Hi |- *.
  - simplify_eq. unfold mret. by rewrite set_files_id.
  - destruct (f x db) as [[[] db1]|] eqn:Ef; [|done]. unfold mbind'.
    rewrite (on_fresh_calm path (f x) d db tt db1) by done.
    rewrite (IH _ db1); [|done|cbn; by rewrite lookup_insert_eq|done].
    unfold set_files. cbn. by rewrite insert_insert_eq.
Qed.

Definition blob_map (l : list LegacyBlob) : gmap string BlobRow :=
  list_to_map (map (fun b => (lb_sha256 b, import_row b)) l).

Lemma imports_blobs l db :
  NoDup (map lb_sha256 l) -> (forall b, b ∈ l -> t_blobs db !! lb_sha256 b = None) ->
  exists db', imports import_blob l db = Some db' /\ t_blobs db' = blob_map l ∪ t_blobs db /\
    t_owners db' = t_owners db /\ t_accessed db' = t_accessed db.
Proof.
  revert db. induction l as [|b l IH]; intros db Hn Hfresh; cbn.
  { exists db. split_and!; try done. unfold blob_map. cbn. by rewrite (left_id_L _ _). }
  rewrite Hfresh by left. inversion Hn as [|? ? Hb Hn']; subst.
  destruct (IH (set_t_blobs (<[lb_sha256 b := import_row b]>) db)) as (db' & Hi & H1 & H2 & H3).
  { done. }
  { intros b' Hb'. cbn. rewrite lookup_insert_ne; [apply Hfresh; by right|].
    intros He. apply Hb. rewrite He. apply list_elem_of_fmap; eauto. }
  exists db'. split_and!; try done. rewrite H1. cbn [t_blobs set_t_blobs].
  assert (blob_map l !! lb_sha256 b = None) as Hnone.
  { apply not_elem_of_list_to_map_1. intros Hin. apply Hb. revert Hin.
    rewrite !list_elem_of_fmap. intros (x & Hx & (b' & -> & Hb')%list_elem_of_fmap). eauto. }
  change (blob_map (b :: l)) with (<[lb_sha256 b := import_row b]> (blob_map l)).
  by rewrite <- insert_union_r, insert_union_l.
Qed.

Lemma imports_owners l db :
  (forall o, o ∈ l -> is_Some (t_blobs db !! fst o)) ->
  exists db', imports import_owner l db = Some db' /\ t_blobs db' = t_blobs db /\
    t_owners db' = list_to_set l ∪ t_owners db /\ t_accessed db' = t_accessed db.
Proof.
  revert db. induction l as [|o l IH]; intros db Hall; cbn.
  { exists db. split_and!; try done. by rewrite (left_id_L _ _). }
  destruct (Hall o) as [row Hrow]; [left|]. unfold import_owner at 1. rewrite Hrow. case_bool_decide as Hin.
  - destruct (IH db) as (db' & ? & ? & H2 & ?); [intros; apply Hall; by right|]. exists db'. split_and!; try done.
    rewrite H2. set_solver.
  - destruct (IH (set_t_owners (fun s => {[o]} ∪ s) db)) as (db' & ? & ? & H2 & ?); [intros; apply Hall; by right|].
    exists db'. split_and!; try done. rewrite H2. cbn. set_solver.
Qed.

Lemma imports_accessed l db :
  NoDup (map fst l) -> (forall a, a ∈ l -> is_Some (t_blobs db !! fst a) /\ t_accessed db !! fst a = None) ->
  exists db', imports import_access l db = Some db' /\ t_blobs db' = t_blobs db /\ t_owners db' = t_owners db /\
    t_accessed db' = list_to_map l ∪ t_accessed db.
Proof.
  revert db. induction l as [|[k v] l IH]; intros db Hn Hall; cbn.
  { exists db. split_and!; try done. by rewrite (left_id_L _ _). }
  inversion Hn as [|? ? Hk Hn']; subst.
  destruct (Hall (k, v)) as [[row Hrow] Hnone]; [left|]. cbn in *. unfold import_access at 1. cbn. rewrite Hnone, Hrow.
  destruct (IH (set_t_accessed (<[k := v]>) db)) as (db' & ? & ? & ? & H3); [done| |].
  { intros a Ha. destruct (Hall a) as [? Hq]; [by right|]. split; [done|]. cbn. rewrite lookup_insert_ne; [done|].
    intros ->. apply Hk. apply list_elem_of_fmap; eauto. }
  exists db'. split_and!; try done. rewrite H3. cbn.
  assert ((list_to_map l : gmap string Z) !! k = None) by (by apply not_elem_of_list_to_map_1).
  by rewrite <- insert_union_r, insert_union_l.
Qed.

Lemma dedup_spec rows seen :
  Forall (fun o => String.length (fst o) = 64%nat) rows ->
  NoDup (dedup_owners seen rows) /\
  forall o, o ∈ dedup_owners seen rows <-> o ∈ rows /\ fst o +:+ ":" +:+ snd o ∉ seen.
Proof.
  revert seen. induction rows as [|[b p] rows IH]; intros seen Hl; cbn; [split; [constructor|set_solver]|].
  inversion Hl as [|? ? Hb Hl']; subst. case_bool_decide as Hin.
  - destruct (IH seen Hl') as [Hn Hs]. split; [done|]. intros o. rewrite Hs. split; [set_solver|].
    intros [[->|Ho]%elem_of_cons Hk]; [done|done].
  - destruct (IH ((b +:+ ":" +:+ p) :: seen) Hl') as [Hn Hs]. split.
    + constructor; [|done]. rewrite Hs. cbn. set_solver.
    + intros [b' p']. rewrite elem_of_cons, Hs. cbn. split; [intros [[= -> ->]|[Ho Hk]]|intros [[[= -> ->]|Ho]%elem_of_cons Hk]].
      * split; [left|done].
      * split; [by right|]. set_solver.
      * by left.
      * destruct (decide ((b', p') = (b, p))) as [|Hne]; [by left|]. right. split; [done|].
        intros [He|]%elem_of_cons; [|done]. apply Hne. rewrite Forall_forall in Hl'. specialize (Hl' _ Ho). cbn in *.
        apply sapp_inj in He as [-> He]; [|congruence]. by apply sapp_inj in He as [_ ->].
Qed.

(** A legacy database that refers to itself properly. *)
Record legacy_sound (blobs : list LegacyBlob) (owners : list (string * string)) (accessed : list (string * Z)) : Prop := {
  ls_blobs : NoDup (map lb_sha256 blobs);
  ls_hashes : Forall (fun b => String.length (lb_sha256 b) = 64%nat) blobs;
  ls_owners : forall o, o ∈ owners -> exists b, b ∈ blobs /\ lb_sha256 b = fst o;
  ls_accessed : NoDup (map fst accessed);
  ls_accessed_blobs : forall a, a ∈ accessed -> exists b, b ∈ blobs /\ lb_sha256 b = fst a
}.

Lemma blob_map_Some l b : NoDup (map lb_sha256 l) -> b ∈ l -> blob_map l !! lb_sha256 b = Some (import_row b).
Proof.
  intros Hn Hb. apply elem_of_list_to_map_1.
  - rewrite <- list_fmap_compose. exact Hn.
  - apply list_elem_of_fmap. eauto.
Qed.

Lemma size_blob_map l : NoDup (map lb_sha256 l) -> size (blob_map l) = length l.
Proof.
  intros Hn. unfold blob_map. rewrite map_size_list_to_map; [by rewrite length_map|].
  rewrite <- list_fmap_compose. exact Hn.
Qed.

Lemma count_calm path d db :
  dk_faults d = [] -> dk_files d !! path = Some (Current db) ->
  count_rows path d = (Returns (size (t_blobs db), size (t_owners db), size (t_accessed db)), d).
Proof.
  intros Hc Hd. unfold count_rows.
  unfold mbind'. assert (forall f : NodeDb -> nat, on_fresh path (fun db => Ok (f db, db)) d = (Returns (f db), d)) as Hf.
  { intros f. erewrite on_fresh_calm by done. by rewrite set_files_id. }
  by rewrite (Hf (fun db => size (t_blobs db))), (Hf (fun db => size (t_owners db))), (Hf (fun db => size (t_accessed db))).
Qed.

(** The disk of a migration in progress: the legacy file under its backup
    name, the new database at its path. *)
Definition moved (path : string) (f : DbFile) (d : Disk) (db : NodeDb) : Disk :=
  {| dk_files := <[path := Current db]> (<[backup_of path := f]> (delete path (dk_files d))); dk_faults := [] |}.

Lemma moved_at path f d db : dk_files (moved path f d db) !! path = Some (Current db).
Proof. apply lookup_insert_eq. Qed.

Lemma moved_each {A} path f d (g : A -> _) l db db' :
  imports g l db = Some db' ->
  each (fun x => on_fresh path (g x)) l (moved path f d db) = (Returns tt, moved path f d db').
Proof.
  intros Hi. rewrite (each_imports path g l (moved path f d db) db db'); [|done|apply moved_at|done].
  unfold set_files, moved. cbn. by rewrite insert_insert_eq.
Qed.

Lemma run_calm path sql blobs owners accessed d db1 db2 db3 :
  let f := Legacy sql blobs owners accessed in
  dk_files d !! path = Some f -> dk_faults d = [] ->
  imports import_blob blobs fresh_db = Some db1 ->
  imports import_owner (dedup_owners [] owners) db1 = Some db2 ->
  imports import_access accessed db2 = Some db3 ->
  size (t_blobs db3) = length blobs -> size (t_owners db3) = length (dedup_owners [] owners) ->
  size (t_accessed db3) = length accessed ->
  runMigration path d = (Returns tt, moved path f d db3).
Proof.
  intros f Hf Hc Hi1 Hi2 Hi3 Hs1 Hs2 Hs3.
  assert (read_legacy path d = (Returns (blobs, owners, accessed), d)) as Hread.
  { unfold read_legacy, sql_stmt. by rewrite Hf, Hc. }
  set (files := <[backup_of path := f]> (delete path (dk_files d))).
  assert (rename path (backup_of path) d = (Returns tt, {| dk_files := files; dk_faults := [] |})) as Hren.
  { unfold rename. rewrite Hf. unfold set_files. by rewrite Hc. }
  assert (init_local path {| dk_files := files; dk_faults := [] |} = (Returns tt, moved path f d fresh_db)) as Hinit.
  { unfold init_local, sql_stmt. cbn [dk_faults dk_files]. unfold files. rewrite lookup_insert_ne by apply backup_ne.
    by rewrite lookup_delete_eq. }
  unfold runMigration, mbind' at 1. rewrite Hread. unfold mbind' at 1. rewrite Hren. unfold mbind' at 1. rewrite Hinit.
  unfold mbind' at 1. rewrite (moved_each _ _ _ _ _ _ _ Hi1). unfold mbind' at 1. rewrite (moved_each _ _ _ _ _ _ _ Hi2).
  unfold mbind' at 1. rewrite (moved_each _ _ _ _ _ _ _ Hi3). unfold mbind' at 1.
  rewrite (count_calm _ _ db3) by (done || apply moved_at). by rewrite Hs1, Hs2, Hs3, !Nat.eqb_refl.
Qed.

(** A migration that meets no fault imports everything. Of a legacy
    database that refers only to blobs it has, every blob is there with its
    size, time and bare type, every owner once, every access time; the old file
    is the backup, and the next start changes nothing. *)
Theorem migration_exact path sql blobs owners accessed d :
  dk_files d !! path = Some (Legacy (Some sql) blobs owners accessed) -> dk_faults d = [] ->
  has_id false sql = true -> legacy_sound blobs owners accessed ->
  exists db d', maybeMigrateLegacyDb path d = (Returns tt, d') /\
    dk_files d' = <[path := Current db]> (<[backup_of path := Legacy (Some sql) blobs owners accessed]> (dk_files d)) /\
    (forall b, b ∈ blobs -> t_blobs db !! lb_sha256 b = Some (import_row b)) /\ size (t_blobs db) = length blobs /\
    (forall o, o ∈ t_owners db <-> o ∈ owners) /\ t_accessed db = list_to_map accessed /\
    maybeMigrateLegacyDb path d' = (Returns tt, d').
Proof.
  intros Hf Hc Hid Hls. pose proof (ls_blobs _ _ _ Hls) as Hnd.
  assert (forall h, (exists b, b ∈ blobs /\ lb_sha256 b = h) -> is_Some (blob_map blobs !! h)) as Hmap.
  { intros h (b & Hb & <-). rewrite blob_map_Some by done. eauto. }
  destruct (dedup_spec owners []) as [Hdn Hds].
  { apply Forall_forall. intros o (b & Hb & <-)%(ls_owners _ _ _ Hls).
    by apply (proj1 (Forall_forall _ _) (ls_hashes _ _ _ Hls)). }
  destruct (imports_blobs blobs fresh_db Hnd) as (db1 & Hi1 & Hb1 & Ho1 & Ha1); [done|].
  cbn in Hb1, Ho1, Ha1. rewrite (right_id_L _ _) in Hb1.
  destruct (imports_owners (dedup_owners [] owners) db1) as (db2 & Hi2 & Hb2 & Ho2 & Ha2).
  { intros o [Ho _]%Hds. rewrite Hb1. apply Hmap. by apply (ls_owners _ _ _ Hls). }
  rewrite Ho1, (right_id_L _ _) in Ho2.
  destruct (imports_accessed accessed db2 (ls_accessed _ _ _ Hls)) as (db3 & Hi3 & Hb3 & Ho3 & Ha3).
  { intros a Ha. rewrite Hb2, Hb1, Ha2, Ha1. split; [|done]. apply Hmap. by apply (ls_accessed_blobs _ _ _ Hls). }
  rewrite Ha2, Ha1, (right_id_L _ _) in Ha3.
  exists db3, (moved path (Legacy (Some sql) blobs owners accessed) d db3). split_and!.
  - unfold maybeMigrateLegacyDb, detectLegacySchema. rewrite Hf. change (default "" (Some sql)) with sql. rewrite Hid.
    apply (run_calm _ _ _ _ _ _ db1 db2 db3); try done.
    + rewrite Hb3, Hb2, Hb1. by apply size_blob_map.
    + rewrite Ho3, Ho2. by apply size_list_to_set.
    + rewrite Ha3. apply map_size_list_to_map, Hls.
  - cbn. rewrite insert_insert_ne, insert_delete_eq, insert_insert_ne; auto using backup_ne.
  - intros b Hb. rewrite Hb3, Hb2, Hb1. by apply blob_map_Some.
  - rewrite Hb3, Hb2, Hb1. by apply size_blob_map.
  - intros o. rewrite Ho3, Ho2, elem_of_list_to_set, Hds. set_solver.
  - done.
  - unfold maybeMigrateLegacyDb, detectLegacySchema. by rewrite moved_at.
Qed.
End Facts.

(** ** Concrete files *)

Module MigrateExamples.
Fixpoint rep (n : nat) (s : string) : string := match n with O => "" | S n => s +:+ rep n s end.
Definition h1 : string := rep 64 "1".
Definition h2 : string := rep 64 "2".
Definition legacy_sql : string := "CREATE TABLE owners (id INTEGER PRIMARY KEY AUTOINCREMENT, blob TEXT, pubkey TEXT)".
Definition js_blob : LegacyBlob :=
  {| lb_sha256 := h1; lb_type := Some "text/javascript; charset=utf-8"; lb_size := 5; lb_uploaded := 7 |}.
Definition disk (owners : list (string * string)) (faults : list bool) : Disk :=
  {| dk_files := {["db" := Legacy (Some legacy_sql) [js_blob] owners [(h1, 9)]]}; dk_faults := faults |}.

Lemma migration_exact_witness : exists db d',
  maybeMigrateLegacyDb "db" (disk [(h1, "alice"); (h1, "alice")] []) = (Returns tt, d') /\
  t_blobs db !! h1 = Some {| r_size := 5; r_type := Some "text/javascript"; r_uploaded := 7; r_nip94 := None |} /\
  (h1, "alice") ∈ t_owners db.
Proof.
  destruct (migration_exact "db" legacy_sql [js_blob] [(h1, "alice"); (h1, "alice")] [(h1, 9)]
    (disk [(h1, "alice"); (h1, "alice")] []) eq_refl eq_refl eq_refl) as (db & d' & Hm & _ & Hb & _ & Ho & _ & _).
  - constructor; cbn.
    + repeat constructor. apply not_elem_of_nil.
    + by repeat constructor.
    + intros o Hin. exists js_blob. split; [left|]. by set_unfold; destruct_or!; subst.
    + repeat constructor. apply not_elem_of_nil.
    + intros a Hin. exists js_blob. split; [left|]. by set_unfold; destruct_or!; subst.
  - exists db, d'. split; [exact Hm|]. split; [apply (Hb js_blob); left|]. apply Ho. left.
Defined.

(** A fault in the middle of the import: the legacy file is the backup. *)
Lemma migration_keeps_legacy_witness :
  let out := maybeMigrateLegacyDb "db" (disk [] [false; false; false; false; true]) in
  out.1 = Throws "SQLITE_ERROR" /\
  (dk_files out.2 !! "db" = Some (Legacy (Some legacy_sql) [js_blob] [] [(h1, 9)]) \/
   dk_files out.2 !! "db.bak" = Some (Legacy (Some legacy_sql) [js_blob] [] [(h1, 9)])).
Proof.
  intros out. split; [reflexivity|].
  apply (migration_keeps_legacy "db" _ (disk [] [false; false; false; false; true]) out.1 out.2 eq_refl).
  apply surjective_pairing.
Defined.

(** An owner row without its blob, which the legacy schema allows, stops
    the import with an error that nothing undoes: the new file keeps what was
    imported so far, and the next start takes it for a migrated database and
    serves it, without the owners and access times. *)
Theorem migration_stranded :
  let start := disk [(h2, "bob"); (h1, "alice")] [] in
  let out1 := open_local "db" start in
  let out2 := open_local "db" out1.2 in
  out1.1 = Throws "FOREIGN KEY constraint failed" /\ out2.1 = Returns tt /\
  exists db, dk_files out2.2 !! "db" = Some (Current db) /\ t_blobs db !! h1 <> None /\
    t_owners db = empty /\ t_accessed db = empty.
Proof.
  split_and!; [reflexivity..|]. eexists. split_and!; [reflexivity|done|reflexivity|reflexivity].
Qed.
End MigrateExamples.
