(* ===== verification/NodeDeploy.v ===== *)
(** * A storage node as the repository deploys it

    With the configuration of storage-client/blossom/config.yml (no expiry
    rules, no authorization, ownerless blobs removed) a node is the store the
    proxy takes it for: it keeps every acknowledged upload until it is deleted,
    and its three operations refine those of the set of hashes in [World]. *)

From Stdlib Require Import Ascii.
From S2P Require Import Prelude Js Nip98 NodeRules NodeDb NodeApi NodeMirror NodePrune NodeFacts NodeMirrorFacts NodeReports NodeMedia NodeSystem NodeServe.

(** config.yml: [rules: []], no authorization for uploads and deletions, and no
    media processing. *)
Record deployed (cfg : NConfig) : Prop := {
  dp_rules : cf_rules cfg = [];
  dp_pubkeys : cf_requirePubkeyInRule cfg = false;
  dp_enabled : cf_uploadEnabled cfg = true;
  dp_upload : cf_uploadRequireAuth cfg = false;
  dp_delete : cf_deleteRequireAuth cfg = false;
  dp_media : mc_enabled (cf_media cfg) = false
}.

(** Every row has an owner: uploads without a key are owned by "anonymous". *)
Definition rows_owned (d : NodeDb) : Prop :=
  forall h r, t_blobs d !! h = Some r -> exists p, (h, p) ∈ t_owners d.

(** ** Properties of the tables alone *)

Section Db.
Context (I : NodeDb -> Prop).
Definition on_db (n : Node) : Prop := I (nd_db n).

Lemma dkeeps_db {A} (m : D A) : (forall n, nd_db (m n).2 = nd_db n) -> dkeeps on_db m.
Proof. intros Hm n Hn. unfold on_db. by rewrite Hm. Qed.
Lemma dkeeps_db_execute {A} (f : NodeDb -> option (A * NodeDb)) :
  (forall d a d', I d -> f d = Some (a, d') -> I d') -> dkeeps on_db (execute f).
Proof. intros Hf. apply dkeeps_execute; [done|]. intros n a d Hn Hx. by apply (Hf _ _ _ Hn Hx). Qed.
Lemma dkeeps_db_query {A} (f : NodeDb -> A) : dkeeps on_db (query f).
Proof. by apply dkeeps_query. Qed.
Lemma dkeeps_db_modify f : (forall n, nd_db (f n) = nd_db n) -> dkeeps on_db (dmodify f).
Proof. intros Hf. by apply dkeeps_db. Qed.
End Db.

Ltac on_db_step I :=
  first
    [ apply (dkeeps_ret (on_db I)) | apply (dkeeps_throw (on_db I)) | apply (dkeeps_gets (on_db I))
    | apply (dkeeps_lift (on_db I)) | apply (dkeeps_db_query I)
    | apply (dkeeps_db_modify I); done
    | apply (dkeeps_quietly (on_db I))
    | apply (dkeeps_bind (on_db I)); [|intros]
    | apply (dkeeps_catch (on_db I)); [|intros]
    | case_match ].

Section Deploy.
Context `{NodeLaws} `{ReportLib} `{MediaLib}.

(** ** A row that is held *)

(** No thumbnails, every row owned, and this row in the table. *)
Definition holding (h : string) (row : BlobRow) (d : NodeDb) : Prop :=
  t_thumbnails d = ∅ /\ rows_owned d /\ t_blobs d !! h = Some row.

Definition unthumbed (d : NodeDb) : Prop := t_thumbnails d = ∅ /\ rows_owned d.

Lemma insert_row_owned b pk d :
  rows_owned d -> rows_owned (set_t_owners (fun o => {[(br_sha256 b, pk)]} ∪ o) (insert_row b d)).
Proof.
  intros Ho h r Hl. simpl in *. destruct (decide (h = br_sha256 b)) as [->|Hne]; [exists pk; set_solver|].
  destruct (insert_row_fields b d) as (-> & _). unfold insert_row in Hl.
  destruct (Ho h r) as [p Hp]; [|exists p; set_solver].
  case_match; [done|]. simpl in Hl. by rewrite lookup_insert_ne in Hl.
Qed.

Lemma dkeeps_insert_unthumbed b pk : dkeeps (on_db unthumbed) (insertBlob b pk).
Proof.
  apply dkeeps_db_execute. intros d a d' [Ht Ho] [= _ <-]. split; simpl.
  - by destruct (insert_row_fields b d) as (_ & _ & _ & ->).
  - intros h r Hl. by apply (insert_row_owned b pk d Ho h r).
Qed.

Lemma dkeeps_insert_holding h row b pk : dkeeps (on_db (holding h row)) (insertBlob b pk).
Proof.
  apply dkeeps_db_execute. intros d a d' (Ht & Ho & Hl) [= _ <-]. split_and!; simpl.
  - by destruct (insert_row_fields b d) as (_ & _ & _ & ->).
  - intros h' r Hl'. by apply (insert_row_owned b pk d Ho h' r).
  - by apply insert_row_keeps.
Qed.

Section Generic.
Context (I : NodeDb -> Prop) (I_insert : forall b pk, dkeeps (on_db I) (insertBlob b pk))
  (I_touch : forall h t, dkeeps (on_db I) (touchBlob h t)).

Lemma dkeeps_db_commit p h e : dkeeps (on_db I) (commitWrite p h e).
Proof. unfold commitWrite, st_has. repeat on_db_step I. Qed.

Lemma dkeeps_db_put now cfg ctx r : dkeeps (on_db I) (putUpload now cfg ctx r).
Proof.
  unfold putUpload, upload_work, upload_dedup, add_owner, upload_finish, store_blob, runJob, beginWrite, abortWrite, hasBlob, getBlob, isOwner.
  repeat first [apply I_insert | apply dkeeps_db_commit | on_db_step I].
Qed.

Lemma dkeeps_db_mirror now cfg ctx q : dkeeps (on_db I) (mirrorRoute now cfg ctx q).
Proof.
  unfold mirrorRoute, mirror_work, mirror_finish, add_owner, store_blob, runJob, beginWrite, abortWrite, hasBlob, getBlob, isOwner.
  repeat first [apply I_insert | apply dkeeps_db_commit | on_db_step I].
Qed.

Lemma dkeeps_db_blob native now r : dkeeps (on_db I) (blobRoute native now r).
Proof.
  unfold blobRoute, readRange, getBlob, st_has, st_read. repeat first [apply I_touch | on_db_step I].
Qed.

Lemma dkeeps_db_head cfg ctx r : dkeeps (on_db I) (headUpload cfg ctx r).
Proof. unfold headUpload, hasBlob. repeat on_db_step I. Qed.

Lemma dkeeps_db_list cfg ctx r : dkeeps (on_db I) (listRoute cfg ctx r).
Proof.
  assert (forall l, dkeeps (on_db I) (with_thumbnails cfg r l)) as Hw.
  { intros l. induction l as [|b l IH]; cbn [with_thumbnails]; unfold getMediaThumbnail;
      repeat first [apply IH | on_db_step I]. }
  unfold listRoute, listBlobsByPubkey. repeat first [apply Hw | on_db_step I].
Qed.
End Generic.

Lemma dkeeps_touch_unthumbed h t : dkeeps (on_db unthumbed) (touchBlob h t).
Proof. apply dkeeps_db_execute. intros d a d' Hd Hx. by case_match; simplify_eq. Qed.
Lemma dkeeps_touch_holding h' row h t : dkeeps (on_db (holding h' row)) (touchBlob h t).
Proof. apply dkeeps_db_execute. intros d a d' Hd Hx. by case_match; simplify_eq. Qed.

(** ** Deletions and prune cycles *)

Lemma cascade_unthumbed h d : unthumbed d -> unthumbed (cascade h d).
Proof.
  intros [Ht Ho]. split; simpl; [rewrite Ht; apply map_filter_empty|].
  intros h' r Hl. simpl in Hl. apply lookup_delete_Some in Hl as [Hne Hl].
  destruct (Ho _ _ Hl) as [p Hp]. exists p.
  apply elem_of_filter. by split.
Qed.

Lemma cascade_holding h' h row d : h' <> h -> holding h row d -> holding h row (cascade h' d).
Proof.
  intros Hne (Ht & Ho & Hl). destruct (cascade_unthumbed h' d) as [Ht' Ho']; [by split|].
  split_and!; [done|done|]. simpl. by rewrite lookup_delete_ne.
Qed.

(** Without thumbnails a purge either fails before it changes a table, or
    answers 204 with the row gone. *)
Lemma purge_outcome h type n :
  t_thumbnails (nd_db n) = ∅ ->
  let (res, n') := purge_blob h type n in
  ((exists e, res = Throw (NError e)) /\ ~ quiet n /\ nd_db n' = nd_db n) \/
  (res = Ok (NRes 204 tt) /\ nd_db n' = cascade h (nd_db n)).
Proof.
  intros Ht. unfold purge_blob, getMediaThumbnailsForParent, query, deleteBlob, execute, dbind at 1.
  destruct (nd_faults n) as [|[] [|[] fs]] eqn:En; simpl; rewrite ?thumbnails_off by done; simpl.
  all: try (right; by destruct n).
  all: left; split_and!; [eauto| |by destruct n]; unfold quiet; rewrite En; inversion 1; try done.
  all: match goal with Hf : Forall _ (_ :: _) |- _ => by inversion Hf end.
Qed.

Lemma owned_not_ownerless d : rows_owned d -> ownerless d = [].
Proof.
  intros Ho. unfold ownerless. apply filter_none. intros b Hb [He _].
  unfold blob_records in Hb. apply list_elem_of_fmap in Hb as ([h r] & -> & Hin%elem_of_map_to_list).
  destruct (Ho h r Hin) as [p Hp]. simpl in He. unfold owners_of in He.
  assert ((h, p) ∈ ([] : list (string * string))) as Habs; [|by apply elem_of_nil in Habs].
  rewrite <- He. apply list_elem_of_filter. split; [done|]. by apply elem_of_elements.
Qed.

(** Without rules a prune cycle removes nothing that has an owner. *)
Lemma prune_deployed now b n :
  rows_owned (nd_db n) -> nd_db (pruneStorage now [] b n).2 = nd_db n.
Proof.
  intros Ho. unfold pruneStorage. simpl. unfold dbind at 1. simpl. destruct b; [|done].
  unfold getOwnerlessBlobSha256s, dcatch, dbind at 1.
  edestruct (query_cases (A := list (string * option string))) as (r1 & -> & [->|(e & ->)]); [|done].
  by rewrite owned_not_ownerless.
Qed.

(** ** Any sequence of requests *)

Context (cfg : NConfig) (native : bool) (Hdep : deployed cfg).

Definition spares (h : string) (q : node_req) : Prop :=
  match no_op q with DeleteOp r => find_hash (nq_filename r) <> Some h | _ => True end.

Lemma deleteRoute_db (I : NodeDb -> Prop) ctx r n :
  (forall d, I d -> t_thumbnails d = ∅) ->
  (forall h d, find_hash (nq_filename r) = Some h -> I d -> I (cascade h d)) ->
  I (nd_db n) -> I (nd_db (deleteRoute cfg ctx r n).2).
Proof.
  intros It Ic Hn. unfold deleteRoute. destruct (find_hash (nq_filename r)) as [h|]; [|done].
  unfold getBlob, dbind at 1.
  edestruct (query_cases (A := option BlobRecord)) as (r1 & -> & [->|(e & ->)]); [|done].
  destruct (record_of h <$> t_blobs (nd_db n) !! h) as [blob|]; [|done]. rewrite (dp_delete _ Hdep).
  pose proof (purge_outcome h (br_type blob) (set_nd_faults (tail (nd_faults n)) n)) as HP. simpl in HP.
  destruct (purge_blob _ _ _) as [res n']. simpl.
  destruct HP as [(_ & _ & ->)|(_ & ->)]; [by apply It|done|by apply Ic].
Qed.

Lemma run_node_req_db (I : NodeDb -> Prop) q n :
  (forall d, I d -> t_thumbnails d = ∅ /\ rows_owned d) ->
  (forall h d, match no_op q with DeleteOp r => find_hash (nq_filename r) = Some h | _ => False end ->
     I d -> I (cascade h d)) ->
  (forall b pk, dkeeps (on_db I) (insertBlob b pk)) -> (forall h t, dkeeps (on_db I) (touchBlob h t)) ->
  (forall f s d, I d -> I (set_t_reports f s d)) ->
  I (nd_db n) -> I (nd_db (run_node_req cfg native n q)).
Proof.
  intros It Ic Ii Itt Ir Hn. unfold run_node_req. set (n' := set_nd_faults (no_faults q) n).
  assert (on_db I n') as Hn' by done. change (on_db I (serve_node cfg native q n').2).
  unfold serve_node. destruct (no_op q) as [r|r|r|r|r|m|m|m|r|]; apply drop_result.
  - apply (dkeeps_with_auth cfg (on_db I)); [intros; by apply dkeeps_db_put|done].
  - apply (dkeeps_with_auth cfg (on_db I)); [intros; by apply dkeeps_db_head|done].
  - apply (with_auth_inv cfg (on_db I)); [|done]. intros ctx. unfold on_db.
    apply deleteRoute_db; [by intros; apply It|auto|done].
  - apply (dkeeps_with_auth cfg (on_db I)); [|done]. intros.
    apply dkeeps_bind; [by apply dkeeps_db_blob | intros; apply dkeeps_ret].
  - apply (dkeeps_with_auth cfg (on_db I)); [intros; by apply dkeeps_db_list|done].
  - apply (dkeeps_with_auth cfg (on_db I)); [intros; by apply dkeeps_db_mirror|done].
  - apply (with_auth_inv cfg (on_db I)); [|done]. intros ctx. case_match; [|done].
    unfold on_db. by apply reportRoute_other.
  - apply (dkeeps_with_auth cfg (on_db I)); [|done]. intros. unfold putMedia, media_checks.
    rewrite (dp_media _ Hdep). apply dkeeps_ret.
  - apply (dkeeps_with_auth cfg (on_db I)); [intros; apply dkeeps_ret|done].
  - unfold on_db. rewrite (dp_rules _ Hdep). by rewrite prune_deployed by by apply It.
Qed.

Lemma run_node_holding qs h row n :
  Forall (spares h) qs -> holding h row (nd_db n) -> holding h row (nd_db (run_node cfg native qs n)).
Proof.
  intros Hqs. unfold run_node. revert n. induction Hqs as [|q qs Hq _ IH]; intros n Hn; [done|]. simpl.
  apply IH. apply run_node_req_db; auto using dkeeps_insert_holding, dkeeps_touch_holding.
  - by intros d (? & ? & _).
  - intros h' d Hd Hh. apply cascade_holding; [|done]. intros ->. unfold spares in Hq. by case_match.
Qed.

Lemma run_node_unthumbed qs n :
  unthumbed (nd_db n) -> unthumbed (nd_db (run_node cfg native qs n)).
Proof.
  unfold run_node. revert n. induction qs as [|q qs IH]; intros n Hn; [done|]. simpl. apply IH.
  apply run_node_req_db; auto using dkeeps_insert_unthumbed, dkeeps_touch_unthumbed.
  intros h d _. apply cascade_unthumbed.
Qed.

(** ** What an upload does *)

Lemma upload_checks_deployed ctx r a :
  upload_checks cfg ctx r = Ok (inr a) ->
  ad_auth a = None /\ ad_xSha256 a = toLowerCase <$> nq_xSha256 r.
Proof.
  unfold upload_checks, auth_if. rewrite (dp_enabled _ Hdep), (dp_upload _ Hdep). simpl.
  repeat case_match; intros; by simplify_eq.
Qed.

(** A check that ends an upload never acknowledges it. *)
Lemma upload_checks_refuses ctx r st d : upload_checks cfg ctx r <> Ok (inl (NRes st d)).
Proof.
  unfold upload_checks, auth_if.
  assert (forall h m i (e : nresp NDescriptor), check_length cfg h m i = inl e -> e <> NRes st d) as Hl.
  { intros h m i e. unfold check_length. repeat case_match; intros; by simplify_eq. }
  assert (forall m, no_rule cfg m <> NRes st d) as Hr by (intros m; unfold no_rule; by case_match).
  repeat case_match; intros Heq; simplify_eq;
    match goal with Hx : _ = _ |- False => first [by apply Hl in Hx | by apply Hr in Hx] end.
Qed.

(** The tables after [insertBlob] of a record. *)
Definition with_blob (b : BlobRecord) (pk : string) (d : NodeDb) : NodeDb :=
  set_t_accessed (<[br_sha256 b := br_uploaded b]>)
    (set_t_owners (fun o => {[(br_sha256 b, pk)]} ∪ o) (insert_row b d)).

(** An upload is refused without a change of the tables, or finds the blob, or
    stores it; an answered upload's hash is in the table. *)
Definition put_effect (r : NReq) (n n' : Node) (res : exc nerr (nresp NDescriptor)) : Prop :=
  ((forall st d, res <> Ok (NRes st d)) /\ nd_db n' = nd_db n) \/
  (exists d x, res = Ok (NRes 200 d) /\ nds_sha256 d = x /\ nd_db n' = nd_db n /\
     toLowerCase <$> nq_xSha256 r = Some x /\ is_Some (t_blobs (nd_db n) !! x)) \/
  (exists d b chunks, res = Ok (NRes 201 d) /\ nq_body r = Some (chunks, false) /\
     br_sha256 b = sha256 (String.concat "" chunks) /\ nds_sha256 d = br_sha256 b /\
     (forall x, toLowerCase <$> nq_xSha256 r = Some x -> x = br_sha256 b) /\
     nd_db n' = with_blob b "anonymous" (nd_db n)).

Lemma truthy_str_Some o x : truthy_str o = Some x -> o = Some x.
Proof. unfold truthy_str. destruct o; [|done]. by case_match; intros; simplify_eq. Qed.

Lemma dedup_deployed r a n :
  ad_auth a = None ->
  let (res, n') := upload_dedup cfg r a n in
  nd_db n' = nd_db n /\ nd_tmp n' = nd_tmp n /\ nd_files n' = nd_files n /\
  match res with
  | Ok (Some resp) => exists x row, ad_xSha256 a = Some x /\ t_blobs (nd_db n) !! x = Some row /\
      resp = NRes 200 (descriptor cfg r (record_of x row) [])
  | Ok None => True
  | Throw e => exists m, e = NError m
  end.
Proof.
  intros Ha. unfold upload_dedup, add_owner. rewrite Ha. destruct (truthy_str (ad_xSha256 a)) as [x|] eqn:Ex; [|done].
  apply truthy_str_Some in Ex. unfold hasBlob, getBlob, query, execute, dbind.
  destruct (nd_faults n) as [|[] [|[] fs]]; simpl; try (split_and!; eauto; done).
  all: destruct (t_blobs (nd_db n) !! x) as [row|] eqn:E; simpl; rewrite ?E; simpl; split_and!; eauto.
Qed.

Lemma finish_deployed now r a tmpPath data n :
  ad_auth a = None -> nd_tmp n !! tmpPath = Some data ->
  let (res, n') := upload_finish now cfg r a tmpPath (sha256 data) (Z.of_nat (String.length data)) n in
  ((forall st d, res <> Ok (NRes st d)) /\ nd_db n' = nd_db n) \/
  (exists d b, res = Ok (NRes 201 d) /\ br_sha256 b = sha256 data /\ nds_sha256 d = sha256 data /\
     nd_db n' = with_blob b "anonymous" (nd_db n)).
Proof.
  intros Ha Ht. unfold upload_finish, store_blob. rewrite Ha. simpl. unfold dbind at 1, dbind at 1, dgets at 1. simpl.
  unfold dbind at 1, dcatch.
  assert (exists n1, commitWrite tmpPath (sha256 data) (mimeToExt (Some (ad_mime a))) n = (Ok tt, n1) /\
            nd_db n1 = nd_db n) as (n1 & -> & Hdb).
  { unfold commitWrite, st_has, dbind, dgets. simpl. case_bool_decide; simpl; [eauto|]. rewrite Ht. simpl. eauto. }
  unfold dbind, insertBlob, execute. rewrite <- Hdb.
  destruct (match nd_faults n1 with b :: _ => b | [] => false end); simpl; [by left|]. right.
  match goal with |- context [insert_row ?b _] => set (record := b) end.
  eexists _, record. by split_and!.
Qed.

Lemma put_outcome now ctx r n :
  let (res, n') := putUpload now cfg ctx r n in put_effect r n n' res.
Proof.
  unfold putUpload, upload_work, put_effect, dbind at 1, dlift.
  destruct (upload_checks cfg ctx r) as [[resp|a]|e] eqn:Ec; simpl; [|..|by left].
  { left. split; [|done]. intros st d [= ->]. by apply upload_checks_refuses in Ec. }
  apply upload_checks_deployed in Ec as [Ha Hx]. unfold dbind at 1.
  pose proof (dedup_deployed r a n Ha) as Hdd.
  destruct (upload_dedup cfg r a n) as [[[resp|]|e] n1]; destruct Hdd as (Hdb & _ & _ & Hr).
  - right; left. destruct Hr as (x & row & Hxa & Hl & ->). eexists _, x. split_and!; [done..|by rewrite <- Hx|by rewrite Hl].
  - destruct (nq_body r) as [[chunks broken]|] eqn:Eb; [|by left].
    destruct (negb _); [by left|]. unfold beginWrite, dbind, dmodify, dret. cbn [fst snd].
    destruct (negb _); [by left|]. unfold runJob. cbn [fst snd]. destruct broken; [by left|].
    unfold dbind, dmodify, dret. cbn [fst snd].
    destruct (match ad_xSha256 a with Some x => _ | None => _ end) eqn:Em; [by left|].
    match goal with |- context [upload_finish now cfg r a ?t (sha256 ?dt) _ ?m] =>
      pose proof (finish_deployed now r a t dt m Ha) as HF; simpl in HF; rewrite lookup_insert_eq in HF;
      specialize (HF eq_refl); destruct (upload_finish now cfg r a t (sha256 dt) _ m) as [res n2] end.
    rewrite Hdb in HF. destruct HF as [?|(d & b & -> & Hb & Hd & ->)]; [by left|right; right].
    exists d, b, chunks. split_and!; [done..|by rewrite Hd|intros x HxS|done].
    rewrite <- Hx in HxS. rewrite HxS in Em. apply negb_false_iff, String.eqb_eq in Em. by rewrite Hb.
  - by left.
Qed.

Lemma serve_put_outcome now r n :
  let (res, n') := serve_put cfg now r n in (exists resp, res = Ok resp) /\ put_effect r n n' res.
Proof.
  unfold serve_put, with_auth, onError, dcatch, dbind, dlift.
  destruct (authMiddleware now cfg r) as [ctx|e]; simpl.
  2:{ destruct e; simpl; (split; [by eexists|]); left; (split; [|done]); by intros ? ? [=]. }
  pose proof (put_outcome now ctx r n) as HP. destruct (putUpload now cfg ctx r n) as [[resp|e] n']; [split; eauto|].
  destruct HP as [[_ Hdb]|[(d & x & [=] & _)|(d & b & c & [=] & _)]].
  destruct e; simpl; (split; [by eexists|]); left; (split; [|done]); by intros ? ? [=].
Qed.

(** Uploading keeps the tables free of thumbnails and of ownerless rows, and
    an answered upload's row is there. *)
Lemma put_effect_row r n n' st d :
  unthumbed (nd_db n) -> put_effect r n n' (Ok (NRes st d)) ->
  exists row, holding (nds_sha256 d) row (nd_db n').
Proof.
  intros [Ht Ho] [[Hno _]|[(d0 & x & [= -> ->] & Hd & Hdb & _ & [row Hl])|(d0 & b & c & [= -> ->] & _ & _ & Hd & _ & Hdb)]].
  - by destruct (Hno st d).
  - exists row. rewrite Hdb, Hd. by split_and!.
  - rewrite Hd, Hdb. destruct (insert_row_present b (nd_db n)) as [row Hrow]. exists row.
    split_and!; simpl; [by destruct (insert_row_fields b (nd_db n)) as (_ & _ & _ & ->)| |done].
    intros h rw Hl. by apply (insert_row_owned b "anonymous" (nd_db n) Ho h rw).
Qed.

(** C7: an acknowledged upload stays. On a node configured as deployed, from any consistent
    state in which rows have owners and there are no thumbnails: once PUT /upload
    answered with a descriptor, then after any further requests and prune cycles,
    with statements failing at any point, as long as none of them deletes this
    hash, a plain download of it succeeds and returns bytes with this hash. *)
Theorem upload_durable genuine now r st d n n1 qs now' g :
  (forall a b, genuine a -> genuine b -> sha256 a = sha256 b -> a = b) ->
  node_ok genuine n -> unthumbed (nd_db n) -> body_ok genuine r ->
  serve_put cfg now r n = (Ok (NRes st d), n1) ->
  Forall (op_ok cfg genuine true) qs -> Forall (spares (nds_sha256 d)) qs ->
  find_hash (nq_filename g) = Some (nds_sha256 d) ->
  nq_head g = false -> truthy_str (nq_ifNoneMatch g) = None -> truthy_str (nq_range g) = None ->
  let n2 := set_nd_faults [] (run_node cfg native qs n1) in
  exists body, (blobRoute native now' g n2).1 = Ok (Some (NRes 200 body)) /\
    sha256 (bb_bytes body) = nds_sha256 d.
Proof.
  intros Hnc Hok Hun Hb Hput Hqs Hsp Hg Hhd Hinm Hrg n2.
  assert (inv genuine true n) as Hinv by (split; [done|intros _; apply Hun]).
  assert (inv genuine true n1) as Hinv1.
  { pose proof (dkeeps_with_auth cfg (inv genuine true) now r (fun ctx => putUpload now cfg ctx r)) as HK.
    unfold serve_put in Hput. replace n1 with (with_auth cfg now r (fun ctx => putUpload now cfg ctx r) n).2
      by by rewrite Hput. apply HK; [|done]. intros ctx. by apply putUpload_inv. }
  assert (inv genuine true (run_node cfg native qs n1)) as [Hok2 _] by by apply run_node_inv.
  pose proof (serve_put_outcome now r n) as HE. rewrite Hput in HE.
  destruct (put_effect_row r n n1 st d Hun (proj2 HE)) as [row Hrow].
  destruct (run_node_holding qs (nds_sha256 d) row n1 Hsp Hrow) as (_ & _ & Hl).
  pose proof (download_exact genuine native now' g (nds_sha256 d) n2 Hok2 I Hg Hhd Hinm) as HD.
  simpl in HD. rewrite Hl, Hrg in HD. destruct HD as (data & Hs & ->). eexists. by split.
Qed.
End Deploy.
