(* ===== verification/NodeServer.v ===== *)
(** * The whole server of a storage node (storage-client/blossom/src/server.ts)

    The Blossom routes and prune cycles of [NodeSystem] together with the
    dashboard that server.ts mounts beside them, in any order. The dashboard
    deletes a reported blob by the hash in the report, so rows keep their files
    because reports name hashes: [hex_reports] follows the table of reports
    through every request. *)

From S2P Require Import Prelude Js Nip98 NodeRules NodeDb NodeApi NodeMirror NodePrune NodeFacts NodeMirrorFacts NodeReports NodeMedia NodeMediaFacts NodeAdmin NodeAdminFacts NodeSystem NodeServe NodeDeploy.

(** A request for the Blossom routes or a prune cycle, or an action of the
    dashboard with its request, its failing statements and whether the Basic
    credentials are right. *)
Inductive server_req :=
| Blossom (q : node_req)
| Dashboard (now : Z) (faults : list bool) (r : NReq) (authorized : bool) (a : admin_action).

Section Server.
Context `{NodeLaws} `{ReportLib} `{MediaLib}.
Context (cfg : NConfig) (native dashboard : bool).

(** The dashboard's routes exist only when it is enabled. *)
Definition serve_dashboard (now : Z) (r : NReq) (authorized : bool) (a : admin_action) : D (nresp unit) :=
  with_auth cfg now r (fun _ => if dashboard then adminRoute authorized a else dret (NErr 404 "404 Not Found")).

Definition run_server_req (n : Node) (q : server_req) : Node :=
  match q with
  | Blossom q => run_node_req cfg native n q
  | Dashboard now faults r authorized a => (serve_dashboard now r authorized a (set_nd_faults faults n)).2
  end.
Definition run_server (qs : list server_req) (n : Node) : Node := foldl run_server_req n qs.

(** ** Reports name hashes *)

Definition hex_reports (d : NodeDb) : Prop := Forall (fun r => is_hex64 (rp_blob r) = true) (t_reports d).
#[local] Notation I := (on_db hex_reports).

(** A statement that leaves the reports alone. *)
Lemma dkeeps_reports {A} (f : NodeDb -> option (A * NodeDb)) :
  (forall d a d', f d = Some (a, d') -> t_reports d' = t_reports d) -> dkeeps I (execute f).
Proof. intros Hf. apply dkeeps_db_execute. intros d a d' Hd Hx. unfold hex_reports. by rewrite (Hf _ _ _ Hx). Qed.

Lemma insert_row_reports b d : t_reports (insert_row b d) = t_reports d.
Proof. unfold insert_row. by case_match. Qed.

Lemma hex_insert b pk : dkeeps I (insertBlob b pk).
Proof. apply dkeeps_reports. intros d a d' [= _ <-]. apply insert_row_reports. Qed.
Lemma hex_record b : dkeeps I (insertBlobRecord b).
Proof. apply dkeeps_reports. intros d a d' [= _ <-]. apply insert_row_reports. Qed.
Lemma hex_touch h t : dkeeps I (touchBlob h t).
Proof. apply dkeeps_reports. intros d a d' Hx. by case_match; simplify_eq. Qed.
Lemma hex_delete h : dkeeps I (deleteBlob h).
Proof. apply dkeeps_reports. by intros d a d' [= _ <-]. Qed.
Lemma hex_disown h p : dkeeps I (removeOwner h p).
Proof. apply dkeeps_reports. by intros d a d' [= _ <-]. Qed.
Lemma hex_derivative h o : dkeeps I (insertMediaDerivative h o).
Proof. apply dkeeps_reports. intros d a d' Hx. by repeat case_match; simplify_eq. Qed.
Lemma hex_thumbnail h t : dkeeps I (insertMediaThumbnail h t).
Proof. apply dkeeps_reports. intros d a d' Hx. by repeat case_match; simplify_eq. Qed.

(** A step of a route: a statement about a blob, or what [on_db_step] knows. *)
Ltac hex_step :=
  first [ apply hex_insert | apply hex_record | apply hex_touch | apply hex_delete | apply hex_disown
        | apply hex_derivative | apply hex_thumbnail | on_db_step hex_reports ].

Lemma hex_st_remove h e : dkeeps I (st_remove h e).
Proof. unfold st_remove, st_has. repeat hex_step. Qed.
Lemma hex_drop_thumbnails l : dkeeps I (drop_thumbnails l).
Proof. induction l as [|t l IH]; cbn [drop_thumbnails]; repeat first [apply IH | apply hex_st_remove | hex_step]. Qed.

Lemma hex_deleteRoute ctx r : dkeeps I (deleteRoute cfg ctx r).
Proof.
  unfold deleteRoute, purge_blob, getBlob, isOwner, countOwners, getMediaThumbnailsForParent.
  repeat first [apply hex_drop_thumbnails | apply hex_st_remove | hex_step].
Qed.

(** *** Prune cycles *)

Lemma hex_remove_thumbnails l k : dkeeps I (remove_thumbnails l k).
Proof.
  revert k. induction l as [|t l IH]; intros k; cbn [remove_thumbnails];
    repeat first [apply IH | apply hex_st_remove | hex_step].
Qed.
Lemma hex_prune_blob h type s : dkeeps I (prune_blob h type s).
Proof.
  unfold prune_blob, getMediaThumbnailsForParent.
  repeat first [apply hex_remove_thumbnails | apply hex_st_remove | hex_step].
Qed.
Lemma hex_expire_rows cutoff rows s : dkeeps I (expire_rows cutoff rows s).
Proof.
  revert s. induction rows as [|row rows IH]; intros s; cbn [expire_rows]; cbv zeta;
    repeat first [apply IH | apply hex_prune_blob | hex_step].
Qed.
Lemma hex_prune_rules now rules s : dkeeps I (prune_rules now rules s).
Proof.
  revert s. induction rules as [|rule rules IH]; intros s; cbn [prune_rules]; unfold prune_rule, getBlobsForPrune;
    repeat first [apply IH | apply hex_expire_rows | hex_step].
Qed.
Lemma hex_prune_ownerless rows s : dkeeps I (prune_ownerless rows s).
Proof.
  revert s. induction rows as [|[h type] rows IH]; intros s; cbn [prune_ownerless];
    repeat first [apply IH | apply hex_prune_blob | hex_step].
Qed.
Lemma hex_pruneStorage now rules b : dkeeps I (pruneStorage now rules b).
Proof.
  unfold pruneStorage, getOwnerlessBlobSha256s.
  repeat first [apply hex_prune_rules | apply hex_prune_ownerless | hex_step].
Qed.

(** *** Media *)

Lemma hex_run_tool o i t : dkeeps I (run_tool o i t).
Proof. unfold run_tool, tmp_write, tmp_read. repeat hex_step. Qed.
Lemma hex_createThumbnail name p mime o : dkeeps I (createThumbnail name p mime o).
Proof. unfold createThumbnail, thumbnailImage, thumbnailVideo. repeat first [apply hex_run_tool | hex_step]. Qed.
Lemma hex_prepareThumbnail name p ty c : dkeeps I (prepareThumbnail name p ty c).
Proof.
  unfold prepareThumbnail, hashFile, file_dimensions, tmp_read, tmp_remove. repeat first [apply hex_createThumbnail | hex_step].
Qed.
Lemma hex_commitFile c p h e : dkeeps I (commitFile c p h e).
Proof. unfold commitFile, st_has, tmp_remove, tmp_read. repeat hex_step. Qed.
Lemma hex_store_thumbnail c t p now u : dkeeps I (store_thumbnail c t p now u).
Proof.
  unfold store_thumbnail, storePreparedThumbnail, tmp_remove. repeat first [apply hex_commitFile | hex_step].
Qed.
Lemma hex_optimizeMedia name p c : dkeeps I (optimizeMedia name p c).
Proof.
  unfold optimizeMedia, detectMimeType, optimizeGif, optimizeImage, optimizeVideo, tmp_read.
  repeat first [apply hex_run_tool | hex_step].
Qed.
Lemma hex_media_dedup now c q a oh ph p : dkeeps I (media_dedup now cfg c q a oh ph p).
Proof.
  unfold media_dedup, createAndStoreThumbnail, getThumbnailTag, getMediaThumbnail, add_owner, hasBlob, getBlob, isOwner, tmp_remove.
  repeat first [apply hex_prepareThumbnail | apply hex_store_thumbnail | hex_step].
Qed.
Lemma hex_media_store now c q a oh ph s p : dkeeps I (media_store now cfg c q a oh ph s p).
Proof.
  unfold media_store, file_dimensions, tmp_remove.
  repeat first [apply hex_prepareThumbnail | apply hex_store_thumbnail | apply hex_commitFile | hex_step].
Qed.
Lemma hex_media_optimize now c q a oh p : dkeeps I (media_optimize now cfg c q a oh p).
Proof.
  unfold media_optimize, media_optimized, removing_on_throw, hashFile, tmp_read, tmp_remove.
  repeat first [apply hex_optimizeMedia | apply hex_media_dedup | apply hex_media_store | hex_step].
Qed.
Lemma hex_putMedia now c ctx q : dkeeps I (putMedia now cfg c ctx q).
Proof.
  unfold putMedia, media_work, media_hashed, media_known, removing_on_throw, getMediaDerivative, getThumbnailTag,
    getMediaThumbnail, add_owner, runJob, beginWrite, abortWrite, getBlob, isOwner, tmp_remove.
  repeat first [apply hex_media_optimize | hex_step].
Qed.

(** *** Reports *)

Lemma none_unhexed (l : list (string * option string)) :
  filter (fun t => is_hex64 t.1 = false) l = [] -> Forall (fun x => is_hex64 x.1 = true) l.
Proof.
  intros Hf. apply Forall_forall. intros x Hx. apply not_false_is_true. intros Hn.
  assert (x ∈ filter (fun t : string * option string => is_hex64 t.1 = false) l) as Hin by (by apply list_elem_of_filter).
  rewrite Hf in Hin. by apply not_elem_of_nil in Hin.
Qed.
Lemma parse_report_hex json e : parse_report json = inr e -> Forall (fun x => is_hex64 x.1 = true) (re_x e).
Proof.
  unfold parse_report. intros Hp. repeat (case_match; try done); simplify_eq; cbn; by apply none_unhexed.
Qed.
Lemma hex_insert_all l : Forall (fun r => is_hex64 (nr_blob r) = true) l -> dkeeps I (insert_all l).
Proof.
  induction 1 as [|r l Hr _ IH]; cbn [insert_all]; [apply dkeeps_ret|]. apply dkeeps_bind; [|done].
  apply dkeeps_db_execute. intros d a d' Hd [= _ <-]. unfold hex_reports, insert_report. case_decide; [done|].
  apply Forall_app. by rewrite Forall_singleton.
Qed.
Lemma hex_reportRoute q : dkeeps I (reportRoute q).
Proof.
  unfold reportRoute. destruct (parse_report (rq_json q)) as [e|e] eqn:Ep; [apply dkeeps_ret|].
  apply dkeeps_bind; [|intros; apply dkeeps_ret]. apply hex_insert_all, Forall_fmap.
  apply parse_report_hex in Ep. eapply Forall_impl; [exact Ep|]. done.
Qed.

(** *** The dashboard *)

Lemma hex_filtered {A} (g : NodeDb -> A) (P : ReportRecord -> Prop) `{!forall r, Decision (P r)} (s : NodeDb -> Z) :
  dkeeps I (execute (fun d => Some (g d, set_t_reports (filter P) (s d) d))).
Proof.
  apply dkeeps_db_execute. intros d a d' Hd [= _ <-]. unfold hex_reports in *. cbn. rewrite Forall_forall in *.
  intros r [_ Hr]%list_elem_of_filter. by apply Hd.
Qed.
Lemma hex_delete_all l k : dkeeps I (delete_all l k).
Proof. revert k. induction l as [|b l IH]; intros k; cbn [delete_all]; repeat first [apply IH | apply hex_st_remove | hex_step]. Qed.
Lemma hex_adminRoute authorized a : dkeeps I (adminRoute authorized a).
Proof.
  unfold adminRoute, adminDeleteBlob, adminDeleteUser, adminDismissReport, adminDeleteReported, admin_remove,
    deleteReport, deleteReportsByBlob, getReport, getBlob, listBlobsByPubkeyAdmin.
  repeat first [apply hex_filtered | apply hex_delete_all | apply hex_st_remove | hex_step].
Qed.

Lemma hex_node_req q n : I n -> I (run_node_req cfg native n q).
Proof.
  intros Hn. unfold run_node_req. set (n' := set_nd_faults (no_faults q) n). assert (I n') as Hn' by done.
  unfold serve_node. destruct (no_op q) as [r|r|r|r|r|m|m|m|r|]; apply drop_result.
  - apply (dkeeps_with_auth cfg I); [|done]. intros. apply dkeeps_db_put. apply hex_insert.
  - apply (dkeeps_with_auth cfg I); [|done]. intros. apply dkeeps_db_head.
  - apply (dkeeps_with_auth cfg I); [|done]. intros. apply hex_deleteRoute.
  - apply (dkeeps_with_auth cfg I); [|done]. intros.
    apply dkeeps_bind; [apply dkeeps_db_blob, hex_touch | intros; apply dkeeps_ret].
  - apply (dkeeps_with_auth cfg I); [|done]. intros. apply dkeeps_db_list.
  - apply (dkeeps_with_auth cfg I); [|done]. intros. apply dkeeps_db_mirror, hex_insert.
  - apply (dkeeps_with_auth cfg I); [|done]. intros. case_match; [apply hex_reportRoute|apply dkeeps_ret].
  - apply (dkeeps_with_auth cfg I); [|done]. intros. apply hex_putMedia.
  - apply (dkeeps_with_auth cfg I); [|done]. intros. apply dkeeps_ret.
  - by apply hex_pruneStorage.
Qed.

(** ** Rows keep their files *)

Context (genuine : string -> Prop) (no_thumbs : bool).

(** Of the dashboard, a deletion by hash names a hash. *)
Definition server_op_ok (q : server_req) : Prop :=
  match q with
  | Blossom q => op_ok cfg genuine no_thumbs q
  | Dashboard _ _ _ _ (AdminDeleteBlob sha) => is_hex64 sha = true
  | Dashboard _ _ _ _ _ => True
  end.

Lemma run_server_req_inv q n :
  (forall a b, genuine a -> genuine b -> sha256 a = sha256 b -> a = b) ->
  server_op_ok q -> inv genuine no_thumbs n /\ I n ->
  inv genuine no_thumbs (run_server_req n q) /\ I (run_server_req n q).
Proof.
  intros Hnc Hq [Hn Hr]. destruct q as [q|now faults r authorized a]; cbn [run_server_req].
  - split; [by apply run_node_req_inv|by apply hex_node_req].
  - set (n' := set_nd_faults faults n). unfold serve_dashboard. split.
    + apply (with_auth_inv cfg (inv genuine no_thumbs)); [|done]. intros _. case_match; [|done].
      apply adminRoute_inv; [done|]. by destruct a.
    + apply (with_auth_inv cfg I); [|done]. intros _. case_match; [|done]. by apply hex_adminRoute.
Qed.

(** C5: a node never has a row without its bytes. Whatever its Blossom routes and
    its dashboard are asked, in any order, and however often it prunes, with
    statements of the database failing at any point, every row of its table has
    its file, the file's bytes hash to the row's key and have the recorded size,
    no owner, access time, derivative or thumbnail refers to a missing row, and
    every report names a hash, provided that it was so at first, that no two
    different byte strings in play share a digest and that temporary files get
    different names. Two things are excluded: the dashboard deleting a
    blob by something else than a hash (admin_delete_by_filename shows that it
    then takes a file and leaves its row), and a Blossom deletion that meets a
    failing statement on a node that has thumbnails. *)
Theorem server_rows_have_files qs n :
  (forall a b, genuine a -> genuine b -> sha256 a = sha256 b -> a = b) ->
  Forall server_op_ok qs -> node_ok genuine n -> (no_thumbs = true -> t_thumbnails (nd_db n) = ∅) ->
  hex_reports (nd_db n) ->
  node_ok genuine (run_server qs n) /\ hex_reports (nd_db (run_server qs n)).
Proof.
  intros Hnc Hqs Hn Ht Hr.
  assert (inv genuine no_thumbs (run_server qs n) /\ I (run_server qs n)) as [[Hok _] Hh]; [|done].
  assert (inv genuine no_thumbs n /\ I n) as Hi by done. clear Hn Ht Hr. unfold run_server. revert n Hi.
  induction Hqs as [|q qs Hq _ IH]; intros n Hi; [done|]. apply IH. by apply run_server_req_inv.
Qed.
End Server.
