(* ===== verification/NodeRefines.v ===== *)
(** * The node implements the store the proxy sees

    The proxy's model ([World]) keeps a node as the set of hashes it holds.
    Here that set is the keys of the node's table, and each request the proxy
    sends to a deployed node is, on this set, the abstract call with some fault;
    it is the faultless one when the node is in working order. *)

From S2P Require Import Prelude Js Nip98 Bud11 World Servers NodeRules NodeDb NodeApi NodeMirror NodePrune NodeFacts NodeMirrorFacts NodeReports NodeMedia NodeSystem NodeServe NodeDeploy.

Section Refines.
Context `{NodeLaws} `{ReportLib} `{MediaLib}.
Context (cfg : NConfig) (native : bool) (Hdep : deployed cfg).

(** The abstraction: what [World] records for the node at this URL. *)
Definition sim (url : string) (w : World) (n : Node) : Prop := node_hashes url w = dom (t_blobs (nd_db n)).

(** The request of [uploadBlob]. *)
Record proxy_put (data : string) (r : NReq) : Prop := {
  pp_type : nq_contentType r = Some "application/octet-stream";
  pp_hash : nq_xSha256 r = Some (sha256 data);
  pp_length : nq_contentLength r = Some (Z_to_string (Z.of_nat (String.length data)));
  pp_body : exists chunks, nq_body r = Some (chunks, false) /\ String.concat "" chunks = data
}.

(** Nothing stands in the way of an upload: the token passes the middleware,
    the database answers, a worker is free, the size is allowed. *)
Record put_calm (now : Z) (data : string) (r : NReq) (n : Node) : Prop := {
  pc_auth : exists ctx, authMiddleware now cfg r = Ok ctx;
  pc_quiet : quiet n;
  pc_pool : nq_poolAvailable r = true /\ nq_dispatched r = true;
  pc_size : Z.of_nat (String.length data) <= cf_maxSize cfg
}.

(** [axios] resolves for a 2xx answer. *)
Definition succeeded {A} (resp : nresp A) : bool :=
  match resp with NRes st _ => is_ok_status st | NErr _ _ => false end.

(** The abstract call, under some fault, has this outcome and reaches a world
    that agrees with the node; under [calm] the fault is [Fine]. *)
Definition simulates {A} (call : P A) (url : string) (w : World) (calm : Prop) (ok : bool) (n' : Node) : Prop :=
  exists flt, (calm -> flt = Fine) /\
    let (ares, w') := call (set_faults [flt] w) in is_ok ares = ok /\ sim url w' n'.

#[local] Instance answers_dec n : Decision (answers n).
Proof. unfold answers. destruct (nd_faults n) as [|[] l]; apply _. Defined.

Lemma get_from_world url h w : w_nodes (get_from url h w).2 = w_nodes w.
Proof.
  unfold get_from, bind. rewrite next_fault_eq. destruct (default Fine (head (w_faults w))); simpl; try done.
  by case_bool_decide.
Qed.

(** ** Uploading *)

Lemma sha256_lower_id data : toLowerCase (sha256 data) = sha256 data.
Proof.
  apply toLowerCase_hex. pose proof (sha256_hex data) as Hh. unfold is_hex64 in Hh.
  by apply andb_true_iff in Hh as [_ ?].
Qed.

Lemma sha256_truthy data : truthy_str (Some (sha256 data)) = Some (sha256 data).
Proof.
  unfold truthy_str. destruct (String.eqb_spec (sha256 data) "") as [E|]; [|done].
  pose proof (sha256_hex data) as Hh. by rewrite E in Hh.
Qed.

Lemma checks_calm ctx now data r n :
  proxy_put data r -> put_calm now data r n ->
  upload_checks cfg ctx r = Ok (inr {| ad_auth := None; ad_mime := "application/octet-stream";
                                       ad_xSha256 := Some (sha256 data) |}).
Proof.
  intros [Hty Hha Hle _] [_ _ _ Hsz]. unfold upload_checks, auth_if.
  rewrite (dp_enabled _ Hdep), (dp_upload _ Hdep). simpl. unfold check_length. rewrite Hle.
  assert (truthy_str (Some (Z_to_string (Z.of_nat (String.length data)))) =
          Some (Z_to_string (Z.of_nat (String.length data)))) as ->.
  { unfold truthy_str. destruct (String.eqb_spec (Z_to_string (Z.of_nat (String.length data))) "") as [E|]; [|done].
    pose proof (all_digits_Z (Z.of_nat (String.length data)) ltac:(lia)) as Hd. by rewrite E in Hd. }
  rewrite parseInt10_show by lia. replace (Z.of_nat (String.length data) <? 0) with false by lia.
  replace (cf_maxSize cfg <? Z.of_nat (String.length data)) with false by lia.
  rewrite Hty, (dp_rules _ Hdep), (dp_pubkeys _ Hdep), Hha. simpl default. simpl getFileRule. cbn iota.
  simpl fmap. rewrite sha256_lower_id, sha256_truthy, sha256_hex. done.
Qed.

Lemma insert_calm b pk n : quiet n -> exists n', insertBlob b pk n = (Ok tt, n').
Proof. intros Hq. unfold insertBlob. rewrite execute_quiet by done. eauto. Qed.

Lemma put_calm_ok now data ctx r n :
  proxy_put data r -> put_calm now data r n -> exists st d n', putUpload now cfg ctx r n = (Ok (NRes st d), n').
Proof.
  intros Hp Hc. pose proof (checks_calm ctx now data r n Hp Hc) as Hck.
  destruct Hp as [_ _ _ (chunks & Hb & Hd)], Hc as [_ Hq [Hpa Hpd] _].
  unfold putUpload, upload_work, dbind at 1, dlift. rewrite Hck. simpl.
  unfold dbind at 1, upload_dedup, add_owner. cbn [ad_xSha256 ad_auth]. rewrite sha256_truthy. unfold hasBlob, getBlob, query.
  unfold dbind at 1. rewrite execute_quiet by done. simpl.
  assert (quiet (set_nd_db (nd_db n) (set_nd_faults (tail (nd_faults n)) n))) as Hq1 by by apply quiet_tail.
  case_bool_decide as Hk; simpl.
  - unfold dbind at 1. rewrite execute_quiet by done. destruct Hk as [row Hrow]. simpl. rewrite Hrow. simpl. eauto.
  - rewrite Hb, Hpa. simpl. unfold beginWrite, dbind, dmodify, dret. cbn [fst snd]. rewrite Hpd. simpl.
    unfold runJob, dbind, dmodify, dret. cbn [fst snd]. rewrite Hd, String.eqb_refl. cbn [negb].
    unfold upload_finish, store_blob. cbn [ad_auth ad_mime]. unfold dbind, dgets, dcatch. cbn [fst snd].
    match goal with |- context [commitWrite ?t ?h ?e ?m] =>
      assert (exists n1, commitWrite t h e m = (Ok tt, n1) /\ nd_faults n1 = nd_faults m) as (n1 & -> & Hf) end.
    { unfold commitWrite, st_has, dbind, dgets. simpl. case_bool_decide; simpl; [eauto|].
      rewrite lookup_insert_eq. simpl. eauto. }
    match goal with |- context [insertBlob ?b ?pk n1] =>
      destruct (insert_calm b pk n1) as [n' ->]; [unfold quiet; rewrite Hf; exact Hq1|] end.
    unfold dret. eauto.
Qed.

Lemma sim_add url w d h n' :
  node_hashes url w = dom (t_blobs d) -> dom (t_blobs (nd_db n')) = {[h]} ∪ dom (t_blobs d) ->
  sim url (node_add url h w) n'.
Proof.
  intros Hs Hd. unfold sim, node_add, node_hashes at 1. simpl. rewrite lookup_insert_eq. simpl. by rewrite Hs, Hd.
Qed.

Lemma dom_insert_row b d : dom (t_blobs (insert_row b d)) = {[br_sha256 b]} ∪ dom (t_blobs d).
Proof.
  unfold insert_row. destruct (t_blobs d !! br_sha256 b) eqn:E; [|apply dom_insert_L].
  apply elem_of_dom_2 in E. set_solver.
Qed.

Lemma put_simulates url w now data r n :
  sim url w n -> proxy_put data r ->
  let (res, n') := serve_put cfg now r n in
  exists resp, res = Ok resp /\
    simulates (put_upload url (sha256 data)) url w (put_calm now data r n) (succeeded resp) n'.
Proof.
  intros Hs Hp. pose proof (serve_put_outcome cfg Hdep now r n) as HE.
  assert (put_calm now data r n -> exists st d n', serve_put cfg now r n = (Ok (NRes st d), n')) as Hcalm.
  { intros Hc. destruct (pc_auth _ _ _ _ Hc) as [ctx Hctx].
    unfold serve_put, with_auth, onError, dcatch, dbind, dlift. rewrite Hctx. simpl.
    destruct (put_calm_ok now data ctx r n Hp Hc) as (st & d & n' & ->). eauto. }
  destruct (serve_put cfg now r n) as [res n']. destruct HE as [[resp ->] HE]. exists resp. split; [done|].
  destruct Hp as [_ Hha _ (chunks & Hb & Hd)]. unfold simulates, put_upload, node_call, bind.
  unfold put_effect in HE. rewrite Hha in HE. destruct HE as [[Hno Hdb]|[(d & x & [= ->] & Hx & Hdb & [= Hxx] & Hin)|(d & b & c & [= ->] & Hbc & Hsha & Hx & _ & Hdb)]].
  - exists Unsent. split.
    { intros (st & d & ? & [= -> _])%Hcalm. by destruct (Hno st d). }
    simpl. destruct resp as [st d|st e]; [by destruct (Hno st d)|]. split; [done|].
    unfold sim in *. by rewrite Hdb.
  - exists Fine. split; [done|]. simpl. split; [done|].
    apply (sim_add _ _ (nd_db n)); [exact Hs|]. rewrite Hdb. rewrite sha256_lower_id in Hxx. subst x.
    apply elem_of_dom in Hin. rewrite Hxx. set_solver.
  - exists Fine. split; [done|]. simpl. split; [done|].
    apply (sim_add _ _ (nd_db n)); [exact Hs|]. rewrite Hdb. simpl. rewrite dom_insert_row, Hsha.
    rewrite Hb in Hbc. simplify_eq. done.
Qed.

(** ** Deleting and reading *)

(** The requests of [deleteBlob] and [openBlobStream]: no headers. *)
Record proxy_plain (h : string) (r : NReq) : Prop := {
  pl_auth : nq_authorization r = None;
  pl_name : find_hash (nq_filename r) = Some h;
  pl_head : nq_head r = false;
  pl_cond : nq_ifNoneMatch r = None;
  pl_range : nq_range r = None
}.

Lemma with_auth_plain {A} now r (k : auth_ctx -> D (nresp A)) n :
  nq_authorization r = None -> with_auth cfg now r k n = onError (k None) n.
Proof. intros Ha. unfold with_auth, authMiddleware. rewrite Ha. done. Qed.

Lemma delete_simulates url w now h r n :
  sim url w n -> unthumbed (nd_db n) -> proxy_plain h r ->
  let (res, n') := serve_delete cfg now r n in
  (exists resp, res = Ok resp) /\
  simulates (catch (node_call (node_remove url h)) (fun _ => ret tt)) url w (quiet n) true n'.
Proof.
  intros Hs [Ht _] Hp. unfold serve_delete. rewrite with_auth_plain by apply Hp.
  unfold onError, dcatch, deleteRoute. rewrite (pl_name _ _ Hp), (dp_delete _ Hdep).
  unfold getBlob, query. unfold dbind at 1.
  assert (forall n', dom (t_blobs (nd_db n')) = dom (t_blobs (nd_db n)) ∖ {[h]} ->
    simulates (catch (node_call (node_remove url h)) (fun _ => ret tt)) url w (quiet n) true n') as Hgone.
  { intros n' Hd. exists Fine. split; [done|]. simpl. split; [done|].
    unfold sim, node_remove, node_hashes at 1. simpl. rewrite lookup_insert_eq. simpl.
    change (node_hashes url (set_faults [] w)) with (node_hashes url w). rewrite Hs, Hd. done. }
  assert (forall n', ~ quiet n -> nd_db n' = nd_db n ->
    simulates (catch (node_call (node_remove url h)) (fun _ => ret tt)) url w (quiet n) true n') as Hkept.
  { intros n' Hq Hd. exists Unsent. split; [done|]. simpl. split; [done|]. unfold sim. by rewrite Hd. }
  destruct (decide (answers n)) as [Ha|Ha].
  2:{ unfold execute, answers in *. destruct (nd_faults n) as [|[] fs] eqn:En; [done| |done]. simpl.
      split; [by eexists|]. apply Hkept; [|by destruct n]. unfold quiet. rewrite En. by inversion 1. }
  rewrite execute_answers by done. simpl. destruct (t_blobs (nd_db n) !! h) as [row|] eqn:E; simpl.
  - match goal with |- context [purge_blob h ?ty ?m] =>
      pose proof (purge_outcome h ty m Ht) as HP; destruct (purge_blob h ty m) as [res n'] end.
    destruct HP as [([e ->] & Hq & Hdb)|(-> & Hdb)].
    + split; [by eexists|]. apply Hkept; [|exact Hdb]. intros Hqn. apply Hq. by apply quiet_tail.
    + split; [by eexists|]. apply Hgone. rewrite Hdb. simpl. by rewrite dom_delete_L.
  - split; [by eexists|]. apply Hgone. simpl. apply not_elem_of_dom in E. set_solver.
Qed.

Lemma get_simulates genuine url w now h r n :
  sim url w n -> node_ok genuine n -> proxy_plain h r ->
  let (res, n') := serve_blob cfg native now r n in
  exists resp, res = Ok resp /\ simulates (get_from url h) url w (quiet n) (succeeded resp) n'.
Proof.
  intros Hs Hok Hp. destruct (serve_blob cfg native now r n) as [res n'] eqn:E.
  assert (dom (t_blobs (nd_db n')) = dom (t_blobs (nd_db n))) as Hdom.
  { pose proof (dkeeps_with_auth cfg (on_db (fun d => dom (t_blobs d) = dom (t_blobs (nd_db n)))) now r
      (fun _ => do* resp := blobRoute native now r in dret (default (NErr 404 "404 Not Found") resp))%D) as HK.
    replace n' with (serve_blob cfg native now r n).2 by by rewrite E. apply HK; [|done]. intros ctx.
    apply dkeeps_bind; [|intros; apply dkeeps_ret]. apply dkeeps_db_blob. intros h' t.
    apply dkeeps_db_execute. intros d a d' Hd Hx. by case_match; simplify_eq. }
  assert (forall ok, is_ok (get_from url h (set_faults [Fine] w)).1 = ok -> simulates (get_from url h) url w (quiet n) ok n') as Hfine.
  { intros ok Hg. exists Fine. split; [done|]. pose proof (get_from_world url h (set_faults [Fine] w)) as HW.
    destruct (get_from url h (set_faults [Fine] w)) as [ares w']. split; [done|]. simpl in HW.
    unfold sim, node_hashes in *. by rewrite HW, Hdom. }
  unfold serve_blob in E. rewrite with_auth_plain in E by apply Hp. unfold onError, dcatch, dbind in E.
  destruct (decide (answers n)) as [Ha|Ha].
  - pose proof (download_exact genuine native now r h n Hok Ha (pl_name _ _ Hp) (pl_head _ _ Hp)) as HD.
    rewrite (pl_cond _ _ Hp), (pl_range _ _ Hp) in HD. specialize (HD eq_refl). simpl in HD.
    destruct (blobRoute native now r n) as [bres bn]. simpl in HD.
    assert (h ∈ node_hashes url w <-> is_Some (t_blobs (nd_db n) !! h)) as Hin.
    { unfold sim in Hs. rewrite Hs. apply elem_of_dom. }
    destruct (t_blobs (nd_db n) !! h) as [row|].
    + destruct HD as (data & Hsha & ->). simpl in E. simplify_eq. eexists. split; [done|].
      apply Hfine. unfold get_from, bind. simpl. by rewrite bool_decide_eq_true_2 by (apply Hin; eauto).
    + subst bres. simpl in E. simplify_eq. eexists. split; [done|].
      apply Hfine. unfold get_from, bind. simpl. rewrite bool_decide_eq_false_2; [done|].
      intros Hx%Hin. by destruct Hx.
  - unfold answers in Ha. destruct (nd_faults n) as [|[] fs] eqn:En; [done| |done].
    unfold blobRoute, getBlob, query, execute, dbind in E. rewrite (pl_name _ _ Hp), En in E. simpl in E.
    injection E as <- <-. eexists. split; [done|]. exists Unsent. split.
    { unfold quiet. rewrite En. by inversion 1. }
    simpl. split; [done|]. unfold sim in *. by rewrite Hdom.
Qed.

(** C6: a deployed storage node refines the node of the proxy's model. For a consistent node that
    agrees with the proxy's picture of it, whatever statements fail: an upload as
    the proxy sends it, a deletion and a download are answered, and outcome and
    agreement are those of the abstract call under some fault, the faultless one
    when nothing stands in the way; a prune cycle changes nothing the proxy sees. *)
Theorem node_refines genuine url w n now :
  sim url w n -> node_ok genuine n -> unthumbed (nd_db n) ->
  (forall data r, proxy_put data r -> let (res, n') := serve_put cfg now r n in
     exists resp, res = Ok resp /\
       simulates (put_upload url (sha256 data)) url w (put_calm now data r n) (succeeded resp) n') /\
  (forall h r, proxy_plain h r -> let (res, n') := serve_delete cfg now r n in
     (exists resp, res = Ok resp) /\
     simulates (catch (node_call (node_remove url h)) (fun _ => ret tt)) url w (quiet n) true n') /\
  (forall h r, proxy_plain h r -> let (res, n') := serve_blob cfg native now r n in
     exists resp, res = Ok resp /\ simulates (get_from url h) url w (quiet n) (succeeded resp) n') /\
  sim url w (pruneStorage now (cf_rules cfg) (cf_removeWhenNoOwners cfg) n).2.
Proof.
  intros Hs Hok Hun. split_and!.
  - intros data r. by apply put_simulates.
  - intros h r. by apply delete_simulates.
  - intros h r. by apply (get_simulates genuine).
  - unfold sim. rewrite (dp_rules _ Hdep), prune_deployed; [done|apply Hun].
Qed.

(** A node refuses a forwarded token that names other servers. The proxy passes the
    caller's own token on; when that token carries server tags and none of them
    is the name the node goes by, the node refuses the upload, although uploads
    need no authorization there. *)
Theorem foreign_server_tag now r h e n :
  nq_authorization r = Some h -> starts_with "Nostr " h = true -> decodeAuth (raw_token h) = Some e ->
  (exists t, t ∈ ev_tags e /\ has_name "server" t = true) ->
  (forall t, t ∈ ev_tags e -> has_name "server" t = true -> extractHostname (t !! 1%nat) <> server_domain cfg r) ->
  exists st reason, serve_put cfg now r n = (Ok (NErr st reason), n) /\ (st = 400 \/ st = 401).
Proof.
  intros Ha Hn Hd (t0 & Ht0 & Hname) Hall.
  assert (exists st m, authMiddleware now cfg r = Throw (HTTPException st m) /\ (st = 400 \/ st = 401)) as (st & m & Hm & Hst).
  { unfold authMiddleware. rewrite Ha, Hn. unfold parseAuthEvent. rewrite Hd.
    destruct (negb (num_eqZ (ev_kind e) 24242)); simpl; [by eauto 6|].
    destruct (num_gt (ev_created_at e) (now + 60)); simpl; [by eauto 6|].
    destruct (truthy_str (tag_value "expiration" (ev_tags e))) as [x|]; [|by eauto 6].
    destruct (match parseInt10 x with Some t => _ | None => _ end); simpl; [by eauto 6|].
    destruct (truthy_str (tag_value "t" (ev_tags e))) as [y|]; [|by eauto 6].
    rewrite bool_decide_eq_true_2; [|intros Hnil; apply (elem_of_nil t0); rewrite <- Hnil; by apply list_elem_of_filter].
    destruct (truthy_str (server_domain cfg r)) as [dom|] eqn:Edom; simpl; [|by eauto 6].
    apply truthy_str_Some in Edom.
    match goal with |- context [existsb ?f ?l] => destruct (existsb f l) eqn:Ex end; simpl; [|by eauto 6].
    apply existsb_exists in Ex as (t & Hin%list_elem_of_In & Heq%bool_decide_eq_true).
    apply list_elem_of_filter in Hin as [Hs Hin]. by rewrite <- Edom in Heq; apply Hall in Heq. }
  unfold serve_put, with_auth, onError, dcatch, dbind, dlift. rewrite Hm. simpl. eauto.
Qed.
End Refines.
