(* ===== verification/NodePruneFacts.v ===== *)
(** * What a prune cycle removes

    On a node without thumbnails whose database answers, a prune cycle removes
    exactly the blobs the rules and the ownership say: the verdict over a blob
    is that of the first rule with a readable duration whose query selects it. *)

From S2P Require Import Prelude Js Nip98 NodeRules NodeDb NodeApi NodeMirror NodePrune NodeFacts NodeMirrorFacts NodeReports NodeMedia NodeSystem NodeServe NodeDeploy.

Section PruneFacts.
Context `{Nostr} `{NodeLib}.

(** ** The verdict *)

(** The rule's query selects this row. *)
Definition selects (d : NodeDb) (rule : StorageRule) (h : string) (row : BlobRow) : Prop :=
  sql_like (r_type row) (mimeToSqlLike (ru_type rule)) = true /\
  (default [] (ru_pubkeys rule) = [] \/
   Exists (fun o : string * string => o.2 ∈ default [] (ru_pubkeys rule)) (owners_of h d)).
#[export] Instance selects_dec d rule h row : Decision (selects d rule h row).
Proof. unfold selects. apply _. Defined.

Definition prune_record (d : NodeDb) (h : string) (row : BlobRow) : BlobPruneRecord :=
  {| pr_blob := record_of h row; pr_accessed := t_accessed d !! h |}.

(** [Some b]: a rule governs the blob, and it has expired iff [b]. *)
Fixpoint verdict (now : Z) (d : NodeDb) (rules : list StorageRule) (h : string) (row : BlobRow) : option bool :=
  match rules with
  | [] => None
  | rule :: rules =>
      match parseDuration (ru_expiration rule) with
      | Ok duration =>
          if decide (selects d rule h row) then Some (expired (cutoff_of now duration) (prune_record d h row))
          else verdict now d rules h row
      | Throw _ => verdict now d rules h row
      end
  end.

Definition doomed (now : Z) (d : NodeDb) (rules : list StorageRule) (removeWhenNoOwners : bool)
    (h : string) (row : BlobRow) : bool :=
  match verdict now d rules h row with
  | Some b => b
  | None => removeWhenNoOwners && bool_decide (owners_of h d = [])
  end.

(** ** Tables without some blobs *)

Definition without (X : gset string) (d : NodeDb) : NodeDb :=
  {| t_blobs := filter (fun p : string * BlobRow => p.1 ∉ X) (t_blobs d);
     t_owners := filter (fun o => o.1 ∉ X) (t_owners d);
     t_accessed := filter (fun p : string * Z => p.1 ∉ X) (t_accessed d);
     t_derivatives := filter (fun p : string * string => p.2 ∉ X) (t_derivatives d);
     t_thumbnails := filter (fun p : string * string => p.1 ∉ X /\ p.2 ∉ X) (t_thumbnails d);
     t_reports := t_reports d;
     t_report_seq := t_report_seq d |}.

Lemma without_empty d : without ∅ d = d.
Proof.
  destruct d. unfold without. simpl. f_equal; try (apply map_filter_id; intros; set_solver).
  apply set_eq. intros x. rewrite elem_of_filter. set_solver.
Qed.

Lemma cascade_without h X d : cascade h (without X d) = without ({[h]} ∪ X) d.
Proof.
  unfold cascade, without. simpl. f_equal.
  - apply map_eq. intros i. apply option_eq. intros x.
    rewrite lookup_delete_Some, !map_lookup_filter_Some. simpl. set_solver.
  - apply set_eq. intros x. rewrite !elem_of_filter. set_solver.
  - apply map_eq. intros i. apply option_eq. intros x.
    rewrite lookup_delete_Some, !map_lookup_filter_Some. simpl. set_solver.
  - apply map_eq. intros i. apply option_eq. intros x. rewrite !map_lookup_filter_Some. simpl. set_solver.
  - apply map_eq. intros i. apply option_eq. intros x. rewrite !map_lookup_filter_Some. simpl. set_solver.
Qed.

Lemma without_thumbnails X d : t_thumbnails d = ∅ -> t_thumbnails (without X d) = ∅.
Proof. intros E. simpl. rewrite E. apply map_filter_empty. Qed.

(** The owners of a blob that is left are those it had. *)
Lemma owners_without h X d o : h ∉ X -> o ∈ owners_of h (without X d) <-> o ∈ owners_of h d.
Proof.
  intros Hh. unfold owners_of. rewrite !list_elem_of_filter, !elem_of_elements. simpl.
  rewrite elem_of_filter. split; [tauto|]. intros [Ho Hin]. rewrite Ho. done.
Qed.

(** ** One cycle, step by step *)

(** The file of a blob of [X], by the path its row in [d] names. *)
Definition file_of (X : gset string) (d : NodeDb) (path : string) : Prop :=
  exists h row, h ∈ X /\ t_blobs d !! h = Some row /\ path = blobPath h (mimeToExt (r_type row)).

(** [f'] is [f] without the files of [X]. *)
Definition files_without (X : gset string) (d : NodeDb) (f f' : gmap string string) : Prop :=
  forall path, (file_of X d path -> f' !! path = None) /\ (~ file_of X d path -> f' !! path = f !! path).

Lemma files_without_empty d f : files_without ∅ d f f.
Proof. intros path. split; [|done]. intros (h & row & Hh & _). set_solver. Qed.

Lemma files_without_delete X d f f' h row :
  files_without X d f f' -> t_blobs d !! h = Some row ->
  files_without ({[h]} ∪ X) d f (delete (blobPath h (mimeToExt (r_type row))) f').
Proof.
  intros Hf Hr path. destruct (decide (path = blobPath h (mimeToExt (r_type row)))) as [->|Hne].
  - rewrite lookup_delete_eq. split; [done|]. intros []. exists h, row. set_solver.
  - rewrite lookup_delete_ne by done. destruct (Hf path) as [Hin Hout]. split.
    + intros (h' & row' & [->%elem_of_singleton|Hh]%elem_of_union & Hr' & ->); [by simplify_eq|].
      apply Hin. by exists h', row'.
    + intros Hno. apply Hout. intros (h' & row' & Hh & Hr' & ->). apply Hno. exists h', row'. set_solver.
Qed.

Section Cycle.
Context (d0 : NodeDb) (f0 : gmap string string) (Hthumbs : t_thumbnails d0 = ∅).

(** In the middle of a cycle: [X] is gone, with its files, all of it was looked
    at, and it is what the counters say. *)
Record pstate (s : PruneState) (X : gset string) (n : Node) : Prop := {
  pz_quiet : quiet n;
  pz_db : nd_db n = without X d0;
  pz_files : files_without X d0 f0 (nd_files n);
  pz_sub : X ⊆ ps_checked s;
  pz_errors : pn_errors (ps_result s) = 0;
  pz_deleted : pn_deleted (ps_result s) = Z.of_nat (size X)
}.

Lemma pstate_check h s X n : pstate s X n -> pstate (check h s) X n.
Proof. intros []. split; simpl; try done. set_solver. Qed.

Lemma result_counts s X n :
  pstate s X n -> ps_result s = {| pn_deleted := Z.of_nat (size X); pn_errors := 0 |}.
Proof. intros [_ _ _ _ He Hd]. destruct (ps_result s). simpl in *. by subst. Qed.

Lemma prune_blob_step h row s X n :
  pstate s X n -> h ∉ ps_checked s -> t_blobs d0 !! h = Some row ->
  exists n', prune_blob h (r_type row) (check h s) n = (Ok (count_deleted 1 (check h s)), n') /\
    pstate (count_deleted 1 (check h s)) ({[h]} ∪ X) n'.
Proof.
  intros [Hq Hdb Hfi Hsub He Hd] Hh Hrow. unfold prune_blob, getMediaThumbnailsForParent, query, deleteBlob.
  unfold dbind at 1, dcatch, dbind at 1. rewrite execute_quiet by done.
  rewrite Hdb, thumbnails_off by by apply without_thumbnails. unfold dbind at 1.
  assert (quiet (set_nd_db (without X d0) (set_nd_faults (tail (nd_faults n)) n))) as Hq1 by by apply quiet_tail.
  rewrite execute_quiet by done. simpl. eexists. split; [reflexivity|].
  split; simpl; [exact (quiet_tail _ Hq1)|apply cascade_without|by apply files_without_delete|set_solver|done|].
  rewrite size_union by set_solver. rewrite size_singleton. lia.
Qed.

Definition sha_of (p : BlobPruneRecord) : string := br_sha256 (pr_blob p).

(** The rows of a query: one record per hash. *)
Definition functional (rows : list BlobPruneRecord) : Prop :=
  forall p q, p ∈ rows -> q ∈ rows -> sha_of p = sha_of q -> p = q.

(** The rows of a query are rows of the table. *)
Definition table_rows (rows : list BlobPruneRecord) : Prop :=
  Forall (fun p => exists h row, t_blobs d0 !! h = Some row /\ p = prune_record d0 h row) rows.

Lemma expire_rows_step cutoff rows s X n :
  functional rows -> table_rows rows -> pstate s X n ->
  exists s' X' n', expire_rows cutoff rows s n = (Ok s', n') /\ pstate s' X' n' /\
    (forall h, h ∈ ps_checked s' <-> h ∈ ps_checked s \/ exists p, p ∈ rows /\ sha_of p = h) /\
    (forall h, h ∈ X' <-> h ∈ X \/
       (h ∉ ps_checked s /\ exists p, p ∈ rows /\ sha_of p = h /\ expired cutoff p = true)).
Proof.
  revert s X n. induction rows as [|p rows IH]; intros s X n Hfun Htab Hp; cbn [expire_rows].
  { exists s, X, n. split_and!; [done|done|..]; intros h; split; try tauto.
    - intros [?|(p & Hin%elem_of_nil & _)]; done.
    - intros [?|(_ & p & Hin%elem_of_nil & _)]; done. }
  assert (functional rows) as Hfun' by (intros q q' Hq Hq'; apply Hfun; set_solver).
  apply Forall_cons in Htab as [(h0 & row0 & Hrow0 & Ep) Htab].
  change (br_sha256 (pr_blob p)) with (sha_of p).
  case_decide as Hc.
  { destruct (IH s X n Hfun' Htab Hp) as (s' & X' & n' & Hrun & Hp' & HC & HX). exists s', X', n'.
    split_and!; [done|done|..]; intros h; [rewrite HC|rewrite HX]; split.
    - intros [?|(q & ? & ?)]; [by left|right; exists q; set_solver].
    - intros [?|(q & [->|?]%elem_of_cons & <-)]; [by left|by left|right; eauto].
    - intros [?|(? & q & ? & ?)]; [by left|right; split; [done|]; exists q; set_solver].
    - intros [?|(Hn & q & [->|?]%elem_of_cons & <- & ?)]; [by left|done|right; eauto]. }
  assert (exists s1 X1 n1,
    (if expired cutoff p then prune_blob (sha_of p) (br_type (pr_blob p)) (check (sha_of p) s) else dret (check (sha_of p) s)) n
      = (Ok s1, n1) /\ pstate s1 X1 n1 /\ ps_checked s1 = {[sha_of p]} ∪ ps_checked s /\
    (forall h, h ∈ X1 <-> h ∈ X \/ (h = sha_of p /\ expired cutoff p = true))) as (s1 & X1 & n1 & Hr1 & Hp1 & HC1 & HX1).
  { destruct (expired cutoff p) eqn:Ee.
    - assert (sha_of p = h0 /\ br_type (pr_blob p) = r_type row0) as [Es Et] by by subst p.
      rewrite Es, Et in *. destruct (prune_blob_step h0 row0 s X n Hp Hc Hrow0) as (n1 & Hr & Hp1).
      eexists _, _, n1. split_and!; [exact Hr|exact Hp1|done|]. set_solver.
    - eexists _, X, n. split_and!; [done|by apply pstate_check|done|]. set_solver. }
  unfold dbind. rewrite Hr1.
  destruct (IH s1 X1 n1 Hfun' Htab Hp1) as (s' & X' & n' & Hrun & Hp' & HC & HX). exists s', X', n'.
  split_and!; [done|done|..]; intros h; [rewrite HC, HC1|rewrite HX, HC1, HX1]; split.
  - intros [?|(q & ? & ?)]; [|right; exists q; set_solver]. destruct (decide (h = sha_of p)) as [->|]; [right; exists p; set_solver|left; set_solver].
  - intros [?|(q & [->|?]%elem_of_cons & <-)]; [set_solver|set_solver|right; eauto].
  - intros [[?|[-> He]]|(Hn & q & ? & ? & ?)]; [by left|right; split; [done|]; exists p; set_solver|].
    right. split; [set_solver|]. exists q. set_solver.
  - intros [?|(Hn & q & Hq & <- & He)]; [by left; left|]. apply elem_of_cons in Hq as [->|Hq]; [by left; right|].
    destruct (decide (sha_of q = sha_of p)) as [E|E].
    + assert (q = p) as -> by (apply Hfun; set_solver). left; right. done.
    + right. split; [set_solver|]. eauto.
Qed.

(** The rows a rule's query returns when [X] is gone. *)
Lemma prune_rows_spec rule X p :
  p ∈ prune_rows (mimeToSqlLike (ru_type rule)) (ru_pubkeys rule) (without X d0) <->
  exists h row, t_blobs d0 !! h = Some row /\ h ∉ X /\ selects d0 rule h row /\ p = prune_record d0 h row.
Proof.
  assert (forall b, b ∈ prune_candidates (mimeToSqlLike (ru_type rule)) (without X d0) <->
    exists h row, t_blobs d0 !! h = Some row /\ h ∉ X /\
      sql_like (r_type row) (mimeToSqlLike (ru_type rule)) = true /\ b = record_of h row) as Hcand.
  { intros b. unfold prune_candidates, blob_records. rewrite list_elem_of_filter, list_elem_of_fmap.
    unfold is_thumbnail. rewrite without_thumbnails, map_to_list_empty by done. split.
    - intros ((Hl & _) & [h row] & -> & Hin). apply elem_of_map_to_list in Hin. simpl in *.
      apply map_lookup_filter_Some in Hin as [??]. eauto 10.
    - intros (h & row & Hrow & Hh & Hl & ->). split; [split; [done|apply not_elem_of_nil]|].
      exists (h, row). split; [done|]. apply elem_of_map_to_list. simpl. by apply map_lookup_filter_Some. }
  assert (forall h, h ∉ X -> t_accessed (without X d0) !! h = t_accessed d0 !! h) as Hacc.
  { intros h Hh. simpl. apply option_eq. intros t. rewrite map_lookup_filter_Some. simpl. tauto. }
  unfold prune_rows. rewrite list_elem_of_fmap. unfold selects, prune_record.
  destruct (default [] (ru_pubkeys rule)) as [|k keys].
  - setoid_rewrite Hcand. split.
    + intros (b & -> & h & row & ? & ? & ? & ->). simpl. rewrite Hacc by done. eauto 10.
    + intros (h & row & ? & ? & [? _] & ->). eexists. split; [|by eauto 10]. simpl. by rewrite Hacc.
  - setoid_rewrite list_elem_of_join. setoid_rewrite list_elem_of_fmap. setoid_rewrite Hcand. split.
    + intros (b & -> & l & Hb & b' & -> & h & row & ? & ? & ? & ->).
      apply list_elem_of_fmap in Hb as (o & -> & [Hk Ho]%list_elem_of_filter). simpl in *. rewrite Hacc by done.
      exists h, row. split_and!; try done. right. apply Exists_exists. exists o. split; [by apply owners_without in Ho|done].
    + intros (h & row & ? & ? & [? [?|(o & Ho & Hk)%Exists_exists]] & ->); [done|].
      exists (record_of h row). split; [simpl; by rewrite Hacc|]. eexists. split; [|by eauto 10].
      apply list_elem_of_fmap. exists o. split; [done|]. apply list_elem_of_filter. split; [done|].
      simpl. by apply owners_without.
Qed.

Lemma prune_rows_functional rule X :
  functional (prune_rows (mimeToSqlLike (ru_type rule)) (ru_pubkeys rule) (without X d0)).
Proof.
  intros p q (h & row & Hr & _ & _ & ->)%prune_rows_spec (h' & row' & Hr' & _ & _ & ->)%prune_rows_spec.
  unfold sha_of. simpl. intros <-. by simplify_eq.
Qed.

Lemma prune_rows_table rule X :
  table_rows (prune_rows (mimeToSqlLike (ru_type rule)) (ru_pubkeys rule) (without X d0)).
Proof. apply Forall_forall. intros p (h & row & Hr & _ & _ & ->)%prune_rows_spec. eauto. Qed.

(** ** The phases *)

(** After the rules [done]: the blobs looked at are those with a verdict, the
    blobs removed those whose rule has expired. *)
Definition judged (now : Z) (passed : list StorageRule) (s : PruneState) (X : gset string) : Prop :=
  (forall h, h ∈ ps_checked s <-> exists row b, t_blobs d0 !! h = Some row /\ verdict now d0 passed h row = Some b) /\
  (forall h, h ∈ X <-> exists row, t_blobs d0 !! h = Some row /\ verdict now d0 passed h row = Some true).

Lemma verdict_app now d rs rs' h row :
  verdict now d (rs ++ rs') h row =
  match verdict now d rs h row with Some b => Some b | None => verdict now d rs' h row end.
Proof. induction rs as [|r rs IH]; simpl; [done|]. rewrite IH. by repeat case_match. Qed.

Lemma pstate_tail s X n : pstate s X n -> pstate s X (set_nd_db (nd_db n) (set_nd_faults (tail (nd_faults n)) n)).
Proof. intros []. split; try done. by apply quiet_tail. Qed.

Lemma prune_rule_step now rule passed s X n :
  pstate s X n -> judged now passed s X ->
  exists s' X' n', prune_rule now rule s n = (Ok s', n') /\ pstate s' X' n' /\ judged now (passed ++ [rule]) s' X'.
Proof.
  intros Hp [HC HX]. unfold prune_rule. destruct (parseDuration (ru_expiration rule)) as [q|e] eqn:Eq.
  - unfold getBlobsForPrune, query, dcatch, dbind at 1, dbind at 1. rewrite execute_quiet by apply Hp.
    rewrite (pz_db _ _ _ Hp).
    edestruct (expire_rows_step (cutoff_of now q) _ s X _ (prune_rows_functional rule X) (prune_rows_table rule X) (pstate_tail _ _ _ Hp))
      as (s' & X' & n' & Hrun & Hp' & HC' & HX'). rewrite (pz_db _ _ _ Hp) in Hrun.
    exists s', X', n'. split_and!; [exact Hrun|done|].
    assert (forall h row, verdict now d0 (passed ++ [rule]) h row =
      match verdict now d0 passed h row with Some b => Some b
      | None => if decide (selects d0 rule h row) then Some (expired (cutoff_of now q) (prune_record d0 h row)) else None end)
      as Hv by (intros h row; rewrite verdict_app; simpl; by rewrite Eq).
    split; intros h; [rewrite HC'|rewrite HX']; setoid_rewrite Hv; setoid_rewrite prune_rows_spec; split.
    + intros [(row & b & Hr & Hb)%HC|(p & (h' & row & Hr & _ & Hs & ->) & <-)].
      * exists row. rewrite Hb. eauto.
      * unfold sha_of; simpl. exists row. rewrite decide_True by done. destruct (verdict _ _ _ _ _); eauto.
    + intros (row & b & Hr & Hb). destruct (verdict now d0 passed h row) as [b'|] eqn:Ev; [left; apply HC; eauto|].
      case_decide as Hs; [|done]. right. exists (prune_record d0 h row). split; [|done]. exists h, row.
      split_and!; try done. intros (? & ? & ?)%HX. by simplify_eq.
    + intros [(row & Hr & Hb)%HX|(Hn & p & (h' & row & Hr & _ & Hs & ->) & <- & He)].
      * exists row. by rewrite Hb.
      * unfold sha_of in *; simpl in *. exists row. rewrite decide_True by done. split; [done|].
        destruct (verdict now d0 passed h' row) eqn:Ev; [|by rewrite He]. destruct Hn. apply HC. eauto.
    + intros (row & Hr & Hb). destruct (verdict now d0 passed h row) as [b'|] eqn:Ev.
      { left. apply HX. exists row. by simplify_eq. }
      case_decide as Hs; [|done]. right. split; [intros (? & ? & ? & ?)%HC; by simplify_eq|].
      exists (prune_record d0 h row). split; [|by simplify_eq]. exists h, row.
      split_and!; try done. intros (? & ? & ?)%HX. by simplify_eq.
  - exists s, X, n. split_and!; [done|done|].
    assert (forall h row, verdict now d0 (passed ++ [rule]) h row = verdict now d0 passed h row) as Hv.
    { intros h row. rewrite verdict_app. simpl. rewrite Eq. by case_match. }
    split; intros h; setoid_rewrite Hv; [apply HC|apply HX].
Qed.

Lemma prune_rules_step now rules passed s X n :
  pstate s X n -> judged now passed s X ->
  exists s' X' n', prune_rules now rules s n = (Ok s', n') /\ pstate s' X' n' /\ judged now (passed ++ rules) s' X'.
Proof.
  revert passed s X n. induction rules as [|rule rules IH]; intros passed s X n Hp Hj; cbn [prune_rules].
  { rewrite app_nil_r. eauto 10. }
  destruct (prune_rule_step now rule passed s X n Hp Hj) as (s1 & X1 & n1 & Hr & Hp1 & Hj1).
  unfold dbind. rewrite Hr. destruct (IH _ _ _ _ Hp1 Hj1) as (s' & X' & n' & ? & ? & ?).
  rewrite <- app_assoc in *. eauto 10.
Qed.

Lemma prune_ownerless_step rows s X n :
  Forall (fun r => exists row, t_blobs d0 !! r.1 = Some row /\ r.2 = r_type row) rows -> pstate s X n ->
  exists s' X' n', prune_ownerless rows s n = (Ok s', n') /\ pstate s' X' n' /\
    (forall h, h ∈ X' <-> h ∈ X \/ (h ∉ ps_checked s /\ h ∈ rows.*1)).
Proof.
  revert s X n. induction rows as [|[h type] rows IH]; intros s X n Htab Hp; cbn [prune_ownerless].
  { exists s, X, n. split_and!; [done|done|]. set_solver. }
  apply Forall_cons in Htab as [(row & Hrow & Et) Htab]. simpl in Hrow, Et. subst type.
  case_decide as Hc.
  - destruct (IH s X n Htab Hp) as (s' & X' & n' & ? & ? & HX). exists s', X', n'. split_and!; [done|done|].
    intros h'. rewrite HX. set_solver.
  - destruct (prune_blob_step h row s X n Hp Hc Hrow) as (n1 & Hr & Hp1). unfold dbind. rewrite Hr.
    destruct (IH _ _ _ Htab Hp1) as (s' & X' & n' & ? & ? & HX). exists s', X', n'. split_and!; [done|done|].
    intros h'. rewrite HX. destruct (decide (h' = h)); set_solver.
Qed.

Lemma ownerless_spec X h type :
  (h, type) ∈ (fun b => (br_sha256 b, br_type b)) <$> ownerless (without X d0) <->
  exists row, t_blobs d0 !! h = Some row /\ h ∉ X /\ owners_of h d0 = [] /\ type = r_type row.
Proof.
  rewrite list_elem_of_fmap. unfold ownerless, blob_records. setoid_rewrite list_elem_of_filter.
  setoid_rewrite list_elem_of_fmap. unfold is_thumbnail. rewrite without_thumbnails, map_to_list_empty by done.
  assert (forall h, h ∉ X -> owners_of h (without X d0) = [] <-> owners_of h d0 = []) as Ho.
  { intros h' Hh. split; intros E; apply elem_of_nil_inv; intros o Hin;
      apply (owners_without h' X d0 o Hh) in Hin; rewrite E in Hin; by apply elem_of_nil in Hin. }
  split.
  - intros (b & E & (He & _) & [h' row] & -> & Hin%elem_of_map_to_list). simpl in *. simplify_eq.
    apply map_lookup_filter_Some in Hin as [??]. exists row. rewrite Ho in He by done. done.
  - intros (row & Hr & Hh & He & ->). exists (record_of h row). split; [done|].
    split; [split; [by apply Ho|by intros (? & _ & ?%elem_of_nil)]|]. exists (h, row). split; [done|].
    apply elem_of_map_to_list. simpl. by apply map_lookup_filter_Some.
Qed.
End Cycle.

(** The hashes a cycle removes. *)
Definition doomed_set (now : Z) (rules : list StorageRule) (removeWhenNoOwners : bool) (d : NodeDb) : gset string :=
  dom (filter (fun p : string * BlobRow => doomed now d rules removeWhenNoOwners p.1 p.2 = true) (t_blobs d)).

Lemma elem_of_doomed now rules b d h :
  h ∈ doomed_set now rules b d <->
  exists row, t_blobs d !! h = Some row /\ doomed now d rules b h row = true.
Proof.
  unfold doomed_set. rewrite elem_of_dom. unfold is_Some. by setoid_rewrite map_lookup_filter_Some.
Qed.

(** The blobs removed by the rules and those the second phase adds are the
    doomed ones. *)
Lemma doomed_ownerless now rules d (Ht : t_thumbnails d = ∅) s1 X1 n1 :
  nd_db n1 = without X1 d ->
  (forall h, h ∈ ps_checked s1 <-> exists row b, t_blobs d !! h = Some row /\ verdict now d rules h row = Some b) ->
  (forall h, h ∈ X1 <-> exists row, t_blobs d !! h = Some row /\ verdict now d rules h row = Some true) ->
  forall h, ((exists row, t_blobs d !! h = Some row /\ verdict now d rules h row = Some true) \/
     (h ∉ ps_checked s1 /\ h ∈ ((fun b => (br_sha256 b, br_type b)) <$> ownerless (nd_db n1)).*1)) <->
    h ∈ doomed_set now rules true d.
Proof.
  intros Hdb HC HX h. rewrite elem_of_doomed. unfold doomed. split.
  - intros [(row & Hr & Hv)|(Hc & Hin)].
    + exists row. by rewrite Hv.
    + apply list_elem_of_fmap in Hin as ([h' ty] & -> & Hin). rewrite Hdb in Hin.
      apply ownerless_spec in Hin as (row & Hr & _ & Ho & _); [|done]. exists row. split; [done|].
      destruct (verdict now d rules _ row) eqn:Ev; [|by apply bool_decide_true].
      destruct Hc. apply HC. eauto.
  - intros (row & Hr & Hd). destruct (verdict now d rules h row) as [b|] eqn:Ev; [left; subst; eauto|].
    apply bool_decide_eq_true in Hd. right. split; [intros (? & ? & ? & ?)%HC; by simplify_eq|].
    apply list_elem_of_fmap. exists (h, r_type row). split; [done|]. rewrite Hdb.
    apply ownerless_spec; [done|]. exists row. split_and!; try done. intros (? & ? & ?)%HX. by simplify_eq.
Qed.

(** C10: a prune cycle on a node without thumbnails whose database answers
    completes without errors, removes exactly the blobs that are doomed, each
    with its owners, its access time and its file, leaves every other row and
    every other file as it was, and reports how many it removed. A blob is
    doomed when the first rule with a readable duration whose query selects it
    has expired for it, or, when no rule selects it and removeWhenNoOwners is
    set, for want of an owner. So a blob without owners is kept while a rule
    that selects it has not expired, which is not what README.md and the schema
    say of the option (that it holds regardless of expiry rules; see governed_orphan_kept). *)
Theorem prune_exact now rules removeWhenNoOwners n :
  quiet n -> t_thumbnails (nd_db n) = ∅ ->
  let X := doomed_set now rules removeWhenNoOwners (nd_db n) in
  exists n', pruneStorage now rules removeWhenNoOwners n =
      (Ok {| pn_deleted := Z.of_nat (size X); pn_errors := 0 |}, n') /\
    nd_db n' = without X (nd_db n) /\
    (forall path, (file_of X (nd_db n) path -> nd_files n' !! path = None) /\
                  (~ file_of X (nd_db n) path -> nd_files n' !! path = nd_files n !! path)).
Proof.
  intros Hq Ht X. unfold pruneStorage.
  set (s0 := {| ps_result := _; ps_checked := _ |}).
  assert (pstate (nd_db n) (nd_files n) s0 ∅ n) as Hp0.
  { split; try done; [by rewrite without_empty|apply files_without_empty]. }
  destruct (prune_rules_step (nd_db n) (nd_files n) Ht now rules [] s0 ∅ n Hp0) as (s1 & X1 & n1 & Hr1 & Hp1 & [HC HX]).
  { split; intros h; split; try set_solver. all: intros (? & ?); naive_solver. }
  simpl in HC, HX. unfold dbind at 1. rewrite Hr1. destruct removeWhenNoOwners.
  - unfold getOwnerlessBlobSha256s, query, dcatch, dbind at 1. rewrite execute_quiet by apply Hp1.
    edestruct (prune_ownerless_step (nd_db n) (nd_files n) Ht ((fun b => (br_sha256 b, br_type b)) <$> ownerless (nd_db n1)) s1 X1)
      as (s2 & X2 & n2 & Hr2 & Hp2 & HX2); [|exact (pstate_tail _ _ _ _ _ Hp1)|].
    { rewrite (pz_db _ _ _ _ _ Hp1). apply Forall_forall. intros [h ty] Hin.
      apply ownerless_spec in Hin as (row & Hr & _ & _ & ->); [|done]. by exists row. }
    unfold dbind. rewrite Hr2. exists n2.
    assert (X2 = X) as <-.
    { apply set_eq. intros h. rewrite HX2, HX. apply (doomed_ownerless now rules (nd_db n) Ht s1 X1 n1); [by apply (pz_db _ _ _ _ _ Hp1)|done|done]. }
    split_and!; [by rewrite (result_counts _ _ _ _ _ Hp2)|apply Hp2|apply Hp2].
  - exists n1. assert (X1 = X) as <-.
    { apply set_eq. intros h. rewrite HX. unfold X. rewrite elem_of_doomed. unfold doomed.
      split; intros (row & Hr & Hv); exists row; (split; [done|]); [by rewrite Hv|].
      by destruct (verdict now (nd_db n) rules h row) as [[]|]. }
    split_and!; [unfold dret; by rewrite (result_counts _ _ _ _ _ Hp1)|apply Hp1|apply Hp1].
Qed.
End PruneFacts.
