(* ===== verification/NodeConfig.v ===== *)
(** * The configuration of the storage node (config/schema.ts, config/loader.ts)

    A schema is a value of the type [schema], written the way schema.ts writes
    it; what zod does with it is the class [Zod], with zod's documented
    behaviour for each constructor as its laws. The parsed value is read into
    the records the routes use by [read_config], which stands for the inferred
    type [Config]. *)

From Stdlib Require Import Ascii QArith.
From S2P Require Import Prelude Js NodeRules NodeApi.
#[local] Open Scope Z_scope.

(** ** The schema language *)

Inductive zcheck := ZInt | ZMin (z : Z) | ZMax (z : Z) | ZPositive.

Inductive schema :=
| ZString
| ZUrl
| ZBoolean
| ZNumber (checks : list zcheck)
| ZEnum (l : list string)
| ZArray (s : schema)
| ZObject (fields : list (string * schema))
| ZOptional (s : schema)
| ZDefault (s : schema) (d : jsval)
| ZRefine (s : schema) (p : jsval -> bool)
| ZTransform (s : schema) (f : jsval -> option jsval).   (* [None]: it throws *)

Definition check_num (n : num) (c : zcheck) : bool :=
  match c with
  | ZInt => bool_decide (is_Some (num_safe_int n))
  | ZMin z => num_ge n z
  | ZMax z => num_le n z
  | ZPositive => num_gt n 0
  end.

(** The keys of the shape, in its order; unknown keys are dropped, and a key
    whose value is undefined stays absent. *)
Fixpoint object_fields (parse : schema -> jsval -> option jsval) (v : jsval) (fields : list (string * schema))
  : option (list (string * jsval)) :=
  match fields with
  | [] => Some []
  | (k, s) :: fields =>
      match parse s (jget v k), object_fields parse v fields with
      | Some JUndefined, Some l => Some l
      | Some w, Some l => Some ((k, w) :: l)
      | _, _ => None
      end
  end.

Class Zod := {
  zparse : schema -> jsval -> option jsval;
  z_url : string -> bool     (* the URLs [z.string().url()] accepts *)
}.

Class ZodLaws `{Zod} := {
  zparse_string v : zparse ZString v = match v with JStr s => Some (JStr s) | _ => None end;
  zparse_url v : zparse ZUrl v = match v with JStr s => if z_url s then Some (JStr s) else None | _ => None end;
  zparse_boolean v : zparse ZBoolean v = match v with JBool b => Some (JBool b) | _ => None end;
  zparse_number cs v :
    zparse (ZNumber cs) v =
    match v with
    | JNum n => if is_finite n && forallb (check_num n) cs then Some (JNum n) else None
    | _ => None
    end;
  zparse_enum l v :
    zparse (ZEnum l) v = match v with JStr s => if bool_decide (s ∈ l) then Some (JStr s) else None | _ => None end;
  zparse_array s v : zparse (ZArray s) v = match v with JArr l => JArr <$> mapM (zparse s) l | _ => None end;
  zparse_object fields v :
    zparse (ZObject fields) v = match v with JObj _ => JObj <$> object_fields zparse v fields | _ => None end;
  zparse_optional s v : zparse (ZOptional s) v = if is_undefined v then Some JUndefined else zparse s v;
  zparse_default s d v : zparse (ZDefault s d) v = if is_undefined v then Some d else zparse s v;
  zparse_refine s p v :
    zparse (ZRefine s p) v = match zparse s v with Some w => if p w then Some w else None | None => None end;
  zparse_transform s f v : zparse (ZTransform s f) v = match zparse s v with Some w => f w | None => None end
}.

(** ** Objects *)

(** [{ ...o, [k]: v }] *)
Fixpoint with_key (k : string) (v : jsval) (l : list (string * jsval)) : list (string * jsval) :=
  match l with
  | [] => [(k, v)]
  | (k', v') :: l => if String.eqb k k' then (k', v) :: l else (k', v') :: with_key k v l
  end.
(** [const { [k]: _, ...rest } = o] *)
Definition drop_key (k : string) (l : list (string * jsval)) : list (string * jsval) :=
  List.filter (fun e => negb (String.eqb (fst e) k)) l.
(** The entries of an object that is spread. *)
Definition entries_of (v : jsval) : list (string * jsval) := match v with JObj l => l | _ => [] end.

Definition jint (z : Z) : jsval := JNum (num_Z z).

(** ** The schemas *)

Definition StorageRuleSchema : schema :=
  ZObject [("type", ZString); ("expiration", ZString); ("pubkeys", ZOptional (ZArray ZString))].

Definition LocalStorageSchema : schema := ZObject [("dir", ZDefault ZString (JStr "./data/blobs"))].

Definition S3StorageSchema : schema :=
  ZObject [("endpoint", ZString); ("bucket", ZString); ("accessKey", ZString); ("secretKey", ZString);
           ("region", ZOptional ZString); ("publicURL", ZOptional ZString);
           ("tmpDir", ZDefault ZString (JStr "./data/s3-tmp"))].

Definition rule_literal (type expiration : string) : jsval :=
  JObj [("type", JStr type); ("expiration", JStr expiration)].

Definition StorageSchema : schema :=
  ZObject [("backend", ZDefault (ZEnum ["local"; "s3"]) (JStr "local"));
           ("local", ZOptional LocalStorageSchema);
           ("s3", ZOptional S3StorageSchema);
           ("rules", ZDefault (ZArray StorageRuleSchema)
                       (JArr [rule_literal "image/*" "1 month"; rule_literal "video/*" "1 week"; rule_literal "*" "1 week"]));
           ("removeWhenNoOwners", ZDefault ZBoolean (JBool false))].

Definition UploadSchema : schema :=
  ZObject [("enabled", ZDefault ZBoolean (JBool true));
           ("requireAuth", ZDefault ZBoolean (JBool true));
           ("maxSize", ZDefault (ZNumber [ZInt; ZPositive]) (jint (8 * 1024 * 1024 * 1024)));
           ("workers", ZDefault (ZNumber [ZInt; ZMin 0]) (jint 0));
           ("maxJobsPerWorker", ZDefault (ZNumber [ZInt; ZMin 1]) (jint 4));
           ("throughputWindowMs", ZDefault (ZNumber [ZInt; ZMin 100]) (jint 1000));
           ("requirePubkeyInRule", ZDefault ZBoolean (JBool false))].

Definition ImageOptimizeSchema : schema :=
  ZObject [("quality", ZDefault (ZNumber [ZInt; ZMin 0; ZMax 100]) (jint 90));
           ("progressive", ZDefault ZBoolean (JBool true));
           ("maxWidth", ZDefault (ZNumber [ZInt; ZPositive]) (jint 1920));
           ("maxHeight", ZDefault (ZNumber [ZInt; ZPositive]) (jint 1080));
           ("outputFormat", ZDefault (ZEnum ["webp"; "jpeg"; "png"]) (JStr "webp"));
           ("maintainAspectRatio", ZDefault ZBoolean (JBool true));
           ("keepExif", ZDefault ZBoolean (JBool false));
           ("fps", ZDefault (ZNumber [ZInt; ZPositive]) (jint 30))].

Definition ThumbnailSchema : schema :=
  ZObject [("enabled", ZDefault ZBoolean (JBool true));
           ("quality", ZDefault (ZNumber [ZInt; ZMin 0; ZMax 100]) (jint 80));
           ("maxWidth", ZDefault (ZNumber [ZInt; ZPositive]) (jint 512));
           ("maxHeight", ZDefault (ZNumber [ZInt; ZPositive]) (jint 512));
           ("outputFormat", ZDefault (ZEnum ["webp"; "jpeg"; "png"]) (JStr "webp"));
           ("videoSeek", ZDefault (ZNumber [ZMin 0]) (jint 1))].

Definition VIDEO_CODEC_FOR_FORMAT (format : string) : list string :=
  if String.eqb format "webm" then ["vp8"; "vp9"] else ["libx264"; "libx265"].
Definition AUDIO_CODEC_FOR_FORMAT (format : string) : list string :=
  if String.eqb format "webm" then ["vorbis"; "opus"] else ["aac"; "mp3"].

(** Whether the refinement adds no issue. *)
Definition codecs_match (v : jsval) : bool :=
  match jget v "format", jget v "videoCodec", jget v "audioCodec" with
  | JStr format, JStr video, JStr audio =>
      bool_decide (video ∈ VIDEO_CODEC_FOR_FORMAT format) && bool_decide (audio ∈ AUDIO_CODEC_FOR_FORMAT format)
  | _, _, _ => false
  end.

Definition VideoOptimizeSchema : schema :=
  ZRefine
    (ZObject [("quality", ZDefault (ZNumber [ZInt; ZMin 0; ZMax 100]) (jint 90));
              ("maxHeight", ZDefault (ZNumber [ZInt; ZPositive]) (jint 1080));
              ("maxFps", ZDefault (ZNumber [ZInt; ZPositive]) (jint 30));
              ("format", ZDefault (ZEnum ["mp4"; "webm"; "mkv"]) (JStr "mp4"));
              ("audioCodec", ZDefault (ZEnum ["aac"; "mp3"; "vorbis"; "opus"]) (JStr "aac"));
              ("videoCodec", ZDefault (ZEnum ["libx264"; "libx265"; "vp8"; "vp9"]) (JStr "libx264"))])
    codecs_match.

(** The deprecated timeout: [connectTimeout ?? fetchTimeout]. *)
Definition promote_timeout (v : jsval) : option jsval :=
  if is_undefined (jget v "fetchTimeout") then Some v
  else
    let rest := drop_key "fetchTimeout" (entries_of v) in
    let t := assoc "connectTimeout" rest in
    Some (JObj (with_key "connectTimeout" (if nullish t then jget v "fetchTimeout" else t) rest)).

Definition MirrorSchema : schema :=
  ZTransform
    (ZObject [("enabled", ZDefault ZBoolean (JBool true));
              ("requireAuth", ZDefault ZBoolean (JBool true));
              ("fetchTimeout", ZOptional (ZNumber [ZInt; ZMin 0]));
              ("connectTimeout", ZDefault (ZNumber [ZInt; ZMin 0]) (jint 30000));
              ("bodyTimeout", ZDefault (ZNumber [ZInt; ZMin 0]) (jint 0))])
    promote_timeout.

Definition DeleteSchema : schema := ZObject [("requireAuth", ZDefault ZBoolean (JBool true))].

Definition ListSchema : schema :=
  ZObject [("enabled", ZDefault ZBoolean (JBool false));
           ("requireAuth", ZDefault ZBoolean (JBool false));
           ("allowListOthers", ZDefault ZBoolean (JBool true))].

Definition LandingSchema : schema :=
  ZObject [("enabled", ZDefault ZBoolean (JBool true)); ("title", ZDefault ZString (JStr "Blossom Server"))].

Definition ReportSchema : schema := ZObject [("enabled", ZDefault ZBoolean (JBool true))].

Definition DashboardSchema : schema :=
  ZObject [("enabled", ZDefault ZBoolean (JBool false));
           ("username", ZDefault ZString (JStr "admin"));
           ("password", ZDefault ZString (JStr ""));
           ("lookupRelays", ZDefault (ZArray ZUrl)
              (JArr [JStr "wss://purplepag.es"; JStr "wss://index.hzrd149.com"; JStr "wss://indexer.coracle.social"]))].

Definition PruneSchema : schema :=
  ZObject [("initialDelayMs", ZDefault (ZNumber [ZInt; ZMin 0]) (jint 60000));
           ("intervalMs", ZDefault (ZNumber [ZInt; ZMin 1000]) (jint 30000))].

Definition DatabaseSchema : schema :=
  ZObject [("path", ZDefault ZString (JStr "data/sqlite.db"));
           ("url", ZOptional ZString);
           ("authToken", ZOptional ZString)].

Section Schemas.
Context `{Zod}.

(** [s.optional().transform((v) => v ?? s.parse({}))] *)
Definition or_parsed (s : schema) : schema :=
  ZTransform (ZOptional s) (fun v => if nullish v then zparse s (JObj []) else Some v).

Definition MediaSchema : schema :=
  ZObject [("enabled", ZDefault ZBoolean (JBool false));
           ("requireAuth", ZDefault ZBoolean (JBool true));
           ("maxSize", ZDefault (ZNumber [ZInt; ZPositive]) (jint (8 * 1024 * 1024 * 1024)));
           ("image", or_parsed ImageOptimizeSchema);
           ("video", or_parsed VideoOptimizeSchema);
           ("thumbnail", or_parsed ThumbnailSchema)].

Definition config_fields : list (string * schema) :=
  [("publicDomain", ZDefault ZString (JStr ""));
   ("databasePath", ZOptional ZString);
   ("database", ZOptional DatabaseSchema);
   ("host", ZDefault ZString (JStr "0.0.0.0"));
   ("port", ZDefault (ZNumber [ZInt; ZMin 1; ZMax 65535]) (jint 3000));
   ("storage", or_parsed StorageSchema);
   ("upload", or_parsed UploadSchema);
   ("mirror", or_parsed MirrorSchema);
   ("delete", or_parsed DeleteSchema);
   ("list", or_parsed ListSchema);
   ("landing", or_parsed LandingSchema);
   ("media", or_parsed MediaSchema);
   ("prune", or_parsed PruneSchema);
   ("dashboard", or_parsed DashboardSchema);
   ("report", or_parsed ReportSchema)].

(** The deprecated path: merged into the database section. *)
Definition merge_database (raw : jsval) : option jsval :=
  let given := jget raw "database" in
  let path := jget raw "databasePath" in
  let section := if is_undefined (jget given "path") && negb (is_undefined path)
                 then with_key "path" path (entries_of given) else entries_of given in
  match zparse DatabaseSchema (JObj section) with
  | Some database => Some (JObj (with_key "database" database (drop_key "databasePath" (entries_of raw))))
  | None => None
  end.

Definition ConfigSchema : schema := ZTransform (ZObject config_fields) merge_database.
End Schemas.

(** ** The file *)

(** The name of the placeholder at the start of a string: [\$\{([^}]+)\}]. *)
Definition placeholder (s : string) : option string :=
  match s with
  | String c (String d s) =>
      if Ascii.eqb c "$" && Ascii.eqb d "{" then
        match span (fun e => negb (Ascii.eqb e "}")) s with
        | ("", _) | (_, "") => None
        | (name, _) => Some name
        end
      else None
  | _ => None
  end.

(** [Deno.env.get(name) ?? `${name}`] *)
Definition env_value (env : string -> option string) (name : string) : string :=
  default ("${" +:+ name +:+ "}") (env name).

(** The replacement, from left to right; [skip] characters belong to the
    placeholder replaced last. *)
Fixpoint interpolate (env : string -> option string) (skip : nat) (s : string) : string :=
  match s with
  | "" => ""
  | String c s' =>
      match skip with
      | S k => interpolate env k s'
      | O => match placeholder s with
             | Some name => env_value env name +:+ interpolate env (String.length name + 2) s'
             | None => String c (interpolate env 0 s')
             end
      end
  end.

Fixpoint interpolateEnv (env : string -> option string) (value : jsval) : jsval :=
  match value with
  | JStr s => JStr (interpolate env 0 s)
  | JArr l => JArr (map (interpolateEnv env) l)
  | JObj l => JObj (map (fun e => (fst e, interpolateEnv env (snd e))) l)
  | _ => value
  end.

Inductive ConfigFile := FileMissing | FileUnreadable | FileText (text : string).
Inductive LoadFailure := LoadThrows | LoadExits.

(** The parser of the file; [None] when it throws. *)
Class Yaml := { parseYaml : string -> option jsval }.

Definition loadConfig `{Zod} `{Yaml} (env : string -> option string) (file : ConfigFile) : exc LoadFailure jsval :=
  let raw := match file with
             | FileMissing => Ok (JObj [])
             | FileUnreadable => Throw LoadThrows
             | FileText text => match parseYaml text with Some v => Ok v | None => Throw LoadThrows end
             end in
  match raw with
  | Throw e => Throw e
  | Ok raw => match zparse ConfigSchema (interpolateEnv env raw) with Some c => Ok c | None => Throw LoadExits end
  end.

(** ** The inferred type *)

Record DbConfig := { dc_path : string; dc_url : option string; dc_authToken : option string }.
Record S3Section := {
  ss_endpoint : string; ss_bucket : string; ss_accessKey : string; ss_secretKey : string;
  ss_region : option string; ss_publicURL : option string; ss_tmpDir : string
}.

(** The settings of the routes are the record [NConfig] they are modelled
    with, the others are fields of their own. *)
Record SConfig := {
  sc_routes : NConfig;
  sc_database : DbConfig;
  sc_host : string;
  sc_port : Z;
  sc_backend : string;
  sc_local : option string;
  sc_s3 : option S3Section;
  sc_workers : Z;
  sc_maxJobsPerWorker : Z;
  sc_throughputWindowMs : Z;
  sc_connectTimeout : Z;
  sc_bodyTimeout : Z;
  sc_landing : bool;
  sc_title : string;
  sc_initialDelayMs : Z;
  sc_intervalMs : Z;
  sc_dashboard : bool;
  sc_username : string;
  sc_password : string;
  sc_lookupRelays : list string;
  sc_maintainAspectRatio : bool
}.

Definition as_bool (v : jsval) : option bool := match v with JBool b => Some b | _ => None end.
Definition as_str (v : jsval) : option string := match v with JStr s => Some s | _ => None end.
Definition as_num (v : jsval) : option num := match v with JNum n => Some n | _ => None end.
Definition as_int (v : jsval) : option Z := match v with JNum n => num_int n | _ => None end.
Definition as_list {A} (f : jsval -> option A) (v : jsval) : option (list A) :=
  match v with JArr l => mapM f l | _ => None end.
(** An optional property. *)
Definition as_opt {A} (f : jsval -> option A) (v : jsval) : option (option A) :=
  if is_undefined v then Some None else Some <$> f v.

Definition read_rule (v : jsval) : option StorageRule :=
  type ← as_str (jget v "type"); expiration ← as_str (jget v "expiration");
  pubkeys ← as_opt (as_list as_str) (jget v "pubkeys");
  Some {| ru_type := type; ru_expiration := expiration; ru_pubkeys := pubkeys |}.

Definition read_local (v : jsval) : option string := as_str (jget v "dir").

Definition read_s3 (v : jsval) : option S3Section :=
  endpoint ← as_str (jget v "endpoint"); bucket ← as_str (jget v "bucket");
  accessKey ← as_str (jget v "accessKey"); secretKey ← as_str (jget v "secretKey");
  region ← as_opt as_str (jget v "region"); publicURL ← as_opt as_str (jget v "publicURL");
  tmpDir ← as_str (jget v "tmpDir");
  Some {| ss_endpoint := endpoint; ss_bucket := bucket; ss_accessKey := accessKey; ss_secretKey := secretKey;
          ss_region := region; ss_publicURL := publicURL; ss_tmpDir := tmpDir |}.

Definition read_image (v : jsval) : option ImageOpts :=
  quality ← as_int (jget v "quality"); progressive ← as_bool (jget v "progressive");
  maxWidth ← as_int (jget v "maxWidth"); maxHeight ← as_int (jget v "maxHeight");
  outputFormat ← as_str (jget v "outputFormat"); keepExif ← as_bool (jget v "keepExif");
  fps ← as_int (jget v "fps");
  Some {| io_quality := quality; io_progressive := progressive; io_maxWidth := maxWidth; io_maxHeight := maxHeight;
          io_outputFormat := outputFormat; io_keepExif := keepExif; io_fps := fps |}.

Definition read_video (v : jsval) : option VideoOpts :=
  quality ← as_int (jget v "quality"); maxHeight ← as_int (jget v "maxHeight"); maxFps ← as_int (jget v "maxFps");
  format ← as_str (jget v "format"); audioCodec ← as_str (jget v "audioCodec");
  videoCodec ← as_str (jget v "videoCodec");
  Some {| vo_quality := quality; vo_maxHeight := maxHeight; vo_maxFps := maxFps; vo_format := format;
          vo_audioCodec := audioCodec; vo_videoCodec := videoCodec |}.

Definition read_thumbnail (v : jsval) : option ThumbOpts :=
  enabled ← as_bool (jget v "enabled"); quality ← as_int (jget v "quality");
  maxWidth ← as_int (jget v "maxWidth"); maxHeight ← as_int (jget v "maxHeight");
  outputFormat ← as_str (jget v "outputFormat"); videoSeek ← as_num (jget v "videoSeek");
  Some {| th_enabled := enabled; th_quality := quality; th_maxWidth := maxWidth; th_maxHeight := maxHeight;
          th_outputFormat := outputFormat; th_videoSeek := videoSeek |}.

Definition read_media (sameFs : bool) (v : jsval) : option MConfig :=
  enabled ← as_bool (jget v "enabled"); requireAuth ← as_bool (jget v "requireAuth");
  maxSize ← as_int (jget v "maxSize"); image ← read_image (jget v "image");
  video ← read_video (jget v "video"); thumbnail ← read_thumbnail (jget v "thumbnail");
  Some {| mc_enabled := enabled; mc_requireAuth := requireAuth; mc_maxSize := maxSize; mc_image := image;
          mc_video := video; mc_thumbnail := thumbnail; mc_sameFs := sameFs |}.

(** What the routes read of the configuration. *)
Definition read_routes (sameFs : bool) (v : jsval) : option NConfig :=
  publicDomain ← as_str (jget v "publicDomain");
  let upload := jget v "upload" in
  uploadEnabled ← as_bool (jget upload "enabled"); uploadRequireAuth ← as_bool (jget upload "requireAuth");
  maxSize ← as_int (jget upload "maxSize"); requirePubkeyInRule ← as_bool (jget upload "requirePubkeyInRule");
  mirrorEnabled ← as_bool (jget (jget v "mirror") "enabled");
  mirrorRequireAuth ← as_bool (jget (jget v "mirror") "requireAuth");
  reportEnabled ← as_bool (jget (jget v "report") "enabled");
  deleteRequireAuth ← as_bool (jget (jget v "delete") "requireAuth");
  let list := jget v "list" in
  listEnabled ← as_bool (jget list "enabled"); listRequireAuth ← as_bool (jget list "requireAuth");
  allowListOthers ← as_bool (jget list "allowListOthers");
  rules ← as_list read_rule (jget (jget v "storage") "rules");
  removeWhenNoOwners ← as_bool (jget (jget v "storage") "removeWhenNoOwners");
  media ← read_media sameFs (jget v "media");
  Some {| cf_publicDomain := publicDomain; cf_uploadEnabled := uploadEnabled; cf_uploadRequireAuth := uploadRequireAuth;
          cf_maxSize := maxSize; cf_requirePubkeyInRule := requirePubkeyInRule; cf_mirrorEnabled := mirrorEnabled;
          cf_mirrorRequireAuth := mirrorRequireAuth; cf_reportEnabled := reportEnabled;
          cf_deleteRequireAuth := deleteRequireAuth; cf_listEnabled := listEnabled;
          cf_listRequireAuth := listRequireAuth; cf_allowListOthers := allowListOthers; cf_rules := rules;
          cf_removeWhenNoOwners := removeWhenNoOwners; cf_media := media |}.

Definition read_database (v : jsval) : option DbConfig :=
  path ← as_str (jget v "path"); url ← as_opt as_str (jget v "url"); authToken ← as_opt as_str (jget v "authToken");
  Some {| dc_path := path; dc_url := url; dc_authToken := authToken |}.

Definition read_config (sameFs : bool) (v : jsval) : option SConfig :=
  routes ← read_routes sameFs v; database ← read_database (jget v "database");
  host ← as_str (jget v "host"); port ← as_int (jget v "port");
  let storage := jget v "storage" in
  backend ← as_str (jget storage "backend"); local ← as_opt read_local (jget storage "local");
  s3 ← as_opt read_s3 (jget storage "s3");
  let upload := jget v "upload" in
  workers ← as_int (jget upload "workers"); maxJobs ← as_int (jget upload "maxJobsPerWorker");
  window ← as_int (jget upload "throughputWindowMs");
  connect ← as_int (jget (jget v "mirror") "connectTimeout"); body ← as_int (jget (jget v "mirror") "bodyTimeout");
  landing ← as_bool (jget (jget v "landing") "enabled"); title ← as_str (jget (jget v "landing") "title");
  delay ← as_int (jget (jget v "prune") "initialDelayMs"); interval ← as_int (jget (jget v "prune") "intervalMs");
  let dash := jget v "dashboard" in
  dashboard ← as_bool (jget dash "enabled"); username ← as_str (jget dash "username");
  password ← as_str (jget dash "password"); relays ← as_list as_str (jget dash "lookupRelays");
  aspect ← as_bool (jget (jget (jget v "media") "image") "maintainAspectRatio");
  Some {| sc_routes := routes; sc_database := database; sc_host := host; sc_port := port; sc_backend := backend;
          sc_local := local; sc_s3 := s3; sc_workers := workers; sc_maxJobsPerWorker := maxJobs;
          sc_throughputWindowMs := window; sc_connectTimeout := connect; sc_bodyTimeout := body;
          sc_landing := landing; sc_title := title; sc_initialDelayMs := delay; sc_intervalMs := interval;
          sc_dashboard := dashboard; sc_username := username; sc_password := password; sc_lookupRelays := relays;
          sc_maintainAspectRatio := aspect |}.

(** ** Startup (main.ts) *)

Inductive StorageChoice := UseLocal (dir : string) | UseS3 (s : S3Section).

(** [None]: the process exits. *)
Definition choose_storage (c : SConfig) : option StorageChoice :=
  if String.eqb (sc_backend c) "local" then Some (UseLocal (default "./data/blobs" (sc_local c)))
  else UseS3 <$> sc_s3 c.

(** [btoa(bytes).replace(/[+/=]/g, "").slice(0, 20)], of the base64 text. *)
Fixpoint keep_chars (p : ascii -> bool) (s : string) : string :=
  match s with "" => "" | String c s => if p c then String c (keep_chars p s) else keep_chars p s end.
Definition generated_password (b64 : string) : string :=
  String.substring 0 20 (keep_chars (fun c => negb (Ascii.eqb c "+" || Ascii.eqb c "/" || Ascii.eqb c "=")) b64).

Definition dashboard_password (b64 : string) (c : SConfig) : string :=
  if sc_dashboard c && String.eqb (sc_password c) "" then generated_password b64 else sc_password c.

(** [initPool]: the number of workers. *)
Definition pool_size (cores : Z) (c : SConfig) : Z := if 0 <? sc_workers c then sc_workers c else cores.

Definition pruneEnabled (c : SConfig) : bool :=
  bool_decide (0 < length (cf_rules (sc_routes c)))%nat || cf_removeWhenNoOwners (sc_routes c).

(** What startup decides from the configuration. *)
Record Startup := {
  su_dbLabel : string;
  su_migrate : bool;               (* whether the legacy database is looked for *)
  su_storage : StorageChoice;
  su_workers : nat;
  su_password : string;
  su_prune : option (Z * Z);       (* the first delay and the gap between the runs *)
  su_listen : string * Z
}.

Definition migrates (c : SConfig) : bool :=
  match dc_url (sc_database c) with None | Some "" => true | Some _ => false end.

Definition settings_of (cores : Z) (b64 : string) (storage : StorageChoice) (c : SConfig) : Startup :=
  {| su_dbLabel := default ("file:" +:+ dc_path (sc_database c)) (dc_url (sc_database c));
     su_migrate := migrates c;
     su_storage := storage;
     su_workers := Z.to_nat (pool_size cores c);
     su_password := dashboard_password b64 c;
     su_prune := if pruneEnabled c then Some (sc_initialDelayMs c, sc_intervalMs c) else None;
     su_listen := (sc_host c, sc_port c) |}.

(** The calls startup makes, in their order, each of which may throw: the
    migration and the opening of the database, the preparation of the storage
    (the S3 adapter makes its temporary directory and lists the bucket), the
    pool, the routes (the landing page looks for its bundle), the listening. *)
Inductive start_call :=
| CallMigrate (path : string)
| CallInitDb (path : string) (url : option string)
| CallLocalSetup (dir : string)
| CallTmpDir (dir : string)
| CallListBucket (endpoint bucket : string)
| CallInitPool (workers : nat)
| CallBuildApp
| CallServe (host : string) (port : Z).

(** How startup ends: the process exits, an error is thrown out of it, or the
    server listens. *)
Inductive start_outcome := Exits (code : Z) | Fails (call : start_call) (error : string) | Runs (s : Startup).

(** One call: what the machine [m] answers, then the rest; the calls made are
    listed. *)
Definition calling (m : start_call -> exc string unit) (k : start_call) (wrap : string -> string)
    (rest : list start_call * start_outcome) : list start_call * start_outcome :=
  match m k with
  | Throw e => ([k], Fails k (wrap e))
  | Ok _ => (k :: fst rest, snd rest)
  end.

(** [storage.setup()] *)
Definition storage_setup (m : start_call -> exc string unit) (storage : StorageChoice)
    (rest : list start_call * start_outcome) : list start_call * start_outcome :=
  match storage with
  | UseLocal dir => calling m (CallLocalSetup dir) id rest
  | UseS3 s =>
      calling m (CallTmpDir (ss_tmpDir s)) id
        (calling m (CallListBucket (ss_endpoint s) (ss_bucket s))
           (fun e => "S3 bucket connectivity check failed: " +:+ e) rest)
  end.

Definition startup (m : start_call -> exc string unit) (cores : Z) (b64 : string) (c : SConfig)
    : list start_call * start_outcome :=
  let open_db :=
    calling m (CallInitDb (dc_path (sc_database c)) (dc_url (sc_database c))) id
      match choose_storage c with
      | None => ([], Exits 1)
      | Some storage =>
          storage_setup m storage
            (calling m (CallInitPool (Z.to_nat (pool_size cores c))) id
               (calling m CallBuildApp id
                  (calling m (CallServe (sc_host c) (sc_port c)) id
                     ([], Runs (settings_of cores b64 storage c)))))
      end in
  if migrates c then calling m (CallMigrate (dc_path (sc_database c))) id open_db else open_db.
