(* ===== verification/NodeConfigFacts.v ===== *)
(** * What a loaded configuration guarantees

    [Reads s f P]: whatever a schema [s] lets through is read by [f], as a value
    with the property [P]. Its instances follow the constructors of a schema, so
    that the sections of the configuration are read field by field. The theorems
    are about every parser with zod's documented behaviour; [zod_model] is one. *)

From Stdlib Require Import Ascii QArith.
From S2P Require Import Prelude Js NodeRules NodeDb NodeApi NodePool NodeConfig.
#[local] Open Scope Z_scope.

(** ** Numbers *)

Lemma num_int_value n z : num_int n = Some z -> exists d, 0 < d /\ n = Fin (Qmake (z * d) (Z.to_pos d)).
Proof.
  destruct n as [| | |[a b]]; try done. cbn. case_match eqn:E; [|done]. intros [= <-]. zbool.
  exists (Zpos b). split; [lia|]. do 2 f_equal.
  pose proof (Z.div_mod a (Zpos b)). lia.
Qed.

Definition check_int (z : Z) (c : zcheck) : bool :=
  match c with ZInt => true | ZMin m => m <=? z | ZMax m => z <=? m | ZPositive => 0 <? z end.

Lemma check_num_int n z c : num_int n = Some z -> check_num n c = true -> check_int z c = true.
Proof.
  intros (d & Hd & ->)%num_int_value. destruct c; cbn; try done; rewrite Z2Pos.id by done; intros ?; zbool; nia.
Qed.

(** ** Reading what a schema lets through *)

Section Reads.
Context `{ZodLaws}.

Class Reads {A} (s : schema) (f : jsval -> option A) (P : A -> Prop) : Prop :=
  reads v w : zparse s v = Some w -> exists a, f w = Some a /\ P a.

(** A default is read as the schema's own results are. *)
Class DefaultRead {A} (f : jsval -> option A) (P : A -> Prop) (d : jsval) : Prop :=
  default_read : exists a, f d = Some a /\ P a.

#[export] Instance reads_string : Reads ZString as_str (fun _ => True).
Proof. intros v w. rewrite zparse_string. destruct v; try done. intros [= <-]. by eexists. Qed.
#[export] Instance reads_url : Reads ZUrl as_str (fun _ => True).
Proof. intros v w. rewrite zparse_url. destruct v; try done. case_match; [|done]. intros [= <-]. by eexists. Qed.
#[export] Instance reads_boolean : Reads ZBoolean as_bool (fun _ => True).
Proof. intros v w. rewrite zparse_boolean. destruct v; try done. intros [= <-]. by eexists. Qed.
#[export] Instance reads_enum l : Reads (ZEnum l) as_str (fun s => s ∈ l).
Proof.
  intros v w. rewrite zparse_enum. destruct v; try done. case_bool_decide; [|done]. intros [= <-]. by eexists.
Qed.
#[export] Instance reads_integer cs : Reads (ZNumber (ZInt :: cs)) as_int (fun z => forallb (check_int z) cs = true).
Proof.
  intros v w. rewrite zparse_number. destruct v as [| | |n| | |]; try done. case_match eqn:E; [|done]. intros [= <-].
  cbn [forallb check_num] in E. rewrite !andb_true_iff, bool_decide_eq_true in E.
  destruct E as (_ & [z Hz] & Hc). unfold num_safe_int in Hz. destruct (num_int n) as [z'|] eqn:Hn; [|done].
  exists z'. split; [done|]. rewrite forallb_forall in *. eauto using check_num_int.
Qed.
#[export] Instance reads_seconds m : Reads (ZNumber [ZMin m]) as_num (fun n => num_ge n m = true).
Proof.
  intros v w. rewrite zparse_number. destruct v as [| | |n| | |]; try done. case_match eqn:E; [|done]. intros [= <-].
  cbn in E. rewrite !andb_true_iff in E. exists n. tauto.
Qed.
#[export] Instance reads_array {A} s (f : jsval -> option A) P : Reads s f P -> Reads (ZArray s) (as_list f) (Forall P).
Proof.
  intros Hs v w. rewrite zparse_array. destruct v; try done. intros (l' & Hl & ->)%fmap_Some. cbn.
  apply mapM_Some in Hl. induction Hl as [|v u l l' Hv Hl (k & Hk & HP)]; [by exists []|].
  destruct (Hs _ _ Hv) as (a & Ha & Pa). exists (a :: k). cbn. rewrite Ha. cbn. rewrite Hk. cbn. eauto.
Qed.
#[export] Instance reads_optional {A} s (f : jsval -> option A) P :
  Reads s f P -> Reads (ZOptional s) (as_opt f) (fun o => forall a, o = Some a -> P a).
Proof.
  intros Hs v w. rewrite zparse_optional. unfold as_opt. case_match; [intros [= <-]; exists None; by split|].
  intros (a & Ha & HP)%Hs. case_match; [exists None; by split|]. exists (Some a). rewrite Ha. split; [done|]. by intros ? [= <-].
Qed.
#[export] Instance reads_default {A} s (f : jsval -> option A) P d :
  Reads s f P -> DefaultRead f P d -> Reads (ZDefault s d) f P.
Proof. intros Hs Hd v w. rewrite zparse_default. case_match; [by intros [= <-]|apply Hs]. Qed.
#[export] Instance reads_or_parsed {A} s (f : jsval -> option A) P : Reads s f P -> Reads (or_parsed s) f P.
Proof.
  intros Hs v w. unfold or_parsed. rewrite zparse_transform, zparse_optional.
  destruct (is_undefined v); [apply Hs|]. destruct (zparse s v) as [u|] eqn:E; [|done].
  destruct (nullish u); [apply Hs|]. intros [= <-]. by apply (Hs v).
Qed.

(** ** Objects *)

Lemma object_fields_absent v fields l k :
  object_fields zparse v fields = Some l -> k ∉ map fst fields -> assoc k l = JUndefined.
Proof.
  revert l; induction fields as [|[k' s] fields IH]; cbn; intros l Hl Hk; [by simplify_eq|].
  apply not_elem_of_cons in Hk as [Hk Hks].
  destruct (zparse s (jget v k')) as [w|]; [|done]. destruct (object_fields zparse v fields) as [l'|]; [|by destruct w].
  specialize (IH l' eq_refl Hks). destruct w; simplify_eq; try done; cbn; destruct (String.eqb_spec k k'); congruence.
Qed.

(** Each key of the shape key_holds what its schema made of the input's. *)
Lemma object_fields_get v fields l k s :
  NoDup (map fst fields) -> object_fields zparse v fields = Some l -> (k, s) ∈ fields ->
  zparse s (jget v k) = Some (assoc k l).
Proof.
  revert l; induction fields as [|[k' s'] fields IH]; cbn; intros l Hn Hl Hk; [by apply elem_of_nil in Hk|].
  apply NoDup_cons in Hn as [Hk' Hn].
  destruct (zparse s' (jget v k')) as [w|] eqn:Hw; [|done].
  destruct (object_fields zparse v fields) as [l'|] eqn:Hl'; [|by destruct w].
  apply elem_of_cons in Hk as [[= -> ->]|Hk].
  - rewrite Hw. pose proof (object_fields_absent _ _ _ _ Hl' Hk').
    destruct w; simplify_eq; cbn; rewrite ?String.eqb_refl; congruence.
  - assert (k <> k') as Hne by (intros ->; apply Hk'; apply list_elem_of_fmap; by exists (k', s)).
    rewrite (IH _ Hn eq_refl Hk).
    destruct w; simplify_eq; cbn; try done; by apply String.eqb_neq in Hne as ->.
Qed.

Lemma object_get fields v w k s :
  zparse (ZObject fields) v = Some w -> bool_decide (NoDup (map fst fields)) = true -> (k, s) ∈ fields ->
  zparse s (jget v k) = Some (jget w k).
Proof.
  rewrite zparse_object. intros Hw Hn%bool_decide_eq_true Hk. destruct v; try done.
  apply fmap_Some in Hw as (l' & Hl & ->). by eapply object_fields_get.
Qed.

Lemma object_is_object fields v w : zparse (ZObject fields) v = Some w -> exists l, w = JObj l.
Proof. rewrite zparse_object. destruct v; try done. intros (k & _ & ->)%fmap_Some. by exists k. Qed.

(** The same, with the schema looked up. *)
Lemma object_key k fields v w :
  zparse (ZObject fields) v = Some w -> bool_decide (NoDup (map fst fields)) = true ->
  match assoc_str k fields with Some s => zparse s (jget v k) = Some (jget w k) | None => True end.
Proof.
  intros Hw Hn. destruct (assoc_str k fields) as [s|] eqn:E; [|done]. apply (object_get _ _ _ _ _ Hw Hn).
  clear -E. induction fields as [|[k' s'] fields IH]; [done|]. cbn in E.
  destruct (String.eqb_spec k k') as [->|]; simplify_eq; [apply list_elem_of_here|apply list_elem_of_further, IH, E].
Qed.
End Reads.

(** The defaults of the schemas, by evaluation. *)
Ltac default_reads :=
  eexists; split; [vm_compute; reflexivity|]; cbn beta;
  first [exact I | reflexivity | solve [repeat first [apply list_elem_of_here | apply list_elem_of_further]] | solve [repeat constructor]].
#[export] Hint Extern 0 (DefaultRead _ _ _) => default_reads : typeclass_instances.

(** ** What a configuration guarantees *)

Definition quality_ok (q : Z) : Prop := 0 <= q <= 100.

Record image_ok (o : ImageOpts) : Prop := {
  img_quality : quality_ok (io_quality o);
  img_width : 0 < io_maxWidth o;
  img_height : 0 < io_maxHeight o;
  img_format : io_outputFormat o ∈ ["webp"; "jpeg"; "png"];
  img_fps : 0 < io_fps o
}.
Record video_ok (o : VideoOpts) : Prop := {
  vid_quality : quality_ok (vo_quality o);
  vid_height : 0 < vo_maxHeight o;
  vid_fps : 0 < vo_maxFps o;
  vid_format : vo_format o ∈ ["mp4"; "webm"; "mkv"];
  vid_video : vo_videoCodec o ∈ VIDEO_CODEC_FOR_FORMAT (vo_format o);
  vid_audio : vo_audioCodec o ∈ AUDIO_CODEC_FOR_FORMAT (vo_format o)
}.
Record thumbnail_ok (o : ThumbOpts) : Prop := {
  thm_quality : quality_ok (th_quality o);
  thm_width : 0 < th_maxWidth o;
  thm_height : 0 < th_maxHeight o;
  thm_format : th_outputFormat o ∈ ["webp"; "jpeg"; "png"];
  thm_seek : num_ge (th_videoSeek o) 0 = true
}.
Record mconfig_ok (c : MConfig) : Prop := {
  mcf_size : 0 < mc_maxSize c;
  mcf_image : image_ok (mc_image c);
  mcf_video : video_ok (mc_video c);
  mcf_thumbnail : thumbnail_ok (mc_thumbnail c)
}.
Record nconfig_ok (c : NConfig) : Prop := {
  ncf_size : 0 < cf_maxSize c;
  ncf_media : mconfig_ok (cf_media c)
}.
Record sconfig_ok (c : SConfig) : Prop := {
  scf_routes : nconfig_ok (sc_routes c);
  scf_port : 1 <= sc_port c <= 65535;
  scf_backend : sc_backend c = "local" \/ sc_backend c = "s3";
  scf_workers : 0 <= sc_workers c;
  scf_jobs : 1 <= sc_maxJobsPerWorker c;
  scf_window : 100 <= sc_throughputWindowMs c;
  scf_connect : 0 <= sc_connectTimeout c;
  scf_body : 0 <= sc_bodyTimeout c;
  scf_delay : 0 <= sc_initialDelayMs c;
  scf_interval : 1000 <= sc_intervalMs c
}.

(** Read the key [k] of the object parsed in [Hw]. *)
Ltac read_key Hw k :=
  let Ha := fresh "Ha" in let HP := fresh "HP" in
  pose proof (object_key k _ _ _ Hw eq_refl) as Ha; cbn [assoc_str String.eqb Ascii.eqb Bool.eqb] in Ha;
  apply reads in Ha as (? & Ha & HP); cbn beta in HP.
(** Use what has been read. *)
Ltac reading :=
  repeat match goal with
         | H : ?e = Some _ |- context [mbind _ ?e] => rewrite H; cbn [mbind option_bind]
         end.
Ltac bounds :=
  unfold quality_ok;
  repeat match goal with
         | H : forallb _ _ = true |- _ => cbn [forallb check_int] in H
         | H : _ && _ = true |- _ => apply andb_true_iff in H as [??]
         end; zbool; try lia; try done.

Section Sections.
Context `{ZodLaws}.

#[export] Instance reads_rule : Reads StorageRuleSchema read_rule (fun _ => True).
Proof.
  intros v w Hw. read_key Hw "type". read_key Hw "expiration". read_key Hw "pubkeys".
  unfold read_rule. reading. by eexists.
Qed.
#[export] Instance reads_local : Reads LocalStorageSchema read_local (fun _ => True).
Proof. intros v w Hw. read_key Hw "dir". by eexists. Qed.
#[export] Instance reads_s3 : Reads S3StorageSchema read_s3 (fun _ => True).
Proof.
  intros v w Hw. read_key Hw "endpoint". read_key Hw "bucket". read_key Hw "accessKey". read_key Hw "secretKey".
  read_key Hw "region". read_key Hw "publicURL". read_key Hw "tmpDir".
  unfold read_s3. reading. by eexists.
Qed.
#[export] Instance reads_image : Reads ImageOptimizeSchema read_image image_ok.
Proof.
  intros v w Hw. read_key Hw "quality". read_key Hw "progressive". read_key Hw "maxWidth". read_key Hw "maxHeight".
  read_key Hw "outputFormat". read_key Hw "keepExif". read_key Hw "fps".
  unfold read_image. reading. eexists. split; [done|]. constructor; cbn; bounds.
Qed.
#[export] Instance reads_thumbnail : Reads ThumbnailSchema read_thumbnail thumbnail_ok.
Proof.
  intros v w Hw. read_key Hw "enabled". read_key Hw "quality". read_key Hw "maxWidth". read_key Hw "maxHeight".
  read_key Hw "outputFormat". read_key Hw "videoSeek".
  unfold read_thumbnail. reading. eexists. split; [done|]. constructor; cbn; bounds.
Qed.
#[export] Instance reads_database : Reads DatabaseSchema read_database (fun _ => True).
Proof.
  intros v w Hw. read_key Hw "path". read_key Hw "url". read_key Hw "authToken".
  unfold read_database. reading. by eexists.
Qed.

Lemma as_str_inv v s : as_str v = Some s -> v = JStr s.
Proof. destruct v; naive_solver. Qed.

#[export] Instance reads_video : Reads VideoOptimizeSchema read_video video_ok.
Proof.
  intros v w. unfold VideoOptimizeSchema. rewrite zparse_refine. case_match eqn:Hw; [|done].
  case_match eqn:Hc; [|done]. intros [= ->].
  read_key Hw "quality". read_key Hw "maxHeight". read_key Hw "maxFps". read_key Hw "format".
  read_key Hw "audioCodec". read_key Hw "videoCodec".
  unfold read_video. reading. eexists. split; [done|]. unfold codecs_match in Hc.
  repeat match goal with Ha : as_str (jget w _) = Some _ |- _ => apply as_str_inv in Ha; rewrite Ha in Hc end.
  rewrite andb_true_iff, !bool_decide_eq_true in Hc. destruct Hc. constructor; cbn; bounds.
Qed.

#[export] Instance reads_media sameFs : Reads MediaSchema (read_media sameFs) mconfig_ok.
Proof.
  intros v w Hw. read_key Hw "enabled". read_key Hw "requireAuth". read_key Hw "maxSize". read_key Hw "image".
  read_key Hw "video". read_key Hw "thumbnail".
  unfold read_media. reading. eexists. split; [done|]. constructor; cbn; bounds.
Qed.

(** A section as its keys. *)
Definition key_holds {A} (f : jsval -> option A) (P : A -> Prop) (w : jsval) (k : string) : Prop :=
  exists a, f (jget w k) = Some a /\ P a.
Definition any {A} (_ : A) : Prop := True.
Definition at_least (m z : Z) : Prop := m <= z.

Definition storage_section (w : jsval) : Prop :=
  key_holds as_str (fun s => s = "local" \/ s = "s3") w "backend" /\ key_holds (as_opt read_local) any w "local" /\
  key_holds (as_opt read_s3) any w "s3" /\ key_holds (as_list read_rule) any w "rules" /\
  key_holds as_bool any w "removeWhenNoOwners".
Definition upload_section (w : jsval) : Prop :=
  key_holds as_bool any w "enabled" /\ key_holds as_bool any w "requireAuth" /\ key_holds as_int (at_least 1) w "maxSize" /\
  key_holds as_int (at_least 0) w "workers" /\ key_holds as_int (at_least 1) w "maxJobsPerWorker" /\
  key_holds as_int (at_least 100) w "throughputWindowMs" /\ key_holds as_bool any w "requirePubkeyInRule".
Definition mirror_section (w : jsval) : Prop :=
  key_holds as_bool any w "enabled" /\ key_holds as_bool any w "requireAuth" /\
  key_holds as_int (at_least 0) w "connectTimeout" /\ key_holds as_int (at_least 0) w "bodyTimeout".
Definition list_section (w : jsval) : Prop :=
  key_holds as_bool any w "enabled" /\ key_holds as_bool any w "requireAuth" /\ key_holds as_bool any w "allowListOthers".
Definition landing_section (w : jsval) : Prop := key_holds as_bool any w "enabled" /\ key_holds as_str any w "title".
Definition prune_section (w : jsval) : Prop :=
  key_holds as_int (at_least 0) w "initialDelayMs" /\ key_holds as_int (at_least 1000) w "intervalMs".
Definition dashboard_section (w : jsval) : Prop :=
  key_holds as_bool any w "enabled" /\ key_holds as_str any w "username" /\ key_holds as_str any w "password" /\
  key_holds (as_list as_str) any w "lookupRelays".

Ltac section_keys Hw :=
  repeat match goal with
         | |- _ /\ _ => split
         | |- key_holds _ _ _ ?k => read_key Hw k; eexists; split; [eassumption|]; unfold any, at_least; bounds
         end.

#[export] Instance reads_storage_section : Reads StorageSchema Some storage_section.
Proof.
  intros v w Hw. exists w. split; [done|]. unfold storage_section. section_keys Hw.
  set_unfold. naive_solver.
Qed.
#[export] Instance reads_upload_section : Reads UploadSchema Some upload_section.
Proof. intros v w Hw. exists w. split; [done|]. unfold upload_section. section_keys Hw. Qed.
#[export] Instance reads_delete_section : Reads DeleteSchema Some (fun w => key_holds as_bool any w "requireAuth").
Proof. intros v w Hw. exists w. split; [done|]. section_keys Hw. Qed.
#[export] Instance reads_list_section : Reads ListSchema Some list_section.
Proof. intros v w Hw. exists w. split; [done|]. unfold list_section. section_keys Hw. Qed.
#[export] Instance reads_landing_section : Reads LandingSchema Some landing_section.
Proof. intros v w Hw. exists w. split; [done|]. unfold landing_section. section_keys Hw. Qed.
#[export] Instance reads_report_section : Reads ReportSchema Some (fun w => key_holds as_bool any w "enabled").
Proof. intros v w Hw. exists w. split; [done|]. section_keys Hw. Qed.
#[export] Instance reads_prune_section : Reads PruneSchema Some prune_section.
Proof. intros v w Hw. exists w. split; [done|]. unfold prune_section. section_keys Hw. Qed.
#[export] Instance reads_dashboard_section : Reads DashboardSchema Some dashboard_section.
Proof. intros v w Hw. exists w. split; [done|]. unfold dashboard_section. section_keys Hw. Qed.

(** *** The two transformations *)

Lemma assoc_with_key k k' v l : assoc k (with_key k' v l) = if String.eqb k k' then v else assoc k l.
Proof.
  induction l as [|[k2 v2] l IH]; cbn; [done|].
  destruct (String.eqb_spec k' k2) as [->|Hne]; cbn; [by case_match|].
  rewrite IH. destruct (String.eqb_spec k k2) as [->|]; [|done]. by apply not_eq_sym, String.eqb_neq in Hne as ->.
Qed.
Lemma assoc_drop_key k k' l : k <> k' -> assoc k (drop_key k' l) = assoc k l.
Proof.
  intros Hne. unfold drop_key. induction l as [|[k2 v2] l IH]; cbn; [done|].
  destruct (String.eqb_spec k2 k') as [->|]; cbn; rewrite IH; [|done]. by apply String.eqb_neq in Hne as ->.
Qed.
Lemma jget_entries v k : assoc k (entries_of v) = jget v k.
Proof. by destruct v. Qed.

(** The connection timeout has a default, so what the deprecated setting says
    never matters. *)
Lemma promote_timeout_get w w' k :
  promote_timeout w = Some w' -> nullish (jget w "connectTimeout") = false -> k <> "fetchTimeout" ->
  jget w' k = jget w k.
Proof.
  unfold promote_timeout. cbv zeta. intros Hw Hc Hk. case_match; simplify_eq; [done|]. cbn [jget].
  rewrite assoc_drop_key, jget_entries, Hc by done. rewrite assoc_with_key.
  destruct (String.eqb_spec k "connectTimeout") as [->|]; [done|]. by rewrite assoc_drop_key, jget_entries.
Qed.

Lemma as_int_nullish v z : as_int v = Some z -> nullish v = false.
Proof. by destruct v. Qed.

#[export] Instance reads_mirror_section : Reads MirrorSchema Some mirror_section.
Proof.
  intros v w'. unfold MirrorSchema. rewrite zparse_transform. case_match eqn:Hw; [|done]. intros Hp. exists w'. split; [done|].
  assert (mirror_section j) as (H1 & H2 & H3 & H4) by (unfold mirror_section; section_keys Hw).
  pose proof H3 as (z & Hz%as_int_nullish & _).
  unfold mirror_section, key_holds in *. by rewrite !(promote_timeout_get _ _ _ Hp Hz).
Qed.

(** The settings of the routes and the sections they are read from. *)
Record config_sections (w : jsval) : Prop := {
  cse_domain : key_holds as_str any w "publicDomain";
  cse_host : key_holds as_str any w "host";
  cse_port : key_holds as_int (fun z => 1 <= z <= 65535) w "port";
  cse_storage : storage_section (jget w "storage");
  cse_upload : upload_section (jget w "upload");
  cse_mirror : mirror_section (jget w "mirror");
  cse_delete : key_holds as_bool any (jget w "delete") "requireAuth";
  cse_list : list_section (jget w "list");
  cse_landing : landing_section (jget w "landing");
  cse_media : forall sameFs, key_holds (read_media sameFs) mconfig_ok w "media";
  cse_aspect : key_holds as_bool any (jget (jget w "media") "image") "maintainAspectRatio";
  cse_prune : prune_section (jget w "prune");
  cse_dashboard : dashboard_section (jget w "dashboard");
  cse_report : key_holds as_bool any (jget w "report") "enabled"
}.

Lemma reads_aspect : Reads ImageOptimizeSchema Some (fun w => key_holds as_bool any w "maintainAspectRatio").
Proof. intros v w Hw. exists w. split; [done|]. section_keys Hw. Qed.
Lemma media_aspect :
  Reads MediaSchema Some (fun w => key_holds as_bool any (jget w "image") "maintainAspectRatio").
Proof.
  intros v w Hw. exists w. split; [done|].
  pose proof (object_key "image" _ _ _ Hw eq_refl) as Ha. cbn [assoc_str String.eqb Ascii.eqb Bool.eqb] in Ha.
  by apply (reads_or_parsed _ _ _ reads_aspect) in Ha as (? & [= <-] & ?).
Qed.

Lemma config_object v w : zparse (ZObject config_fields) v = Some w -> config_sections w.
Proof.
  intros Hw. unfold config_fields in Hw.
  split;
    try match goal with
        | |- _ (jget _ ?k) => read_key Hw k; simplify_eq; assumption
        | |- key_holds _ _ (jget _ ?k) _ => read_key Hw k; simplify_eq; assumption
        | |- key_holds _ _ _ ?k => section_keys Hw
        end.
  - intros sameFs. pose proof (object_key "media" _ _ _ Hw eq_refl) as Ha.
    cbn [assoc_str String.eqb Ascii.eqb Bool.eqb] in Ha. apply (reads_or_parsed _ _ _ (reads_media sameFs) _ _ Ha).
  - pose proof (object_key "media" _ _ _ Hw eq_refl) as Ha. cbn [assoc_str String.eqb Ascii.eqb Bool.eqb] in Ha.
    by apply (reads_or_parsed _ _ _ media_aspect) in Ha as (? & [= <-] & ?).
Qed.

Lemma config_sections_ext w w' :
  (forall k, k <> "database" -> k <> "databasePath" -> jget w' k = jget w k) -> config_sections w -> config_sections w'.
Proof.
  intros Hk [? ? ? ? ? ? ? ? ? ? ? ? ? ?].
  split; unfold key_holds in *; rewrite Hk by done; assumption.
Qed.

Lemma merge_database_get raw w k :
  merge_database raw = Some w -> k <> "database" -> k <> "databasePath" -> jget w k = jget raw k.
Proof.
  unfold merge_database. cbv zeta. case_match; [|done]. intros [= <-] Hd Hp. cbn [jget].
  rewrite assoc_with_key. apply String.eqb_neq in Hd as ->. by rewrite assoc_drop_key, jget_entries.
Qed.

(** The section that is parsed into the database's settings. *)
Definition database_section (raw : jsval) : jsval :=
  JObj (if is_undefined (jget (jget raw "database") "path") && negb (is_undefined (jget raw "databasePath"))
        then with_key "path" (jget raw "databasePath") (entries_of (jget raw "database"))
        else entries_of (jget raw "database")).
Lemma merge_database_section raw w :
  merge_database raw = Some w -> zparse DatabaseSchema (database_section raw) = Some (jget w "database").
Proof.
  unfold merge_database, database_section. cbv zeta. case_match; [|done]. intros [= <-]. cbn [jget]. by rewrite assoc_with_key.
Qed.

Lemma config_parsed v w :
  zparse ConfigSchema v = Some w ->
  exists raw, zparse (ZObject config_fields) v = Some raw /\ merge_database raw = Some w.
Proof. unfold ConfigSchema. rewrite zparse_transform. case_match; [|done]. eauto. Qed.

Ltac open_sections :=
  repeat match goal with
         | H : storage_section _ |- _ => destruct H as (? & ? & ? & ? & ?)
         | H : upload_section _ |- _ => destruct H as (? & ? & ? & ? & ? & ? & ?)
         | H : mirror_section _ |- _ => destruct H as (? & ? & ? & ?)
         | H : list_section _ |- _ => destruct H as (? & ? & ?)
         | H : landing_section _ |- _ => destruct H as [? ?]
         | H : prune_section _ |- _ => destruct H as [? ?]
         | H : dashboard_section _ |- _ => destruct H as (? & ? & ? & ?)
         | H : key_holds _ _ _ _ |- _ => destruct H as (? & ? & ?)
         end.

Lemma read_routes_ok sameFs w :
  config_sections w -> exists c, read_routes sameFs w = Some c /\ nconfig_ok c.
Proof.
  intros [? ? ? ? ? ? ? ? ? Hm ? ? ? ?]. specialize (Hm sameFs). unfold read_routes. open_sections. cbv zeta. reading.
  eexists. split; [done|]. split; cbn; [|done]. unfold at_least in *. lia.
Qed.

#[export] Instance reads_config sameFs : Reads ConfigSchema (read_config sameFs) sconfig_ok.
Proof.
  intros v w (raw & Hraw & Hw)%config_parsed.
  assert (config_sections w) as Hs by eauto using config_sections_ext, merge_database_get, config_object.
  destruct (read_routes_ok sameFs w Hs) as (c & Hc & Hok).
  apply merge_database_section, reads in Hw as (d & Hd & _).
  destruct Hs. unfold read_config. open_sections. cbv zeta. reading.
  eexists. split; [done|]. unfold at_least in *. by split.
Qed.
End Sections.

(** ** Startup *)

Lemma idle_room size max i : (0 < size)%nat -> 1 <= max ->
  exists j w, lightest max i (replicate size {| ws_jobCount := 0; ws_throughputBps := 0 |}) = Some (j, w).
Proof.
  revert i; induction size as [|size IH]; intros i Hs Hm; [lia|]. cbn [replicate lightest].
  replace (has_room max _) with true by (unfold has_room; cbn; symmetry; lia).
  destruct (lightest max (S i) _) as [[j w]|]; [case_match|]; eauto.
Qed.

Lemma started_pool_accepts c cores :
  sconfig_ok c -> 1 <= cores ->
  exists id, fst (dispatch (sc_maxJobsPerWorker c) (new_pool (Z.to_nat (pool_size cores c)))) = Some id.
Proof.
  intros [_ _ _ Hw Hj _ _ _ _ _] Hc. unfold dispatch, new_pool; cbn [pl_workers].
  destruct (idle_room (Z.to_nat (pool_size cores c)) (sc_maxJobsPerWorker c) 0) as (j & ws & ->); [|done|by eexists].
  unfold pool_size. case_match; zbool; lia.
Qed.

Lemma pruneEnabled_false c :
  pruneEnabled c = false -> cf_rules (sc_routes c) = [] /\ cf_removeWhenNoOwners (sc_routes c) = false.
Proof. unfold pruneEnabled. rewrite orb_false_iff, bool_decide_eq_false. destruct (cf_rules _); cbn; [naive_solver|lia]. Qed.

(** How startup may end: it exits under [E]; it fails in the last call it made,
    the others having succeeded; or it runs, all of them having succeeded, with
    settings in [R]. *)
Definition starts (m : start_call -> exc string unit) (k : start_call) : Prop := is_ok (m k) = true.
Definition ended (m : start_call -> exc string unit) (E : Prop) (R : Startup -> Prop)
    (x : list start_call * start_outcome) : Prop :=
  match x with
  | (_, Exits _) => E
  | (calls, Fails k _) => exists before e, calls = before ++ [k] /\ Forall (starts m) before /\ m k = Throw e
  | (calls, Runs s) => Forall (starts m) calls /\ R s
  end.

Lemma calling_ended m E R k wrap rest : ended m E R rest -> ended m E R (calling m k wrap rest).
Proof.
  unfold calling. destruct (m k) as [u|e] eqn:Ek; [|by exists [], e].
  assert (starts m k) as Hk by (unfold starts; by rewrite Ek).
  destruct rest as [calls [code|k' e'|s]]; cbn; [done| |].
  - intros (before & e0 & -> & Hb & Hk'). exists (k :: before), e0. split_and!; [done|by constructor|done].
  - intros [Hc Hr]. split; [by constructor|done].
Qed.

Lemma calling_runs m k wrap rest : starts m k -> snd (calling m k wrap rest) = snd rest.
Proof. unfold calling, starts. by destruct (m k). Qed.

Lemma startup_ended m cores b64 c (R : Startup -> Prop) :
  (forall st, R (settings_of cores b64 st c)) -> ended m (choose_storage c = None) R (startup m cores b64 c).
Proof.
  intros HR. unfold startup.
  assert (forall x, ended m (choose_storage c = None) R x ->
    ended m (choose_storage c = None) R (if migrates c then calling m (CallMigrate (dc_path (sc_database c))) id x else x)) as Hm
    by (intros x Hx; destruct (migrates c); [by apply calling_ended|done]).
  apply Hm, calling_ended. destruct (choose_storage c) as [st|] eqn:Ec; [|done].
  destruct st; cbn [storage_setup]; repeat apply calling_ended; split; auto.
Qed.

(** With every call answered, only a missing section stops it. *)
Lemma startup_runs m cores b64 c st :
  (forall k, starts m k) -> choose_storage c = Some st ->
  snd (startup m cores b64 c) = Runs (settings_of cores b64 st c).
Proof.
  intros Hm Hc. unfold startup. rewrite Hc. destruct (migrates c), st; cbn [storage_setup]; by rewrite !calling_runs.
Qed.

Section Startup.
Context `{ZodLaws} `{Yaml}.

(** C37: a configuration that loads can be run. Whatever the file and the
    environment hold, the value [loadConfig] returns has every setting the
    server reads, of its type and within its bounds (sizes positive, qualities
    up to 100, codecs that fit the container, a port, at least a second between
    two prune runs). Of the settings, only the object store chosen without its
    section then makes startup refuse, by exiting. Otherwise it goes as far as
    the calls it makes succeed: the migration and opening of the database, the
    preparation of the storage (with the check of the bucket), the pool, the
    routes and the listening socket. The first of them to throw ends it, and
    when they all succeed the server runs; its pool then accepts an upload, and
    it prunes unless nothing is to be pruned. *)
Theorem loaded_config_runs env file w sameFs m cores b64 :
  loadConfig env file = Ok w -> 1 <= cores ->
  exists c, read_config sameFs w = Some c /\ sconfig_ok c /\
    match startup m cores b64 c with
    | (_, Exits _) => sc_backend c = "s3" /\ sc_s3 c = None
    | (calls, Fails k _) => exists before e, calls = before ++ [k] /\ Forall (starts m) before /\ m k = Throw e
    | (calls, Runs s) => Forall (starts m) calls /\
        (exists id, fst (dispatch (sc_maxJobsPerWorker c) (new_pool (su_workers s))) = Some id) /\
        match su_prune s with
        | Some (delay, gap) => 0 <= delay /\ 1000 <= gap
        | None => cf_rules (sc_routes c) = [] /\ cf_removeWhenNoOwners (sc_routes c) = false
        end
    end /\
    ((forall k, starts m k) -> sc_backend c = "local" \/ is_Some (sc_s3 c) ->
     exists calls s, startup m cores b64 c = (calls, Runs s)).
Proof.
  unfold loadConfig. intros Hl Hc.
  destruct (match file with FileMissing => _ | FileUnreadable => _ | FileText _ => _ end); [|done].
  destruct (zparse ConfigSchema _) as [w'|] eqn:Hw; [|done]. injection Hl as ->.
  destruct (reads_config sameFs _ _ Hw) as (c & Hr & Hok). exists c. do 2 (split; [done|]).
  pose proof (started_pool_accepts c cores Hok Hc) as Hp. pose proof (pruneEnabled_false c) as Hpr.
  destruct Hok as [_ _ Hb _ _ _ _ _ Hd Hi]. split.
  - pose proof (startup_ended m cores b64 c (fun s =>
      (exists id, fst (dispatch (sc_maxJobsPerWorker c) (new_pool (su_workers s))) = Some id) /\
      match su_prune s with
      | Some (delay, gap) => 0 <= delay /\ 1000 <= gap
      | None => cf_rules (sc_routes c) = [] /\ cf_removeWhenNoOwners (sc_routes c) = false
      end)) as He.
    specialize (He ltac:(intros st; split; [done|]; cbn; by destruct (pruneEnabled c); auto)).
    unfold ended in He. destruct (startup m cores b64 c) as [calls [code|k e|s]]; [|done|done].
    unfold choose_storage in He. destruct Hb as [Hb|Hb]; rewrite Hb in He |- *; [done|]. split; [done|].
    by destruct (sc_s3 c).
  - intros Hm Hs. assert (exists st, choose_storage c = Some st) as [st Hst].
    { unfold choose_storage. destruct Hs as [->|[k ->]]; [by eexists|]. case_match; by eexists. }
    pose proof (startup_runs m cores b64 c st Hm Hst) as Hrun. destruct (startup m cores b64 c) as [calls o]. cbn in Hrun.
    subst o. by eexists _, _.
Qed.

(** A default given, or the value. *)
Definition or_default (v d : jsval) : jsval := if is_undefined v then d else v.

Lemma string_default s v w :
  zparse (ZDefault ZString (JStr s)) v = Some w -> w = or_default v (JStr s) /\ is_undefined w = false.
Proof. rewrite zparse_default, zparse_string. destruct v; cbn; try done; by intros [= <-]. Qed.
Lemma number_default cs d v w : zparse (ZDefault (ZNumber cs) d) v = Some w -> w = or_default v d.
Proof.
  rewrite zparse_default, zparse_number. unfold or_default. destruct v; cbn; try done; try congruence. case_match; congruence.
Qed.
Lemma optional_string v w : zparse (ZOptional ZString) v = Some w -> w = v.
Proof. rewrite zparse_optional, zparse_string. destruct v; cbn; try done; by intros [= <-]. Qed.
Lemma optional_section s v w :
  zparse (ZOptional s) v = Some w -> (v = JUndefined /\ w = JUndefined) \/ (is_undefined v = false /\ zparse s v = Some w).
Proof. rewrite zparse_optional. destruct v; cbn; naive_solver. Qed.

(** The key [k] of the object parsed in [Hw], as its schema's result. *)
Ltac key_of Hw k Ha :=
  pose proof (object_key k _ _ _ Hw eq_refl) as Ha; cbn [assoc_str String.eqb Ascii.eqb Bool.eqb] in Ha.

Lemma database_parsed v w :
  zparse DatabaseSchema v = Some w ->
  jget w "path" = or_default (jget v "path") (JStr "data/sqlite.db") /\ is_undefined (jget w "path") = false.
Proof. intros Hw. key_of Hw "path" Ha. by apply string_default. Qed.

Lemma mirror_parsed v w :
  zparse MirrorSchema v = Some w -> jget w "connectTimeout" = or_default (jget v "connectTimeout") (jint 30000).
Proof.
  unfold MirrorSchema. rewrite zparse_transform. case_match eqn:Hw; [|done]. intros Hp.
  read_key Hw "connectTimeout". key_of Hw "connectTimeout" Hc. apply number_default in Hc as <-.
  eapply promote_timeout_get; [done| |done]. by eapply as_int_nullish.
Qed.

(** The section that is given, or the empty one. *)
Lemma or_parsed_given s v w :
  (forall u x, zparse s u = Some x -> nullish x = false) ->
  zparse (or_parsed s) v = Some w -> zparse s (or_default v (JObj [])) = Some w.
Proof.
  intros Hs. unfold or_parsed, or_default. rewrite zparse_transform, zparse_optional. destruct (is_undefined v); [done|].
  destruct (zparse s v) as [x|] eqn:E; [|done]. by rewrite (Hs _ _ E).
Qed.
Lemma mirror_not_nullish u x : zparse MirrorSchema u = Some x -> nullish x = false.
Proof. intros (? & [= <-] & (b & Hb & _) & _)%reads. by destruct x. Qed.

Lemma video_codecs_given v w :
  zparse VideoOptimizeSchema v = Some w -> jget v "format" = JStr "webm" ->
  is_undefined (jget v "videoCodec") = false /\ is_undefined (jget v "audioCodec") = false.
Proof.
  unfold VideoOptimizeSchema. rewrite zparse_refine. case_match eqn:Hw; [|done]. case_match eqn:Hc; [|done]. intros [= ->] Hf.
  key_of Hw "format" Ha. rewrite Hf, zparse_default, zparse_enum in Ha. cbn in Ha. injection Ha as Ha.
  key_of Hw "videoCodec" Hv. rewrite zparse_default in Hv. key_of Hw "audioCodec" Hu. rewrite zparse_default in Hu.
  unfold codecs_match in Hc. rewrite <- Ha in Hc.
  split.
  - destruct (is_undefined (jget v "videoCodec")); [|done]. injection Hv as Hv. rewrite <- Hv in Hc. by destruct (jget w "audioCodec").
  - destruct (is_undefined (jget v "audioCodec")); [|done]. injection Hu as Hu. rewrite <- Hu in Hc.
    destruct (jget w "videoCodec"); try done. by rewrite andb_false_r in Hc.
Qed.

(** C38: what the deprecated settings do. In every configuration that is
    accepted, the path of the database is [databasePath] only when there is no
    database section; a section without a path gets the default path, although
    the comment gives [databasePath] priority over it. The connection timeout is
    the one given or the default: [fetchTimeout] has no effect at all. And a
    video section whose format is webm names both its codecs, since the
    defaults are those of mp4. *)
Theorem deprecated_settings v w :
  zparse ConfigSchema v = Some w ->
  jget (jget w "database") "path" =
    or_default (if is_undefined (jget v "database") then jget v "databasePath" else jget (jget v "database") "path")
               (JStr "data/sqlite.db") /\
  jget (jget w "mirror") "connectTimeout" = or_default (jget (jget v "mirror") "connectTimeout") (jint 30000) /\
  (jget (jget (jget v "media") "video") "format" = JStr "webm" ->
   is_undefined (jget (jget (jget v "media") "video") "videoCodec") = false /\
   is_undefined (jget (jget (jget v "media") "video") "audioCodec") = false).
Proof.
  intros (raw & Hr & Hw)%config_parsed. unfold config_fields in Hr. split; [|split].
  - apply merge_database_section, database_parsed in Hw as [-> _]. unfold database_section.
    key_of Hr "databasePath" Hp. apply optional_string in Hp as ->.
    key_of Hr "database" Hd. apply optional_section in Hd as [[-> ->]|[Hn (Hd & Hu)%database_parsed]]; cbn [jget].
    + cbn [is_undefined jget entries_of]. destruct (jget v "databasePath"); reflexivity.
    + rewrite Hu, Hn. cbn [andb]. rewrite jget_entries, Hd.
      unfold or_default. by destruct (is_undefined (jget (jget v "database") "path")) eqn:E; rewrite ?E.
  - rewrite (merge_database_get _ _ _ Hw) by done. key_of Hr "mirror" Hm.
    apply or_parsed_given, mirror_parsed in Hm; [|apply mirror_not_nullish]. rewrite Hm. by destruct (jget v "mirror").
  - intros Hf. key_of Hr "media" Hm. unfold or_parsed at 1 in Hm. rewrite zparse_transform, zparse_optional in Hm.
    destruct (is_undefined (jget v "media")) eqn:E; [by destruct (jget v "media")|].
    destruct (zparse MediaSchema (jget v "media")) as [m|] eqn:Hmm; [|done].
    key_of Hmm "video" Hv. unfold or_parsed in Hv. rewrite zparse_transform, zparse_optional in Hv.
    destruct (is_undefined (jget (jget v "media") "video")) eqn:Ev; [by destruct (jget (jget v "media") "video")|].
    destruct (zparse VideoOptimizeSchema _) as [x|] eqn:Hx; [|done]. by eapply video_codecs_given.
Qed.
End Startup.

(** ** Placeholders *)

(** A template: texts without a dollar sign, and placeholders. *)
Inductive part := Text (t : string) | Var (name : string).
Definition part_ok (p : part) : Prop :=
  match p with
  | Text t => sall (fun c => negb (Ascii.eqb c "$")) t = true
  | Var name => name <> "" /\ sall (fun c => negb (Ascii.eqb c "}")) name = true
  end.
Definition written (p : part) : string := match p with Text t => t | Var name => "${" +:+ name +:+ "}" end.
Definition meant (env : string -> option string) (p : part) : string :=
  match p with Text t => t | Var name => env_value env name end.

Lemma interpolate_skip env a b : interpolate env (String.length a) (a +:+ b) = interpolate env 0 b.
Proof. induction a as [|c a IH]; [by destruct b|exact IH]. Qed.
Lemma interpolate_text env t s :
  sall (fun c => negb (Ascii.eqb c "$")) t = true -> interpolate env 0 (t +:+ s) = t +:+ interpolate env 0 s.
Proof.
  induction t as [|c t IH]; cbn [sall]; [done|]. rewrite andb_true_iff, negb_true_iff. intros [Hc Ht].
  change (String c t +:+ s) with (String c (t +:+ s)). cbn [interpolate].
  replace (placeholder (String c (t +:+ s))) with (@None string) by (cbn; rewrite Hc; by destruct (t +:+ s)).
  rewrite IH by done. done.
Qed.
Lemma interpolate_at env c s name :
  placeholder (String c s) = Some name ->
  interpolate env 0 (String c s) = env_value env name +:+ interpolate env (String.length name + 2) s.
Proof. intros Hp. cbn [interpolate]. by rewrite Hp. Qed.
Lemma interpolate_var env name s :
  name <> "" -> sall (fun c => negb (Ascii.eqb c "}")) name = true ->
  interpolate env 0 (written (Var name) +:+ s) = env_value env name +:+ interpolate env 0 s.
Proof.
  intros Hne Hn. cbn [written].
  replace (("${" +:+ name +:+ "}") +:+ s) with (String "$" (String "{" (name +:+ String "}" s)))
    by (rewrite <- ?sapp_assoc; reflexivity).
  assert (placeholder (String "$" (String "{" (name +:+ String "}" s))) = Some name) as Hp.
  { cbn. rewrite span_app; [by destruct name|done|done]. }
  rewrite (interpolate_at _ _ _ _ Hp). f_equal. replace (String "{" (name +:+ String "}" s)) with (("{" +:+ name +:+ "}") +:+ s)
    by (rewrite <- ?sapp_assoc; reflexivity).
  replace (String.length name + 2)%nat with (String.length ("{" +:+ name +:+ "}")) by (rewrite !sapp_length; cbn; lia).
  apply interpolate_skip.
Qed.

Definition joined (l : list string) : string := foldr String.append "" l.

(** A template is replaced by its meaning; a value that is inserted is not
    looked at again. *)
Theorem interpolate_template env parts :
  Forall part_ok parts -> interpolate env 0 (joined (map written parts)) = joined (map (meant env) parts).
Proof.
  unfold joined. induction 1 as [|[t|name] parts Hp _ IH]; [done| |]; cbn [map foldr].
  - cbn [written meant]. by rewrite interpolate_text, IH.
  - rewrite interpolate_var by apply Hp. by rewrite IH.
Qed.
(** ** A parser with these laws *)

Fixpoint zmodel (s : schema) (v : jsval) {struct s} : option jsval :=
  match s with
  | ZString | ZUrl => match v with JStr t => Some (JStr t) | _ => None end
  | ZBoolean => match v with JBool b => Some (JBool b) | _ => None end
  | ZNumber cs => match v with JNum n => if is_finite n && forallb (check_num n) cs then Some (JNum n) else None | _ => None end
  | ZEnum l => match v with JStr t => if bool_decide (t ∈ l) then Some (JStr t) else None | _ => None end
  | ZArray s => match v with JArr l => JArr <$> mapM (zmodel s) l | _ => None end
  | ZObject fields => match v with JObj _ => JObj <$> object_fields zmodel v fields | _ => None end
  | ZOptional s => if is_undefined v then Some JUndefined else zmodel s v
  | ZDefault s d => if is_undefined v then Some d else zmodel s v
  | ZRefine s p => match zmodel s v with Some w => if p w then Some w else None | None => None end
  | ZTransform s f => match zmodel s v with Some w => f w | None => None end
  end.

Module ConfigExamples.
#[local] Instance zod_model : Zod := {| zparse := zmodel; z_url := fun _ => true |}.
#[local] Instance zod_model_laws : ZodLaws.
Proof. by split. Qed.

(** Files by their names. *)
#[local] Instance files : Yaml := {|
  parseYaml t :=
    if String.eqb t "s3" then
      Some (JObj [("port", jint 8080);
                  ("storage", JObj [("backend", JStr "s3");
                                    ("s3", JObj [("endpoint", JStr "https://s3.example"); ("bucket", JStr "blobs");
                                                 ("accessKey", JStr "${S3_ACCESS_KEY}"); ("secretKey", JStr "${S3_SECRET_KEY}")])]);
                  ("database", JObj [("authToken", JStr "t")]); ("databasePath", JStr "old.db");
                  ("mirror", JObj [("fetchTimeout", jint 5)])])
    else if String.eqb t "port" then Some (JObj [("port", JStr "${PORT}")])
    else if String.eqb t "webm" then Some (JObj [("media", JObj [("video", JObj [("format", JStr "webm")])])])
    else if String.eqb t "workers" then Some (JObj [("upload", JObj [("workers", JNum (Fin (1 # 2)))])])
    else if String.eqb t "empty" then Some JNull
    else None
|}.
Definition environ (name : string) : option string :=
  if String.eqb name "S3_ACCESS_KEY" then Some "key" else if String.eqb name "PORT" then Some "8080" else None.

Definition loaded (f : ConfigFile) : jsval := match loadConfig environ f with Ok w => w | Throw _ => JUndefined end.

(** Without a file the server listens on port 3000, on local storage, with
    uploads on and the dashboard off. *)
Definition all_well (k : start_call) : exc string unit := Ok tt.
Example defaults_start :
  exists c s, read_config true (loaded FileMissing) = Some c /\ snd (startup all_well 4 "" c) = Runs s /\
    su_listen s = ("0.0.0.0", 3000) /\ su_storage s = UseLocal "./data/blobs" /\ su_workers s = 4%nat /\
    su_prune s = Some (60000, 30000) /\ cf_uploadEnabled (sc_routes c) = true /\ sc_dashboard c = false /\
    dc_path (sc_database c) = "data/sqlite.db".
Proof. vm_compute. do 2 eexists. repeat split; reflexivity. Qed.

(** A file for the object store; a variable that is not set stays as it is written. *)
Example s3_starts :
  exists c k, read_config true (loaded (FileText "s3")) = Some c /\ choose_storage c = Some (UseS3 k) /\
    ss_accessKey k = "key" /\ ss_secretKey k = "${S3_SECRET_KEY}" /\ ss_tmpDir k = "./data/s3-tmp" /\ sc_port c = 8080 /\
    dc_path (sc_database c) = "data/sqlite.db" /\ sc_connectTimeout c = 30000.
Proof. vm_compute. do 2 eexists. repeat split; reflexivity. Qed.

(** A number from the environment is a string, half a worker is not an integer,
    webm needs its codecs, an empty document is not an object. *)
Example refused_files :
  map (fun f => loadConfig environ (FileText f)) ["port"; "workers"; "webm"; "empty"; "broken"] =
  [Throw LoadExits; Throw LoadExits; Throw LoadExits; Throw LoadExits; Throw LoadThrows].
Proof. reflexivity. Qed.

(** A bucket that cannot be listed ends the start, the database already open. *)
Definition no_bucket (k : start_call) : exc string unit :=
  match k with CallListBucket _ _ => Throw "AccessDenied" | _ => Ok tt end.
Example bucket_refused :
  exists c, read_config true (loaded (FileText "s3")) = Some c /\
    startup no_bucket 4 "" c =
      ([CallMigrate "data/sqlite.db"; CallInitDb "data/sqlite.db" None; CallTmpDir "./data/s3-tmp";
        CallListBucket "https://s3.example" "blobs"],
       Fails (CallListBucket "https://s3.example" "blobs") "S3 bucket connectivity check failed: AccessDenied").
Proof. vm_compute. eexists. split; reflexivity. Qed.

Lemma loaded_config_runs_witness :
  exists c, read_config true (loaded (FileText "s3")) = Some c /\ sconfig_ok c /\
    exists calls s, startup all_well 4 "" c = (calls, Runs s).
Proof.
  destruct (loaded_config_runs environ (FileText "s3") (loaded (FileText "s3")) true all_well 4 "")
    as (c & Hc & Hok & _ & Hrun); [vm_compute; reflexivity | lia |].
  exists c. split; [exact Hc|]. split; [exact Hok|]. apply Hrun; [intros k; reflexivity|].
  right. vm_compute in Hc. injection Hc as <-. eexists. reflexivity.
Defined.

Definition s3_document : jsval := interpolateEnv environ (default JNull (parseYaml "s3")).
Lemma deprecated_settings_witness :
  jget s3_document "databasePath" = JStr "old.db" /\ jget (jget s3_document "mirror") "fetchTimeout" = jint 5 /\
  jget (jget (loaded (FileText "s3")) "database") "path" = JStr "data/sqlite.db" /\
  jget (jget (loaded (FileText "s3")) "mirror") "connectTimeout" = jint 30000.
Proof.
  destruct (deprecated_settings s3_document (loaded (FileText "s3"))) as (Hd & Hm & _); [vm_compute; reflexivity|].
  split; [reflexivity|]. split; [reflexivity|]. split; [exact Hd | exact Hm].
Defined.

Definition env_parts : list part := [Text "file:"; Var "S3_ACCESS_KEY"; Text "}/"; Var "HOME"].
Example interpolate_example : interpolate environ 0 (joined (map written env_parts)) = "file:key}/${HOME}".
Proof. rewrite (interpolate_template environ env_parts); [reflexivity|]. by repeat constructor. Qed.
End ConfigExamples.
