(* ===== verification/NodeExamples.v ===== *)
(** * Storage nodes on concrete inputs

    Witnesses of the node's theorems, and runs of the node that show some of its
    peculiarities: a re-upload that makes a blob old, a deletion whose failing
    statement strands a thumbnail, a blob without owners that stays, and a
    mirrored blob beyond the size limit. *)

From S2P Require Import Prelude Js Http Nip98 Bud11 World Servers NodeRules NodeDb NodeApi NodeMirror NodePrune NodeFacts NodeMirrorFacts NodeReports NodeAdmin NodeAdminFacts NodeMedia NodeMediaFacts NodeList NodeSystem NodeServe NodeDeploy NodeServer NodeRefines NodePruneFacts.

(** ** Libraries reduced to a few inputs *)

Definition ha : string := "aaaaaaaaaaaaaaaaaaaaaaaaaaaaaaaaaaaaaaaaaaaaaaaaaaaaaaaaaaaaaaaa".
Definition hb : string := "bbbbbbbbbbbbbbbbbbbbbbbbbbbbbbbbbbbbbbbbbbbbbbbbbbbbbbbbbbbbbbbb".

(** A token of bob for uploading "abc" anywhere. *)
Definition untagged : Event :=
  {| ev_id := "f"; ev_pubkey := "bob"; ev_created_at := num_Z 1000; ev_kind := num_Z 24242;
     ev_tags := [["t"; "upload"]; ["expiration"; "9000000"]; ["x"; ha]]; ev_content := ""; ev_sig := "" |}.

(** A token for uploading "abc", valid for the server it names. *)
Definition tagged : Event :=
  {| ev_id := "e"; ev_pubkey := "alice"; ev_created_at := num_Z 1000; ev_kind := num_Z 24242;
     ev_tags := [["t"; "upload"]; ["expiration"; "2000"]; ["x"; ha]; ["server"; "https://cdn.example.com"]];
     ev_content := ""; ev_sig := "" |}.

#[local] Instance fewHashes : Nostr := {|
  secretKey := string;
  decodeEvent := fun s => if String.eqb s "tok" then Some tagged else None;
  encodeEvent := fun e => ev_id e;
  verifyEvent := fun _ => true;
  finalizeEvent := fun t sk =>
    {| ev_id := ""; ev_pubkey := sk; ev_created_at := num_Z (tm_created_at t); ev_kind := num_Z (tm_kind t);
       ev_tags := tm_tags t; ev_content := tm_content t; ev_sig := "" |};
  getPublicKey := fun sk => sk;
  npubEncode := fun pk => "npub1" +:+ pk;
  nsecDecode := fun s => Some s;
  keyFromHex := fun s => s;
  sha256 := fun s => if String.eqb s "abc" then ha else hb;
  stringify := fun _ => "[]"
|}.
#[local] Instance fewMimes : NodeLib := {|
  JSON_parse := fun _ => None;
  extFromMime := fun m => if String.eqb m "image/png" then Some "png" else None;
  decodeAuth := fun s => if String.eqb s "tok" then Some tagged
                         else if String.eqb s "bob" then Some untagged else None;
  newURL := fun s => if String.eqb s "https://cdn.example.com" then Some ("https:", "cdn.example.com") else None;
  sharpMetadata := fun _ => None;
  ffprobe := fun _ => None;
  chop := fun s => [s]
|}.
#[local] Instance noReports : ReportLib := {| verifyJson := fun _ => true; seq_after_ignore := fun s => s |}.
(** sharp turns one image into another and refuses everything else. *)
#[local] Instance fewTools : MediaLib := {|
  typeByExtension := fun e => if String.eqb e "png" then Some "image/png" else None;
  fileTypeFromBuffer := fun _ => Some "image/png";
  sharp := fun _ x => if String.eqb x "abc" then Ok "xyz" else Throw "unsupported image format";
  ffmpegTranscode := fun _ _ => None;
  ffmpegFrame := fun _ _ => None
|}.
#[local] Instance fewLaws : NodeLaws.
Proof.
  split.
  - intros s. unfold sha256, fewHashes. by case_match.
  - done.
Qed.

Definition two_strings (s : string) : Prop := s = "abc" \/ s = "xyz".
Lemma two_strings_differ a b : two_strings a -> two_strings b -> sha256 a = sha256 b -> a = b.
Proof. intros [-> | ->] [-> | ->] E; try done; vm_compute in E; discriminate. Qed.

(** ** Configurations and requests *)

Definition media_with (enabled sameFs : bool) : MConfig :=
  {| mc_enabled := enabled; mc_requireAuth := false; mc_maxSize := 1000;
     mc_image := {| io_quality := 90; io_progressive := true; io_maxWidth := 1920; io_maxHeight := 1080;
                    io_outputFormat := "png"; io_keepExif := false; io_fps := 30 |};
     mc_video := {| vo_quality := 90; vo_maxHeight := 1080; vo_maxFps := 30; vo_format := "mp4";
                    vo_audioCodec := "aac"; vo_videoCodec := "libx264" |};
     mc_thumbnail := {| th_enabled := false; th_quality := 80; th_maxWidth := 512; th_maxHeight := 512;
                        th_outputFormat := "webp"; th_videoSeek := num_Z 1 |};
     mc_sameFs := sameFs |}.
Definition media_off : MConfig := media_with false true.

Definition cfg_deployed : NConfig :=
  {| cf_publicDomain := ""; cf_uploadEnabled := true; cf_uploadRequireAuth := false; cf_maxSize := 1000;
     cf_requirePubkeyInRule := false; cf_mirrorEnabled := false; cf_mirrorRequireAuth := false; cf_reportEnabled := false;
     cf_deleteRequireAuth := false; cf_listEnabled := false;
     cf_listRequireAuth := false; cf_allowListOthers := false; cf_rules := []; cf_removeWhenNoOwners := true;
     cf_media := media_off |}.
Lemma cfg_deployed_ok : deployed cfg_deployed.
Proof. done. Qed.

Definition req0 : NReq :=
  {| nq_authorization := None; nq_host := Some "10.0.0.1:3000"; nq_head := false; nq_filename := "upload";
     nq_contentLength := Some "3"; nq_contentType := Some "application/octet-stream"; nq_xSha256 := Some ha;
     nq_xContentType := None; nq_xContentLength := None; nq_ifNoneMatch := None; nq_range := None;
     nq_limit := None; nq_since := None; nq_until := None; nq_cursor := None; nq_forwardedProto := None;
     nq_forwarded := None; nq_urlProtocol := "http:"; nq_urlHost := "10.0.0.1:3000";
     nq_body := Some (["a"; "bc"], false); nq_poolAvailable := true; nq_dispatched := true; nq_ulid := "01" |}.
Definition put_with (auth type x : option string) (body : string) : NReq :=
  {| nq_authorization := auth; nq_host := Some "10.0.0.1:3000"; nq_head := false; nq_filename := "upload";
     nq_contentLength := Some "3"; nq_contentType := type; nq_xSha256 := x;
     nq_xContentType := None; nq_xContentLength := None; nq_ifNoneMatch := None; nq_range := None;
     nq_limit := None; nq_since := None; nq_until := None; nq_cursor := None; nq_forwardedProto := None;
     nq_forwarded := None; nq_urlProtocol := "http:"; nq_urlHost := "10.0.0.1:3000";
     nq_body := Some ([body], false); nq_poolAvailable := true; nq_dispatched := true; nq_ulid := "02" |}.
Definition get_with (name : string) (range : option string) : NReq :=
  {| nq_authorization := None; nq_host := None; nq_head := false; nq_filename := name;
     nq_contentLength := None; nq_contentType := None; nq_xSha256 := None;
     nq_xContentType := None; nq_xContentLength := None; nq_ifNoneMatch := None; nq_range := range;
     nq_limit := None; nq_since := None; nq_until := None; nq_cursor := None; nq_forwardedProto := None;
     nq_forwarded := None; nq_urlProtocol := "http:"; nq_urlHost := "10.0.0.1:3000";
     nq_body := None; nq_poolAvailable := true; nq_dispatched := true; nq_ulid := "03" |}.

Definition empty_node : Node :=
  {| nd_db := {| t_blobs := ∅; t_owners := ∅; t_accessed := ∅; t_derivatives := ∅; t_thumbnails := ∅;
                 t_reports := []; t_report_seq := 0 |};
     nd_files := ∅; nd_tmp := ∅; nd_faults := [] |}.

Lemma empty_node_ok : node_ok two_strings empty_node.
Proof. split; simpl; intros *; by rewrite ?lookup_empty, ?elem_of_empty. Qed.
Lemma empty_unthumbed : unthumbed (nd_db empty_node).
Proof. split; [done|]. intros h r. simpl. by rewrite lookup_empty. Qed.

Lemma body_abc : body_ok two_strings req0.
Proof. intros chunks [= <-]. by left. Qed.

(** ** Witnesses *)

(** Two uploads, a prune cycle, a download and a deletion, some of them with
    failing statements. *)
Definition busy : list node_req :=
  [{| no_now := 10; no_faults := []; no_op := PutOp (put_with None (Some "image/png") None "xyz") |};
   {| no_now := 20; no_faults := [false; true]; no_op := PruneOp |};
   {| no_now := 30; no_faults := [false; true]; no_op := BlobOp (get_with ha None) |};
   {| no_now := 40; no_faults := [false; false; true]; no_op := DeleteOp (get_with hb None) |}].

Lemma busy_ok : Forall (op_ok cfg_deployed two_strings true) busy.
Proof.
  unfold busy. rewrite !Forall_cons. unfold op_ok; simpl. split_and!; try done; [|by left].
  intros chunks [= <-]. by right.
Qed.

Definition stored : Node := (serve_put cfg_deployed 5 req0 empty_node).2.

Lemma stored_ok : node_ok two_strings stored.
Proof.
  assert (inv two_strings true empty_node) as Hi by (split; [apply empty_node_ok|done]).
  apply (dkeeps_with_auth cfg_deployed (inv two_strings true) 5 req0
    (fun ctx => putUpload 5 cfg_deployed ctx req0)); [|done].
  intros ctx. apply putUpload_inv; [apply two_strings_differ|apply body_abc].
Qed.

Lemma download_exact_witness :
  exists data, sha256 data = ha /\
    (blobRoute false 50 (get_with (ha +:+ ".png") None) stored).1 =
      Ok (Some (NRes 200 {| bb_type := "application/octet-stream";
                            bb_length := Z.of_nat (String.length data);
                            bb_contentRange := None; bb_bytes := data |})).
Proof.
  pose proof (download_exact two_strings false 50 (get_with (ha +:+ ".png") None) ha stored
    stored_ok I eq_refl eq_refl eq_refl) as HD.
  replace (t_blobs (nd_db stored) !! ha)
    with (Some {| r_size := 3; r_type := None; r_uploaded := 5; r_nip94 := None |}) in HD by (vm_compute; reflexivity).
  exact HD.
Defined.

Example range_served :
  (blobRoute false 50 (get_with ha (Some "bytes=1-")) stored).1 =
    Ok (Some (NRes 206 {| bb_type := "application/octet-stream"; bb_length := 2;
                          bb_contentRange := Some (1, 2, 3); bb_bytes := "bc" |})) /\
  (blobRoute true 50 (get_with ha (Some "bytes=-1")) stored).1 =
    Ok (Some (NRes 206 {| bb_type := "application/octet-stream"; bb_length := 1;
                          bb_contentRange := Some (2, 2, 3); bb_bytes := "c" |})) /\
  (** a range that ends past the last byte is refused *)
  (blobRoute true 50 (get_with ha (Some "bytes=1-9")) stored).1 = Ok (Some (NErr 416 "")).
Proof. vm_compute. repeat split. Qed.

Lemma upload_durable_witness :
  exists st d, serve_put cfg_deployed 5 req0 empty_node = (Ok (NRes st d), stored) /\
    exists body, (blobRoute true 99 (get_with ha None)
        (set_nd_faults [] (run_node cfg_deployed true busy stored))).1 = Ok (Some (NRes 200 body)) /\
      sha256 (bb_bytes body) = ha.
Proof.
  eexists _, _. split; [reflexivity|].
  refine (upload_durable cfg_deployed true cfg_deployed_ok two_strings 5 req0 _ _ empty_node stored busy 99
    (get_with ha None) two_strings_differ empty_node_ok empty_unthumbed body_abc eq_refl busy_ok _
    eq_refl eq_refl eq_refl eq_refl).
  unfold busy. rewrite !Forall_cons. split_and!; try exact I; [vm_compute; discriminate | constructor].
Defined.

Definition node_url : string := "http://10.0.0.1:3000".
Definition world_with (hashes : gset string) : World :=
  {| w_now := 0; w_db := {| Db.users := ∅; Db.blobs := []; Db.grants := ∅; Db.accounts := ∅;
       Db.notifications := []; Db.moderation := []; Db.members := ∅; Db.storages := ∅ |};
     w_nodes := {[node_url := hashes]}; w_registry := []; w_access := ∅; w_admins := ∅; w_replay := ∅;
     w_uploadLimiter := ∅; w_accountLimiter := ∅; w_adminLimiter := ∅; w_inflight := 0; w_faults := [] |}.

(** An upload to an empty node that succeeds, hence is the faultless call. *)
Lemma node_refines_witness :
  let (res, n') := serve_put cfg_deployed 5 req0 empty_node in
  exists resp, res = Ok resp /\
    simulates (put_upload node_url (sha256 "abc")) node_url (world_with ∅) (put_calm cfg_deployed 5 "abc" req0 empty_node)
      (succeeded resp) n' /\ succeeded resp = true /\ put_calm cfg_deployed 5 "abc" req0 empty_node.
Proof.
  assert (sim node_url (world_with ∅) empty_node) as Hs by (vm_compute; reflexivity).
  assert (proxy_put "abc" req0) as Hp.
  { split; [reflexivity..|]. exists ["a"; "bc"]. by split. }
  pose proof (proj1 (node_refines cfg_deployed true cfg_deployed_ok two_strings node_url (world_with ∅) empty_node 5
    Hs empty_node_ok empty_unthumbed) "abc" req0 Hp) as HR.
  assert (exists d n', serve_put cfg_deployed 5 req0 empty_node = (Ok (NRes 201 d), n')) as (d & n' & E).
  { eexists _, _. reflexivity. }
  rewrite E in *. destruct HR as (resp & Hr & HR). injection Hr as <-. eexists. split; [reflexivity|].
  split; [exact HR|]. split; [reflexivity|]. split; [by exists None|constructor|by split|vm_compute; discriminate].
Defined.

(** The token names the public server; the proxy accepts it, the node does not. *)
Lemma foreign_server_tag_witness :
  verifyAuthToken 1500 (Some "Nostr tok") Upload (Some ha) true = Ok "npub1alice" /\
  exists st reason, serve_put cfg_deployed 1500 (put_with (Some "Nostr tok") None (Some ha) "abc") empty_node =
    (Ok (NErr st reason), empty_node) /\ (st = 400 \/ st = 401).
Proof.
  split; [vm_compute; reflexivity|].
  apply (foreign_server_tag cfg_deployed 1500 (put_with (Some "Nostr tok") None (Some ha) "abc") "Nostr tok" tagged).
  - reflexivity.
  - reflexivity.
  - reflexivity.
  - exists ["server"; "https://cdn.example.com"]. split; [|reflexivity]. simpl. rewrite !elem_of_cons. tauto.
  - intros t Ht. simpl in Ht. rewrite !elem_of_cons, elem_of_nil in Ht.
    destruct Ht as [->|[->|[->|[->|[]]]]]; vm_compute; discriminate.
Defined.

(** ** A re-upload makes a blob old *)

Definition DAY : Z := 86400.
Definition cfg_rules : NConfig :=
  {| cf_publicDomain := ""; cf_uploadEnabled := true; cf_uploadRequireAuth := true; cf_maxSize := 1000;
     cf_requirePubkeyInRule := false; cf_mirrorEnabled := false; cf_mirrorRequireAuth := false; cf_reportEnabled := false;
     cf_deleteRequireAuth := true; cf_listEnabled := false;
     cf_listRequireAuth := false; cf_allowListOthers := false;
     cf_rules := [{| ru_type := "image/*"; ru_expiration := "30 days"; ru_pubkeys := None |}];
     cf_removeWhenNoOwners := false;
     cf_media := media_off |}.

(** A picture uploaded by alice on day 0 and last read on day 20. *)
Definition picture_node : Node :=
  {| nd_db := {| t_blobs := {[ha := {| r_size := 3; r_type := Some "image/png"; r_uploaded := 0; r_nip94 := None |}]};
                 t_owners := {[(ha, "alice")]}; t_accessed := {[ha := 20 * DAY]}; t_derivatives := ∅;
                 t_thumbnails := ∅; t_reports := []; t_report_seq := 0 |};
     nd_files := {[ha +:+ ".png" := "abc"]}; nd_tmp := ∅; nd_faults := [] |}.

Definition prune_at (t : Z) : node_req := {| no_now := t; no_faults := []; no_op := PruneOp |}.

(** Uploading a blob the node already has sets its last access back to its first upload. A
    picture that was read eleven days ago and would stay for nineteen days more is
    uploaded again by a second user, who is told it is stored; the next prune
    cycle deletes it, for both owners. *)
Theorem reupload_ages :
  let r := put_with (Some "Nostr bob") (Some "image/png") (Some ha) "abc" in
  let n := (serve_put cfg_rules (31 * DAY) r picture_node).2 in
  is_Some (t_blobs (nd_db (run_node cfg_rules true [prune_at (31 * DAY)] picture_node)) !! ha) /\
  (exists d, (serve_put cfg_rules (31 * DAY) r picture_node).1 = Ok (NRes 200 d) /\ nds_sha256 d = ha) /\
  (ha, "bob") ∈ t_owners (nd_db n) /\
  t_blobs (nd_db (run_node cfg_rules true [prune_at (31 * DAY)] n)) !! ha = None.
Proof.
  split_and!.
  - vm_compute. eauto.
  - eexists. split; vm_compute; reflexivity.
  - refine (bool_decide_unpack _ _). vm_compute. exact I.
  - vm_compute. reflexivity.
Qed.

(** ** A deletion strands a thumbnail *)

Definition thumb_node : Node :=
  {| nd_db := {| t_blobs := {[ha := {| r_size := 3; r_type := None; r_uploaded := 0; r_nip94 := None |};
                              hb := {| r_size := 3; r_type := Some "image/png"; r_uploaded := 0; r_nip94 := None |}]};
                 t_owners := {[(ha, "alice")]}; t_accessed := ∅; t_derivatives := ∅;
                 t_thumbnails := {[ha := hb]}; t_reports := []; t_report_seq := 0 |};
     nd_files := {[ha := "abc"; hb +:+ ".png" := "xyz"]}; nd_tmp := ∅; nd_faults := [false; false; false; true] |}.

Lemma thumb_node_ok : node_ok two_strings thumb_node.
Proof.
  assert (forall m : gmap string BlobRow, m = t_blobs (nd_db thumb_node) -> is_Some (m !! ha) /\ is_Some (m !! hb)) as Hs.
  { intros m ->. split; vm_compute; eauto. }
  destruct (Hs _ eq_refl) as [Ha Hb].
  split; simpl.
  - intros path data [[<- <-]|[_ [<- <-]%lookup_singleton_Some]]%lookup_insert_Some.
    + split; [by left|]. by exists "".
    + split; [by right|]. by exists "png".
  - intros h r [[<- <-]|[_ [<- <-]%lookup_singleton_Some]]%lookup_insert_Some; (split; [done|]).
    + exists "abc". by vm_compute.
    + exists "xyz". by vm_compute.
  - intros h p [= -> ->]%elem_of_singleton. done.
  - intros h t. by rewrite lookup_empty.
  - intros o h. by rewrite lookup_empty.
  - intros p h [<- <-]%lookup_singleton_Some. done.
Qed.

(** When the statement that deletes a thumbnail's row fails during DELETE, the thumbnail's
    file is removed all the same: the deletion answers 204 and leaves a row
    without a file. *)
Theorem delete_strands_thumbnail :
  node_ok two_strings thumb_node /\
  (serve_delete cfg_deployed 10 (get_with ha None) thumb_node).1 = Ok (NRes 204 tt) /\
  let n := (serve_delete cfg_deployed 10 (get_with ha None) thumb_node).2 in
  is_Some (t_blobs (nd_db n) !! hb) /\ nd_files n !! blobPath hb "png" = None /\ ~ node_ok two_strings n.
Proof.
  split; [apply thumb_node_ok|]. split; [vm_compute; reflexivity|].
  set (n := (serve_delete cfg_deployed 10 (get_with ha None) thumb_node).2).
  assert (t_blobs (nd_db n) !! hb = Some {| r_size := 3; r_type := Some "image/png"; r_uploaded := 0; r_nip94 := None |}) as Hl
    by (vm_compute; reflexivity).
  assert (nd_files n !! blobPath hb "png" = None) as Hf by (vm_compute; reflexivity).
  split_and!; [by rewrite Hl|done|]. intros Hok. destruct (co_rows _ _ _ Hok _ _ Hl) as (_ & data & Hd & _).
  change (nd_files n !! blobPath hb "png" = Some data) in Hd. by rewrite Hf in Hd.
Qed.

(** ** A prune cycle *)

Lemma prune_exact_witness :
  quiet picture_node /\
  doomed_set (60 * DAY) (cf_rules cfg_rules) false (nd_db picture_node) = {[ha]} /\
  exists n', pruneStorage (60 * DAY) (cf_rules cfg_rules) false picture_node =
      (Ok {| pn_deleted := 1; pn_errors := 0 |}, n') /\ t_blobs (nd_db n') !! ha = None /\
    forall row, t_blobs (nd_db picture_node) !! ha = Some row -> nd_files n' !! blobPath ha (mimeToExt (r_type row)) = None.
Proof.
  split_and!; [by constructor|vm_compute; reflexivity|].
  destruct (prune_exact (60 * DAY) (cf_rules cfg_rules) false picture_node) as (n' & Hr & Hd & Hf);
    [by constructor|reflexivity|].
  exists n'. split_and!; [rewrite Hr; vm_compute; reflexivity|rewrite Hd; vm_compute; reflexivity|].
  intros row Hrow. apply Hf. exists ha, row. split; [|split; [exact Hrow|reflexivity]].
  apply elem_of_doomed. exists row. split; [exact Hrow|]. vm_compute in Hrow. injection Hrow as <-. vm_compute. reflexivity.
Defined.

(** A picture nobody owns any more. *)
Definition orphan_node : Node := set_nd_db (set_t_owners (fun _ => ∅) (nd_db picture_node)) picture_node.

(** A blob without owners is not removed while a storage rule that selects it has not expired,
    although owner-less blobs are to be removed: the two cycles differ only in
    the rules. *)
Theorem governed_orphan_kept :
  ownerless (nd_db orphan_node) <> [] /\
  (pruneStorage (31 * DAY) [] true orphan_node).1 = Ok {| pn_deleted := 1; pn_errors := 0 |} /\
  (pruneStorage (31 * DAY) (cf_rules cfg_rules) true orphan_node).1 = Ok {| pn_deleted := 0; pn_errors := 0 |}.
Proof. split_and!; [vm_compute; done|vm_compute; reflexivity|vm_compute; reflexivity]. Qed.

(** ** Mirroring *)

(** A node that mirrors blobs of up to two bytes. *)
Definition cfg_mirror : NConfig :=
  {| cf_publicDomain := ""; cf_uploadEnabled := true; cf_uploadRequireAuth := true; cf_maxSize := 2;
     cf_requirePubkeyInRule := false; cf_mirrorEnabled := true; cf_mirrorRequireAuth := true; cf_reportEnabled := false;
     cf_deleteRequireAuth := true; cf_listEnabled := false; cf_listRequireAuth := false; cf_allowListOthers := false;
     cf_rules := []; cf_removeWhenNoOwners := false;
     cf_media := media_off |}.

(** The origin sends "abc" and, or not, its length. *)
Definition mirror_abc (length : option string) : MirrorReq :=
  {| mq_req := put_with (Some "Nostr bob") None None ""; mq_json := Some (JObj [("url", JStr "https://cdn.example.com")]);
     mq_fetch := Fetched {| or_status := 200; or_statusText := "OK"; or_contentLength := length;
                            or_contentType := Some "image/png"; or_body := Some (["ab"; "c"], false) |} |}.
Definition bob_ctx : auth_ctx := Some (untagged, Some "upload").
Definition mirrored : exc nerr (nresp NDescriptor) * Node := mirrorRoute 5 cfg_mirror bob_ctx (mirror_abc None) empty_node.

Lemma mirror_acknowledged_witness :
  exists d, mirrored.1 = Ok (NRes 200 d) /\ recorded (Some untagged) (nds_sha256 d) mirrored.2.
Proof.
  assert (exists d, mirrored = (Ok (NRes 200 d), mirrored.2)) as [d Hd] by (eexists; vm_compute; reflexivity).
  exists d. split; [by rewrite Hd|].
  destruct (mirror_acknowledged 5 cfg_mirror bob_ctx (mirror_abc None) empty_node 200 d mirrored.2 Hd) as (_ & _ & Hr & _).
  exact Hr.
Defined.

Lemma ipv4_guard_exact_witness :
  dotted (ipv4 172 31 255 1) = "172.31.255.1" /\ isPrivateIPv4 (dotted (ipv4 172 31 255 1)) = true /\
  checkSsrf (dotted (ipv4 172 32 0 1)) = None.
Proof.
  split; [vm_compute; reflexivity|].
  destruct (ipv4_guard_exact (ipv4 172 31 255 1)) as [H1 _]; [vm_compute; split; congruence|].
  destruct (ipv4_guard_exact (ipv4 172 32 0 1)) as [_ H2]; [vm_compute; split; congruence|].
  split; [rewrite H1; vm_compute; reflexivity|]. apply H2. vm_compute. reflexivity.
Defined.

(** The size limit binds only an origin that declares a length. On a node that takes blobs of up
    to two bytes, mirroring three bytes is refused when the origin announces
    them, and stored when it does not; and the address guard passes the loopback
    address in its IPv6-mapped form. *)
Theorem mirror_limits_bypassed :
  (mirrorRoute 5 cfg_mirror bob_ctx (mirror_abc (Some "3")) empty_node).1 = Ok (NErr 413 "Remote blob too large.") /\
  (exists d, (mirrorRoute 5 cfg_mirror bob_ctx (mirror_abc None) empty_node).1 = Ok (NRes 200 d) /\
     cf_maxSize cfg_mirror < nds_size d) /\
  checkSsrf "[::ffff:7f00:1]" = None.
Proof.
  split_and!; [vm_compute; reflexivity| |vm_compute; reflexivity].
  eexists. split; [vm_compute; reflexivity|]. vm_compute. reflexivity.
Qed.

(** ** Listing *)

Definition all_of : ListOpts := {| lo_limit := Some 1; lo_cursor := None; lo_since := None; lo_until := None |}.

Lemma list_walk_exact_witness :
  exists l n', walk 2 "alice" all_of picture_node = (Ok l, n') /\ l ≡ₚ listed "alice" all_of (nd_db picture_node).
Proof.
  destruct (list_walk_exact 2 "alice" all_of picture_node) as (l & n' & Hw & _ & Hp & _);
    [by constructor|vm_compute; reflexivity|reflexivity|simpl; lia|vm_compute; lia|].
  exists l, n'. split; [exact Hw|exact Hp].
Defined.

(** ** Media *)

Definition cfg_media_on (sameFs : bool) : NConfig :=
  {| cf_publicDomain := ""; cf_uploadEnabled := true; cf_uploadRequireAuth := false; cf_maxSize := 1000;
     cf_requirePubkeyInRule := false; cf_mirrorEnabled := false; cf_mirrorRequireAuth := false; cf_reportEnabled := false;
     cf_deleteRequireAuth := true; cf_listEnabled := false;
     cf_listRequireAuth := false; cf_allowListOthers := false; cf_rules := []; cf_removeWhenNoOwners := false;
     cf_media := media_with true sameFs |}.
Definition media_of (body : string) : MediaReq :=
  {| md_req := put_with None (Some "image/png") None body; md_optName := "opt"; md_thumbName := "thumb" |}.
Definition put_media (sameFs : bool) (body : string) : exc nerr (nresp NDescriptor) * Node :=
  putMedia 5 (cfg_media_on sameFs) (media_with true sameFs) None (media_of body) empty_node.

Lemma media_of_ok sameFs : media_ok two_strings true (media_with true sameFs) (media_of "abc").
Proof.
  split.
  - intros chunks [= <-]. by left.
  - split; [|done|done]. intros j x y _. simpl. destruct (String.eqb x "abc"); [|done]. intros [= <-]. by right.
  - intros p [-> | ->]; split; discriminate.
  - discriminate.
Qed.

Lemma media_acknowledged_witness :
  exists d n', put_media true "abc" = (Ok (NRes 201 d), n') /\ nds_sha256 d = hb /\
    t_derivatives (nd_db n') !! ha = Some hb.
Proof.
  set (r := put_media true "abc").
  assert (exists d, r.1 = Ok (NRes 201 d) /\ nds_sha256 d = hb) as (d & Hr & Hd)
    by (eexists; split; vm_compute; reflexivity).
  exists d, r.2. split; [rewrite <- Hr; apply surjective_pairing|]. split; [done|].
  destruct (media_acknowledged two_strings two_strings_differ true 5 (cfg_media_on true) (media_with true true) None
    (media_of "abc") empty_node 201 d r.2 (media_of_ok true) empty_node_ok (fun _ => eq_refl))
    as (chunks & row & data & [= <-] & _ & _ & _ & _ & Hder & _).
  - rewrite <- Hr. apply surjective_pairing.
  - rewrite Hd in Hder. exact Hder.
Defined.

(** A refused media upload stays on the disk. When the tools cannot process an
    upload, PUT /media answers 422 and leaves both the uploaded bytes and the
    started output in the temporary directories; and where these are on another
    file system than the blobs, every upload that could be processed ends in a
    500 instead of being stored. *)
Theorem media_refusal_leaks :
  (put_media true "xyz").1 = Ok (NErr 422 "Optimization failed: unsupported image format") /\
  nd_tmp (put_media true "xyz").2 = {["02" := "xyz"; "opt.png" := ""]} /\
  (put_media false "abc").1 = Ok (NErr 500 "Invalid cross-device link") /\
  nd_db (put_media false "abc").2 = nd_db empty_node.
Proof. split_and!; vm_compute; reflexivity. Qed.

(** Two people, one file: what Bob's picture has as its thumbnail, Alice has
    uploaded herself. *)
Definition shared_node : Node :=
  {| nd_db := {| t_blobs := t_blobs (nd_db thumb_node); t_owners := {[(ha, "bob"); (hb, "alice")]}; t_accessed := ∅;
                 t_derivatives := ∅; t_thumbnails := {[ha := hb]}; t_reports := []; t_report_seq := 0 |};
     nd_files := nd_files thumb_node; nd_tmp := ∅; nd_faults := [] |}.

Definition bob_delete : auth_ctx := Some (untagged, Some "delete").

(** When Bob deletes his picture, Alice's blob goes with it. *)
Example thumbnail_deletes_owned_blob :
  let n := (deleteRoute (cfg_media_on true) bob_delete (get_with ha None) shared_node).2 in
  (hb, "alice") ∈ t_owners (nd_db shared_node) /\
  t_blobs (nd_db n) !! hb = None /\ nd_files n !! blobPath hb "png" = None.
Proof. split; [set_solver|]. vm_compute. done. Qed.

(** ** The dashboard *)

Lemma dashboard_pages_exact_witness :
  pages_exact (fun p => blobsPage p "") (all_blobs {| bf_q := Some ""; bf_types := None |} (Some ("uploaded", "DESC")) (nd_db shared_node)) (nd_db shared_node) /\
  br_sha256 <$> pubkey_blobs "alice" (nd_db shared_node) = [hb].
Proof.
  split; [|vm_compute; reflexivity].
  apply (dashboard_pages_exact "" "alice" (nd_db shared_node)).
  intros h p Hin. simpl in Hin. rewrite elem_of_union, !elem_of_singleton in Hin.
  destruct Hin as [[= -> ->]|[= -> ->]]; vm_compute; eauto.
Defined.


(** The requests of [busy], then a report about a blob, a dashboard action
    without the credentials, the deletion of the reported blob, and of a key's
    blobs with a failing statement. *)
Definition spam_about (h : string) : ReportReq :=
  {| rq_req := get_with "report" None;
     rq_json := Some (JObj [("kind", JNum (num_Z 1984)); ("id", JStr "e1"); ("pubkey", JStr "carol");
       ("created_at", JNum (num_Z 7)); ("sig", JStr "s"); ("tags", JArr [JArr [JStr "x"; JStr h; JStr "spam"]])]) |}.
Definition cfg_reports : NConfig :=
  {| cf_publicDomain := ""; cf_uploadEnabled := true; cf_uploadRequireAuth := false; cf_maxSize := 1000;
     cf_requirePubkeyInRule := false; cf_mirrorEnabled := false; cf_mirrorRequireAuth := false; cf_reportEnabled := true;
     cf_deleteRequireAuth := false; cf_listEnabled := false;
     cf_listRequireAuth := false; cf_allowListOthers := false; cf_rules := []; cf_removeWhenNoOwners := true;
     cf_media := media_off |}.
Definition busy_server : list server_req :=
  (Blossom <$> busy) ++
  [Blossom {| no_now := 45; no_faults := []; no_op := PutOp (put_with None (Some "image/png") None "xyz") |};
   Blossom {| no_now := 50; no_faults := []; no_op := ReportOp (spam_about hb) |};
   Dashboard 55 [] (get_with "x" None) false (AdminDeleteBlob hb);
   Dashboard 60 [] (get_with "x" None) true (AdminDeleteReported "1");
   Dashboard 65 [false; true] (get_with "x" None) true (AdminDeleteUser "anonymous")].

Lemma server_rows_have_files_witness :
  let n := run_server cfg_reports true true busy_server empty_node in
  t_blobs (nd_db n) = ∅ /\ node_ok two_strings n.
Proof.
  split; [vm_compute; reflexivity|].
  destruct (server_rows_have_files cfg_reports true true two_strings true busy_server empty_node) as [Hok _].
  - apply two_strings_differ.
  - unfold busy_server, busy. cbn [fmap list_fmap app]. rewrite !Forall_cons. unfold server_op_ok, op_ok; simpl.
    split_and!; try done; try (by left); intros chunks [= <-]; by right.
  - apply empty_node_ok.
  - intros _. reflexivity.
  - constructor.
  - exact Hok.
Defined.

(** The dashboard deletes by file name as well. Given the name of a blob's
    file instead of its hash, DELETE /admin/api/blobs finds no row to delete,
    removes the file all the same and answers 200: the row stays without its
    bytes. *)
Theorem admin_delete_by_filename :
  node_ok two_strings thumb_node /\
  let r := adminRoute true (AdminDeleteBlob (hb +:+ ".png")) thumb_node in
  r.1 = Ok (NRes 200 tt) /\ is_Some (t_blobs (nd_db r.2) !! hb) /\ nd_files r.2 !! blobPath hb "png" = None.
Proof. split; [apply thumb_node_ok|]. split_and!; vm_compute; eauto. Qed.
